(* ===== verification/_CoqProject ===== *)
-Q . S2P
Prelude.v
GoStd.v
Identity.v
Session.v
SessionFacts.v
Mail.v
MailFacts.v
ThreadStore.v
BlocksFacts.v
ConsensusStore.v
Membership.v
MembershipFacts.v
Chain.v
Instances.v
ChainFacts.v
Raft.v
RaftFacts.v
Tendermint.v
TendermintFacts.v
TendermintFork.v
Tasks.v
TasksFacts.v
Rpc.v
RpcFacts.v
ThreadCrypto.v
Regex.v
Records.v
RecordsFacts.v
Manager.v
ManagerFacts.v
Deliver.v
DeliverFacts.v
Transport.v
TransportFacts.v
Publisher.v
PublisherFacts.v
RaftRun.v
RpcThreads.v
RpcThreadsFacts.v
Actors.v
Gossip.v
Network.v
Webhook.v
RpcExt.v
RpcExtFacts.v
RpcDiag.v
Format.v
Tui.v
TuiFacts.v
Cli.v
CliFacts.v
CliPromote.v
CliCommands.v
Daemon.v
DaemonFacts.v
CliOutputs.v
