(* ===== verification/Prelude.v ===== *)
(** * A model of the MoltMesh daemon

    MoltMesh is a peer-to-peer daemon for agents.  An agent opens a session with
    the daemon by signing a challenge; it exchanges messages through an inbox and
    a retrying outbox, hands tasks to other agents through a task store with
    leases, and shares append-only threads whose blocks a set of replicas agrees
    on, by Raft or by a Tendermint-style protocol.  Everything durable lies in
    SQLite.  This development translates those parts of the Go sources into
    executable definitions and proves what they promise.

    ** Conventions

    - A component's tables are the fields of a record: a table with a primary key
      is a [gmap], one whose order or duplicates matter a list.  A BLOB or JSON
      column holds the value it decodes to.
    - Code that uses the database runs in the monad [M]: a state and a schedule
      of driver failures, one entry per SQL statement ([stmt], [query], [exec]).
      A theorem over all schedules covers every pattern of failures.  [tx] is a
      transaction: an error, a panic or a failed commit restores the state of its
      beginning.
    - A Go call returns an [outcome]: a value, an error, or a panic (a failed
      [assert.That], an index out of range, a key of the wrong length).
    - Clock readings, random tokens and UUIDs are arguments.  Integers are [Z];
      where a width matters the wrap-around is written out ([int32], [int64],
      [uint64]).  Strings and byte slices are [string], a float64 is a [spec_float]
      of the Standard Library.
    - Third-party code is a parameter: the classes [Crypto] (Ed25519, base58,
      SHA-256), [Cipher] (X25519, HKDF, the sealed boxes), [Codec], [TaskCodec],
      [RecordCodec], [WireCodec], [ArchiveCodec] and [ThreadsCodec] (protobuf and
      JSON encodings), [Framing] (go-msgio), [ActorBackend] (the consensus backend behind a thread
      actor), [PubSub] (libp2p pubsub), [Bubbles] (the widgets of the terminal UI)
      and [Unicode], each with its laws; and the
      answers of the etcd/raft node and its storage, the DHT and block exchange,
      DNS, HTTP, the delivery function of the outbox, Go's map iteration order.
      Concrete instances ([toy_crypto] and the like) satisfy the laws and
      instantiate the theorems.
    - Every loop is bounded by its data or, as in the code, by a constant (64
      iterations of Pump, three attempts of a webhook).  Where a recursive
      definition takes a number, that is the number of iterations the data allows
      ([chunk_count], [pending]) or the clock does ([promote_wait], [wait_ready]),
      which the theorems show is enough.

    ** Files

    - [Prelude], [GoStd]: the monad, its program logics ([preserves] over all
      failures, [leads], [succeeds] without failures), their automation, and what
      the sources use of strings, hex and base64.
    - [Tasks], [TasksFacts]: daemon/tasks/tasks.go.  Every operation of the task
      store.  Every reachable store is well formed; statuses follow the lifecycle
      and terminal ones are final; leases exclude each other; a task is finished
      at most once; the retry budget bounds the leases; an expired lease is
      offered again; creation is idempotent per key.  Also: creation is not atomic.
    - [Identity]: pkg/did/did.go and daemon/identity/identity.go.  A DID
      determines its key; VerifyDID panics on an overlong DID.
    - [Session], [SessionFacts]: daemon/session/session.go.  The manager and its
      interleavings as a step relation: a token that is accepted is one that a
      completed proof of the key was answered with, challenges are single use, signed
      payloads are unambiguous.
    - [Mail], [MailFacts]: daemon/inbox/inbox.go (Module Inbox) and
      daemon/outbox/outbox.go (Module Outbox).  Owner isolation; durable messages
      are never lost, plain ones are retried a bounded number of times, delivered
      is final, through crashes and restarts.
    - [ThreadStore], [BlocksFacts]: daemon/thread/store.go, store_threads.go,
      store_blocks.go, store_pending.go; [ConsensusStore]: store_consensus.go;
      [Membership], [MembershipFacts]: store_membership.go, store_keys.go (Module
      Keys), store_archive.go and VerifyArchiveAcknowledgement of archive.go
      (Module Archive).  Atomicity of appends and of membership changes, the voter
      floor, single-use invites, recovery capabilities.
    - [Chain], [Instances], [ChainFacts]: verify.go, descriptor.go and the two
      block hashes.  Verified chains are tamper evident, the walk back from a head
      is sound, signed descriptors verify; a Raft hash does not cover the
      boundaries of entries.
    - [Raft], [RaftFacts]: raft.go around the etcd/raft node.  The stored chain of
      plain entries verifies in every reachable state, and replicas that apply the same log
      store the chain the log determines, which is the abstract state machine
      [spec_step].  Also: committed-block broadcasts duplicate entries on voters,
      and encrypted entries do not survive storage.
    - [Tendermint], [TendermintFacts]: tendermint.go.  On a store shared with other
      threads, as long as these file no votes under the replica's thread, commits and
      locks carry quorum certificates; a running replica votes once per phase, and
      quorums of a round agree when at most f of 3f+1 validators are faulty, both if
      proposals carry blocks of their own height.  Also: a
      Byzantine proposer can rewrite history through the unchecked block height,
      and votes can be filed under another thread.
    - [TendermintFork]: a run in which honest replicas commit different blocks at
      one height, since a proposer's claim of an earlier quorum is not checked.
    - [Rpc], [RpcFacts]: daemon/rpc/server.go, server_tasks.go, server_session.go,
      server_messaging.go and the publishing side of daemon/gossip/gossip.go: the
      handlers over sessions, task store, queues and threads, the last through the
      class [ThreadManager] of the Go interface.  A request changes a task only for
      an agent entitled to it or, when a worker polls for tasks, by taking back an
      expired lease, and shows a task to its parties only; a peer's message changes one
      only as its assignee's result; a
      delegated task is taken over, claimed, completed and answered across two
      daemons; a redelivered result changes nothing.  Also: a result with an
      unknown status panics, and failures in the result path lose the event, the
      thread entry or the result itself.

    - [ThreadCrypto]: pkg/threadcrypto.  What is sealed under a header opens under
      that header only; epoch keys wrap and unwrap; recovery handles print and
      parse.
    - [Regex], [Records], [RecordsFacts]: pkg/capability, daemon/names,
      daemon/registry and pkg/a2avalidator (Modules Capability, Names, Registry,
      Validators) with the regular expressions they use.  Capability IDs are
      exactly a grammar, a resolved card is one the DHT validator accepts, a name
      resolves to its latest live claim, searches return verified cards.  Also: a
      record with an overlong DID panics whoever validates it.
    - [Manager], [ManagerFacts]: daemon/thread/manager.go, engine.go,
      actor_manager.go, actor.go, actor_supervisor.go, with what a panic of a backend
      leads to: the actor is stopped and started again, or suspended when it panicked
      three times within a minute before.  Accepted threads are well formed, actors
      serve their thread and run unless suspended, subscribers get the committed
      entries in order until their channel is full.  Also: a restarted actor is
      registered nowhere, so it gets no ticks and no messages until the thread is
      activated, and a promotion does not rebuild it.
    - [Deliver], [DeliverFacts]: daemon/deliver/deliver.go.  A stream is
      acknowledged only for an authenticated message that was stored or, as an
      invite, handled; executors are stopped when unused.  Also: an invite replaces
      a thread of another creator.
    - [Transport], [TransportFacts]: the sending half of deliver.go, and two daemons as a
      step relation: the outbox of one and the inbox of the other with whatever the
      network does to each transmission.  Whatever is lost or repeated, a message
      arrives at most once, and one marked as delivered has arrived.
    - [RaftRun]: Run and ProposeVoterChange of raft.go (Module RaftRun), and the bridges
      to the gossip network of gossip.go and actor_gossip_bridge.go (Module Bridge).
      The loop does what the step functions do; a voter change is reported done only
      after a change with its token.  Also: another replica's change can have it.
    - [Publisher], [PublisherFacts]: daemon/thread/publisher.go, archive.go,
      archive_worker.go, gossip_validation.go.  A sync that returns a receipt has
      stored a verified, creator-signed history.  Also: a head record with a huge
      height panics the worker.
    - [RpcThreads], [RpcThreadsFacts]: daemon/rpc/server_threads.go.  Promotion,
      appends and key envelopes are authorized and take effect, waiting for a
      replica ends, a published thread is recovered on another node.  Also: forged
      head records unlock recovery envelopes.
    - [Actors]: daemon/actors/executor.go.  Every interleaving of callers,
      deliveries and goroutines amounts to the operations run one by one, each
      caller gets its own result and every operation is performed; so the other
      files treat an operation as one step.
    - [Gossip]: daemon/gossip/gossip.go over the class [PubSub].  A topic in use is
      joined and its count is the number of users, under every interleaving.
    - [Network]: daemon/network/network.go.  The store (Module Store), listings
      included, refines a map of named networks and one of memberships; broadcasts (Module Networks) are
      for members.  Also: a network falls silent after its last subscription ends.
    - [Webhook]: daemon/webhook/webhook.go.  An owner's events go to the URL that
      owner set, in at most three attempts; the refused addresses are the CIDR
      blocks they should be, except 0.0.0.0.
    - [RpcExt], [RpcExtFacts]: daemon/rpc/server_files.go (Module RpcFiles),
      server_registry.go (RpcRegistry), the streams of server_messaging.go
      (RpcStreams) and ext.go (RpcExt).  A stored file is streamed back whole; an
      agent publishes its own card only.  Also: the inbox stream drops all but the
      first hundred stored messages.
    - [RpcDiag]: SubscribeTaskEvents (Module RpcEvents), daemon/rpc/diag.go (RpcDiag)
      and the key file of identity.go (KeyFile).  Stored events go to a party of the
      task; a saved identity loads as itself.  Also: no stream carries the status
      changes UpdateTask broadcasts.
    - [Format]: pkg/format/format.go.  Tables are aligned, sizes are accurate to half
      of the last digit shown, every card and task has a summary.
    - [Tui], [TuiFacts]: cmd/moltmesh/tui.go, the model, [Update] and the runtime as a
      step relation over pending commands, with the widgets behind [Bubbles].  In every
      reachable state the inbox shows what was listed and what arrived since, and focus
      and stream are consistent.  Also: a finished
      upload lets a message be sent twice.
    - [Cli], [CliFacts], [CliPromote]: pkg/config/config.go (Module Config), the flag
      package (Flags) and cmd/moltmesh (Cli).  Flags parse back, a client finds the
      daemon that was started for its data directory, starting waits for the address
      the daemon listens on, and promote-thread-member ends and sends a proof the
      creator's daemon accepts.
    - [CliCommands]: the client commands of cmd/moltmesh (registry.go, messaging.go,
      tasks.go, files.go, threads.go, diag.go, pubsub.go, network.go, names.go): for
      every argument list the daemon that is dialled and the request that is made.
    - [Daemon], [DaemonFacts]: the life of the process.  Module Node: daemon/node/node.go
      as the order of its calls; Module Daemon: run of daemon.go with its deferred
      calls, and stop.  What was opened is closed in the opposite order wherever the
      start fails; the identity is the same over all restarts; clients and stop find
      a running daemon by its data directory, and its traces are gone when it ended.
      Also: stop with an address signals another daemon.
    - [CliOutputs]: what commands print and save (Module Outputs), init.go (Module Init)
      and the commands that ask no daemon (Module Local).  A fetched file is the block
      the daemon holds; init changes nothing when it is run again.  Also: a few
      commands ignore the flags that say which daemon is meant.

    ** How the parts meet

    An RPC handler runs over the record of the components it reaches ([zoom] lifts a
    component's call).  [ThreadManager] and [ActorBackend] are the Go interfaces
    between handlers, manager and consensus; the instances discharge their laws.  The
    instance of the former is [thread.Manager], which the tests of the repository use;
    the daemon runs the [ActorManager] of [Manager], whose appends, beyond what
    [ThreadManagerLaws] asks for, can also fail to activate the thread.
    [RpcFacts.delegation_round_trip] and [RpcThreadsFacts.recovery_end_to_end] follow
    one task and one thread through all layers and across two daemons.

    ** Not modelled

    What calls of third-party code do inside: libp2p, the DHT, pubsub, flatfs and Bitswap
    (the node is the order in which they are called), GoAkt and the start of its
    system (daemon/actors/system.go, metrics.go; of root.go only that SpawnUnder finds a
    running child is part of [Manager]), the opening of SQLite
    files and the etcd/raft node.  Of the terminal UI the drawing of the screens, of
    the command line the JSON form of the answers, the usage texts and the text of the
    completion scripts apart from the commands they list.  Generated protocol code: its
    messages are records here.  Two requests of the RPC server interleave only in
    [SessionFacts], [Actors], [Gossip] and [DeliverFacts], where the code shares memory
    between them; elsewhere a handler is one step, and the fields its authorization
    reads never change ([TasksFacts]).  Logging and metrics are not part of the state,
    except where logging can panic.  A file that a crash cuts short is empty here, not a
    prefix of what was to be written.

    ** What is left

    Every component with logic of its own is modelled.  What remains is the JSON output
    of the commands, the drawing of the screens, and a model in which the handlers of
    the RPC server interleave statement by statement. *)

From stdpp Require Import base gmap strings list pretty sorting.
From Stdlib Require Import ZArith Lia.

Local Open Scope Z_scope.

(** ** Go values *)

(** The errors the code tells apart.  [ErrIO] is any failure reported by the
    database driver, [ErrNoRows] is [sql.ErrNoRows], [ErrUnique] a violated
    uniqueness constraint; the task sentinels are those of
    [daemon/tasks/tasks.go].  [Errorf] is an error built by [fmt.Errorf] whose
    identity no caller inspects; its argument is the constant part of the
    format string. *)
Inductive error : Type :=
| ErrIO
| ErrNoRows
| ErrUnique
| ErrInvalidTask
| ErrInvalidTransition
| ErrLeaseConflict
| ErrLeaseExpired
| ErrAttemptsExhausted
| Errorf (msg : string).

#[export] Instance error_eq_dec : EqDecision error.
Proof. solve_decision. Defined.

(** What a Go call returns: a value, an error, or a panic (a failed
    [assert.That], an index out of range). *)
Inductive outcome (A : Type) : Type :=
| Ok (a : A)
| Err (e : error)
| Panic.

Arguments Ok {A} a.
Arguments Err {A} e.
Arguments Panic {A}.

#[export] Instance outcome_eq_dec {A} `{EqDecision A} : EqDecision (outcome A).
Proof. solve_decision. Defined.

#[export] Instance Ok_inj {A} : Inj (=) (=) (@Ok A).
Proof. by intros ?? [=]. Qed.

Definition is_ok {A} (r : outcome A) : bool :=
  match r with Ok _ => true | _ => false end.

(** Two's complement reduction to [w] bits: Go's wrap-around on int32/int64. *)
Definition wrap (w : Z) (n : Z) : Z :=
  (n + 2 ^ (w - 1)) `mod` 2 ^ w - 2 ^ (w - 1).

Definition int32 (n : Z) : Z := wrap 32 n.
Definition int64 (n : Z) : Z := wrap 64 n.
Definition uint64 (n : Z) : Z := n `mod` 2 ^ 64.
Definition uint32 (n : Z) : Z := n `mod` 2 ^ 32.

(** [len] of a Go string or byte slice, and of a slice. *)
Definition slen (s : string) : Z := Z.of_nat (String.length s).
Definition llen {A} (l : list A) : Z := Z.of_nat (length l).

(** ** A persistent store accessed through fallible statements *)

(** A [world] is the database of a component and the schedule of the driver's
    failures: the [n]-th element says whether the [n]-th statement from now
    fails.  An exhausted schedule means no further failure.  Quantifying over
    [faults] quantifies over every pattern of database failures. *)
Record world (S : Type) : Type := World { db : S; faults : list bool }.
Arguments World {S} db faults.
Arguments db {S} w.
Arguments faults {S} w.

Definition M (S A : Type) : Type := world S -> outcome A * world S.

Definition ret {S A} (a : A) : M S A := fun w => (Ok a, w).
Definition throw {S A} (e : error) : M S A := fun w => (Err e, w).
Definition panic {S A} : M S A := fun w => (Panic, w).

Definition bind {S A B} (m : M S A) (k : A -> M S B) : M S B := fun w =>
  match m w with
  | (Ok a, w') => k a w'
  | (Err e, w') => (Err e, w')
  | (Panic, w') => (Panic, w')
  end.

(** Runs [m] and hands its outcome to [k]: the code that inspects [err]. *)
Definition catch {S A B} (m : M S A) (k : outcome A -> M S B) : M S B := fun w =>
  match m w with
  | (Panic, w') => (Panic, w')
  | (r, w') => k r w'
  end.

(** One SQL statement: either the driver fails and nothing changes, or [f]
    runs atomically on the database. *)
Definition stmt {S A} (f : S -> outcome A * S) : M S A := fun w =>
  match faults w with
  | true :: fs => (Err ErrIO, World (db w) fs)
  | _ :: fs => let '(r, s) := f (db w) in (r, World s fs)
  | [] => let '(r, s) := f (db w) in (r, World s [])
  end.

Definition query {S A} (f : S -> outcome A) : M S A := stmt (fun s => (f s, s)).
Definition exec {S} (f : S -> S) : M S unit := stmt (fun s => (Ok tt, f s)).

(** A change of in-memory state, which cannot fail. *)
Definition modify {S} (f : S -> S) : M S unit := fun w => (Ok tt, World (f (db w)) (faults w)).

(** [if err != nil { log.Warn }]: a failure is logged and dropped. *)
Definition log_err {S A} (m : M S A) : M S unit := catch m (fun _ => ret tt).

(** [assert.That] (pkg/assert): panics when the condition is false. *)
Definition assert_That {S} (cond : bool) : M S unit :=
  if cond then ret tt else panic.

(** [db.Begin] ... [tx.Commit] with a deferred [tx.Rollback]: an error, a
    panic or a failed commit restores the database of the beginning. *)
Definition tx {S A} (body : M S A) : M S A := fun w =>
  match stmt (fun s => (Ok tt, s)) w with
  | (Ok _, w1) =>
      match body w1 with
      | (Ok a, w2) =>
          match stmt (fun s => (Ok tt, s)) w2 with
          | (Ok _, w3) => (Ok a, w3)
          | (Err e, w3) => (Err e, World (db w) (faults w3))
          | (Panic, w3) => (Panic, World (db w) (faults w3))
          end
      | (Err e, w2) => (Err e, World (db w) (faults w2))
      | (Panic, w2) => (Panic, World (db w) (faults w2))
      end
  | (Err e, w1) => (Err e, w1)
  | (Panic, w1) => (Panic, w1)
  end.

(** Runs an operation of a part of the state on the whole. *)
Definition zoom {S T A} (get : T -> S) (put : S -> T -> T) (m : M S A) : M T A := fun w =>
  let '(r, w') := m (World (get (db w)) (faults w)) in (r, World (put (db w') (db w)) (faults w')).

(** A loop over a slice whose body may fail. *)
Fixpoint for_each {S A} (l : list A) (body : A -> M S unit) : M S unit :=
  match l with
  | [] => ret tt
  | a :: l' => bind (body a) (fun _ => for_each l' body)
  end.

Declare Scope go_scope.
Delimit Scope go_scope with go.

Notation "'let!' x ':=' c 'in' k" := (bind c (fun x => k))
  (at level 200, x name, c at level 100, k at level 200, right associativity) : go_scope.
Notation "'do!' c 'in' k" := (bind c (fun _ => k))
  (at level 200, c at level 100, k at level 200, right associativity) : go_scope.
Notation "'guard!' b 'else' e 'in' k" := (if b then k else throw e)
  (at level 200, b at level 100, e at level 100, k at level 200, right associativity) : go_scope.

Open Scope go_scope.

(** A run on a database whose driver never fails. *)
Definition run {S A} (m : M S A) (s : S) : outcome A * S :=
  let '(r, w) := m (World s []) in (r, db w).

(** ** Partial correctness over every fault schedule *)

(** [hoare P m Q]: from a database satisfying [P], whatever statements fail,
    [m] ends in an outcome and a database satisfying [Q]. *)
Definition hoare {S A} (P : S -> Prop) (m : M S A) (Q : outcome A -> S -> Prop) : Prop :=
  forall w, P (db w) -> Q (fst (m w)) (db (snd (m w))).

(** [m] preserves the invariant [I]. *)
Definition preserves {S A} (I : S -> Prop) (m : M S A) : Prop :=
  hoare I m (fun _ => I).

(** [m] never changes the database. *)
Definition readonly {S A} (m : M S A) : Prop := forall w, db (snd (m w)) = db w.

(** ** Lemmas on integers *)

Lemma wrap_range w n : 0 < w -> - 2 ^ (w - 1) <= wrap w n < 2 ^ (w - 1).
Proof.
  intros Hw. unfold wrap.
  assert (H2 : 2 ^ w = 2 * 2 ^ (w - 1)).
  { rewrite <- Z.pow_succ_r by lia. f_equal. lia. }
  pose proof (Z.mod_pos_bound (n + 2 ^ (w - 1)) (2 ^ w)) as Hm.
  assert (0 < 2 ^ w) by (apply Z.pow_pos_nonneg; lia). lia.
Qed.

Lemma wrap_small w n : 0 < w -> - 2 ^ (w - 1) <= n < 2 ^ (w - 1) -> wrap w n = n.
Proof.
  intros Hw Hn. unfold wrap.
  assert (H2 : 2 ^ w = 2 * 2 ^ (w - 1)).
  { rewrite <- Z.pow_succ_r by lia. f_equal. lia. }
  rewrite Z.mod_small; lia.
Qed.

Lemma int32_small n : - 2 ^ 31 <= n < 2 ^ 31 -> int32 n = n.
Proof. intros. apply wrap_small; [lia|]. exact H. Qed.

Lemma int64_small n : - 2 ^ 63 <= n < 2 ^ 63 -> int64 n = n.
Proof. intros. apply wrap_small; [lia|]. exact H. Qed.

(** ** Lemmas on lists *)

Lemma list_filter_all {A} (P : A -> Prop) `{!forall x, Decision (P x)} (l : list A) :
  (forall x, x ∈ l -> P x) -> filter P l = l.
Proof.
  induction l as [|x l IH]; intros HP; [done|]. rewrite filter_cons, decide_True.
  - f_equal. apply IH. intros y Hy. apply HP. by right.
  - apply HP. by left.
Qed.

(** ** Lemmas on the store monad *)

Lemma bind_ok {S A B} (m : M S A) (k : A -> M S B) w b w' :
  bind m k w = (Ok b, w') ->
  exists a w1, m w = (Ok a, w1) /\ k a w1 = (Ok b, w').
Proof.
  unfold bind. destruct (m w) as [[a|e|] w1]; [|discriminate|discriminate]. eauto.
Qed.

Lemma stmt_ok {S A} (f : S -> outcome A * S) w a w' :
  stmt f w = (Ok a, w') -> f (db w) = (Ok a, db w').
Proof.
  unfold stmt. destruct (faults w) as [|[] fs]; [|discriminate|];
    destruct (f (db w)) as [r s] eqn:E; intros [= -> <-]; done.
Qed.

Lemma stmt_nofault {S A} (f : S -> outcome A * S) s :
  stmt f (World s []) = (fst (f s), World (snd (f s)) []).
Proof. unfold stmt; simpl. by destruct (f s). Qed.

Lemma exec_ok {S} (f : S -> S) w u w' :
  exec f w = (Ok u, w') -> db w' = f (db w).
Proof. intros H%stmt_ok. by inversion H. Qed.

Lemma query_ok {S A} (f : S -> outcome A) w a w' :
  query f w = (Ok a, w') -> f (db w) = Ok a /\ db w' = db w.
Proof. intros H%stmt_ok. by inversion H. Qed.

Lemma assert_ok {S} b (w : world S) u w' : assert_That b w = (Ok u, w') -> b = true /\ w' = w.
Proof. unfold assert_That. destruct b; [by intros [= _ <-]|discriminate]. Qed.

(** A query that failed was failed by the driver or answered an error. *)
Lemma query_err {S A} (f : S -> outcome A) w e w' :
  query f w = (Err e, w') -> (e = ErrIO \/ f (db w) = Err e) /\ db w' = db w.
Proof.
  unfold query, stmt. destruct (faults w) as [|[] fs]; intros [=]; subst; auto.
Qed.

Lemma query_db {S A} (f : S -> outcome A) w : db (snd (query f w)) = db w.
Proof. unfold query, stmt. by destruct (faults w) as [|[] ?]. Qed.

(** A failed or panicking transaction leaves the database untouched. *)
Lemma tx_rollback {S A} (body : M S A) w r w' :
  tx body w = (r, w') -> is_ok r = false -> db w' = db w.
Proof.
  unfold tx, stmt. intros H Hr. revert H.
  destruct (faults w) as [|[] fs]; simpl;
    try (intros [= <- <-]; done);
    destruct (body _) as [[a|e|] w2]; simpl;
    try (intros [= <- <-]; done);
    destruct (faults w2) as [|[] ?]; intros [= <- <-]; done.
Qed.

(** A committed transaction is a successful run of its body. *)
Lemma tx_ok {S A} (body : M S A) w a w' :
  tx body w = (Ok a, w') ->
  exists w1 w2, db w1 = db w /\ body w1 = (Ok a, w2) /\ db w' = db w2.
Proof.
  unfold tx, stmt.
  destruct (faults w) as [|[] fs]; simpl; try discriminate;
    destruct (body _) as [[b|e|] w2] eqn:E; simpl; try discriminate;
    destruct (faults w2) as [|[] ?]; try discriminate;
    intros [= -> <-]; eexists _, _; (split; [|split; [exact E|]]); done.
Qed.

Lemma tx_nofault {S A} (body : M S A) s r w2 :
  body (World s []) = (r, w2) -> faults w2 = [] ->
  tx body (World s []) =
    (r, World (match r with Ok _ => db w2 | _ => s end) []).
Proof.
  intros E Hf. unfold tx, stmt; simpl. rewrite E.
  destruct r; rewrite ?Hf; done.
Qed.

(** A successful run on a part of the state. *)
Lemma zoom_ok {S T A} (get : T -> S) (put : S -> T -> T) (m : M S A) w a w' :
  zoom get put m w = (Ok a, w') ->
  exists w1, m (World (get (db w)) (faults w)) = (Ok a, w1) /\ db w' = put (db w1) (db w) /\
    faults w' = faults w1.
Proof. unfold zoom. destruct (m _) as [r w1]. intros [= -> <-]. eauto. Qed.

(** *** Hoare rules *)

Lemma hoare_conseq {S A} (P P' : S -> Prop) (m : M S A) (Q Q' : outcome A -> S -> Prop) :
  (forall s, P s -> P' s) -> hoare P' m Q' -> (forall r s, Q' r s -> Q r s) -> hoare P m Q.
Proof. unfold hoare. eauto. Qed.

Lemma hoare_ret {S A} (a : A) (Q : outcome A -> S -> Prop) :
  hoare (Q (Ok a)) (ret a) Q.
Proof. by intros w. Qed.

Lemma hoare_throw {S A} e (Q : outcome A -> S -> Prop) :
  hoare (Q (Err e)) (throw e) Q.
Proof. by intros w. Qed.

Lemma hoare_bind {S A B} (P : S -> Prop) (R : A -> S -> Prop) (m : M S A) (k : A -> M S B)
    (Q : outcome B -> S -> Prop) :
  hoare P m (fun r s => match r with
                        | Ok a => R a s | Err e => Q (Err e) s | Panic => Q Panic s end) ->
  (forall a, hoare (R a) (k a) Q) -> hoare P (bind m k) Q.
Proof.
  intros Hm Hk w Hw. specialize (Hm w Hw). unfold bind.
  destruct (m w) as [[a|e|] w1]; simpl in *; [|done|done]. by apply Hk.
Qed.

Lemma preserves_ret {S A} (I : S -> Prop) (a : A) : preserves I (ret a).
Proof. by intros w. Qed.

Lemma preserves_throw {S A} (I : S -> Prop) e : preserves I (@throw S A e).
Proof. by intros w. Qed.

Lemma preserves_panic {S A} (I : S -> Prop) : preserves I (@panic S A).
Proof. by intros w. Qed.

Lemma preserves_assert {S} (I : S -> Prop) b : preserves I (@assert_That S b).
Proof. unfold assert_That. destruct b; by intros w. Qed.

Lemma preserves_bind {S A B} (I : S -> Prop) (m : M S A) (k : A -> M S B) :
  preserves I m -> (forall a, preserves I (k a)) -> preserves I (bind m k).
Proof.
  intros Hm Hk w Hw. specialize (Hm w Hw). unfold bind.
  destruct (m w) as [[a|e|] w1]; simpl in *; [|done|done]. by apply Hk.
Qed.

Lemma preserves_catch {S A B} (I : S -> Prop) (m : M S A) (k : outcome A -> M S B) :
  preserves I m -> (forall r, preserves I (k r)) -> preserves I (catch m k).
Proof.
  intros Hm Hk w Hw. specialize (Hm w Hw). unfold catch.
  destruct (m w) as [[a|e|] w1]; simpl in *; [by apply Hk..|done].
Qed.

Lemma preserves_stmt {S A} (I : S -> Prop) (f : S -> outcome A * S) :
  (forall s, I s -> I (snd (f s))) -> preserves I (stmt f).
Proof.
  intros Hf w Hw. unfold stmt. specialize (Hf _ Hw).
  destruct (faults w) as [|[] fs]; [|done|]; destruct (f (db w)); done.
Qed.

Lemma preserves_query {S A} (I : S -> Prop) (f : S -> outcome A) : preserves I (query f).
Proof. apply preserves_stmt. done. Qed.

Lemma preserves_exec {S} (I : S -> Prop) (f : S -> S) :
  (forall s, I s -> I (f s)) -> preserves I (exec f).
Proof. intros. by apply preserves_stmt. Qed.

Lemma preserves_modify {S} (I : S -> Prop) (f : S -> S) :
  (forall s, I s -> I (f s)) -> preserves I (modify f).
Proof. intros Hf w Hw. by apply Hf. Qed.

Lemma preserves_log_err {S A} (I : S -> Prop) (m : M S A) : preserves I m -> preserves I (log_err m).
Proof. intros Hm. apply preserves_catch; [done|]. intros. apply preserves_ret. Qed.

Lemma preserves_for_each {S A} (I : S -> Prop) (l : list A) (body : A -> M S unit) :
  (forall a, preserves I (body a)) -> preserves I (for_each l body).
Proof.
  intros Hb. induction l as [|a l IH]; simpl;
    [apply preserves_ret | by apply preserves_bind].
Qed.

Lemma preserves_tx {S A} (I : S -> Prop) (body : M S A) :
  preserves I body -> preserves I (tx body).
Proof.
  intros Hb w Hw. unfold tx.
  destruct (stmt _ w) as [[[]|e|] w1] eqn:E1; simpl.
  - assert (I (db w1)) as Hw1 by (apply stmt_ok in E1; inversion E1; congruence).
    specialize (Hb w1 Hw1). destruct (body w1) as [[a|e|] w2]; simpl in *; [|done|done].
    destruct (stmt _ w2) as [[[]|e|] w3] eqn:E3; simpl; [|done|done].
    apply stmt_ok in E3. inversion E3. congruence.
  - revert E1. unfold stmt. destruct (faults w) as [|[] ?]; intros [= <- <-]; done.
  - revert E1. unfold stmt. destruct (faults w) as [|[] ?]; intros [=].
Qed.

Lemma preserves_zoom {S T A} (get : T -> S) (put : S -> T -> T) (I : T -> Prop) (m : M S A) :
  (forall t, I t -> preserves (fun s => I (put s t)) m) ->
  (forall t, I t -> I (put (get t) t)) -> preserves I (zoom get put m).
Proof.
  intros Hm Hput w Hw. unfold zoom.
  specialize (Hm (db w) Hw (World (get (db w)) (faults w)) (Hput _ Hw)).
  destruct (m _) as [r w']. exact Hm.
Qed.

Lemma preserves_if {S A} (I : S -> Prop) (b : bool) (m1 m2 : M S A) :
  preserves I m1 -> preserves I m2 -> preserves I (if b then m1 else m2).
Proof. by destruct b. Qed.

(** An invariant across a run. *)
Lemma preserves_use {S A} (I : S -> Prop) (m : M S A) w res w' :
  preserves I m -> m w = (res, w') -> I (db w) -> I (db w').
Proof. intros Hm E Hw. specialize (Hm w Hw). by rewrite E in Hm. Qed.

(** *** From one assertion to another, whatever the outcome *)

(** [leads P m Q]: a run of [m] from [P] ends in [Q], whatever it returns. *)
Definition leads {S A} (P : S -> Prop) (m : M S A) (Q : S -> Prop) : Prop :=
  hoare P m (fun _ => Q).

Section Leads.
Context {S : Type} (P Q : S -> Prop).
Hypothesis HPQ : forall s, P s -> Q s.

Lemma leads_preserves {A} (m : M S A) : preserves Q m -> leads P m Q.
Proof. intros Hm w Hw. apply Hm; auto. Qed.

Lemma leads_stmt {A} (f : S -> outcome A * S) :
  (forall s, P s -> Q (snd (f s))) -> leads P (stmt f) Q.
Proof.
  intros Hf w Hw. unfold stmt. specialize (Hf _ Hw). specialize (HPQ _ Hw).
  destruct (faults w) as [|[] fs]; [|done|]; destruct (f (db w)); done.
Qed.

Lemma leads_exec (f : S -> S) : (forall s, P s -> Q (f s)) -> leads P (exec f) Q.
Proof. intros. by apply leads_stmt. Qed.

Lemma leads_query {A} (f : S -> outcome A) : leads P (query f) Q.
Proof. by apply leads_stmt. Qed.

Lemma leads_query_bind {A B} (f : S -> outcome A) (k : A -> M S B) :
  (forall a, leads (fun s => P s /\ f s = Ok a) (k a) Q) -> leads P (bind (query f) k) Q.
Proof.
  intros Hk w Hw. unfold bind, query, stmt.
  destruct (faults w) as [|[] fs]; simpl; [|by apply HPQ|];
    (destruct (f (db w)) as [a|e|] eqn:E; simpl; [|by apply HPQ|by apply HPQ]);
    apply (Hk a (World (db w) _)); done.
Qed.

Lemma leads_query_catch {A B} (f : S -> outcome A) (k : outcome A -> M S B) :
  leads P (k (Err ErrIO)) Q ->
  (forall r, leads (fun s => P s /\ f s = r) (k r) Q) -> leads P (catch (query f) k) Q.
Proof.
  intros Hio Hk w Hw. unfold catch, query, stmt.
  destruct (faults w) as [|[] fs]; simpl; [|apply (Hio (World _ _)); done|];
    (destruct (f (db w)) as [a|e|] eqn:E; simpl;
     [apply (Hk (Ok a) (World (db w) _)); done
     |apply (Hk (Err e) (World (db w) _)); done
     |by apply HPQ]).
Qed.

Lemma leads_bind {A B} (m : M S A) (k : A -> M S B) :
  leads P m Q -> (forall a, preserves Q (k a)) -> leads P (bind m k) Q.
Proof.
  intros Hm Hk w Hw. specialize (Hm w Hw). unfold bind.
  destruct (m w) as [[a|e|] w1]; simpl in *; [|done|done]. by apply Hk.
Qed.

Lemma leads_bind_assoc {A B C} (m : M S A) (k : A -> M S B) (j : B -> M S C) :
  leads P (bind m (fun a => bind (k a) j)) Q -> leads P (bind (bind m k) j) Q.
Proof.
  intros Hl w Hw. specialize (Hl w Hw). unfold bind in *.
  destruct (m w) as [[a|e|] w1]; [|done|done]. by destruct (k a w1) as [[b|e|] w2].
Qed.

Lemma leads_catch {A B} (m : M S A) (k : outcome A -> M S B) :
  leads P m Q -> (forall a, preserves Q (k a)) -> leads P (catch m k) Q.
Proof.
  intros Hm Hk w Hw. specialize (Hm w Hw). unfold catch.
  destruct (m w) as [[a|e|] w1]; simpl in *; [by apply Hk..|done].
Qed.

Lemma leads_tx {A} (body : M S A) : leads P body Q -> leads P (tx body) Q.
Proof.
  intros Hb w Hw. unfold tx.
  destruct (stmt _ w) as [[[]|e|] w1] eqn:E1; simpl.
  - assert (P (db w1)) as Hw1 by (apply stmt_ok in E1; inversion E1; congruence).
    specialize (Hb w1 Hw1). destruct (body w1) as [[a|e|] w2]; simpl in *; [|by apply HPQ..].
    destruct (stmt _ w2) as [[[]|e|] w3] eqn:E3; simpl; [|by apply HPQ..].
    apply stmt_ok in E3. inversion E3. congruence.
  - revert E1. unfold stmt. destruct (faults w) as [|[] ?]; intros [= <- <-]; by apply HPQ.
  - revert E1. unfold stmt. destruct (faults w) as [|[] ?]; intros [=].
Qed.

Lemma leads_ret {A} (a : A) : leads P (ret a) Q.
Proof. intros w Hw. by apply HPQ. Qed.

Lemma leads_throw {A} e : leads P (@throw S A e) Q.
Proof. intros w Hw. by apply HPQ. Qed.

Lemma leads_panic {A} : leads P (@panic S A) Q.
Proof. intros w Hw. by apply HPQ. Qed.

Lemma preserves_for_each_in {A} (l : list A) (body : A -> M S unit) :
  (forall a, a ∈ l -> preserves Q (body a)) -> preserves Q (for_each l body).
Proof.
  intros Hb. induction l as [|a l IH]; simpl; [apply preserves_ret|].
  apply preserves_bind; [apply Hb; constructor|]. intros _. apply IH.
  intros b Hin. apply Hb. by constructor.
Qed.

Lemma leads_for_each {A} (l : list A) (body : A -> M S unit) :
  (forall a, a ∈ l -> preserves Q (body a)) -> leads P (for_each l body) Q.
Proof.
  intros Hb. apply leads_preserves. by apply preserves_for_each_in.
Qed.

End Leads.

Lemma leads_absurd {S A} (P Q : S -> Prop) (m : M S A) : (forall s, ~ P s) -> leads P m Q.
Proof. intros HP w Hw. by destruct (HP (db w)). Qed.

(** *** Success on a driver that does not fail *)

(** [succeeds P m Q]: from a database satisfying [P], if no statement fails, [m]
    returns a value, and value and database satisfy [Q]. *)
Definition succeeds {S A} (P : S -> Prop) (m : M S A) (Q : A -> S -> Prop) : Prop :=
  forall s, P s -> exists a s', m (World s []) = (Ok a, World s' []) /\ Q a s'.

Lemma succeeds_conseq {S A} (P P' : S -> Prop) (m : M S A) (Q Q' : A -> S -> Prop) :
  (forall s, P s -> P' s) -> succeeds P' m Q' -> (forall a s, Q' a s -> Q a s) -> succeeds P m Q.
Proof. intros HP Hm HQ s Hs. destruct (Hm s (HP s Hs)) as (a & s' & E & H). eauto. Qed.

Lemma succeeds_ret {S A} (P : S -> Prop) (a : A) (Q : A -> S -> Prop) :
  (forall s, P s -> Q a s) -> succeeds P (ret a) Q.
Proof. intros HQ s Hs. exists a, s. auto. Qed.

Lemma succeeds_bind {S A B} (P : S -> Prop) (R : A -> S -> Prop) (m : M S A) (k : A -> M S B)
    (Q : B -> S -> Prop) :
  succeeds P m R -> (forall a, succeeds (R a) (k a) Q) -> succeeds P (bind m k) Q.
Proof.
  intros Hm Hk s Hs. destruct (Hm s Hs) as (a & s1 & E1 & H1).
  destruct (Hk a s1 H1) as (b & s2 & E2 & H2). exists b, s2. unfold bind. by rewrite E1.
Qed.

Lemma succeeds_catch {S A B} (P : S -> Prop) (R : A -> S -> Prop) (m : M S A) (k : outcome A -> M S B)
    (Q : B -> S -> Prop) :
  succeeds P m R -> (forall a, succeeds (R a) (k (Ok a)) Q) -> succeeds P (catch m k) Q.
Proof.
  intros Hm Hk s Hs. destruct (Hm s Hs) as (a & s1 & E1 & H1).
  destruct (Hk a s1 H1) as (b & s2 & E2 & H2). exists b, s2. unfold catch. by rewrite E1.
Qed.

Lemma succeeds_exec {S} (P : S -> Prop) (f : S -> S) (Q : unit -> S -> Prop) :
  (forall s, P s -> Q tt (f s)) -> succeeds P (exec f) Q.
Proof. intros HQ s Hs. exists tt, (f s). split; [done|auto]. Qed.

Lemma succeeds_modify {S} (P : S -> Prop) (f : S -> S) (Q : unit -> S -> Prop) :
  (forall s, P s -> Q tt (f s)) -> succeeds P (modify f) Q.
Proof. intros HQ s Hs. exists tt, (f s). split; [done|auto]. Qed.

Lemma succeeds_log_err {S A} (P : S -> Prop) (m : M S A) (Q : unit -> S -> Prop) :
  succeeds P m (fun _ => Q tt) -> succeeds P (log_err m) Q.
Proof.
  intros Hm s Hs. destruct (Hm s Hs) as (a & s' & E & HQ). exists tt, s'.
  unfold log_err, catch. by rewrite E.
Qed.

Lemma succeeds_zoom {S T A} (get : T -> S) (put : S -> T -> T) (P : T -> Prop) (m : M S A)
    (Q : A -> T -> Prop) :
  (forall t, P t -> succeeds (fun s => s = get t) m (fun a s' => Q a (put s' t))) ->
  succeeds P (zoom get put m) Q.
Proof.
  intros Hm t Ht. destruct (Hm t Ht (get t) eq_refl) as (a & s' & E & HQ).
  exists a, (put s' t). unfold zoom. simpl. by rewrite E.
Qed.

(** *** Automation *)

(** [molt_ops] holds the lemmas, proved once per operation of a component, that
    the operation preserves an invariant; [go_preserves] stops at their calls. *)
Create HintDb molt_ops discriminated.

(** Decomposes a [preserves] goal along the program, leaving the [exec]
    statements as goals on one database. *)
Ltac go_preserves :=
  repeat first
    [ progress intros
    | solve [eauto 2 with molt_ops nocore]
    | apply preserves_tx
    | apply preserves_bind
    | apply preserves_catch
    | apply preserves_for_each
    | apply preserves_log_err
    | apply preserves_ret | apply preserves_throw | apply preserves_panic
    | apply preserves_assert | apply preserves_query
    | match goal with
      | |- preserves _ (if ?x then _ else _) => destruct x eqn:?
      | |- preserves _ (match ?x with _ => _ end) => destruct x eqn:?
      end
    | apply preserves_exec | apply preserves_stmt | apply preserves_modify ].

(** Decomposes a [leads] goal along the program.  Side conditions that an
    assertion is weakened are left as goals, as are the [exec] statements. *)
Ltac go_leads :=
  repeat first
    [ progress intros
    | apply leads_ret | apply leads_throw | apply leads_panic | apply leads_query
    | apply leads_tx | apply leads_query_bind | apply leads_query_catch
    | match goal with
      | |- leads _ (if ?b then _ else _) _ => destruct b eqn:?
      | |- leads _ (match ?x with _ => _ end) _ => destruct x eqn:?
      | |- leads _ (let _ := _ in _) _ => cbv zeta
      end
    | apply leads_exec | apply leads_stmt
    | apply leads_bind | apply leads_catch ].

(** Inverts a run that returned [Ok]. *)
Ltac go_inv :=
  repeat match goal with
  | H : bind _ _ _ = (Ok _, _) |- _ =>
      let a := fresh "a" in let w := fresh "w" in
      let H1 := fresh "Hm" in
      apply bind_ok in H; destruct H as (a & w & H1 & H)
  | H : ret _ _ = (Ok _, _) |- _ => unfold ret in H; simplify_eq
  | H : assert_That _ _ = (Ok _, _) |- _ =>
      let Hc := fresh "Hassert" in apply assert_ok in H; destruct H as [Hc ?]; simplify_eq
  | H : throw _ _ = (Ok _, _) |- _ => discriminate H
  | H : panic _ = (Ok _, _) |- _ => discriminate H
  | H : exec _ _ = (Ok _, _) |- _ => apply exec_ok in H
  | H : query _ _ = (Ok _, _) |- _ => apply query_ok in H; destruct H
  | H : tx _ _ = (Ok _, _) |- _ =>
      let w1 := fresh "w" in let w2 := fresh "w" in
      let E1 := fresh "Hdb" in let E2 := fresh "Hdb" in
      apply tx_ok in H; destruct H as (w1 & w2 & E1 & H & E2)
  | H : (if ?b then _ else _) _ = (Ok _, _) |- _ => destruct b eqn:?
  end.
