(* ===== verification/GoStd.v ===== *)
(** * The parts of Go's standard library the code uses on strings

    Byte strings are [string].  [strings.HasPrefix], slicing, [IndexByte],
    [strings.SplitN], decimal formatting ([fmt] verb d, stdpp's [pretty]) and
    [base64.RawURLEncoding] and [base64.StdEncoding], with the lemmas that make concatenations with
    separators unambiguous. *)

From stdpp Require Import base strings list pretty.
From Stdlib Require Import ZArith Lia Ascii.
From S2P Require Import Prelude.

Local Open Scope Z_scope.
#[local] Arguments String.append : simpl nomatch.

(** ** Strings *)

(** [s[n:]] and [s[:n]] for [n] within the length. *)
Fixpoint drop_str (n : nat) (s : string) : string :=
  match n, s with
  | O, _ => s
  | S _, EmptyString => EmptyString
  | S n', String _ s' => drop_str n' s'
  end.

Fixpoint take_str (n : nat) (s : string) : string :=
  match n, s with
  | O, _ => EmptyString
  | S _, EmptyString => EmptyString
  | S n', String c s' => String c (take_str n' s')
  end.

Definition HasPrefix (s p : string) : bool := String.prefix p s.

Fixpoint all_chars (P : ascii -> bool) (s : string) : bool :=
  match s with EmptyString => true | String c s' => P c && all_chars P s' end.

Definition no_char (c : ascii) (s : string) : bool := all_chars (fun d => negb (Ascii.eqb c d)) s.

(** The part before the first [sep] and, when there is one, the part after. *)
Fixpoint cut (sep : ascii) (s : string) : string * option string :=
  match s with
  | EmptyString => (EmptyString, None)
  | String c s' =>
      if Ascii.eqb sep c then (EmptyString, Some s')
      else let '(a, b) := cut sep s' in (String c a, b)
  end.

(** [strings.SplitN(s, sep, n)] for a one-byte separator and [n > 0]. *)
Fixpoint SplitN (sep : ascii) (n : nat) (s : string) : list string :=
  match n with
  | O => []
  | S O => [s]
  | S n' => match cut sep s with
            | (a, None) => [a]
            | (a, Some b) => a :: SplitN sep n' b
            end
  end.

(** [strings.Split(s, sep)] and [strings.Join(l, sep)]. *)
Fixpoint Split (sep : ascii) (s : string) : list string :=
  match s with
  | EmptyString => [EmptyString]
  | String c s' =>
      if Ascii.eqb sep c then EmptyString :: Split sep s'
      else match Split sep s' with
           | [] => [String c EmptyString]
           | x :: l => String c x :: l
           end
  end.

Fixpoint Join (l : list string) (sep : string) : string :=
  match l with
  | [] => EmptyString
  | [x] => x
  | x :: l' => x +:+ sep +:+ Join l' sep
  end.

(** [strings.TrimPrefix]. *)
Definition TrimPrefix (s p : string) : string :=
  if HasPrefix s p then drop_str (String.length p) s else s.

(** The UTF-8 forms of the characters [unicode.IsSpace] accepts. *)
Definition bytes (l : list nat) : string := fold_right (fun n s => String (ascii_of_nat n) s) EmptyString l.
Definition spaces : list string :=
  bytes <$> ([[9]; [10]; [11]; [12]; [13]; [32]; [194; 133]; [194; 160]; [225; 154; 128]]
             ++ ((fun n => [226; 128; 128 + n]) <$> seq 0 11)
             ++ [[226; 128; 168]; [226; 128; 169]; [226; 128; 175]; [226; 129; 159]; [227; 128; 128]])%nat%list.

Definition HasSuffix (s p : string) : bool :=
  (String.length p <=? String.length s)%nat && String.eqb (drop_str (String.length s - String.length p) s) p.

(** [n] bounds the number of characters removed. *)
Fixpoint trim_left (n : nat) (s : string) : string :=
  match n with
  | O => s
  | S n' => match find (HasPrefix s) spaces with
            | Some p => trim_left n' (drop_str (String.length p) s)
            | None => s
            end
  end.
Fixpoint trim_right (n : nat) (s : string) : string :=
  match n with
  | O => s
  | S n' => match find (HasSuffix s) spaces with
            | Some p => trim_right n' (take_str (String.length s - String.length p) s)
            | None => s
            end
  end.
Definition TrimSpace (s : string) : string :=
  let l := trim_left (String.length s) s in trim_right (String.length l) l.

Example TrimSpace_ok : TrimSpace (" " ++ bytes [194; 160]%nat ++ "a b" ++ bytes [227; 128; 128; 10]%nat) = "a b".
Proof. vm_compute. reflexivity. Qed.

(** [strings.ToLower] as far as comparisons with ASCII words go: besides the letters A
    to Z only U+0130 and U+212A have ASCII lower-case forms (i and k); what else is not
    ASCII stays so. *)
Definition lower_char (c : ascii) : ascii :=
  let n := nat_of_ascii c in if ((65 <=? n) && (n <=? 90))%nat then ascii_of_nat (n + 32) else c.
Fixpoint lower (s : string) : string :=
  match s with
  | EmptyString => EmptyString
  | String "196" (String "176" s') => String "i" (lower s')
  | String "226" (String "132" (String "170" s')) => String "k" (lower s')
  | String c s' => String (lower_char c) (lower s')
  end.

Example lower_ok : lower ("FA" ++ bytes [196; 176]%nat ++ "LED" ++ bytes [226; 132; 170]%nat) = "failedk".
Proof. vm_compute. reflexivity. Qed.

Definition nul : ascii := "000"%char.
Definition nul_str : string := String nul EmptyString.

(** ** encoding/base64 *)

Definition byte_of (c : ascii) : Z := Z.of_nat (nat_of_ascii c).
Definition byte_chr (n : Z) : ascii := ascii_of_nat (Z.to_nat n).

Definition url_alphabet : string :=
  "ABCDEFGHIJKLMNOPQRSTUVWXYZabcdefghijklmnopqrstuvwxyz0123456789-_".
Definition std_alphabet : string :=
  "ABCDEFGHIJKLMNOPQRSTUVWXYZabcdefghijklmnopqrstuvwxyz0123456789+/".

(** The character of a sextet and the sextet of a character. *)
Definition alphabet_char (alpha : string) (n : Z) : ascii :=
  default "A"%char (String.get (Z.to_nat n) alpha).

Fixpoint index_of (c : ascii) (s : string) : option Z :=
  match s with
  | EmptyString => None
  | String d s' => if Ascii.eqb c d then Some 0 else option_map Z.succ (index_of c s')
  end.

(** Three bytes give four sextets; a tail of one or two bytes gives two or
    three characters, followed by [pad1] or [pad2]. *)
Fixpoint b64_enc (chr : Z -> ascii) (pad1 pad2 s : string) : string :=
  match s with
  | EmptyString => EmptyString
  | String a EmptyString =>
      let x := byte_of a in
      String (chr (x / 4)) (String (chr (x mod 4 * 16)) pad1)
  | String a (String b EmptyString) =>
      let x := byte_of a in let y := byte_of b in
      String (chr (x / 4)) (String (chr (x mod 4 * 16 + y / 16))
        (String (chr (y mod 16 * 4)) pad2))
  | String a (String b (String c s')) =>
      let x := byte_of a in let y := byte_of b in let z := byte_of c in
      String (chr (x / 4)) (String (chr (x mod 4 * 16 + y / 16))
        (String (chr (y mod 16 * 4 + z / 64)) (String (chr (z mod 64)) (b64_enc chr pad1 pad2 s'))))
  end.

(** The decoder of four characters at a time.  The unused low bits of a tail are
    not checked (the encodings are not [Strict]). *)
Fixpoint b64_dec (val : ascii -> option Z) (pad1 pad2 s : string) : option string :=
  match s with
  | EmptyString => Some EmptyString
  | String p (String q t) =>
      match val p, val q with
      | Some a, Some b =>
          let x := byte_chr (a * 4 + b / 16) in
          if String.eqb t pad1 then Some (String x EmptyString) else
          match t with
          | String r t' =>
              match val r with
              | Some c =>
                  let y := byte_chr (b mod 16 * 16 + c / 4) in
                  if String.eqb t' pad2 then Some (String x (String y EmptyString)) else
                  match t' with
                  | String u rest =>
                      match val u with
                      | Some d =>
                          option_map (fun m => String x (String y (String (byte_chr (c mod 4 * 64 + d)) m)))
                            (b64_dec val pad1 pad2 rest)
                      | None => None
                      end
                  | EmptyString => None
                  end
              | None => None
              end
          | EmptyString => None
          end
      | _, _ => None
      end
  | _ => None
  end.

(** The decoder skips line breaks wherever they stand. *)
Fixpoint skip_newlines (s : string) : string :=
  match s with
  | EmptyString => EmptyString
  | String c s' =>
      if Ascii.eqb c "010"%char || Ascii.eqb c "013"%char then skip_newlines s'
      else String c (skip_newlines s')
  end.

(** [base64.RawURLEncoding]: no padding. *)
Definition b64_char : Z -> ascii := alphabet_char url_alphabet.
Definition b64_encode (s : string) : string := b64_enc b64_char "" "" s.
Definition b64_decode (s : string) : option string :=
  b64_dec (fun c => index_of c url_alphabet) "" "" (skip_newlines s).

(** [base64.StdEncoding]: padded with [=]. *)
Definition std_char : Z -> ascii := alphabet_char std_alphabet.
Definition std_encode (s : string) : string := b64_enc std_char "==" "=" s.
Definition std_decode (s : string) : option string :=
  b64_dec (fun c => index_of c std_alphabet) "==" "=" (skip_newlines s).

(** ** encoding/binary *)

(** [n] bytes of [z], most significant first: [BigEndian.PutUint32] for
    [n = 4], [PutUint64] for [n = 8]. *)
Fixpoint be_bytes (n : nat) (z : Z) : string :=
  match n with
  | O => EmptyString
  | S n' => String (byte_chr (z / 256 ^ Z.of_nat n' mod 256)) (be_bytes n' z)
  end.

(** ** encoding/hex *)

Definition hex_digit (n : Z) : ascii := default "0"%char (String.get (Z.to_nat n) "0123456789abcdef").

Fixpoint hex_encode (s : string) : string :=
  match s with
  | EmptyString => EmptyString
  | String c s' =>
      String (hex_digit (byte_of c / 16)) (String (hex_digit (byte_of c mod 16)) (hex_encode s'))
  end.

(** [hex.DecodeString] accepts both cases and rejects an odd length. *)
Definition hex_value (c : ascii) : option Z :=
  let n := byte_of c in
  if (48 <=? n) && (n <=? 57) then Some (n - 48) else
  if (97 <=? n) && (n <=? 102) then Some (n - 87) else
  if (65 <=? n) && (n <=? 70) then Some (n - 55) else None.

Fixpoint hex_decode (s : string) : option string :=
  match s with
  | EmptyString => Some EmptyString
  | String _ EmptyString => None
  | String a (String b s') =>
      match hex_value a, hex_value b, hex_decode s' with
      | Some x, Some y, Some t => Some (String (ascii_of_nat (Z.to_nat (16 * x + y))) t)
      | _, _, _ => None
      end
  end.

(** [strconv.ParseUint(s, 10, 64)] with its error dropped: zero on a syntax
    error, the largest value on overflow. *)
Fixpoint parse_digits (s : string) (acc : Z) : Z :=
  match s with
  | EmptyString => acc
  | String c s' =>
      let n := byte_of c in
      if (48 <=? n) && (n <=? 57) then
        let acc' := 10 * acc + (n - 48) in
        if 2 ^ 64 <=? acc' then 2 ^ 64 - 1 else parse_digits s' acc'
      else 0
  end.

Definition ParseUint64 (s : string) : Z := parse_digits s 0.

(** ** Lemmas *)

Lemma slen_nonneg s : 0 <= slen s.
Proof. unfold slen. lia. Qed.

Lemma slen_app s t : slen (s +:+ t) = slen s + slen t.
Proof. unfold slen. induction s as [|c s IH]; simpl; lia. Qed.

Lemma slen_empty s : slen s = 0 -> s = EmptyString.
Proof. unfold slen. destruct s; simpl; [done|lia]. Qed.

Lemma append_empty_r s : s +:+ EmptyString = s.
Proof. induction s as [|c s IH]; simpl; congruence. Qed.

Lemma append_nil_str (s : string) : s +:+ EmptyString = s.
Proof. induction s as [|a s IH]; [done|]. change (String a (s +:+ EmptyString) = String a s). by rewrite IH. Qed.

Lemma length_app_str (a b : string) : String.length (a +:+ b) = (String.length a + String.length b)%nat.
Proof.
  induction a as [|c a IH]; [done|].
  change (S (String.length (a +:+ b)) = S (String.length a + String.length b)). by rewrite IH.
Qed.

Lemma append_assoc_str (a b c : string) : a +:+ (b +:+ c) = (a +:+ b) +:+ c.
Proof. induction a as [|x a IH]; simpl; [done|by rewrite IH]. Qed.

Lemma prefix_app p s : HasPrefix (p +:+ s) p = true.
Proof.
  unfold HasPrefix. induction p as [|c p IH]; simpl; [by destruct s|].
  destruct (ascii_dec c c); [done|congruence].
Qed.

Lemma drop_str_app p s : drop_str (String.length p) (p +:+ s) = s.
Proof. induction p as [|c p IH]; simpl; [by destruct s|done]. Qed.

Lemma TrimPrefix_app p s : TrimPrefix (p +:+ s) p = s.
Proof. unfold TrimPrefix. by rewrite prefix_app, drop_str_app. Qed.

Lemma prefix_split p s : HasPrefix s p = true -> s = p +:+ drop_str (String.length p) s.
Proof.
  unfold HasPrefix. revert s. induction p as [|c p IH]; intros s H; simpl; [by destruct s|].
  destruct s as [|d s]; [done|]. simpl in H. destruct (ascii_dec c d) as [<-|]; [|done].
  simpl. f_equal. by apply IH.
Qed.

Lemma no_char_cons c d s : no_char c (String d s) = negb (Ascii.eqb c d) && no_char c s.
Proof. done. Qed.

Lemma no_char_app c s t : no_char c (s +:+ t) = no_char c s && no_char c t.
Proof.
  unfold no_char. induction s as [|d s IH]; simpl; [done|]. rewrite IH. apply andb_assoc.
Qed.

Lemma cut_app c s t : no_char c s = true -> cut c (s +:+ String c t) = (s, Some t).
Proof.
  unfold no_char. induction s as [|d s IH]; simpl; intros H.
  - by rewrite Ascii.eqb_refl.
  - apply andb_true_iff in H as [Hd Hs]. apply negb_true_iff in Hd. rewrite Hd.
    by rewrite IH.
Qed.

Lemma cut_none c s : no_char c s = true -> cut c s = (s, None).
Proof.
  unfold no_char. induction s as [|d s IH]; simpl; intros H; [done|].
  apply andb_true_iff in H as [Hd Hs]. apply negb_true_iff in Hd. rewrite Hd. by rewrite IH.
Qed.

Lemma cut_some c s a b : cut c s = (a, Some b) -> s = a +:+ String c b /\ no_char c a = true.
Proof.
  revert a b. induction s as [|d s IH]; intros a b; simpl; [done|].
  destruct (Ascii.eqb c d) eqn:E.
  - intros [= <- <-]. apply Ascii.eqb_eq in E. by subst.
  - destruct (cut c s) as [a' b'] eqn:Ec. intros [= <- ->].
    destruct (IH a' b eq_refl) as [-> Hn]. simpl. split; [done|].
    unfold no_char in *. simpl. by rewrite E, Hn.
Qed.

(** A field without the separator, the separator, the rest: one reading. *)
Lemma sep_inj c a a' b b' :
  no_char c a = true -> no_char c a' = true ->
  a +:+ String c b = a' +:+ String c b' -> a = a' /\ b = b'.
Proof.
  intros H H' E. pose proof (cut_app c a b H) as C. rewrite E, cut_app in C by done.
  by injection C as <- <-.
Qed.

Lemma byte_of_range c : 0 <= byte_of c < 256.
Proof. unfold byte_of. pose proof (nat_ascii_bounded c). lia. Qed.

Lemma byte_of_inj c d : byte_of c = byte_of d -> c = d.
Proof.
  unfold byte_of. intros H. rewrite <- (ascii_nat_embedding c), <- (ascii_nat_embedding d).
  f_equal. lia.
Qed.

(** What the encoder and decoder of an alphabet need: each character decodes to
    its sextet, and is none of the characters that frame or separate encodings. *)
Definition sextet_ok (alpha : string) (n : Z) : bool :=
  let c := alphabet_char alpha n in
  bool_decide (index_of c alpha = Some n) &&
  no_char c (String "="%char (String "010"%char (String "013"%char (String nul ":")))).

Lemma alphabets_ok :
  forallb (fun n => sextet_ok url_alphabet (Z.of_nat n) && sextet_ok std_alphabet (Z.of_nat n))
    (seq 0 64) = true.
Proof. vm_compute. reflexivity. Qed.

Lemma alphabet_ok alpha n :
  alpha = url_alphabet \/ alpha = std_alphabet -> 0 <= n < 64 -> sextet_ok alpha n = true.
Proof.
  intros Ha Hn. pose proof alphabets_ok as H. rewrite forallb_forall in H.
  specialize (H (Z.to_nat n)). rewrite List.in_seq, Z2Nat.id, andb_true_iff in H by lia.
  destruct (H ltac:(lia)). by destruct Ha as [-> | ->].
Qed.

(** Induction three bytes at a time. *)
Lemma string_ind3 (P : string -> Prop) :
  P EmptyString -> (forall a, P (String a EmptyString)) ->
  (forall a b, P (String a (String b EmptyString))) ->
  (forall a b c s, P s -> P (String a (String b (String c s)))) -> forall s, P s.
Proof.
  intros H0 H1 H2 H3. fix IH 1. intros [|a [|b [|c s]]]; [done|apply H1|apply H2|].
  apply H3, IH.
Qed.

Ltac bytes :=
  repeat match goal with
  | c : ascii |- _ =>
      lazymatch goal with
      | _ : 0 <= byte_of c < 256 |- _ => fail
      | _ => pose proof (byte_of_range c)
      end
  end.

Lemma byte_chr_of c n : n = byte_of c -> byte_chr n = c.
Proof. intros ->. unfold byte_chr, byte_of. by rewrite Nat2Z.id, ascii_nat_embedding. Qed.

Section Base64.
Context (alpha : string).
Hypothesis Halpha : alpha = url_alphabet \/ alpha = std_alphabet.

Lemma alphabet_value n : 0 <= n < 64 -> index_of (alphabet_char alpha n) alpha = Some n.
Proof.
  intros Hn. pose proof (alphabet_ok alpha n Halpha Hn) as H. unfold sextet_ok in H.
  apply andb_true_iff in H as [H _]. by apply bool_decide_eq_true in H.
Qed.

Lemma alphabet_free n : 0 <= n < 64 ->
  let c := alphabet_char alpha n in
  Ascii.eqb c "=" = false /\ Ascii.eqb c "010" = false /\ Ascii.eqb c "013" = false /\
  Ascii.eqb nul c = false /\ Ascii.eqb ":" c = false.
Proof.
  intros Hn c. pose proof (alphabet_ok alpha n Halpha Hn) as H. unfold sextet_ok in H.
  apply andb_true_iff in H as [_ H]. fold c in H. rewrite !no_char_cons, !andb_true_iff, !negb_true_iff in H.
  rewrite (Ascii.eqb_sym nul), (Ascii.eqb_sym ":"). tauto.
Qed.

Context (pad1 pad2 : string).
Hypothesis Hpad : pad1 = "" /\ pad2 = "" \/ pad1 = "==" /\ pad2 = "=".

Lemma b64_dec_enc s :
  b64_dec (fun c => index_of c alpha) pad1 pad2 (b64_enc (alphabet_char alpha) pad1 pad2 s) = Some s.
Proof.
  induction s as [|a|a b|a b c s IH] using string_ind3; [done|..]; cbn [b64_enc]; cbv zeta; bytes;
    cbn [b64_dec]; rewrite !alphabet_value by (Z.to_euclidean_division_equations; lia).
  - rewrite String.eqb_refl. do 2 f_equal. apply byte_chr_of. Z.to_euclidean_division_equations; lia.
  - destruct (String.eqb_spec (String (alphabet_char alpha (byte_of b mod 16 * 4)) pad2) pad1) as [E|_].
    { exfalso. destruct (alphabet_free (byte_of b mod 16 * 4)) as (Hne & _);
        [Z.to_euclidean_division_equations; lia|].
      destruct Hpad as [[-> ->]|[-> ->]]; [discriminate E|]. injection E as E.
      by rewrite E, Ascii.eqb_refl in Hne. }
    rewrite String.eqb_refl. do 2 f_equal; [|f_equal];
      apply byte_chr_of; Z.to_euclidean_division_equations; lia.
  - destruct (String.eqb_spec (String (alphabet_char alpha (byte_of b mod 16 * 4 + byte_of c / 64))
      (String (alphabet_char alpha (byte_of c mod 64)) (b64_enc (alphabet_char alpha) pad1 pad2 s))) pad1) as [E|_].
    { exfalso. destruct (alphabet_free (byte_of b mod 16 * 4 + byte_of c / 64)) as (Hne & _);
        [Z.to_euclidean_division_equations; lia|].
      destruct Hpad as [[-> ->]|[-> ->]]; [discriminate E|]. injection E as E _ _.
      by rewrite E, Ascii.eqb_refl in Hne. }
    destruct (String.eqb_spec (String (alphabet_char alpha (byte_of c mod 64))
      (b64_enc (alphabet_char alpha) pad1 pad2 s)) pad2) as [E|_].
    { exfalso. destruct (alphabet_free (byte_of c mod 64)) as (Hne & _);
        [Z.to_euclidean_division_equations; lia|].
      destruct Hpad as [[-> ->]|[-> ->]]; [discriminate E|]. injection E as E _.
      by rewrite E, Ascii.eqb_refl in Hne. }
    rewrite IH. cbn [option_map]. f_equal. f_equal; [|f_equal; [|f_equal]];
      apply byte_chr_of; Z.to_euclidean_division_equations; lia.
Qed.

(** A separator that is no padding and no character of the alphabet. *)
Lemma b64_enc_free sep s :
  (forall n, 0 <= n < 64 -> Ascii.eqb sep (alphabet_char alpha n) = false) ->
  no_char sep pad1 = true -> no_char sep pad2 = true ->
  no_char sep (b64_enc (alphabet_char alpha) pad1 pad2 s) = true.
Proof.
  intros Hsep H1 H2.
  induction s using string_ind3; [done|..]; cbn [b64_enc]; cbv zeta; bytes;
    rewrite !no_char_cons, !Hsep by (Z.to_euclidean_division_equations; lia); done.
Qed.

Lemma skip_newlines_free s :
  no_char "010" s = true -> no_char "013" s = true -> skip_newlines s = s.
Proof.
  induction s as [|c s IH]; [done|]. rewrite !no_char_cons, !andb_true_iff, !negb_true_iff.
  intros [H1 H1'] [H2 H2']. cbn [skip_newlines].
  rewrite (Ascii.eqb_sym c "010"), (Ascii.eqb_sym c "013"), H1, H2. simpl. by rewrite IH.
Qed.

Lemma b64_decode_encode s :
  b64_dec (fun c => index_of c alpha) pad1 pad2
    (skip_newlines (b64_enc (alphabet_char alpha) pad1 pad2 s)) = Some s.
Proof.
  rewrite skip_newlines_free; [apply b64_dec_enc|apply b64_enc_free..];
    try (by destruct Hpad as [[-> ->]|[-> ->]]); intros n Hn; rewrite Ascii.eqb_sym;
    apply (alphabet_free n Hn).
Qed.
End Base64.

Lemma b64_roundtrip s : b64_decode (b64_encode s) = Some s.
Proof. apply b64_decode_encode; [by left|by left]. Qed.

Lemma std_roundtrip s : std_decode (std_encode s) = Some s.
Proof. apply b64_decode_encode; [by right|by right]. Qed.

Lemma b64_encode_inj s t : b64_encode s = b64_encode t -> s = t.
Proof. intros E%(f_equal b64_decode). rewrite !b64_roundtrip in E. congruence. Qed.

Lemma std_encode_inj s t : std_encode s = std_encode t -> s = t.
Proof. intros E%(f_equal std_decode). rewrite !std_roundtrip in E. congruence. Qed.

Lemma b64_encode_nonul s : no_char nul (b64_encode s) = true.
Proof.
  apply (b64_enc_free url_alphabet); [|done..]. intros n Hn. by apply (alphabet_free url_alphabet (or_introl eq_refl)).
Qed.

Lemma b64_encode_nocolon s : no_char ":" (b64_encode s) = true.
Proof.
  apply (b64_enc_free url_alphabet); [|done..]. intros n Hn. by apply (alphabet_free url_alphabet (or_introl eq_refl)).
Qed.

Lemma hex_digit_table :
  forallb (fun n => forallb (fun m => negb (Ascii.eqb (hex_digit (Z.of_nat n)) (hex_digit (Z.of_nat m)))
                                       || Nat.eqb n m) (seq 0 16)) (seq 0 16) = true
  /\ forallb (fun n => negb (Ascii.eqb ":"%char (hex_digit (Z.of_nat n)))) (seq 0 16) = true.
Proof. split; vm_compute; reflexivity. Qed.

Lemma hex_digit_inj n m : 0 <= n < 16 -> 0 <= m < 16 -> hex_digit n = hex_digit m -> n = m.
Proof.
  intros Hn Hm E. destruct hex_digit_table as [H _].
  rewrite forallb_forall in H. specialize (H (Z.to_nat n)).
  rewrite List.in_seq, forallb_forall in H. specialize (H ltac:(lia) (Z.to_nat m)).
  rewrite List.in_seq in H. specialize (H ltac:(lia)). rewrite !Z2Nat.id in H by lia.
  rewrite E, Ascii.eqb_refl in H. simpl in H. apply Nat.eqb_eq in H. lia.
Qed.

Lemma hex_digit_nocolon n : 0 <= n < 16 -> Ascii.eqb ":"%char (hex_digit n) = false.
Proof.
  intros Hn. destruct hex_digit_table as [_ H]. rewrite forallb_forall in H.
  specialize (H (Z.to_nat n)). rewrite List.in_seq, Z2Nat.id in H by lia.
  specialize (H ltac:(lia)). by apply negb_true_iff.
Qed.

Lemma hex_encode_nocolon s : no_char ":"%char (hex_encode s) = true.
Proof.
  induction s as [|c s IH]; [done|]. cbn [hex_encode]. bytes. rewrite !no_char_cons, IH.
  rewrite !hex_digit_nocolon by (Z.to_euclidean_division_equations; lia). done.
Qed.

Lemma hex_encode_inj s t : hex_encode s = hex_encode t -> s = t.
Proof.
  revert t. induction s as [|c s IH]; intros [|d t]; cbn [hex_encode]; intros E;
    try discriminate E; [done|].
  injection E as E1 E2 E3. bytes.
  apply hex_digit_inj in E1, E2; try (Z.to_euclidean_division_equations; lia).
  f_equal; [|by apply IH]. apply byte_of_inj. Z.to_euclidean_division_equations; lia.
Qed.

Lemma hex_encode_len s : slen (hex_encode s) = 2 * slen s.
Proof. unfold slen. induction s as [|c s IH]; cbn [hex_encode String.length]; lia. Qed.

Lemma hex_value_digit n : 0 <= n < 16 -> hex_value (hex_digit n) = Some n.
Proof.
  intros Hn. assert (Ht : forallb (fun k => bool_decide (hex_value (hex_digit (Z.of_nat k)) = Some (Z.of_nat k)))
    (seq 0 16) = true) by (vm_compute; reflexivity).
  rewrite forallb_forall in Ht. specialize (Ht (Z.to_nat n)). rewrite Z2Nat.id in Ht by lia.
  eapply bool_decide_eq_true_1. apply Ht, in_seq. lia.
Qed.

Lemma hex_roundtrip s : hex_decode (hex_encode s) = Some s.
Proof.
  induction s as [|c s IH]; [done|]. cbn [hex_encode hex_decode]. pose proof (byte_of_range c) as Hc.
  rewrite !hex_value_digit, IH by (Z.to_euclidean_division_equations; lia).
  rewrite <- Z.div_mod by lia. unfold byte_of. by rewrite Nat2Z.id, ascii_nat_embedding.
Qed.

(** Decimal numbers hold no NUL byte and no colon. *)
Definition numeric_free (c : ascii) : bool := no_char c "-0123456789".

Lemma pretty_N_go_free c x s :
  numeric_free c = true -> no_char c s = true -> no_char c (pretty_N_go x s) = true.
Proof.
  intros Hc. revert s. induction (N.lt_wf_0 x) as [x _ IH]; intros s Hs.
  destruct (decide (0 < x)%N) as [Hx|Hx].
  - rewrite pretty_N_go_step by done. apply IH; [by apply N.div_lt|].
    rewrite no_char_cons, Hs, andb_true_r. unfold numeric_free in Hc.
    rewrite !no_char_cons, !andb_true_iff in Hc.
    destruct Hc as (H0 & H1 & H2 & H3 & H4 & H5 & H6 & H7 & H8 & H9 & H10 & _).
    unfold pretty_N_char. repeat (case_match; try done).
  - replace x with 0%N by lia. by rewrite pretty_N_go_0.
Qed.

Lemma pretty_Z_free c (n : Z) : numeric_free c = true -> no_char c (pretty n) = true.
Proof.
  intros Hc. assert (Hp : forall p : N, no_char c (pretty p) = true).
  { intros p. unfold pretty, pretty_N. case_decide; [|by apply pretty_N_go_free].
    unfold numeric_free in Hc. rewrite !no_char_cons, !andb_true_iff in Hc.
    destruct Hc as (_ & H0 & _). rewrite no_char_cons, H0. done. }
  destruct n; [|apply Hp|].
  - unfold numeric_free in Hc. rewrite !no_char_cons, !andb_true_iff in Hc.
    destruct Hc as (_ & H0 & _). unfold pretty, pretty_Z. rewrite no_char_cons, H0. done.
  - unfold pretty, pretty_Z. rewrite no_char_app. apply andb_true_iff. split; [|apply Hp].
    unfold numeric_free in Hc. rewrite !no_char_cons, !andb_true_iff in Hc.
    rewrite no_char_cons. by destruct Hc as [-> _].
Qed.

Lemma pretty_Z_nonul (n : Z) : no_char nul (pretty n) = true.
Proof. by apply pretty_Z_free. Qed.

(** ** Splitting and joining *)

Lemma Split_none sep s : no_char sep s = true -> Split sep s = [s].
Proof.
  induction s as [|c s IH]; [done|]. rewrite no_char_cons, andb_true_iff, negb_true_iff.
  intros [Hc Hs]. simpl. by rewrite Hc, IH.
Qed.

Lemma Split_app sep s t : no_char sep s = true -> Split sep (s +:+ String sep t) = s :: Split sep t.
Proof.
  induction s as [|c s IH]; simpl.
  - by rewrite Ascii.eqb_refl.
  - rewrite no_char_cons, andb_true_iff, negb_true_iff. intros [Hc Hs]. by rewrite Hc, IH.
Qed.

Lemma Split_nonempty sep s : Split sep s <> [].
Proof. destruct s as [|c s]; simpl; [done|]. destruct (Ascii.eqb sep c); [done|]. by destruct (Split sep s). Qed.

Lemma Join_cons x l sep : l <> [] -> Join (x :: l) sep = x +:+ sep +:+ Join l sep.
Proof. by destruct l. Qed.

Lemma Join_cons_char c x l sep : Join (String c x :: l) sep = String c (Join (x :: l) sep).
Proof. by destruct l. Qed.

(** Splitting cuts at every separator, and joining restores the string. *)
Lemma Split_Join sep s : Join (Split sep s) (String sep EmptyString) = s.
Proof.
  induction s as [|c s IH]; [done|]. simpl. destruct (Ascii.eqb_spec sep c) as [->|Hne].
  - rewrite Join_cons by apply Split_nonempty. by rewrite IH.
  - destruct (Split sep s) as [|x l] eqn:E; [by apply Split_nonempty in E|].
    by rewrite Join_cons_char, IH.
Qed.

Lemma Split_free sep s : Forall (fun x => no_char sep x = true) (Split sep s).
Proof.
  induction s as [|c s IH]; [by constructor|]. simpl. destruct (Ascii.eqb sep c) eqn:Hc; [by constructor|].
  destruct (Split sep s) as [|x l] eqn:E; [by apply Split_nonempty in E|].
  inversion_clear IH. constructor; [|done]. by rewrite no_char_cons, Hc.
Qed.

Lemma Split_Join_id sep l :
  l <> [] -> Forall (fun x => no_char sep x = true) l -> Split sep (Join l (String sep EmptyString)) = l.
Proof.
  intros Hl Hf. induction Hf as [|x l Hx Hf IH]; [done|]. destruct l as [|y l].
  - by apply Split_none.
  - rewrite Join_cons by done. change (String sep "" +:+ ?t) with (String sep t).
    rewrite Split_app by done. f_equal. by apply IH.
Qed.

Lemma Split_length_app sep s t :
  length (Split sep (s +:+ t)) = (length (Split sep s) + length (Split sep t) - 1)%nat.
Proof.
  induction s as [|c s IH]; simpl.
  - assert (length (Split sep t) <> 0)%nat by (intros E%nil_length_inv; by apply Split_nonempty in E). lia.
  - assert (Ht : length (Split sep t) <> 0%nat) by (intros E%nil_length_inv; by apply Split_nonempty in E).
    destruct (Ascii.eqb sep c); simpl; [rewrite IH; destruct (Split sep s) eqn:E; simpl; [by apply Split_nonempty in E|lia]|].
    destruct (Split sep (s +:+ t)) eqn:E1; [by apply Split_nonempty in E1|].
    destruct (Split sep s) eqn:E2; [by apply Split_nonempty in E2|]. simpl in *. lia.
Qed.

(** ** Framed fields *)

Lemma be_bytes_length n z : String.length (be_bytes n z) = n.
Proof. induction n; simpl; congruence. Qed.

Fixpoint be_value (s : string) : Z :=
  match s with
  | EmptyString => 0
  | String c s' => byte_of c * 256 ^ slen s' + be_value s'
  end.

Lemma byte_of_chr n : 0 <= n < 256 -> byte_of (byte_chr n) = n.
Proof. intros Hn. unfold byte_of, byte_chr. rewrite nat_ascii_embedding; lia. Qed.

Lemma be_value_bytes n z : be_value (be_bytes n z) = z mod 256 ^ Z.of_nat n.
Proof.
  induction n as [|n IH]; [by rewrite Z.mod_1_r|]. cbn [be_bytes be_value].
  rewrite IH, byte_of_chr by (apply Z.mod_pos_bound; lia). unfold slen. rewrite be_bytes_length.
  rewrite Nat2Z.inj_succ, Z.pow_succ_r, (Z.mul_comm 256) by lia.
  assert (0 < 256 ^ Z.of_nat n) by (apply Z.pow_pos_nonneg; lia).
  rewrite (Z.rem_mul_r z) by lia. lia.
Qed.

Lemma be_bytes_inj n a b :
  0 <= a < 256 ^ Z.of_nat n -> 0 <= b < 256 ^ Z.of_nat n -> be_bytes n a = be_bytes n b -> a = b.
Proof.
  intros Ha Hb E%(f_equal be_value). rewrite !be_value_bytes, !Z.mod_small in E by done. done.
Qed.

Lemma app_inj_length a a' b b' :
  String.length a = String.length a' -> a +:+ b = a' +:+ b' -> a = a' /\ b = b'.
Proof.
  revert a'. induction a as [|c a IH]; intros [|c' a']; simpl; intros Hl E; try discriminate Hl; [done|].
  injection E as -> E. destruct (IH a') as [-> ->]; [congruence|done|done].
Qed.

(** ** Prefixes and suffixes *)

Lemma take_drop_str n s : (take_str n s ++ drop_str n s)%string = s.
Proof. revert s. induction n as [|n IH]; intros [|c s]; simpl; [done..|]. exact (f_equal (String c) (IH s)). Qed.

Lemma take_str_length n s : String.length (take_str n s) = (n `min` String.length s)%nat.
Proof. revert s. induction n as [|n IH]; intros [|c s]; simpl; [done..|]. by rewrite IH. Qed.

Lemma drop_str_length n s : String.length (drop_str n s) = (String.length s - n)%nat.
Proof. revert s. induction n as [|n IH]; intros [|c s]; simpl; [done..|]. by rewrite IH. Qed.

Lemma take_str_all n s : (String.length s <= n)%nat -> take_str n s = s.
Proof. revert n. induction s as [|c s IH]; intros [|n]; simpl; intros Hn; [done|done|lia|]. rewrite IH by lia. done. Qed.
