(* ===== verification/Identity.v ===== *)
(** * Identities ([pkg/did/did.go], [daemon/identity/identity.go])

    The cryptographic primitives the daemon links against are the class
    [Crypto]; the code around them (did:key derivation and parsing, signature
    checks against a DID) is translated on top. *)

From stdpp Require Import base strings list.
From Stdlib Require Import ZArith Lia Ascii.
From S2P Require Import Prelude GoStd.

Local Open Scope string_scope.
Local Open Scope Z_scope.
#[local] Arguments String.append : simpl nomatch.

(** ** Primitives *)

(** base58 ([github.com/mr-tron/base58]), Ed25519 verification on a 32-byte
    key, SHA-256. *)
Class Crypto : Type := {
  base58_Encode : string -> string;
  base58_Decode : string -> option string;
  ed25519_check : string -> string -> string -> bool;
  ed25519_sign : string -> string -> string;
  ed25519_public : string -> string;
  Sum256 : string -> string }.

(** What the code relies on. *)
Class CryptoLaws `{Crypto} : Prop := {
  base58_roundtrip : forall b, base58_Decode (base58_Encode b) = Some b;
  ed25519_correct : forall sk msg, slen (ed25519_public sk) = 32 ->
    ed25519_check (ed25519_public sk) msg (ed25519_sign sk msg) = true;
  ed25519_nonempty : forall sk msg, slen (ed25519_public sk) = 32 -> ed25519_sign sk msg <> "";
  Sum256_inj : forall a b, Sum256 a = Sum256 b -> a = b }.

Module Identity.
Section Identity.
Context `{Crypto}.

(** [ed25519.Verify] panics on a key that is not 32 bytes long. *)
Definition ed25519_Verify (pub msg sig : string) : outcome bool :=
  if slen pub =? 32 then Ok (ed25519_check pub msg sig) else Panic.

(** ** pkg/did *)

Definition schemePrefix : string := "did:".
Definition keyPrefix : string := "did:key:z".

Definition base58_alphabet : string :=
  "123456789ABCDEFGHJKLMNPQRSTUVWXYZabcdefghijkmnopqrstuvwxyz".

Definition isBase58Char (r : ascii) : bool := negb (no_char r base58_alphabet).

Definition Validate (s : string) : outcome unit :=
  if negb (HasPrefix s keyPrefix) then Err (Errorf "not a did:key") else
  let key := drop_str (String.length keyPrefix) s in
  if slen key <? 44 then Err (Errorf "did:key key material too short") else
  if all_chars isBase58Char key then Ok tt
  else Err (Errorf "invalid base58 character in did:key").

Definition IsValid (s : string) : bool := is_ok (Validate s).

Definition Method (s : string) : string :=
  if negb (HasPrefix s schemePrefix) then EmptyString
  else fst (cut ":"%char (drop_str (String.length schemePrefix) s)).

Definition KeyMaterial (s : string) : string :=
  if negb (HasPrefix s keyPrefix) then EmptyString
  else drop_str (String.length keyPrefix) s.

(** The ellipsis in UTF-8. *)
Definition ellipsis : string :=
  String (ascii_of_nat 226) (String (ascii_of_nat 128) (String (ascii_of_nat 166) EmptyString)).

Definition Short (s : string) : string :=
  if slen s <=? 24 then s
  else take_str (String.length keyPrefix + 6) s ++ ellipsis
         ++ drop_str (String.length s - 4) s.

(** ** daemon/identity *)

Definition ed25519Prefix : string :=
  String (ascii_of_nat 237) (String (ascii_of_nat 1) EmptyString).

Definition didKeyFromPub (pub : string) : string :=
  "did:key:z" ++ base58_Encode (ed25519Prefix ++ pub).

Definition DIDFromPubBytes (pub : string) : string := didKeyFromPub pub.

Definition PubKeyFromDID (did : string) : outcome string :=
  if negb (HasPrefix did keyPrefix) then Err (Errorf "invalid did:key format") else
  match base58_Decode (drop_str (String.length keyPrefix) did) with
  | None => Err (Errorf "base58 decode")
  | Some decoded =>
      if slen decoded <? 2 + 32 then Err (Errorf "did:key too short")
      else Ok (drop_str 2 decoded)
  end.

Definition VerifyDID (did msg sig : string) : outcome bool :=
  match PubKeyFromDID did with
  | Ok pub => ed25519_Verify pub msg sig
  | Err e => Err e
  | Panic => Panic
  end.

End Identity.
End Identity.

Import Identity.

(** ** Lemmas *)

Section Facts.
Context `{CryptoLaws}.

Lemma PubKeyFromDID_prefix b :
  slen b >= 34 -> PubKeyFromDID (keyPrefix ++ base58_Encode b) = Ok (drop_str 2 b).
Proof.
  intros Hb. unfold PubKeyFromDID. rewrite prefix_app. simpl negb. cbv iota.
  rewrite drop_str_app, base58_roundtrip. destruct (slen b <? 2 + 32) eqn:E; [lia|done].
Qed.

Lemma did_roundtrip pub : slen pub = 32 -> PubKeyFromDID (DIDFromPubBytes pub) = Ok pub.
Proof.
  intros Hp. unfold DIDFromPubBytes, didKeyFromPub. apply (PubKeyFromDID_prefix (ed25519Prefix ++ pub)).
  rewrite slen_app, Hp. compute. congruence.
Qed.

Lemma DIDFromPubBytes_inj p q : DIDFromPubBytes p = DIDFromPubBytes q -> p = q.
Proof.
  unfold DIDFromPubBytes, didKeyFromPub. intros E.
  apply String.app_inj in E. apply (f_equal base58_Decode) in E.
  rewrite !base58_roundtrip in E. injection E as E. done.
Qed.

(** A signature made with the key of a DID is accepted under that DID. *)
Lemma VerifyDID_complete sk msg :
  slen (ed25519_public sk) = 32 ->
  VerifyDID (DIDFromPubBytes (ed25519_public sk)) msg (ed25519_sign sk msg) = Ok true.
Proof.
  intros Hs. unfold VerifyDID. rewrite did_roundtrip by done.
  unfold ed25519_Verify. rewrite Hs. simpl. by rewrite ed25519_correct.
Qed.
End Facts.

(** ** A concrete instance *)

(** Primitives that satisfy the laws: the identity as base58 and as hash, and
    a signature that is the key followed by the message. *)
#[export] Instance toy_crypto : Crypto := {|
  base58_Encode b := b;
  base58_Decode b := Some b;
  ed25519_check pk msg sig := String.eqb sig (pk ++ msg);
  ed25519_sign sk msg := sk ++ msg;
  ed25519_public sk := sk;
  Sum256 b := b |}.

#[export] Instance toy_laws : CryptoLaws.
Proof.
  split; [done| | |done]; intros sk msg Hs; simpl.
  - by rewrite String.eqb_refl.
  - simpl in Hs. by destruct sk.
Qed.

(** Another: printable DIDs and short signatures. *)
Definition ascii_crypto : Crypto := {|
  base58_Encode b := hex_encode b;
  base58_Decode b := hex_decode b;
  ed25519_check pk msg sig := String.eqb sig pk;
  ed25519_sign sk msg := sk;
  ed25519_public sk := sk;
  Sum256 b := b |}.

Lemma ascii_laws : @CryptoLaws ascii_crypto.
Proof.
  split; simpl; [apply hex_roundtrip| | |done]; intros sk msg Hs.
  - by rewrite String.eqb_refl.
  - simpl in Hs. by destruct sk.
Qed.

Definition toy_key : string := "0123456789abcdef0123456789abcdef".

(** A did:key identifier determines its key: for every 32-byte public key
    the key parsed back from the DID derived from it is that key, so distinct
    keys have distinct DIDs, and a signature made with the private key is
    accepted by VerifyDID under the DID. *)
Theorem did_key_binding `{CryptoLaws} sk msg q :
  slen (ed25519_public sk) = 32 ->
  let did := DIDFromPubBytes (ed25519_public sk) in
  PubKeyFromDID did = Ok (ed25519_public sk) /\
  (DIDFromPubBytes q = did -> q = ed25519_public sk) /\
  VerifyDID did msg (ed25519_sign sk msg) = Ok true.
Proof.
  intros Hs did. split; [by apply did_roundtrip|]. split; [apply DIDFromPubBytes_inj|].
  by apply VerifyDID_complete.
Qed.

Lemma did_key_binding_witness :
  PubKeyFromDID (DIDFromPubBytes toy_key) = Ok toy_key /\
  (DIDFromPubBytes toy_key = DIDFromPubBytes toy_key -> toy_key = toy_key) /\
  VerifyDID (DIDFromPubBytes toy_key) "hello" (ed25519_sign toy_key "hello") = Ok true.
Proof. exact (@did_key_binding toy_crypto toy_laws toy_key "hello" toy_key eq_refl). Defined.

(** VerifyDID panics on a DID whose base58 payload is longer than 34
    bytes: PubKeyFromDID checks only that the payload is not too short, and
    ed25519.Verify panics on a key that is not 32 bytes long.  Every DID taken
    off the wire reaches this code. *)
Theorem VerifyDID_long_panics `{CryptoLaws} payload msg sig :
  slen payload > 34 -> VerifyDID (keyPrefix ++ base58_Encode payload) msg sig = Panic.
Proof.
  intros Hp. unfold VerifyDID. rewrite PubKeyFromDID_prefix by lia. unfold ed25519_Verify.
  destruct (slen (drop_str 2 payload) =? 32) eqn:E; [|done].
  exfalso. unfold slen in *. destruct payload as [|a [|b s]]; simpl in *; lia.
Qed.

Lemma VerifyDID_long_panics_witness :
  VerifyDID (keyPrefix ++ base58_Encode (toy_key ++ "xyz")) "m" "s" = Panic.
Proof. apply (VerifyDID_long_panics (toy_key ++ "xyz")). reflexivity. Defined.
