(* ===== verification/Session.v ===== *)
(** * Authenticated SDK sessions ([daemon/session/session.go])

    The challenge and session tables of the session manager, its operations,
    and the step relation of a manager shared by concurrent callers: every
    step is one section under the manager's mutex, and a completion in
    progress between its two sections is part of the state.  Times are
    nanoseconds; the nonce, token and UUID drawn are arguments ([None] when
    [rand.Read] fails). *)

From stdpp Require Import base gmap strings list pretty.
From Stdlib Require Import ZArith Lia Ascii.
From S2P Require Import Prelude GoStd Identity.

Local Open Scope string_scope.
Local Open Scope Z_scope.
Import Identity.

Module Session.
Section Session.
Context `{Crypto}.

Definition DefaultChallengeTTL : Z := 60 * 1000000000.
Definition DefaultSessionTTL : Z := 15 * 60 * 1000000000.

(** ** Data *)

(** [pb.AgentIdentity]. *)
Record AgentIdentity : Type := mkIdentity {
  Did : string; PublicKey : string; Multiaddrs : list string;
  SigningPublicKey : string; EncryptionPublicKey : string }.

Record challenge : Type := mkChallenge {
  c_identity : AgentIdentity; c_nonce : string; c_expires : Z }.

Record session : Type := mkSession {
  s_agentDID : string; s_expires : Z; s_identity : AgentIdentity }.

(** The sessions are keyed by the SHA-256 of their token. *)
Record Manager : Type := mkManager {
  nodeID : string; challengeTTL : Z; sessionTTL : Z;
  challenges : gmap string challenge; sessions : gmap string session }.

Record AgentChallenge : Type := mkAgentChallenge {
  ChallengeId : string; Nonce : string; ch_ExpiresAtUnixMs : Z }.
Record AgentSession : Type := mkAgentSession {
  Token : string; AgentDid : string; se_ExpiresAtUnixMs : Z }.

(** [pb.CompleteAgentSessionRequest]; of the card only the DID is read. *)
Record CompleteRequest : Type := mkCompleteRequest {
  rq_ChallengeId : string; rq_Signature : string; rq_CardDid : option string }.

Definition UnixMilli (t : Z) : Z := t / 1000000.

Definition New (node : string) : Manager :=
  mkManager node DefaultChallengeTTL DefaultSessionTTL ∅ ∅.

Definition with_challenges (f : gmap string challenge -> gmap string challenge) (m : Manager) :=
  mkManager (nodeID m) (challengeTTL m) (sessionTTL m) (f (challenges m)) (sessions m).
Definition with_sessions (f : gmap string session -> gmap string session) (m : Manager) :=
  mkManager (nodeID m) (challengeTTL m) (sessionTTL m) (challenges m) (f (sessions m)).

(** ** Operations *)

(** Entries that expired at [now] or before go. *)
Definition pruneLocked (now : Z) (m : Manager) : Manager :=
  mkManager (nodeID m) (challengeTTL m) (sessionTTL m)
    (filter (fun p => now < c_expires (snd p)) (challenges m))
    (filter (fun p => now < s_expires (snd p)) (sessions m)).

Definition validateIdentity (agent : option AgentIdentity) : outcome AgentIdentity :=
  match agent with
  | None => Err (Errorf "agent identity requires did:key Ed25519 and X25519 public keys")
  | Some a =>
      if String.eqb (Did a) "" || negb (slen (SigningPublicKey a) =? 32)
         || negb (slen (EncryptionPublicKey a) =? 32)
      then Err (Errorf "agent identity requires did:key Ed25519 and X25519 public keys")
      else if negb (String.eqb (DIDFromPubBytes (SigningPublicKey a)) (Did a))
      then Err (Errorf "agent DID does not match signing public key")
      else Ok a
  end.

Definition Begin (now : Z) (nonce : option string) (uuid : string) (agent : option AgentIdentity)
    (m : Manager) : outcome AgentChallenge * Manager :=
  match validateIdentity agent with
  | Ok a =>
      match nonce with
      | None => (Err (Errorf "session nonce"), m)
      | Some nonce =>
          let expires := now + challengeTTL m in
          (Ok (mkAgentChallenge uuid nonce (UnixMilli expires)),
           with_challenges (<[uuid := mkChallenge a nonce expires]>) (pruneLocked now m))
      end
  | Err e => (Err e, m)
  | Panic => (Panic, m)
  end.

Definition signingPayload (node challengeID nonce : string) (expires : Z) (did : string) : string :=
  "moltmesh-agent-session-v1" +:+ nul_str +:+ node +:+ nul_str +:+ challengeID +:+ nul_str
  +:+ b64_encode nonce +:+ nul_str +:+ pretty (UnixMilli expires) +:+ nul_str +:+ did.

(** The first section of Complete and the checks on what it took out: the
    challenge is removed before anything is verified. *)
Definition complete_take (now : Z) (req : option CompleteRequest) (m : Manager)
    : outcome (string * challenge) * Manager :=
  match req with
  | None => (Err (Errorf "invalid session completion"), m)
  | Some req =>
      if String.eqb (rq_ChallengeId req) "" || negb (slen (rq_Signature req) =? 64)
      then (Err (Errorf "invalid session completion"), m) else
      let m1 := pruneLocked now m in
      let found := challenges m1 !! rq_ChallengeId req in
      let m2 := with_challenges (delete (rq_ChallengeId req)) m1 in
      match found with
      | None => (Err (Errorf "session challenge is expired or unknown"), m2)
      | Some c =>
          if negb (now <? c_expires c)
          then (Err (Errorf "session challenge is expired or unknown"), m2) else
          if match rq_CardDid req with
             | Some did => negb (String.eqb did "") && negb (String.eqb did (Did (c_identity c)))
             | None => false
             end
          then (Err (Errorf "session card DID does not match challenge identity"), m2) else
          match ed25519_Verify (SigningPublicKey (c_identity c))
                  (signingPayload (nodeID m2) (rq_ChallengeId req) (c_nonce c) (c_expires c)
                     (Did (c_identity c)))
                  (rq_Signature req) with
          | Ok true => (Ok (rq_ChallengeId req, c), m2)
          | Ok false => (Err (Errorf "invalid session challenge signature"), m2)
          | Err e => (Err e, m2)
          | Panic => (Panic, m2)
          end
      end
  end.

(** The second section: the session is filed under the hash of its token. *)
Definition complete_store (now : Z) (tokenBytes : string) (c : challenge) (m : Manager)
    : AgentSession * Manager :=
  let token := b64_encode tokenBytes in
  let expires := now + sessionTTL m in
  (mkAgentSession token (Did (c_identity c)) (UnixMilli expires),
   with_sessions (<[Sum256 token := mkSession (Did (c_identity c)) expires (c_identity c)]>) m).

Definition Complete (now : Z) (tokenBytes : option string) (req : option CompleteRequest)
    (m : Manager) : outcome AgentSession * Manager :=
  match complete_take now req m with
  | (Ok (_, c), m1) =>
      match tokenBytes with
      | None => (Err (Errorf "session token"), m1)
      | Some tb => let '(s, m2) := complete_store now tb c m1 in (Ok s, m2)
      end
  | (Err e, m1) => (Err e, m1)
  | (Panic, m1) => (Panic, m1)
  end.

Definition get (now : Z) (token : string) (m : Manager) : outcome session * Manager :=
  if String.eqb token "" then (Err (Errorf "missing agent session token"), m) else
  let m1 := pruneLocked now m in
  match sessions m1 !! Sum256 token with
  | Some s => if now <? s_expires s then (Ok s, m1)
              else (Err (Errorf "invalid or expired agent session token"), m1)
  | None => (Err (Errorf "invalid or expired agent session token"), m1)
  end.

Definition Authenticate (now : Z) (token : string) (m : Manager) : outcome string * Manager :=
  match get now token m with
  | (Ok s, m1) => (Ok (s_agentDID s), m1)
  | (Err e, m1) => (Err e, m1)
  | (Panic, m1) => (Panic, m1)
  end.

Definition IdentityOf (now : Z) (token : string) (m : Manager) : outcome AgentIdentity * Manager :=
  match get now token m with
  | (Ok s, m1) => (Ok (s_identity s), m1)
  | (Err e, m1) => (Err e, m1)
  | (Panic, m1) => (Panic, m1)
  end.

Definition Close (token : string) (m : Manager) : Manager :=
  if String.eqb token "" then m else with_sessions (delete (Sum256 token)) m.

Definition HasSession (now : Z) (did : string) (m : Manager) : bool * Manager :=
  if String.eqb did "" then (false, m) else
  let m1 := pruneLocked now m in
  (existsb (fun p => String.eqb (s_agentDID (snd p)) did) (map_to_list (sessions m1)), m1).

(** The loop of MultipleAgents with its set of agents seen so far. *)
Fixpoint multiple_loop (l : list (string * session)) (agents : gset string) : bool :=
  match l with
  | [] => false
  | p :: l' =>
      let agents := {[ s_agentDID (snd p) ]} ∪ agents in
      if (1 <? size agents)%nat then true else multiple_loop l' agents
  end.

Definition MultipleAgents (now : Z) (m : Manager) : bool * Manager :=
  let m1 := pruneLocked now m in
  (multiple_loop (map_to_list (sessions m1)) ∅, m1).

(** ** Concurrent callers *)

(** A completion whose challenge was taken and verified but whose session is
    not stored yet. *)
Record taken : Type := mkTaken {
  k_id : string; k_challenge : challenge; k_signature : string; k_now : Z }.

(** The manager, the completions in progress, and the history: the ids of the
    challenges issued and the completions that stored a session, each with the
    token it answered. *)
Record sys : Type := mkSys {
  mgr : Manager; inflight : list taken; issued : list string; minted : list (string * taken) }.

Inductive sstep : sys -> sys -> Prop :=
| step_begin s now nonce uuid agent ch m' :
    Begin now nonce uuid agent (mgr s) = (Ok ch, m') ->
    sstep s (mkSys m' (inflight s) (uuid :: issued s) (minted s))
| step_take s now req c m' :
    complete_take now (Some req) (mgr s) = (Ok c, m') ->
    sstep s (mkSys m' (mkTaken (fst c) (snd c) (rq_Signature req) now :: inflight s)
               (issued s) (minted s))
| step_take_failed s now req r m' :
    complete_take now req (mgr s) = (r, m') -> is_ok r = false ->
    sstep s (mkSys m' (inflight s) (issued s) (minted s))
| step_store s l1 t l2 tokenBytes answer m' :
    inflight s = (l1 ++ t :: l2)%list ->
    complete_store (k_now t) tokenBytes (k_challenge t) (mgr s) = (answer, m') ->
    sstep s (mkSys m' (l1 ++ l2)%list (issued s) ((Token answer, t) :: minted s))
| step_drop s l1 t l2 :
    inflight s = (l1 ++ t :: l2)%list ->
    sstep s (mkSys (mgr s) (l1 ++ l2)%list (issued s) (minted s))
| step_get s now token :
    sstep s (mkSys (snd (get now token (mgr s))) (inflight s) (issued s) (minted s))
| step_close s token :
    sstep s (mkSys (Close token (mgr s)) (inflight s) (issued s) (minted s))
| step_has s now did :
    sstep s (mkSys (snd (HasSession now did (mgr s))) (inflight s) (issued s) (minted s))
| step_multiple s now :
    sstep s (mkSys (snd (MultipleAgents now (mgr s))) (inflight s) (issued s) (minted s)).

Definition initial (node : string) : sys := mkSys (New node) [] [] [].

End Session.
End Session.
