(* ===== verification/SessionFacts.v ===== *)
(** * Properties of the session manager

    The invariant of the shared manager over every interleaving of its
    callers, and the theorems it gives: sessions exist only for verified
    challenges, a challenge is used at most once, tokens expire; plus the
    unambiguity of the signed payload and the specification of the agent
    queries. *)

From stdpp Require Import base gmap strings list pretty relations.
From Stdlib Require Import ZArith Lia Ascii.
From S2P Require Import Prelude GoStd Identity Session.

Local Open Scope string_scope.
Local Open Scope Z_scope.
#[local] Arguments String.append : simpl nomatch.
Import Identity Session.

Section SessionFacts.
Context `{Crypto}.

Definition valid_identity (a : AgentIdentity) : Prop := validateIdentity (Some a) = Ok a.

(** The completion's signature was checked over the challenge it took. *)
Definition verified (node : string) (t : taken) : Prop :=
  let c := k_challenge t in
  valid_identity (c_identity c) /\ k_now t < c_expires c /\
  ed25519_check (SigningPublicKey (c_identity c))
    (signingPayload node (k_id t) (c_nonce c) (c_expires c) (Did (c_identity c)))
    (k_signature t) = true.

(** The session, filed under the hash [h], is the one completion [t] mints
    with the token [tok]. *)
Definition minted_by (h tok : string) (t : taken) (s : session) : Prop :=
  h = Sum256 tok /\
  s_identity s = c_identity (k_challenge t) /\ s_agentDID s = Did (c_identity (k_challenge t)) /\
  s_expires s = k_now t + DefaultSessionTTL.

Definition uses (id : string) (l : list taken) : nat := length (filter (fun t => k_id t = id) l).
Definition issues (id : string) (l : list string) : nat := length (filter (fun x => x = id) l).
Definition open_challenge (id : string) (m : Manager) : nat :=
  match challenges m !! id with Some _ => 1 | None => 0 end.

Record sys_inv (node : string) (s : sys) : Prop := {
  si_node : nodeID (mgr s) = node /\ sessionTTL (mgr s) = DefaultSessionTTL;
  si_challenges : map_Forall (fun _ c => valid_identity (c_identity c)) (challenges (mgr s));
  si_inflight : Forall (verified node) (inflight s);
  si_minted : Forall (verified node ∘ snd) (minted s);
  si_sessions : map_Forall (fun h x => exists tok t, (tok, t) ∈ minted s /\ minted_by h tok t x)
                  (sessions (mgr s));
  si_count : forall id,
    (uses id (snd <$> minted s) + uses id (inflight s) + open_challenge id (mgr s) <= issues id (issued s))%nat }.

Lemma valid_identity_spec a :
  valid_identity a -> slen (SigningPublicKey a) = 32 /\ DIDFromPubBytes (SigningPublicKey a) = Did a.
Proof.
  unfold valid_identity, validateIdentity. destruct (_ || _) eqn:E1; [done|].
  destruct (negb (String.eqb (DIDFromPubBytes (SigningPublicKey a)) (Did a))) eqn:E2; [done|].
  intros _. apply orb_false_iff in E1 as [[_ E1]%orb_false_iff _].
  apply negb_false_iff in E1, E2. split; [lia|]. by apply String.eqb_eq.
Qed.

Lemma uses_app id l1 l2 : uses id (l1 ++ l2) = (uses id l1 + uses id l2)%nat.
Proof. unfold uses. by rewrite filter_app, length_app. Qed.

Lemma uses_cons id t l : uses id (t :: l) = ((if decide (k_id t = id) then 1 else 0) + uses id l)%nat.
Proof. unfold uses. rewrite filter_cons. by case_decide. Qed.

Lemma issues_cons id x l : issues id (x :: l) = ((if decide (x = id) then 1 else 0) + issues id l)%nat.
Proof. unfold issues. rewrite filter_cons. by case_decide. Qed.

Lemma open_challenge_prune id now m : (open_challenge id (pruneLocked now m) <= open_challenge id m)%nat.
Proof.
  unfold open_challenge. simpl. destruct (filter _ (challenges m) !! id) eqn:E; [|lia].
  apply map_lookup_filter_Some_1_1 in E. by rewrite E.
Qed.

(** Pruning keeps the invariant: it only removes entries. *)
Lemma prune_inv node s now :
  sys_inv node s ->
  sys_inv node (mkSys (pruneLocked now (mgr s)) (inflight s) (issued s) (minted s)).
Proof.
  intros [H1 H2 H3 H4 H5 H6]. split; simpl; try done.
  - intros id c [? _]%map_lookup_filter_Some. by eapply H2.
  - intros id c [? _]%map_lookup_filter_Some. by eapply H5.
  - intros id. specialize (H6 id). pose proof (open_challenge_prune id now (mgr s)). lia.
Qed.

(** What a successful first section of Complete established. *)
Lemma complete_take_ok now req m c m' :
  complete_take now (Some req) m = (Ok c, m') ->
  exists ch, c = (rq_ChallengeId req, ch) /\
    challenges (pruneLocked now m) !! rq_ChallengeId req = Some ch /\
    m' = with_challenges (delete (rq_ChallengeId req)) (pruneLocked now m) /\
    now < c_expires ch /\
    ed25519_check (SigningPublicKey (c_identity ch))
      (signingPayload (nodeID m) (rq_ChallengeId req) (c_nonce ch) (c_expires ch)
         (Did (c_identity ch))) (rq_Signature req) = true.
Proof.
  unfold complete_take. cbv zeta. destruct (_ || _); [done|].
  destruct (challenges (pruneLocked now m) !! _) as [ch|] eqn:Hch; [|done].
  destruct (negb (now <? c_expires ch)) eqn:Hexp; [done|].
  destruct (match rq_CardDid req with Some _ => _ | None => _ end); [done|].
  unfold ed25519_Verify. destruct (slen _ =? 32); [|done].
  destruct (ed25519_check _ _ _) eqn:Hv; [|done]. intros [= <- <-].
  exists ch. repeat split; try done. apply negb_false_iff in Hexp. lia.
Qed.

(** Whatever it returns, the first section removes the challenge it names. *)
Lemma complete_take_state now req m r m' :
  complete_take now req m = (r, m') ->
  m' = m \/ exists id, m' = with_challenges (delete id) (pruneLocked now m).
Proof.
  unfold complete_take. destruct req as [req|]; [|intros [= _ <-]; by left].
  cbv zeta. destruct (_ || _); [intros [= _ <-]; by left|]. intros E. right.
  exists (rq_ChallengeId req). repeat (case_match; try (by injection E as _ <-)).
Qed.

Lemma delete_inv node s id :
  sys_inv node s ->
  sys_inv node (mkSys (with_challenges (delete id) (mgr s)) (inflight s) (issued s) (minted s)).
Proof.
  intros [H1 H2 H3 H4 H5 H6]. split; simpl; try done.
  - intros id' c [_ ?]%lookup_delete_Some. by eapply H2.
  - intros id'. specialize (H6 id'). unfold open_challenge in *. simpl.
    destruct (decide (id = id')) as [->|Hne]; [rewrite lookup_delete_eq|rewrite lookup_delete_ne by done];
      [|done]. lia.
Qed.

Lemma begin_inv node s now nonce uuid agent ch m' :
  sys_inv node s -> Begin now nonce uuid agent (mgr s) = (Ok ch, m') ->
  sys_inv node (mkSys m' (inflight s) (uuid :: issued s) (minted s)).
Proof.
  intros Hs%(prune_inv _ _ now). unfold Begin.
  destruct (validateIdentity agent) as [a|e|] eqn:Ha; [|done..].
  assert (valid_identity a) as Hv.
  { destruct agent as [b|]; [|done]. unfold valid_identity.
    assert (b = a) as <-; [|done]. revert Ha. unfold validateIdentity.
    repeat (case_match; try done). congruence. }
  destruct nonce as [nonce|]; [|done]. intros [= _ <-].
  destruct Hs as [H1 H2 H3 H4 H5 H6]. split; simpl in *; try done.
  - by apply map_Forall_insert_2.
  - intros id. specialize (H6 id). rewrite issues_cons. unfold open_challenge in *. simpl in *.
    destruct (decide (uuid = id)) as [->|Hne];
      [rewrite lookup_insert_eq|rewrite lookup_insert_ne by done]; [|lia].
    destruct (_ !! id); lia.
Qed.

Lemma take_inv node s now req c m' :
  sys_inv node s -> complete_take now (Some req) (mgr s) = (Ok c, m') ->
  sys_inv node (mkSys m' (mkTaken (fst c) (snd c) (rq_Signature req) now :: inflight s)
                 (issued s) (minted s)).
Proof.
  intros Hs (ch & -> & Hch & -> & Hexp & Hv)%complete_take_ok.
  pose proof (si_node _ _ Hs) as [Hn _]. apply (prune_inv _ _ now) in Hs.
  pose proof (si_challenges _ _ Hs _ _ Hch) as Hval. simpl in Hval.
  pose proof (si_count _ _ Hs) as Hcount.
  apply (delete_inv _ _ (rq_ChallengeId req)) in Hs.
  destruct Hs as [H1 H2 H3 H4 H5 H6]. split; simpl in *; try done.
  - constructor; [|done]. unfold verified. simpl. by rewrite <- Hn.
  - intros id. rewrite uses_cons. simpl. case_decide as E; [subst id|apply H6].
    specialize (Hcount (rq_ChallengeId req)). unfold open_challenge in *. simpl in *.
    rewrite Hch in Hcount. rewrite lookup_delete_eq. lia.
Qed.

Lemma drop_inv node s l1 t l2 :
  sys_inv node s -> inflight s = (l1 ++ t :: l2)%list ->
  sys_inv node (mkSys (mgr s) (l1 ++ l2)%list (issued s) (minted s)).
Proof.
  intros [H1 H2 H3 H4 H5 H6] E. split; simpl; try done.
  - rewrite E in H3. apply Forall_app in H3 as [? H3]. apply Forall_cons in H3 as [_ ?].
    by apply Forall_app.
  - intros id. specialize (H6 id). rewrite E, uses_app, uses_cons in H6. rewrite uses_app. lia.
Qed.

Lemma store_inv node s l1 t l2 tokenBytes answer m' :
  sys_inv node s -> inflight s = (l1 ++ t :: l2)%list ->
  complete_store (k_now t) tokenBytes (k_challenge t) (mgr s) = (answer, m') ->
  sys_inv node (mkSys m' (l1 ++ l2)%list (issued s) ((Token answer, t) :: minted s)).
Proof.
  intros Hs E [= <- <-]. pose proof (drop_inv _ _ _ _ _ Hs E) as Hd.
  pose proof (si_inflight _ _ Hs) as Hin. rewrite E in Hin.
  apply Forall_app in Hin as [_ Hin]. apply Forall_cons in Hin as [Ht _].
  pose proof (si_node _ _ Hs) as [Hn Httl]. pose proof (si_count _ _ Hs) as Hc. rewrite E in Hc.
  destruct Hd as [H1 H2 H3 H4 H5 H6]. split; simpl in *; try done.
  - by constructor.
  - apply map_Forall_insert_2.
    + exists (b64_encode tokenBytes), t. split; [by left|]. unfold minted_by. simpl. by rewrite Httl.
    + intros h x (tok & t' & ? & ?)%H5. exists tok, t'. split; [by right|done].
  - intros id. specialize (Hc id). rewrite uses_app, uses_cons in Hc.
    change (uses id (t :: (snd <$> minted s)) + uses id (l1 ++ l2) + open_challenge id (mgr s)
            <= issues id (issued s))%nat.
    rewrite uses_cons, uses_app. lia.
Qed.

Lemma sstep_inv node s s' : sys_inv node s -> sstep s s' -> sys_inv node s'.
Proof.
  intros Hs Hstep. destruct Hstep.
  - by eapply begin_inv.
  - by eapply take_inv.
  - destruct (complete_take_state _ _ _ _ _ H0) as [->|[id ->]]; [by destruct s|].
    by apply (delete_inv _ (mkSys _ _ _ _)), prune_inv.
  - by eapply store_inv.
  - by eapply drop_inv.
  - unfold get. destruct (String.eqb token ""); [by destruct s|].
    cbv zeta. destruct (_ !! _) as [x|]; [destruct (now <? s_expires x)|]; by apply prune_inv.
  - unfold Close. destruct (String.eqb token ""); [by destruct s|].
    destruct Hs as [H1 H2 H3 H4 H5 H6]. split; simpl; try done.
    intros h x [_ ?]%lookup_delete_Some. by eapply H5.
  - unfold HasSession. destruct (String.eqb did ""); [by destruct s|]. by apply prune_inv.
  - by apply prune_inv.
Qed.

Lemma initial_inv node : sys_inv node (initial node).
Proof.
  split; simpl; try done; try apply map_Forall_empty; try constructor.
Qed.

Lemma reachable_inv node s : rtc sstep (initial node) s -> sys_inv node s.
Proof.
  intros Hr. assert (forall a b, rtc sstep a b -> sys_inv node a -> sys_inv node b) as Hinv.
  { induction 1; [done|]. intros. eauto using sstep_inv. }
  apply (Hinv _ _ Hr), initial_inv.
Qed.

(** ** The agent queries *)

Lemma multiple_loop_spec l agents :
  (size agents <= 1)%nat ->
  multiple_loop l agents = true <->
  (1 < size (list_to_set (s_agentDID ∘ snd <$> l) ∪ agents : gset string))%nat.
Proof.
  revert agents. induction l as [|p l IH]; intros agents Hsz; simpl.
  - rewrite union_empty_l_L. split; [done|lia].
  - match goal with |- _ <-> (_ < size ?X)%nat =>
      replace X with (list_to_set (s_agentDID ∘ snd <$> l) ∪ ({[s_agentDID p.2]} ∪ agents)
                        : gset string) by set_solver end.
    destruct (1 <? size ({[s_agentDID p.2]} ∪ agents))%nat eqn:E.
    + apply Nat.ltb_lt in E. split; [|done]. intros _.
      eapply Nat.lt_le_trans; [exact E|]. apply subseteq_size. set_solver.
    + apply Nat.ltb_ge in E. by rewrite IH.
Qed.

Lemma size_gt_1 (X : gset string) : (1 < size X)%nat <-> exists x y, x ∈ X /\ y ∈ X /\ x <> y.
Proof.
  split.
  - intros Hs. destruct (size_pos_elem_of X) as [x Hx]; [lia|].
    destruct (size_pos_elem_of (X ∖ {[x]})) as [y Hy].
    { rewrite size_difference by set_solver. rewrite size_singleton. lia. }
    exists x, y. set_solver.
  - intros (x & y & Hx & Hy & Hne).
    assert ({[x; y]} ⊆ X) as Hsub%subseteq_size by set_solver.
    rewrite size_union, !size_singleton in Hsub by set_solver. lia.
Qed.

(** The sessions a query at [now] considers. *)
Definition live (now : Z) (m : Manager) (s : session) : Prop :=
  exists h, sessions m !! h = Some s /\ now < s_expires s.

Lemma live_pruned now m s :
  live now m s <-> exists h, (h, s) ∈ map_to_list (sessions (pruneLocked now m)).
Proof.
  unfold live. simpl. setoid_rewrite elem_of_map_to_list.
  setoid_rewrite map_lookup_filter_Some. done.
Qed.

Lemma MultipleAgents_live now m :
  fst (MultipleAgents now m) = true <->
  exists s1 s2, live now m s1 /\ live now m s2 /\ s_agentDID s1 <> s_agentDID s2.
Proof.
  unfold MultipleAgents. simpl fst. rewrite multiple_loop_spec by (rewrite size_empty; lia).
  rewrite union_empty_r_L, size_gt_1. setoid_rewrite live_pruned.
  setoid_rewrite elem_of_list_to_set. setoid_rewrite list_elem_of_fmap. split.
  - intros (x & y & ([h1 s1] & -> & H1) & ([h2 s2] & -> & H2) & Hne). eauto 10.
  - intros (s1 & s2 & (h1 & H1) & (h2 & H2) & Hne).
    exists (s_agentDID s1), (s_agentDID s2). split; [by exists (h1, s1)|].
    split; [by exists (h2, s2)|done].
Qed.

Lemma HasSession_live now did m :
  fst (HasSession now did m) = true <->
  did <> "" /\ exists s, live now m s /\ s_agentDID s = did.
Proof.
  unfold HasSession. destruct (String.eqb_spec did "") as [->|Hne]; simpl.
  { split; [done|]. by intros [? _]. }
  rewrite existsb_exists. setoid_rewrite live_pruned. split.
  - intros ([h s] & Hin & E%String.eqb_eq). split; [done|]. exists s. split; [|done].
    exists h. by apply list_elem_of_In.
  - intros (_ & s & (h & Hin) & <-). exists (h, s). split; [by apply list_elem_of_In|].
    apply String.eqb_refl.
Qed.

End SessionFacts.

(** ** Properties *)

(** A run of the manager that mints one session, used by the witnesses. *)
Definition toy_did : string := @DIDFromPubBytes toy_crypto toy_key.
Definition toy_agent : AgentIdentity := mkIdentity toy_did "" [] toy_key toy_key.

#[local] Instance sized_crypto : Crypto := {|
  base58_Encode b := b;
  base58_Decode b := Some b;
  ed25519_check pk msg sig := String.eqb sig (toy_key +:+ toy_key);
  ed25519_sign sk msg := toy_key +:+ toy_key;
  ed25519_public sk := sk;
  Sum256 b := b |}.

Definition toy_request : CompleteRequest := mkCompleteRequest "ch1" (toy_key +:+ toy_key) None.
Definition toy_begun : Manager := snd (Begin 0 (Some "nonce") "ch1" (Some toy_agent) (New "node")).
Definition toy_taken : Manager := snd (complete_take 5 (Some toy_request) toy_begun).
Definition toy_challenge : challenge := mkChallenge toy_agent "nonce" DefaultChallengeTTL.
Definition toy_minted : Manager := snd (complete_store 5 "token" toy_challenge toy_taken).
Definition toy_entry : taken := mkTaken "ch1" toy_challenge (toy_key +:+ toy_key) 5.
Definition toy_sys : sys := mkSys toy_minted [] ["ch1"] [(b64_encode "token", toy_entry)].

Lemma toy_reachable : rtc sstep (initial "node") toy_sys.
Proof.
  eapply rtc_l. { eapply (step_begin (initial "node") 0 (Some "nonce") "ch1" (Some toy_agent)). vm_compute. reflexivity. }
  eapply rtc_l. { eapply (step_take _ 5 toy_request). vm_compute. reflexivity. }
  eapply rtc_l. { eapply (step_store _ [] _ [] "token"); reflexivity. }
  vm_compute. apply rtc_refl.
Qed.

(** C9: A token authenticates only the key holder it was minted for: in every
    state reached by any interleaving of callers, if Authenticate accepts a
    token for a DID then a completion of the history answered a token of the
    same SHA-256 hash (the manager keeps nothing else of it), and that very
    completion carried a signature that verifies, under the key the DID is
    derived from, over this node's id, its challenge's id, nonce and expiry and
    the DID; its challenge was live when it was taken, and less than the
    session lifetime has passed since. *)
Theorem session_authentic `{Crypto} node s now token did m' :
  rtc sstep (initial node) s ->
  Authenticate now token (mgr s) = (Ok did, m') ->
  exists tok t pk, (tok, t) ∈ minted s /\ Sum256 tok = Sum256 token /\
    slen pk = 32 /\ DIDFromPubBytes pk = did /\
    ed25519_check pk (signingPayload node (k_id t) (c_nonce (k_challenge t))
                        (c_expires (k_challenge t)) did) (k_signature t) = true /\
    k_now t < c_expires (k_challenge t) /\ now < k_now t + DefaultSessionTTL.
Proof.
  intros Hr%reachable_inv. unfold Authenticate, get. destruct (String.eqb token ""); [done|].
  cbv zeta. destruct (_ !! _) as [x|] eqn:Hx; [|done].
  destruct (now <? s_expires x) eqn:Hexp; [|done]. intros [= <- _].
  apply map_lookup_filter_Some_1_1 in Hx.
  destruct (si_sessions _ _ Hr _ _ Hx) as (tok & t & Hin & Htok & _ & -> & He).
  destruct (proj1 (Forall_forall _ _) (si_minted _ _ Hr) _ Hin) as (Hval & Hlt & Hv).
  apply valid_identity_spec in Hval as [Hlen Hdid].
  exists tok, t, (SigningPublicKey (c_identity (k_challenge t))).
  repeat split; try done. lia.
Qed.

Lemma session_authentic_witness :
  exists tok t pk, (tok, t) ∈ minted toy_sys /\ Sum256 tok = Sum256 (b64_encode "token") /\
    slen pk = 32 /\ DIDFromPubBytes pk = toy_did /\
    ed25519_check pk (signingPayload "node" (k_id t) (c_nonce (k_challenge t))
                        (c_expires (k_challenge t)) toy_did) (k_signature t) = true /\
    k_now t < c_expires (k_challenge t) /\ 100 < k_now t + DefaultSessionTTL.
Proof.
  apply (session_authentic "node" toy_sys 100 (b64_encode "token") toy_did
           (pruneLocked 100 toy_minted) toy_reachable).
  vm_compute. reflexivity.
Defined.

(** A challenge is single use under every interleaving: the sessions minted
    from a challenge id never exceed the challenges issued with that id (so a
    fresh id gives at most one), and an outstanding challenge or a completion
    in progress is counted against the same budget. *)
Theorem challenge_single_use `{Crypto} node s id :
  rtc sstep (initial node) s ->
  (uses id (snd <$> minted s) + uses id (inflight s) + open_challenge id (mgr s) <= issues id (issued s))%nat.
Proof. intros Hr%reachable_inv. apply (si_count _ _ Hr). Qed.

Lemma challenge_single_use_witness :
  (uses "ch1" (snd <$> minted toy_sys) + uses "ch1" (inflight toy_sys) + open_challenge "ch1" (mgr toy_sys)
   <= issues "ch1" (issued toy_sys))%nat.
Proof. exact (challenge_single_use "node" toy_sys "ch1" toy_reachable). Defined.

(** Completing a session never panics: in every reachable state the keys
    held by the challenge table have the length the signature check demands,
    whatever request arrives. *)
Theorem complete_never_panics `{Crypto} node s now tokenBytes req :
  rtc sstep (initial node) s -> fst (Complete now tokenBytes req (mgr s)) <> Panic.
Proof.
  intros Hr%reachable_inv. apply (prune_inv _ _ now) in Hr. pose proof (si_challenges _ _ Hr) as Hc.
  unfold Complete, complete_take. destruct req as [req|]; [|done]. cbv zeta.
  destruct (_ || _); [done|].
  destruct (challenges (pruneLocked now (mgr s)) !! _) as [c|] eqn:E; [|done].
  destruct (negb _); [done|]. destruct (match rq_CardDid req with Some _ => _ | None => _ end); [done|].
  destruct (valid_identity_spec _ (Hc _ _ E)) as [Hlen _].
  unfold ed25519_Verify. rewrite Hlen. simpl. destruct (ed25519_check _ _ _); [|done].
  by destruct tokenBytes.
Qed.

Lemma complete_never_panics_witness :
  fst (Complete 7 (Some "t") (Some toy_request) (mgr toy_sys)) <> Panic.
Proof. exact (complete_never_panics "node" toy_sys 7 (Some "t") (Some toy_request) toy_reachable). Defined.

(** The signed payload is unambiguous: for node and challenge ids without
    NUL bytes, two equal payloads were built from the same node, challenge,
    nonce, expiry millisecond and DID, so a signature cannot be replayed for
    another challenge or another node. *)
Theorem signingPayload_injective n1 c1 k1 e1 d1 n2 c2 k2 e2 d2 :
  no_char nul n1 = true -> no_char nul n2 = true ->
  no_char nul c1 = true -> no_char nul c2 = true ->
  signingPayload n1 c1 k1 e1 d1 = signingPayload n2 c2 k2 e2 d2 ->
  n1 = n2 /\ c1 = c2 /\ k1 = k2 /\ UnixMilli e1 = UnixMilli e2 /\ d1 = d2.
Proof.
  intros Hn1 Hn2 Hc1 Hc2. unfold signingPayload. intros E.
  apply String.app_inj in E. apply String.app_inj in E. unfold nul_str in E. simpl in E.
  apply sep_inj in E as [-> E]; [|done..].
  apply sep_inj in E as [-> E]; [|done..].
  apply sep_inj in E as [Ek E]; [|apply b64_encode_nonul..].
  apply sep_inj in E as [Ee ->]; [|apply pretty_Z_nonul..].
  apply b64_encode_inj in Ek. apply (inj pretty) in Ee. done.
Qed.

Lemma signingPayload_injective_witness :
  "n" = "n" /\ "c" = "c" /\ "k" = "k" /\ UnixMilli 1000000 = UnixMilli 1999999 /\ "d" = "d".
Proof. by apply (signingPayload_injective "n" "c" "k" 1000000 "d" "n" "c" "k" 1999999 "d"). Defined.

(** The agent queries answer about live sessions: HasSession holds exactly
    for a non-empty DID with an unexpired session, and MultipleAgents exactly
    when two unexpired sessions belong to different DIDs. *)
Theorem agent_queries now did m :
  (fst (HasSession now did m) = true <->
     did <> "" /\ exists s, live now m s /\ s_agentDID s = did) /\
  (fst (MultipleAgents now m) = true <->
     exists s1 s2, live now m s1 /\ live now m s2 /\ s_agentDID s1 <> s_agentDID s2).
Proof. split; [apply HasSession_live|apply MultipleAgents_live]. Qed.
