(* ===== verification/Mail.v ===== *)
(** * Message queues ([daemon/inbox/inbox.go], [daemon/outbox/outbox.go])

    The persistent inbox with its live subscribers, and the persistent outbox
    with its retry loop.  The [payload] column is the message it decodes to, or
    [None] for bytes that [proto.Unmarshal] rejects.  The clock readings are
    arguments; the result of a delivery attempt is given by an oracle on the
    message, one flush attempting each message at most once. *)

From stdpp Require Import base gmap strings list.
From Stdlib Require Import ZArith Lia.
From S2P Require Import Prelude.

Local Open Scope string_scope.
Local Open Scope Z_scope.
Local Open Scope go_scope.

(** [pb.MessageKind] and [pb.Message]. *)
Inductive MessageKind : Type :=
| KIND_UNSPECIFIED | KIND_TEXT | KIND_TASK_REQUEST | KIND_TASK_EVENT | KIND_TASK_RESULT
| KIND_TASK_CANCEL | KIND_ACK | KIND_THREAD_INVITE | KIND_UNRECOGNIZED (n : Z).

#[export] Instance MessageKind_eq_dec : EqDecision MessageKind.
Proof. solve_decision. Defined.

Record Message : Type := mkMessage {
  m_Id : string; m_FromDid : string; m_ToDid : string; m_ThreadId : string; m_TaskId : string;
  m_Kind : MessageKind; m_Payload : string; m_SentAt : Z; m_Signature : string }.

#[export] Instance Message_eq_dec : EqDecision Message.
Proof. solve_decision. Defined.

(** [LIMIT n] when [n] is positive. *)
Definition sql_limit {A} (limit : Z) (l : list A) : list A :=
  if 0 <? limit then take (Z.to_nat limit) l else l.

(** [sqlite.ScanProtos]: the first undecodable row fails the whole scan. *)
Fixpoint ScanProtos (l : list (option Message)) : outcome (list Message) :=
  match l with
  | [] => Ok []
  | None :: _ => Err (Errorf "proto: cannot parse invalid wire-format data")
  | Some m :: l' => match ScanProtos l' with Ok ms => Ok (m :: ms) | Err e => Err e | Panic => Panic end
  end.

Module Inbox.

Record row : Type := mkRow {
  i_id : string; i_owner : string; i_from : string; i_thread : string; i_task : string;
  i_payload : option Message; i_received : Z; i_read : option Z }.

(** A subscriber with the messages waiting in its channel of capacity 64;
    [ch] identifies the channel. *)
Record subscriber : Type := mkSub { sub_owner : string; sub_ch : nat; sub_buf : list Message }.

(** Table [inbox] in insertion order, the subscribers, the next channel. *)
Record state : Type := mkState { rows : list row; subs : list subscriber; next_ch : nat }.

Definition empty : state := mkState [] [] 0.

Definition capacity : nat := 64.

Definition with_rows (f : list row -> list row) (s : state) : state :=
  mkState (f (rows s)) (subs s) (next_ch s).
Definition with_subs (f : list subscriber -> list subscriber) (s : state) : state :=
  mkState (rows s) (f (subs s)) (next_ch s).

(** [INSERT OR IGNORE] on the primary key. *)
Definition insert_or_ignore (r : row) (l : list row) : list row :=
  if bool_decide (i_id r ∈ i_id <$> l) then l else (l ++ [r])%list.

(** The select on one subscriber: send unless its channel is full. *)
Definition offer (ownerDID : string) (msg : Message) (s : subscriber) : subscriber :=
  if negb (String.eqb (sub_owner s) "") && negb (String.eqb (sub_owner s) ownerDID) then s
  else if (length (sub_buf s) <? capacity)%nat
  then mkSub (sub_owner s) (sub_ch s) (sub_buf s ++ [msg])
  else s.

Definition notify (ownerDID : string) (msg : Message) : M state unit :=
  modify (with_subs (fmap (offer ownerDID msg))).

Definition put (now : Z) (ownerDID : string) (msg : Message) : M state unit :=
  do! exec (with_rows (insert_or_ignore
        (mkRow (m_Id msg) ownerDID (m_FromDid msg) (m_ThreadId msg) (m_TaskId msg)
           (Some msg) now None))) in
  notify ownerDID msg.

Definition subscribe (ownerDID : string) : M state nat := fun w =>
  let s := db w in
  (Ok (next_ch s), World (mkState (rows s) (subs s ++ [mkSub ownerDID (next_ch s) []])
                            (S (next_ch s))) (faults w)).

Fixpoint remove_sub (ch : nat) (l : list subscriber) : list subscriber :=
  match l with
  | [] => []
  | s :: l' => if Nat.eqb (sub_ch s) ch then l' else s :: remove_sub ch l'
  end.

Definition unsubscribe (ch : nat) : M state unit := modify (with_subs (remove_sub ch)).

(** The holder of the channel receives its oldest message. *)
Definition receive (ch : nat) : M state (option Message) := fun w =>
  let s := db w in
  (Ok (head (concat (sub_buf <$> filter (fun x => sub_ch x = ch) (subs s)))),
   World (with_subs (fmap (fun x => if Nat.eqb (sub_ch x) ch
                                    then mkSub (sub_owner x) (sub_ch x) (tail (sub_buf x)) else x)) s)
     (faults w)).

Definition get (ownerDID threadID taskID : string) (unreadOnly : bool) (limit since : Z)
    : M state (list Message) :=
  query (fun s => ScanProtos (i_payload <$> sql_limit limit
    (filter (fun r =>
       (ownerDID = "" \/ i_owner r = ownerDID) /\
       (threadID = "" \/ i_thread r = threadID) /\
       (taskID = "" \/ i_task r = taskID) /\
       (unreadOnly = false \/ i_read r = None) /\
       (since <= 0 \/ since < i_received r)) (rows s)))).

Definition set_read (now : Z) (r : row) : row :=
  mkRow (i_id r) (i_owner r) (i_from r) (i_thread r) (i_task r) (i_payload r) (i_received r)
    (Some now).

Definition ack (now : Z) (ownerDID messageID : string) : M state unit :=
  exec (with_rows (fmap (fun r =>
    if bool_decide (i_id r = messageID)
       && (String.eqb ownerDID "" || bool_decide (i_owner r = ownerDID))
    then set_read now r else r))).

End Inbox.

Module Outbox.

Inductive status : Type :=
| pending | processing | delivered | failed | expired | dead_letter.

#[export] Instance status_eq_dec : EqDecision status.
Proof. solve_decision. Defined.

Record row : Type := mkRow {
  o_id : string; o_owner : string; o_to : string; o_thread : string; o_task : string;
  o_payload : option Message; o_created : Z; o_expires : Z; o_attempts : Z;
  o_last : option Z; o_status : status; o_durable : bool }.

(** Table [outbox] in insertion order, and whether [flushCh] holds a token. *)
Record state : Type := mkState { rows : list row; flushCh : bool }.

Definition defaultTTL : Z := 72 * 3600 * 1000000000.
Definition maxAttempts : Z := 10.
Definition retryBaseDelay : Z := 5 * 1000000000.
Definition UnixMilli (t : Z) : Z := t / 1000000.

Definition with_rows (f : list row -> list row) (s : state) : state := mkState (f (rows s)) (flushCh s).

Definition durableKind (kind : MessageKind) : bool :=
  match kind with
  | KIND_THREAD_INVITE | KIND_TASK_REQUEST | KIND_TASK_RESULT | KIND_TASK_CANCEL => true
  | _ => false
  end.

Definition insert_or_ignore (r : row) (l : list row) : list row :=
  if bool_decide (o_id r ∈ o_id <$> l) then l else (l ++ [r])%list.

(** [t1], [t2]: the two readings of the clock, in nanoseconds. *)
Definition enqueue (t1 t2 : Z) (ownerDID : string) (msg : Message) : M state unit :=
  let durable := durableKind (m_Kind msg) in
  let expiresAt := UnixMilli (t1 + defaultTTL) in
  do! exec (with_rows (insert_or_ignore
        (mkRow (m_Id msg) ownerDID (m_ToDid msg) (m_ThreadId msg) (m_TaskId msg) (Some msg)
           (UnixMilli t2) expiresAt 0 None pending durable))) in
  modify (fun s => mkState (rows s) true).

Definition EnqueueForOwner := enqueue.
Definition Enqueue (t1 t2 : Z) (msg : Message) : M state unit :=
  EnqueueForOwner t1 t2 (m_FromDid msg) msg.

Definition set_state (st : status) (attempts : Z) (last : option Z) (r : row) : row :=
  mkRow (o_id r) (o_owner r) (o_to r) (o_thread r) (o_task r) (o_payload r) (o_created r)
    (o_expires r) attempts last st (o_durable r).

(** [UPDATE outbox SET ... WHERE cond]. *)
Definition update (cond : row -> bool) (f : row -> row) (s : state) : state :=
  with_rows (fmap (fun r => if cond r then f r else r)) s.

Definition has_id (id : string) (r : row) : bool := bool_decide (o_id r = id).

Definition markDelivered (messageID : string) : M state unit :=
  exec (update (has_id messageID) (fun r => set_state delivered (o_attempts r) (o_last r) r)).

(** [list(owner, status, limit)]; [failed] also lists the dead letters. *)
Definition list_messages (ownerDID : string) (st : status) (limit : Z) : M state (list Message) :=
  query (fun s => ScanProtos (o_payload <$> sql_limit limit
    (filter (fun r =>
       (o_status r = st \/ (st = failed /\ o_status r = dead_letter)) /\
       (ownerDID = "" \/ o_owner r = ownerDID)) (rows s)))).

(** ** flush *)

Definition is_expired (now : Z) (r : row) : bool :=
  bool_decide (o_status r = pending) && negb (o_durable r) && (o_expires r <? now).

Definition abandoned (now : Z) (r : row) : bool :=
  bool_decide (o_status r = processing)
  && match o_last r with Some t => t <? now - 60000 | None => false end.

Definition eligible (cutoff : Z) (r : row) : bool :=
  bool_decide (o_status r = pending)
  && match o_last r with Some t => t <? cutoff | None => true end.

(** The rows the claiming UPDATE selects, as they are after it. *)
Definition claimable (now cutoff : Z) (s : state) : list row :=
  (fun r => set_state processing (o_attempts r) (Some now) r)
  <$> take 50 (filter (fun r => eligible cutoff r = true) (rows s)).

Definition claim (now cutoff : Z) (s : state) : outcome (list row) * state :=
  let items := claimable now cutoff s in
  (Ok items, update (fun r => bool_decide (o_id r ∈ o_id <$> items))
               (fun r => set_state processing (o_attempts r) (Some now) r) s).

(** The loop body of [flush] on one claimed item.  [deliver] tells whether the
    delivery succeeds, [finishNow] is the clock after it. *)
Definition flush_item (deliver : Message -> bool) (finishNow : string -> Z) (item : row)
    : M state unit :=
  match o_payload item with
  | None =>
      log_err (exec (update (has_id (o_id item))
        (fun r => set_state failed (o_attempts r + 1) (Some (finishNow (o_id item))) r)))
  | Some msg =>
      let attempts := o_attempts item + 1 in
      if deliver msg then
        log_err (exec (update (has_id (o_id item))
          (fun r => set_state delivered attempts (Some (finishNow (o_id item))) r)))
      else
        let st := if negb (o_durable item) && (maxAttempts <=? attempts)
                  then dead_letter else pending in
        log_err (exec (update (has_id (o_id item))
          (fun r => set_state st attempts (Some (finishNow (o_id item))) r)))
  end.

(** [t1], [t2] are the readings of the clock before the claim, in nanoseconds. *)
Definition flush_begin (t1 t2 : Z) : M state (list row) :=
  let now := UnixMilli t1 in
  do! log_err (exec (update (is_expired now) (fun r => set_state expired (o_attempts r) (o_last r) r))) in
  do! log_err (exec (update (abandoned now) (fun r => set_state pending (o_attempts r) (o_last r) r))) in
  stmt (claim now (UnixMilli (t2 - retryBaseDelay))).

Definition flush (t1 t2 : Z) (deliver : Message -> bool) (finishNow : string -> Z) : M state unit :=
  catch (flush_begin t1 t2) (fun res =>
    match res with
    | Ok items => for_each items (flush_item deliver finishNow)
    | _ => ret tt
    end).

(** The part of [migrate] that repairs the rows when the daemon restarts. *)
Definition wake_ids (s : state) : list string :=
  o_id <$> filter (fun r => o_durable r = false /\
                            match o_payload r with Some m => durableKind (m_Kind m) | None => false end = true)
             (rows s).

Definition set_durable (r : row) : row :=
  mkRow (o_id r) (o_owner r) (o_to r) (o_thread r) (o_task r) (o_payload r) (o_created r)
    (o_expires r) (o_attempts r) (o_last r)
    (match o_status r with expired | failed => pending | st => st end) true.

Definition migrate : M state unit :=
  do! exec (update (fun r => bool_decide (o_status r = processing))
              (fun r => set_state pending (o_attempts r) (o_last r) r)) in
  let! ids := query (fun s => Ok (wake_ids s)) in
  for_each ids (fun id => exec (update (has_id id) set_durable)).

(** A process that dies after [k] items of a flush, and the next start. *)
Definition crash (t1 t2 : Z) (deliver : Message -> bool) (finishNow : string -> Z) (k : nat)
    : M state unit :=
  do! catch (flush_begin t1 t2) (fun res =>
        match res with
        | Ok items => for_each (take k items) (flush_item deliver finishNow)
        | _ => ret tt
        end) in
  migrate.

End Outbox.
