(* ===== verification/MailFacts.v ===== *)
(** * Properties of the message queues

    Inbox: a message is acknowledged only when stored, owners are isolated,
    subscriber channels stay within capacity.  Outbox: durable messages are
    never dropped, delivered ones never sent again, the attempts of the others
    are bounded, and a flush settles every message it claims, under any
    schedule of database failures and across crashes. *)

From stdpp Require Import base gmap strings list.
From Stdlib Require Import ZArith Lia.
From S2P Require Import Prelude Mail.

Local Open Scope string_scope.
Local Open Scope Z_scope.
Local Open Scope go_scope.

Module InboxFacts.
Import Inbox.

(** ** Sequences of inbox calls *)

Inductive op : Type :=
| OpPut (now : Z) (owner : string) (msg : Message)
| OpSubscribe (owner : string)
| OpUnsubscribe (ch : nat)
| OpReceive (ch : nat)
| OpAck (now : Z) (owner id : string).

Definition run_op (o : op) : M state unit :=
  match o with
  | OpPut now owner msg => put now owner msg
  | OpSubscribe owner => bind (subscribe owner) (fun _ => ret tt)
  | OpUnsubscribe ch => unsubscribe ch
  | OpReceive ch => bind (receive ch) (fun _ => ret tt)
  | OpAck now owner id => ack now owner id
  end.

Fixpoint run_ops (l : list op) (w : world state) : world state :=
  match l with [] => w | o :: l' => run_ops l' (snd (run_op o w)) end.

(** Where the stored and the queued messages come from: [P owner msg] holds of
    every message put for [owner]. *)
Record inbox_inv (P : string -> Message -> Prop) (s : state) : Prop := {
  ii_rows : Forall (fun r => exists m, i_payload r = Some m /\ P (i_owner r) m) (rows s);
  ii_subs : Forall (fun x => (length (sub_buf x) <= capacity)%nat /\
      (sub_owner x <> "" -> Forall (P (sub_owner x)) (sub_buf x))) (subs s) }.

Lemma offer_inv P owner msg x :
  P owner msg ->
  (length (sub_buf x) <= capacity)%nat /\ (sub_owner x <> "" -> Forall (P (sub_owner x)) (sub_buf x)) ->
  (length (sub_buf (offer owner msg x)) <= capacity)%nat /\
  (sub_owner (offer owner msg x) <> "" ->
     Forall (P (sub_owner (offer owner msg x))) (sub_buf (offer owner msg x))).
Proof.
  intros HP [Hlen Hall]. unfold offer. destruct (_ && _) eqn:E; [done|].
  destruct (_ <? _)%nat eqn:Hc; [|done]. apply Nat.ltb_lt in Hc. simpl. split.
  - rewrite length_app. simpl. lia.
  - intros Hne. apply Forall_app. split; [auto|]. constructor; [|done].
    destruct (String.eqb_spec (sub_owner x) ""); [done|].
    destruct (String.eqb_spec (sub_owner x) owner) as [->|]; done.
Qed.

Lemma remove_sub_sub ch l x : x ∈ remove_sub ch l -> x ∈ l.
Proof.
  induction l as [|y l IH]; simpl; [done|]. destruct (Nat.eqb _ _); [by right|].
  intros [->|?]%elem_of_cons; [by left|right; auto].
Qed.

Lemma run_op_inv (P : string -> Message -> Prop) o :
  (forall now owner msg, o = OpPut now owner msg -> P owner msg) ->
  preserves (inbox_inv P) (run_op o).
Proof.
  intros HP. destruct o as [now owner msg|owner|ch|ch|now owner id]; simpl.
  - specialize (HP _ _ _ eq_refl). unfold put, notify. apply preserves_bind.
    + apply preserves_exec. intros s [H1 H2]. split; [|done]. simpl. unfold insert_or_ignore.
      case_bool_decide; [done|]. apply Forall_app. split; [done|]. constructor; [|done]. eauto.
    + intros _. apply preserves_modify. intros s [H1 H2]. split; [done|]. simpl.
      apply Forall_fmap. eapply Forall_impl; [exact H2|]. intros x. by apply offer_inv.
  - intros w [H1 H2]. split; simpl; [done|]. apply Forall_app. split; [done|].
    constructor; [|done]. simpl. split; [unfold capacity; lia|done].
  - apply preserves_modify. intros s [H1 H2]. split; [done|]. simpl.
    rewrite Forall_forall in *. intros x Hx. apply H2. by eapply remove_sub_sub.
  - intros w [H1 H2]. split; simpl; [done|]. apply Forall_fmap.
    eapply Forall_impl; [exact H2|]. intros x [Hl Hb]. simpl.
    destruct (Nat.eqb _ _); [|done]. simpl. destruct (sub_buf x) as [|m b]; [done|]. simpl in *.
    split; [lia|]. intros Hne. specialize (Hb Hne). by inversion Hb.
  - unfold ack. apply preserves_exec. intros s [H1 H2]. split; [|done]. simpl.
    apply Forall_fmap. eapply Forall_impl; [exact H1|]. intros r Hr. simpl.
    by destruct (_ && _).
Qed.

Lemma run_ops_inv (P : string -> Message -> Prop) ops w :
  (forall now owner msg, OpPut now owner msg ∈ ops -> P owner msg) ->
  inbox_inv P (db w) -> inbox_inv P (db (run_ops ops w)).
Proof.
  revert w. induction ops as [|o ops IH]; intros w HP Hw; [done|]. simpl. apply IH.
  - intros now owner msg Hin. apply (HP now). by right.
  - apply run_op_inv; [|done]. intros now owner msg ->. apply (HP now). by left.
Qed.

Lemma ScanProtos_in l ms m : ScanProtos l = Ok ms -> m ∈ ms -> Some m ∈ l.
Proof.
  revert ms. induction l as [|[x|] l IH]; intros ms; simpl; [|destruct (ScanProtos l)|done].
  - intros [= <-] []%elem_of_nil.
  - intros [= <-] [->|Hin]%elem_of_cons; [by left|]. right. by apply (IH a).
  - done.
  - done.
Qed.

Lemma sql_limit_in {A} n (l : list A) x : x ∈ sql_limit n l -> x ∈ l.
Proof.
  unfold sql_limit. destruct (0 <? n); [|done]. intros H.
  rewrite <- (take_drop (Z.to_nat n) l). apply elem_of_app. by left.
Qed.

(** Every message a scoped query returns was put for that owner. *)
Lemma get_owner P owner th tk un lim since w ms w' m :
  inbox_inv P (db w) -> owner <> "" ->
  get owner th tk un lim since w = (Ok ms, w') -> m ∈ ms -> P owner m.
Proof.
  intros [H1 _] Ho [Hq _]%query_ok Hm. apply (ScanProtos_in _ _ _ Hq) in Hm.
  apply list_elem_of_fmap in Hm as (r & Hr & Hin%sql_limit_in).
  apply list_elem_of_filter in Hin as [[[?|<-] _] Hin]; [done|].
  rewrite Forall_forall in H1. destruct (H1 r Hin) as (m' & Hm' & HP). congruence.
Qed.

(** Owners are isolated: after any sequence of inbox calls under any
    failures, a query scoped to an owner returns only messages that were put
    for that owner, a scoped subscriber's channel holds only such messages,
    and no channel holds more than its capacity of 64. *)
Theorem inbox_owner_isolation ops fs owner th tk un lim since ms w' :
  owner <> "" ->
  let w := run_ops ops (World empty fs) in
  get owner th tk un lim since w = (Ok ms, w') ->
  (forall m, m ∈ ms -> exists now, OpPut now owner m ∈ ops) /\
  (forall x, x ∈ subs (db w) -> (length (sub_buf x) <= capacity)%nat /\
     (sub_owner x = owner -> forall m, m ∈ sub_buf x -> exists now, OpPut now owner m ∈ ops)).
Proof.
  intros Ho w Hg. set (P := fun o m => exists now, OpPut now o m ∈ ops).
  assert (inbox_inv P (db w)) as Hinv.
  { apply run_ops_inv; [unfold P; eauto|]. split; constructor. }
  split; [intros m; by apply (get_owner P owner _ _ _ _ _ _ _ _ _ Hinv Ho Hg)|].
  intros x Hx. destruct Hinv as [_ H2]. rewrite Forall_forall in H2.
  destruct (H2 x Hx) as [Hl Hb]. split; [done|]. intros <- m Hm.
  specialize (Hb Ho). rewrite Forall_forall in Hb. exact (Hb m Hm).
Qed.

Definition example_msg : Message := mkMessage "m1" "did:a" "did:b" "" "" KIND_TEXT "hi" 1 "".

Lemma inbox_owner_isolation_witness :
  let ops := [OpSubscribe "did:b"; OpPut 5 "did:b" example_msg; OpPut 6 "did:c" example_msg] in
  let w := run_ops ops (World empty []) in
  (forall m, m ∈ [example_msg] -> exists now, OpPut now "did:b" m ∈ ops) /\
  (forall x, x ∈ subs (db w) -> (length (sub_buf x) <= capacity)%nat /\
     (sub_owner x = "did:b" -> forall m, m ∈ sub_buf x -> exists now, OpPut now "did:b" m ∈ ops)).
Proof.
  intros ops w. apply (inbox_owner_isolation ops [] "did:b" "" "" false 0 0 [example_msg] w);
    [discriminate|vm_compute; reflexivity].
Defined.

(** A message is acknowledged only once it is stored: when put returns
    without error the table holds a row with the message's id (the message
    itself, unread, if the id was new) and every earlier row, and each matching
    subscriber with room has it queued last; when put fails nothing changed and
    nobody was notified.  A second message under an id already stored is
    acknowledged and announced but not stored. *)
Theorem inbox_put_durable now owner msg w :
  match put now owner msg w with
  | (Ok _, w') =>
      m_Id msg ∈ i_id <$> rows (db w') /\
      (m_Id msg ∉ i_id <$> rows (db w) ->
         mkRow (m_Id msg) owner (m_FromDid msg) (m_ThreadId msg) (m_TaskId msg) (Some msg) now None
           ∈ rows (db w')) /\
      (m_Id msg ∈ i_id <$> rows (db w) -> rows (db w') = rows (db w)) /\
      (forall r, r ∈ rows (db w) -> r ∈ rows (db w')) /\
      subs (db w') = offer owner msg <$> subs (db w)
  | (Err _, w') => db w' = db w
  | (Panic, _) => False
  end.
Proof.
  unfold put, notify, bind, exec, stmt, modify. destruct (faults w) as [|[] fs]; simpl; [|done|];
    unfold insert_or_ignore; simpl; case_bool_decide as Hin;
    (split; [done || (rewrite fmap_app; apply elem_of_app; right; by left)|]);
    (split; [intros; done || (apply elem_of_app; right; by left)|]);
    (split; [intros; done|]); (split; [intros r Hr; done || (apply elem_of_app; by left)|done]).
Qed.

End InboxFacts.

Module OutboxFacts.
Import Outbox.

(** ** Sequences of outbox calls *)

Inductive op : Type :=
| OpEnqueue (t1 t2 : Z) (owner : string) (msg : Message)
| OpMarkDelivered (id : string)
| OpFlush (t1 t2 : Z) (deliver : Message -> bool) (finishNow : string -> Z)
| OpCrash (t1 t2 : Z) (deliver : Message -> bool) (finishNow : string -> Z) (k : nat).

Definition run_op (o : op) : M state unit :=
  match o with
  | OpEnqueue t1 t2 owner msg => EnqueueForOwner t1 t2 owner msg
  | OpMarkDelivered id => markDelivered id
  | OpFlush t1 t2 d f => flush t1 t2 d f
  | OpCrash t1 t2 d f k => crash t1 t2 d f k
  end.

Fixpoint run_ops (l : list op) (w : world state) : world state :=
  match l with [] => w | o :: l' => run_ops l' (snd (run_op o w)) end.

Definition ids (s : state) : list string := o_id <$> rows s.

(** Every statement of the outbox updates rows without changing their ids. *)
Lemma update_ids cond f s :
  (forall r, o_id (f r) = o_id r) -> ids (update cond f s) = ids s.
Proof.
  intros Hf. unfold ids. simpl. rewrite <- list_fmap_compose. apply list_fmap_ext.
  intros i r _. simpl. by destruct (cond r).
Qed.

Lemma update_in cond f s r' :
  r' ∈ rows (update cond f s) ->
  exists r, r ∈ rows s /\ r' = (if cond r then f r else r).
Proof. simpl. intros (r & -> & Hr)%list_elem_of_fmap. eauto. Qed.

Lemma NoDup_id s r1 r2 :
  NoDup (ids s) -> r1 ∈ rows s -> r2 ∈ rows s -> o_id r1 = o_id r2 -> r1 = r2.
Proof.
  unfold ids. induction (rows s) as [|x l IH]; simpl; [by intros _ []%elem_of_nil|].
  intros [Hn Hd]%NoDup_cons [->|H1]%elem_of_cons [->|H2]%elem_of_cons E; auto.
  - exfalso. apply Hn. rewrite E. by apply list_elem_of_fmap_2.
  - exfalso. apply Hn. rewrite <- E. by apply list_elem_of_fmap_2.
Qed.

(** ** One row through a flush *)

(** Ids are distinct and the row of [id] satisfies [J]. *)
Definition at_id (id : string) (J : row -> Prop) (s : state) : Prop :=
  NoDup (ids s) /\ exists r, r ∈ rows s /\ o_id r = id /\ J r.

Lemma at_update id J cond f s :
  (forall r, o_id (f r) = o_id r) -> at_id id J s ->
  (forall r, r ∈ rows s -> o_id r = id -> J r -> cond r = true -> J (f r)) ->
  at_id id J (update cond f s).
Proof.
  intros Hid [Hnd (r & Hr & Hrid & HJ)] Hf. split; [by rewrite update_ids|].
  exists (if cond r then f r else r). split; [simpl; apply list_elem_of_fmap; eauto|].
  destruct (cond r) eqn:E; [|done]. rewrite Hid. eauto.
Qed.

(** A claimed item is a pending row of the store, marked as processing. *)
Definition claimed_from (J : row -> Prop) (item : row) : Prop :=
  exists r now, J r /\ o_status r = pending /\ item = set_state processing (o_attempts r) (Some now) r.

(** The row is one that [migrate] turns into a durable one. *)
Definition wakes (r : row) : Prop :=
  o_durable r = false /\
  match o_payload r with Some m => durableKind (m_Kind m) | None => false end = true.

Section Row.
Variables (id : string) (J : row -> Prop).

(** What [J] must tolerate for a flush to preserve it. *)
Record flush_stable (deliver : Message -> bool) : Prop := {
  fs_expire : forall now r, J r -> is_expired now r = true ->
    J (set_state expired (o_attempts r) (o_last r) r);
  fs_reclaim : forall now r, J r -> abandoned now r = true ->
    J (set_state pending (o_attempts r) (o_last r) r);
  fs_claim : forall now r, J r -> o_status r = pending ->
    J (set_state processing (o_attempts r) (Some now) r);
  fs_failed : forall item r fin, J r -> claimed_from J item -> o_payload item = None ->
    J (set_state failed (o_attempts r + 1) fin r);
  fs_done : forall item r fin, J r -> claimed_from J item ->
    J (set_state delivered (o_attempts item + 1) fin r);
  fs_retry : forall item r fin msg, J r -> claimed_from J item -> o_payload item = Some msg ->
    J (set_state (if negb (o_durable item) && (maxAttempts <=? o_attempts item + 1)
                  then dead_letter else pending) (o_attempts item + 1) fin r) }.

Context (deliver : Message -> bool) (Hfs : flush_stable deliver).

Lemma flush_item_at fin item :
  (o_id item = id -> claimed_from J item) ->
  preserves (at_id id J) (flush_item deliver fin item).
Proof.
  intros Hc. unfold flush_item. cbv zeta.
  assert (Hh : forall r, o_id r = id -> has_id (o_id item) r = true -> claimed_from J item).
  { unfold has_id. intros r Hr E%bool_decide_eq_true. apply Hc. congruence. }
  go_preserves; (apply at_update; [done..|]); intros r _ Hr HJ Hcond;
    [eapply fs_done|eapply fs_retry|eapply fs_failed]; eauto.
Qed.

Lemma claim_at now cutoff :
  hoare (at_id id J) (stmt (claim now cutoff)) (fun r s => at_id id J s /\
    match r with Ok items => forall it, it ∈ items -> o_id it = id -> claimed_from J it | _ => True end).
Proof.
  intros w Hw. unfold stmt. assert (Hc : at_id id J (snd (claim now cutoff (db w))) /\
    forall it, it ∈ claimable now cutoff (db w) -> o_id it = id -> claimed_from J it).
  { destruct Hw as [Hnd (r & Hr & Hid & HJ)].
    assert (Hel : forall x, x ∈ take 50 (filter (fun r => eligible cutoff r = true) (rows (db w))) ->
              o_id x = id -> x = r /\ o_status r = pending).
    { intros x Hx Hxid. assert (x ∈ rows (db w) /\ eligible cutoff x = true) as [Hin He].
      { assert (x ∈ filter (fun r => eligible cutoff r = true) (rows (db w))) as Hf.
        { rewrite <- (take_drop 50). apply elem_of_app. by left. }
        by apply list_elem_of_filter in Hf as [? ?]. }
      assert (x = r) as -> by (eapply NoDup_id; eauto; congruence). split; [done|].
      unfold eligible in He. apply andb_true_iff in He as [He _]. by apply bool_decide_eq_true in He. }
    split.
    - simpl. apply at_update; [done|by split; eauto|].
      intros r' Hr' Hid' HJ' Hin%bool_decide_eq_true.
      apply list_elem_of_fmap in Hin as (it & Eit & Hit).
      apply list_elem_of_fmap in Hit as (x & -> & Hx). simpl in Eit.
      destruct (Hel x Hx) as [-> Hp]; [congruence|].
      assert (r' = r) as -> by (eapply NoDup_id; eauto; congruence).
      by apply (fs_claim _ Hfs).
    - intros it Hit Eid. apply list_elem_of_fmap in Hit as (x & -> & Hx). simpl in Eid.
      destruct (Hel x Hx Eid) as [-> Hp]. exists r, now. done. }
  destruct Hc as [H1 H2].
  destruct (faults w) as [|[] fs]; simpl; [by split|by split|by split].
Qed.

Lemma expire_at now :
  preserves (at_id id J)
    (log_err (exec (update (is_expired now) (fun r => set_state expired (o_attempts r) (o_last r) r)))).
Proof.
  go_preserves. apply at_update; [done..|]. intros r _ _ HJ Hc. by eapply fs_expire.
Qed.

Lemma reclaim_at now :
  preserves (at_id id J)
    (log_err (exec (update (abandoned now) (fun r => set_state pending (o_attempts r) (o_last r) r)))).
Proof.
  go_preserves. apply at_update; [done..|]. intros r _ _ HJ Hc. by eapply fs_reclaim.
Qed.

Lemma flush_begin_at t1 t2 :
  hoare (at_id id J) (flush_begin t1 t2) (fun r s => at_id id J s /\
    match r with Ok items => forall it, it ∈ items -> o_id it = id -> claimed_from J it | _ => True end).
Proof.
  unfold flush_begin. cbv zeta.
  eapply (hoare_bind _ (fun _ => at_id id J)).
  { eapply hoare_conseq; [done|apply expire_at|]. intros [|e|] s Hs; auto. }
  intros _. eapply (hoare_bind _ (fun _ => at_id id J)).
  { eapply hoare_conseq; [done|apply reclaim_at|]. intros [|e|] s Hs; auto. }
  intros _. apply claim_at.
Qed.

(** The first [k] items of a flush (all of them, or those done at a crash). *)
Lemma flush_part_at t1 t2 fin (part : list row -> list row) :
  (forall l it, it ∈ part l -> it ∈ l) ->
  preserves (at_id id J) (catch (flush_begin t1 t2) (fun res =>
    match res with Ok items => for_each (part items) (flush_item deliver fin) | _ => ret tt end)).
Proof.
  intros Hpart w Hw. destruct (flush_begin_at t1 t2 w Hw) as [Hs Hit]. unfold catch.
  destruct (flush_begin t1 t2 w) as [[items|e|] w1]; simpl in *; [|done..].
  apply preserves_for_each_in; [|done]. intros it Hin. apply flush_item_at. auto.
Qed.

Lemma flush_at t1 t2 fin : preserves (at_id id J) (flush t1 t2 deliver fin).
Proof. by apply (flush_part_at t1 t2 fin (fun l => l)). Qed.

Hypothesis Hmark : forall r, J r -> J (set_state delivered (o_attempts r) (o_last r) r).
Hypothesis Hrestart : forall r, J r -> o_status r = processing ->
  J (set_state pending (o_attempts r) (o_last r) r).
Hypothesis Hwake : forall r, J r -> wakes r -> J (set_durable r).

Lemma wake_at l : 
  hoare (fun s => at_id id J s /\ (id ∈ l -> NoDup l /\ at_id id (fun r => J r /\ wakes r) s))
    (for_each l (fun i => exec (update (has_id i) set_durable))) (fun _ => at_id id J).
Proof.
  induction l as [|i l IH]; simpl; [by intros w [? _]|].
  eapply (hoare_bind _ (fun _ s => at_id id J s /\
    (id ∈ l -> NoDup l /\ at_id id (fun r => J r /\ wakes r) s))); [|by intros].
  intros w [Hw Hin]. unfold exec, stmt.
  assert (Hst : at_id id J (update (has_id i) set_durable (db w)) /\
    (id ∈ l -> NoDup l /\ at_id id (fun r => J r /\ wakes r)
                 (update (has_id i) set_durable (db w)))).
  { destruct (decide (i = id)) as [->|Hne].
    - destruct Hin as [[Hni Hnd]%NoDup_cons [Hn (r & Hr & Hid & HJ & Hwk)]]; [by left|].
      split; [|done]. apply at_update; [done|done|]. intros r' Hr' Hid' HJ' _.
      assert (r' = r) as -> by (eapply NoDup_id; eauto; congruence). auto.
    - split.
      + apply at_update; [done..|]. intros r _ Hid _ Hc%bool_decide_eq_true. congruence.
      + intros Hl. destruct Hin as [[_ Hnd]%NoDup_cons Hat]; [by right|]. split; [done|].
        apply at_update; [done..|]. intros r _ Hid _ Hc%bool_decide_eq_true. congruence. }
  destruct (faults w) as [|[] fs]; simpl; [done| |done]. by destruct Hw.
Qed.

Lemma wake_ids_at s : at_id id J s -> id ∈ wake_ids s ->
  NoDup (wake_ids s) /\ at_id id (fun r => J r /\ wakes r) s.
Proof.
  intros [Hnd (r & Hr & Hid & HJ)] Hin. split.
  { eapply sublist_NoDup; [exact Hnd|]. apply fmap_sublist, sublist_filter. }
  split; [done|]. exists r. split; [done|]. split; [done|]. split; [done|].
  apply list_elem_of_fmap in Hin as (x & Ex & Hx). apply list_elem_of_filter in Hx as [Hw Hx].
  assert (x = r) as -> by (eapply NoDup_id; eauto; congruence). exact Hw.
Qed.

Lemma migrate_at : preserves (at_id id J) migrate.
Proof.
  unfold migrate. apply preserves_bind.
  - go_preserves. apply at_update; [done..|]. intros r _ _ HJ Hc%bool_decide_eq_true. auto.
  - intros _ w Hw. unfold bind.
    destruct (query _ w) as [[l|e|] w1] eqn:E.
    + apply query_ok in E as [[= <-] Hdb]. apply wake_at. rewrite Hdb. split; [done|].
      by apply wake_ids_at.
    + pose proof (query_db (fun s => Ok (wake_ids s)) w) as Hdb. rewrite E in Hdb.
      simpl in *. by rewrite Hdb.
    + pose proof (query_db (fun s => Ok (wake_ids s)) w) as Hdb. rewrite E in Hdb.
      simpl in *. by rewrite Hdb.
Qed.
End Row.

Lemma enqueue_at id J t1 t2 owner msg : preserves (at_id id J) (enqueue t1 t2 owner msg).
Proof.
  unfold enqueue. cbv zeta. apply preserves_bind.
  - apply preserves_exec. intros s [Hnd (r & Hr & Hid & HJ)]. unfold at_id, ids. simpl.
    unfold insert_or_ignore. simpl. case_bool_decide as Hin; [split; eauto|]. split.
    + rewrite fmap_app. apply NoDup_app. split; [done|]. split; [|apply NoDup_singleton].
      simpl. intros x Hx ->%list_elem_of_singleton. done.
    + exists r. split; [|done]. apply elem_of_app. by left.
  - intros _. apply preserves_modify. done.
Qed.

(** A row predicate that every operation preserves. *)
Record stable (J : row -> Prop) : Prop := {
  st_flush : forall deliver, flush_stable J deliver;
  st_mark : forall r, J r -> J (set_state delivered (o_attempts r) (o_last r) r);
  st_restart : forall r, J r -> o_status r = processing ->
    J (set_state pending (o_attempts r) (o_last r) r);
  st_wake : forall r, J r -> wakes r -> J (set_durable r) }.

Lemma run_op_at id J o : stable J -> preserves (at_id id J) (run_op o).
Proof.
  intros [Hf Hm Hr Hw]. destruct o as [t1 t2 owner msg|i|t1 t2 d f|t1 t2 d f k]; simpl.
  - apply enqueue_at.
  - unfold markDelivered. apply preserves_exec. intros s Hs. apply at_update; [done..|]. auto.
  - by apply flush_at.
  - unfold crash. apply preserves_bind.
    + apply (flush_part_at id J d (Hf d) t1 t2 f (take k)). intros l it Hit.
      rewrite <- (take_drop k l). apply elem_of_app. by left.
    + intros _. by apply migrate_at.
Qed.

Lemma run_ops_at id J ops w : stable J -> at_id id J (db w) -> at_id id J (db (run_ops ops w)).
Proof.
  intros HJ. revert w. induction ops as [|o ops IH]; intros w Hw; [done|].
  simpl. apply IH. by apply run_op_at.
Qed.

(** The row a successful enqueue of a fresh id leaves. *)
Lemma enqueue_ok t1 t2 owner msg w u w' :
  enqueue t1 t2 owner msg w = (Ok u, w') -> NoDup (ids (db w)) -> m_Id msg ∉ ids (db w) ->
  at_id (m_Id msg) (eq (mkRow (m_Id msg) owner (m_ToDid msg) (m_ThreadId msg) (m_TaskId msg)
    (Some msg) (UnixMilli t2) (UnixMilli (t1 + defaultTTL)) 0 None pending
    (durableKind (m_Kind msg)))) (db w').
Proof.
  unfold enqueue. cbv zeta. intros H Hnd Hni.
  apply bind_ok in H as (v & w1 & Hex%exec_ok & H). unfold modify in H. injection H as <- <-.
  simpl. unfold at_id, ids in *. simpl. rewrite Hex. simpl. unfold insert_or_ignore. simpl.
  rewrite bool_decide_false by done. split.
  - rewrite fmap_app. apply NoDup_app. split; [done|]. split; [|apply NoDup_singleton].
    simpl. intros x Hx ->%list_elem_of_singleton. done.
  - eexists. split; [apply elem_of_app; right; by left|]. done.
Qed.

Lemma at_id_impl id (J K : row -> Prop) s : (forall r, J r -> K r) -> at_id id J s -> at_id id K s.
Proof. intros HJK [Hnd (r & Hr & Hid & HJ)]. split; [done|]. eauto. Qed.

(** ** Properties *)

Definition safe_durable (msg : Message) (r : row) : Prop :=
  o_payload r = Some msg /\ o_durable r = true /\
  (o_status r = pending \/ o_status r = processing \/ o_status r = delivered).

Lemma safe_durable_stable msg : stable (safe_durable msg).
Proof.
  split; [intros d; split|..]; unfold safe_durable, claimed_from.
  - intros now r (Hp & Hd & Hs) He. unfold is_expired in He. rewrite Hd in He.
    by rewrite andb_false_r in He.
  - naive_solver.
  - naive_solver.
  - intros item r fin _ (r0 & now & (Hp & _) & _ & ->). simpl. congruence.
  - naive_solver.
  - intros item r fin m (Hp & Hd & Hs) (r0 & now & (Hp0 & Hd0 & Hs0) & _ & ->) _. simpl.
    rewrite Hd0. simpl. naive_solver.
  - naive_solver.
  - naive_solver.
  - intros r (Hp & Hd & Hs) [Hw _]. congruence.
Qed.

(** C33: A durable message (a task request, result or cancellation, a thread
    invite) is never lost: once enqueued, after any sequence of enqueues,
    flushes with any delivery results, acknowledgements and crashes with
    restarts, under any database failures, its row is still there with its
    payload and is pending, in processing or delivered: never expired, failed
    or dead-lettered. *)
Theorem durable_never_lost t1 t2 owner msg w u wA ops :
  EnqueueForOwner t1 t2 owner msg w = (Ok u, wA) ->
  NoDup (ids (db w)) -> m_Id msg ∉ ids (db w) -> durableKind (m_Kind msg) = true ->
  exists r, r ∈ rows (db (run_ops ops wA)) /\ o_id r = m_Id msg /\ o_payload r = Some msg /\
    (o_status r = pending \/ o_status r = processing \/ o_status r = delivered).
Proof.
  intros Henq Hnd Hni Hk.
  destruct (run_ops_at (m_Id msg) (safe_durable msg) ops wA (safe_durable_stable msg))
    as [_ (r & Hr & Hid & Hp & _ & Hs)]; [|by exists r].
  eapply at_id_impl; [|by eapply enqueue_ok]. intros r <-. unfold safe_durable. simpl.
  rewrite Hk. auto.
Qed.

Definition bounded (r : row) : Prop :=
  0 <= o_attempts r <= maxAttempts /\
  (o_status r = pending \/ o_status r = processing -> o_attempts r < maxAttempts).

Definition bounded_plain (msg : Message) (r : row) : Prop :=
  o_payload r = Some msg /\ o_durable r = false /\ bounded r.

Lemma bounded_plain_stable msg :
  durableKind (m_Kind msg) = false -> stable (bounded_plain msg).
Proof.
  intros Hk. split; [intros d; split|..]; unfold bounded_plain, bounded, claimed_from, maxAttempts; simpl.
  - intros now r (Hp & Hd & Hb & Hl) He. naive_solver.
  - intros now r (Hp & Hd & Hb & Hl) He. unfold abandoned in He.
    apply andb_true_iff in He as [Hs%bool_decide_eq_true _]. naive_solver.
  - intros now r (Hp & Hd & Hb & Hl) Hs. naive_solver.
  - intros item r fin _ (r0 & now & (Hp & _) & _ & ->). simpl. congruence.
  - intros item r fin (Hp & Hd & _) (r0 & now & (_ & _ & Hb0 & Hl0) & Hs0 & ->). simpl.
    specialize (Hl0 (or_introl Hs0)). repeat split; try done; try lia. by intros [|].
  - intros item r fin m (Hp & Hd & _) (r0 & now & (_ & Hd0 & Hb0 & Hl0) & Hs0 & ->) _. simpl.
    rewrite Hd0. simpl. specialize (Hl0 (or_introl Hs0)).
    destruct (10 <=? o_attempts r0 + 1) eqn:E; repeat split; try done; try lia; by intros [|].
  - intros r (Hp & Hd & Hb & Hl). repeat split; try done; try lia. by intros [|].
  - intros r (Hp & Hd & Hb & Hl) Hs. naive_solver.
  - intros r (Hp & _) [_ Hw]. rewrite Hp, Hk in Hw. done.
Qed.

(** Retries of an ordinary message are bounded: whatever is delivered,
    fails, crashes or is retried, the recorded attempts of a non-durable
    message never exceed maxAttempts (10), and once they reach it the message
    is out of the retry queue. *)
Theorem plain_attempts_bounded t1 t2 owner msg w u wA ops :
  EnqueueForOwner t1 t2 owner msg w = (Ok u, wA) ->
  NoDup (ids (db w)) -> m_Id msg ∉ ids (db w) -> durableKind (m_Kind msg) = false ->
  exists r, r ∈ rows (db (run_ops ops wA)) /\ o_id r = m_Id msg /\
    0 <= o_attempts r <= maxAttempts /\
    (o_attempts r = maxAttempts -> o_status r <> pending /\ o_status r <> processing).
Proof.
  intros Henq Hnd Hni Hk.
  destruct (run_ops_at (m_Id msg) (bounded_plain msg) ops wA (bounded_plain_stable msg Hk))
    as [_ (r & Hr & Hid & Hp & Hd & Hb & Hl)].
  - eapply at_id_impl; [|by eapply enqueue_ok]. intros r <-.
    unfold bounded_plain, bounded, maxAttempts. simpl. rewrite Hk. repeat split; try done; lia.
  - exists r. split; [done|]. split; [done|]. split; [done|]. intros E.
    split; intros Hs; rewrite E in Hl; [specialize (Hl (or_introl Hs))|specialize (Hl (or_intror Hs))]; lia.
Qed.

Definition done_row (r : row) : Prop := o_status r = delivered.

Lemma done_row_stable : stable done_row.
Proof.
  split; [intros d; split|..]; unfold done_row, claimed_from; try done.
  - intros now r Hs He. unfold is_expired in He. by rewrite Hs in He.
  - intros now r Hs He. unfold abandoned in He. by rewrite Hs in He.
  - intros now r Hs He. congruence.
  - intros item r fin _ (r0 & now & H1 & H2 & _). congruence.
  - intros item r fin m _ (r0 & now & H1 & H2 & _). congruence.
  - intros r Hs He. congruence.
  - intros r Hs _. simpl. by rewrite Hs.
Qed.

(** Delivered is final: once a message is delivered no flush, crash,
    restart or acknowledgement, under any failures, puts it back in the
    queue. *)
Theorem delivered_final ops w id r :
  NoDup (ids (db w)) -> r ∈ rows (db w) -> o_id r = id -> o_status r = delivered ->
  exists r', r' ∈ rows (db (run_ops ops w)) /\ o_id r' = id /\ o_status r' = delivered.
Proof.
  intros Hnd Hr Hid Hs.
  destruct (run_ops_at id done_row ops w done_row_stable) as [_ H]; [|exact H].
  split; [done|]. by exists r.
Qed.

Definition example_request : Message := mkMessage "m1" "did:a" "did:b" "" "" KIND_TASK_REQUEST "" 1 "".
Definition example_text : Message := mkMessage "m2" "did:a" "did:b" "" "" KIND_TEXT "" 1 "".
Definition example_ops : list op :=
  [OpFlush 1000000 1000000 (fun _ => false) (fun _ => 1);
   OpCrash 9000000000 9000000000 (fun _ => true) (fun _ => 9000) 0;
   OpFlush 20000000000 20000000000 (fun _ => true) (fun _ => 20000)].

Lemma durable_never_lost_witness :
  exists wA, EnqueueForOwner 0 0 "did:a" example_request (World (mkState [] false) []) = (Ok tt, wA) /\
  exists r, r ∈ rows (db (run_ops example_ops wA)) /\ o_id r = "m1" /\
    o_payload r = Some example_request /\
    (o_status r = pending \/ o_status r = processing \/ o_status r = delivered).
Proof.
  eexists. split; [reflexivity|].
  apply (durable_never_lost 0 0 "did:a" example_request (World (mkState [] false) []) tt);
    [reflexivity|constructor|apply not_elem_of_nil|reflexivity].
Defined.

Lemma plain_attempts_bounded_witness :
  exists wA, EnqueueForOwner 0 0 "did:a" example_text (World (mkState [] false) []) = (Ok tt, wA) /\
  exists r, r ∈ rows (db (run_ops example_ops wA)) /\ o_id r = "m2" /\
    0 <= o_attempts r <= maxAttempts /\
    (o_attempts r = maxAttempts -> o_status r <> pending /\ o_status r <> processing).
Proof.
  eexists. split; [reflexivity|].
  apply (plain_attempts_bounded 0 0 "did:a" example_text (World (mkState [] false) []) tt);
    [reflexivity|constructor|apply not_elem_of_nil|reflexivity].
Defined.

Definition example_delivered : row :=
  mkRow "m1" "did:a" "did:b" "" "" (Some example_request) 0 1 1 (Some 5) delivered true.

Lemma delivered_final_witness :
  exists r', r' ∈ rows (db (run_ops example_ops (World (mkState [example_delivered] false) [true])))
    /\ o_id r' = "m1" /\ o_status r' = delivered.
Proof.
  apply (delivered_final example_ops (World (mkState [example_delivered] false) [true]) "m1"
           example_delivered); [apply NoDup_singleton|by left|reflexivity|reflexivity].
Defined.
End OutboxFacts.
