(* ===== verification/ThreadStore.v ===== *)
(** * Thread data and its store ([daemon/thread/store.go], [store_threads.go],
    [store_blocks.go], [store_pending.go])

    The protobuf records of a thread, the JSON projection of its entries, and
    the tables [threads], [thread_blocks], [pending_entries] and
    [pending_entry_claims] with every store operation on them. *)

From stdpp Require Import base gmap strings list sorting.
From Stdlib Require Import ZArith Lia.
From S2P Require Import Prelude.

Local Open Scope string_scope.
Local Open Scope Z_scope.
Local Open Scope go_scope.

Module ThreadStore.

(** ** Data *)

(** [pb.ThreadEntry]: the first five fields and the encrypted-entry fields. *)
Record ThreadEntry : Type := mkEntry {
  AuthorDid : string; Payload : string; Kind : string; AuthorSig : string; SubmittedAt : Z;
  EncodingVersion : Z; Sequence : Z; PreviousBlockHash : string; MembershipEpoch : Z;
  EncryptionEpoch : Z; Nonce : string; AuthorSignature : string }.

#[export] Instance ThreadEntry_eq_dec : EqDecision ThreadEntry.
Proof. solve_decision. Defined.

(** [pb.ThreadBlock]. *)
Record ThreadBlock : Type := mkBlock {
  ThreadId : string; Height : Z; Round : Z; ParentHash : string; Entries : list ThreadEntry;
  ProposerDid : string; ProposerSig : string; BlockHash : string; CommittedAt : Z }.

#[export] Instance ThreadBlock_eq_dec : EqDecision ThreadBlock.
Proof. solve_decision. Defined.

(** [pb.Thread]. *)
Record Thread : Type := mkThread {
  t_Id : string; CreatorDid : string; ReplicaDids : list string; t_N : Z; t_F : Z;
  EpochMs : Z; CreatedAt : Z; Metadata : gmap string string }.

Record entryJSON : Type := mkEntryJSON {
  j_AuthorDid : string; j_Payload : string; j_Kind : string; j_AuthorSig : string;
  j_SubmittedAt : Z }.

#[export] Instance entryJSON_eq_dec : EqDecision entryJSON.
Proof. solve_decision. Defined.

Definition marshal_one (e : ThreadEntry) : entryJSON :=
  mkEntryJSON (AuthorDid e) (Payload e) (Kind e) (AuthorSig e) (SubmittedAt e).

Definition marshalEntries (entries : list ThreadEntry) : list entryJSON := marshal_one <$> entries.

Definition unmarshal_one (j : entryJSON) : ThreadEntry :=
  mkEntry (j_AuthorDid j) (j_Payload j) (j_Kind j) (j_AuthorSig j) (j_SubmittedAt j) 0 0 "" 0 0 "" "".

Definition unmarshalEntries (raw : list entryJSON) : list ThreadEntry := unmarshal_one <$> raw.

(** A row of [thread_blocks]; the [entries] column holds the JSON array it
    decodes to. *)
Record block_row : Type := mkBlockRow {
  b_round : Z; b_parent : string; b_entries : list entryJSON; b_proposer : string;
  b_sig : string; b_hash : string; b_committed : Z }.

(** A row of [pending_entries]; [None] is a payload that does not decode. *)
Record pending_row : Type := mkPending {
  p_id : Z; p_thread : string; p_payload : option ThreadEntry; p_submitted : Z }.

Record BlocksDB : Type := mkDB {
  threads : gmap string Thread;
  blocks : gmap (string * Z) block_row;
  pending : list pending_row;
  pending_seq : Z;
  claims : gset Z }.

Definition empty_db : BlocksDB := mkDB ∅ ∅ [] 0 ∅.

Definition with_threads (f : gmap string Thread -> gmap string Thread) (s : BlocksDB) : BlocksDB :=
  mkDB (f (threads s)) (blocks s) (pending s) (pending_seq s) (claims s).
Definition with_blocks (f : gmap (string * Z) block_row -> gmap (string * Z) block_row)
    (s : BlocksDB) : BlocksDB :=
  mkDB (threads s) (f (blocks s)) (pending s) (pending_seq s) (claims s).
Definition with_pending (f : list pending_row -> list pending_row) (s : BlocksDB) : BlocksDB :=
  mkDB (threads s) (blocks s) (f (pending s)) (pending_seq s) (claims s).
Definition with_claims (f : gset Z -> gset Z) (s : BlocksDB) : BlocksDB :=
  mkDB (threads s) (blocks s) (pending s) (pending_seq s) (f (claims s)).

(** ** Threads *)

Definition SaveThread (t : Thread) : M BlocksDB unit := exec (with_threads (<[t_Id t := t]>)).

Definition ListThreads : M BlocksDB (list Thread) :=
  query (fun s => Ok (snd <$> map_to_list (threads s))).

Definition GetThread (id : string) : M BlocksDB Thread :=
  query (fun s => match threads s !! id with
                  | Some t => Ok t | None => Err (Errorf "thread not found") end).

(** ** Blocks *)

Definition block_to_row (b : ThreadBlock) : block_row :=
  mkBlockRow (Round b) (ParentHash b) (marshalEntries (Entries b)) (ProposerDid b)
    (ProposerSig b) (BlockHash b) (CommittedAt b).

Definition scanBlock (k : string * Z) (r : block_row) : ThreadBlock :=
  mkBlock (fst k) (snd k) (b_round r) (b_parent r) (unmarshalEntries (b_entries r))
    (b_proposer r) (b_sig r) (b_hash r) (b_committed r).

(** [INSERT OR REPLACE INTO thread_blocks]. *)
Definition replace_block (b : ThreadBlock) : BlocksDB -> BlocksDB :=
  with_blocks (<[(ThreadId b, Height b) := block_to_row b]>).

(** [INSERT INTO thread_blocks]: the primary key is (thread_id, height). *)
Definition insert_block (b : ThreadBlock) (s : BlocksDB) : outcome unit * BlocksDB :=
  match blocks s !! (ThreadId b, Height b) with
  | Some _ => (Err ErrUnique, s)
  | None => (Ok tt, replace_block b s)
  end.

Definition SaveBlock (b : ThreadBlock) : M BlocksDB unit := exec (replace_block b).

Definition ImportHistory (t : option Thread) (bs : list ThreadBlock) : M BlocksDB unit :=
  match t with
  | None => throw (Errorf "invalid recovery thread")
  | Some t =>
      guard! negb (String.eqb (t_Id t) "") else Errorf "invalid recovery thread" in
      tx (do! exec (with_threads (<[t_Id t := t]>)) in
          for_each bs (fun b => exec (replace_block b)))
  end.

Definition GetBlock (threadID : string) (height : Z) : M BlocksDB ThreadBlock :=
  query (fun s =>
    match blocks s !! (threadID, height) with
    | Some r => if 0 <? b_committed r then Ok (scanBlock (threadID, height) r)
                else Err (Errorf "block not found")
    | None => Err (Errorf "block not found")
    end).

(** The committed rows of a thread with their heights. *)
Definition committed (threadID : string) (s : BlocksDB) : list (Z * block_row) :=
  (fun p => (snd (fst p), snd p)) <$>
    filter (fun p => fst (fst p) = threadID /\ 0 < b_committed (snd p)) (map_to_list (blocks s)).

(** [SELECT MAX(height) ... committed_at > 0]: NULL on an empty set. *)
Definition max_height (threadID : string) (s : BlocksDB) : option Z :=
  foldr (fun p acc => match acc with None => Some (fst p) | Some m => Some (Z.max (fst p) m) end)
    None (committed threadID s).

Definition GetCommittedHeight (threadID : string) : M BlocksDB Z :=
  query (fun s => Ok (default 0 (max_height threadID s))).

Definition CommittedHead (threadID : string) : M BlocksDB (Z * string) :=
  let! height := GetCommittedHeight threadID in
  if height =? 0 then ret (height, "") else
  let! block := GetBlock threadID height in
  ret (height, BlockHash block).

Definition height_le (x y : Z * block_row) : Prop := fst x <= fst y.
#[export] Instance height_le_dec : RelDecision height_le.
Proof. intros x y. unfold height_le. apply _. Defined.

Definition blocks_since (threadID : string) (since limit : Z) (s : BlocksDB) : list ThreadBlock :=
  let l := (fun p => scanBlock (threadID, fst p) (snd p)) <$>
             merge_sort height_le (filter (fun p => since < fst p) (committed threadID s)) in
  if 0 <? limit then take (Z.to_nat limit) l else l.

Definition GetBlocksSince (threadID : string) (since limit : Z) : M BlocksDB (list ThreadBlock) :=
  query (fun s => Ok (blocks_since threadID since limit s)).

(** ** Pending entries *)

Definition EnqueueEntry (now : Z) (threadID : string) (entry : ThreadEntry) : M BlocksDB unit :=
  exec (fun s => mkDB (threads s) (blocks s)
                   (pending s ++ [mkPending (pending_seq s + 1) threadID (Some entry) now])
                   (pending_seq s + 1) (claims s)).

Definition submitted_le (x y : pending_row) : Prop := p_submitted x <= p_submitted y.
#[export] Instance submitted_le_dec : RelDecision submitted_le.
Proof. intros x y. unfold submitted_le. apply _. Defined.

(** [ORDER BY submitted_at ASC LIMIT ?]; a negative limit is no limit. *)
Definition oldest (limit : Z) (l : list pending_row) : list pending_row :=
  let l := merge_sort submitted_le l in if 0 <=? limit then take (Z.to_nat limit) l else l.

(** The scan loop: rows whose payload does not decode are skipped. *)
Definition decoded (l : list pending_row) : list (Z * ThreadEntry) :=
  omap (fun p => match p_payload p with Some e => Some (p_id p, e) | None => None end) l.

Definition delete_pending (id : Z) : BlocksDB -> BlocksDB :=
  with_pending (filter (fun p => p_id p <> id)).
Definition delete_claim (id : Z) : BlocksDB -> BlocksDB := with_claims (fun c => c ∖ {[id]}).

Definition DequeuePendingEntries (threadID : string) (limit : Z) : M BlocksDB (list ThreadEntry) :=
  let! rows := query (fun s => Ok (decoded (oldest limit
                 (filter (fun p => p_thread p = threadID) (pending s))))) in
  do! for_each rows (fun r => log_err (exec (delete_pending (fst r)))) in
  ret (snd <$> rows).

Record PendingBatch : Type := mkBatch { IDs : list Z; BEntries : list ThreadEntry }.

Definition ClaimPendingEntries (threadID : string) (limit : Z) : M BlocksDB PendingBatch :=
  tx (let! rows := query (fun s => Ok (decoded (oldest limit
                     (filter (fun p => p_thread p = threadID /\ p_id p ∉ claims s) (pending s))))) in
      do! for_each (fst <$> rows) (fun id =>
            stmt (fun s => if decide (id ∈ claims s) then (Err ErrUnique, s)
                           else (Ok tt, with_claims (fun c => {[id]} ∪ c) s))) in
      ret (mkBatch (fst <$> rows) (snd <$> rows))).

Definition ReleasePendingClaims (threadID : string) : M BlocksDB unit :=
  exec (fun s => with_claims (fun c => c ∖ list_to_set (p_id <$> filter (fun p => p_thread p = threadID)
                                                        (pending s))) s).

Definition ReleasePendingClaimIDs (l : list Z) : M BlocksDB unit :=
  tx (for_each l (fun id => exec (delete_claim id))).

Definition PendingEntryCount (threadID : string) : M BlocksDB Z :=
  query (fun s => Ok (llen (filter (fun p => p_thread p = threadID) (pending s)))).

(** The acknowledgement loop shared by the two commit paths. *)
Definition ack_pending (pendingIDs : list Z) : M BlocksDB unit :=
  for_each pendingIDs (fun id =>
    do! exec (delete_pending id) in
    exec (delete_claim id)).

Definition AppendBlockAndAckPending (threadID : string) (pendingIDs : list Z)
    (fill : Z -> string -> option ThreadBlock) : M BlocksDB ThreadBlock :=
  tx (let! maxHeight := query (fun s => Ok (max_height threadID s)) in
      let! hp :=
        match maxHeight with
        | Some m =>
            catch (query (fun s => match blocks s !! (threadID, m) with
                                   | Some r => Ok (b_hash r) | None => Err ErrNoRows end))
              (fun res => match res with
                          | Ok h => ret (int64 (m + 1), h)
                          | Err ErrNoRows => ret (int64 (m + 1), "")
                          | Err e => throw e
                          | Panic => panic
                          end)
        | None => ret (1, "")
        end in
      match fill (fst hp) (snd hp) with
      | None => throw (Errorf "no block produced for height")
      | Some b =>
          do! stmt (insert_block b) in
          do! ack_pending pendingIDs in
          ret b
      end).

Definition SaveBlockAndAckPending (b : ThreadBlock) (pendingIDs : list Z) : M BlocksDB unit :=
  tx (do! exec (replace_block b) in ack_pending pendingIDs).

End ThreadStore.
