(* ===== verification/BlocksFacts.v ===== *)
(** * Properties of the block store

    The stored chain of a thread as a list of rows, what the queries return on
    it, and the append that allocates the next height inside its transaction,
    under any schedule of database failures. *)

From stdpp Require Import base gmap strings list sorting.
From Stdlib Require Import ZArith Lia.
From S2P Require Import Prelude ThreadStore.

Local Open Scope string_scope.
Local Open Scope Z_scope.
Local Open Scope go_scope.
Import ThreadStore.

(** The blocks of [T] are exactly [l], committed, at heights 1, 2, ... *)
Record stored (T : string) (l : list block_row) (s : BlocksDB) : Prop := {
  st_rows : forall h r, blocks s !! (T, h) = Some r <-> 1 <= h /\ l !! Z.to_nat (h - 1) = Some r;
  st_committed : Forall (fun r => 0 < b_committed r) l }.

Definition numbered (l : list block_row) : list (Z * block_row) :=
  imap (fun i r => (Z.of_nat i + 1, r)) l.

Definition scanned (T : string) (l : list block_row) : list ThreadBlock :=
  (fun p => scanBlock (T, fst p) (snd p)) <$> numbered l.

(** The hash the next block links to. *)
Definition tip (l : list block_row) : string :=
  match last l with Some r => b_hash r | None => "" end.

Lemma stored_empty T s : (forall h, blocks s !! (T, h) = None) -> stored T [] s.
Proof. intros Hn. split; [|constructor]. intros h r. rewrite Hn. split; [done|]. by intros [_ ?]. Qed.

Lemma committed_in T l s h r :
  stored T l s -> (h, r) ∈ committed T s <-> (h, r) ∈ numbered l.
Proof.
  intros [Hrows Hc]. unfold committed, numbered. rewrite list_elem_of_fmap, elem_of_lookup_imap. split.
  - intros ([[t h'] r'] & [= -> ->] & Hin). apply list_elem_of_filter in Hin as [[Ht Hpos] Hin].
    simpl in *. subst t. apply elem_of_map_to_list, Hrows in Hin as [Hh Hl].
    exists (Z.to_nat (h' - 1)), r'. split; [f_equal; lia|done].
  - intros (i & r' & [= -> ->] & Hl). exists (T, Z.of_nat i + 1, r'). split; [done|].
    apply list_elem_of_filter. simpl. split.
    + split; [done|]. by eapply Forall_lookup_1 in Hc.
    + apply elem_of_map_to_list, Hrows. split; [lia|].
      by replace (Z.to_nat (Z.of_nat i + 1 - 1)) with i by lia.
Qed.

Lemma committed_nodup T s : NoDup (committed T s).
Proof.
  unfold committed. apply NoDup_fmap_2_strong; [|apply NoDup_filter, NoDup_map_to_list].
  intros [[t h] r] [[t' h'] r'] [[Ht _] _]%list_elem_of_filter [[Ht' _] _]%list_elem_of_filter.
  simpl in *. by intros [= -> ->]; subst.
Qed.

Lemma numbered_nodup l : NoDup (numbered l).
Proof.
  apply NoDup_alt. unfold numbered. intros i j x. rewrite !list_lookup_imap_Some.
  intros (r & _ & ->) (r' & _ & [= E _]). lia.
Qed.

Lemma committed_perm T l s : stored T l s -> committed T s ≡ₚ numbered l.
Proof.
  intros Hs. apply NoDup_Permutation; [apply committed_nodup|apply numbered_nodup|].
  intros [h r]. by apply committed_in.
Qed.

Lemma numbered_sorted l : StronglySorted height_le (numbered l).
Proof.
  unfold numbered. assert (Hg : forall k, StronglySorted height_le
    (imap (fun i r => (Z.of_nat (k + i) + 1, r)) l)).
  { induction l as [|r l IH]; intros k; simpl; [constructor|]. constructor.
    - specialize (IH (S k)). erewrite imap_ext; [exact IH|]. intros i x _. simpl. f_equal. lia.
    - apply Forall_forall. intros x (i & y & -> & _)%elem_of_lookup_imap. unfold height_le. simpl. lia. }
  apply (Hg 0%nat).
Qed.

#[local] Instance height_le_total : Total height_le.
Proof. intros x y. unfold height_le. lia. Qed.
#[local] Instance height_le_trans : Transitive height_le.
Proof. intros x y z. unfold height_le. lia. Qed.

Lemma blocks_since_stored T l s : stored T l s -> blocks_since T 0 0 s = scanned T l.
Proof.
  intros Hs. unfold blocks_since, scanned. simpl. f_equal.
  assert (Hf : filter (fun p : Z * block_row => 0 < fst p) (committed T s) = committed T s).
  { apply list_filter_all. intros [h r] Hin. apply (committed_in T l s h r Hs) in Hin.
    apply elem_of_lookup_imap in Hin as (i & y & [= -> _] & _). simpl. lia. }
  rewrite Hf. apply (StronglySorted_unique_strong height_le).
  - intros [h1 r1] [h2 r2] H1 H2. unfold height_le. simpl. intros. assert (h1 = h2) as -> by lia.
    rewrite merge_sort_Permutation in H1. apply (committed_in T l s h2 r1 Hs) in H1.
    apply elem_of_lookup_imap in H1 as (i & y & [= -> ->] & Hi).
    apply elem_of_lookup_imap in H2 as (j & z & [= E ->] & Hj).
    assert (i = j) as -> by lia. congruence.
  - apply StronglySorted_merge_sort; apply _.
  - apply numbered_sorted.
  - rewrite merge_sort_Permutation. by apply committed_perm.
Qed.

Lemma fold_max_spec (l : list (Z * block_row)) :
  match foldr (fun p acc => match acc with None => Some (fst p) | Some m => Some (Z.max (fst p) m) end)
          None l with
  | None => l = []
  | Some m => (exists r, (m, r) ∈ l) /\ forall p, p ∈ l -> fst p <= m
  end.
Proof.
  induction l as [|[h r] l IH]; [done|]. simpl.
  destruct (foldr _ None l) as [m|]; simpl in *.
  - destruct IH as [(r' & Hin) Hmax]. split.
    + destruct (Z.max_spec h m) as [[_ ->]|[_ ->]]; [exists r'; by right|exists r; by left].
    + intros p [->|Hp]%elem_of_cons; simpl; [lia|]. specialize (Hmax p Hp). lia.
  - subst l. split; [exists r; by left|]. intros p [->|[]%elem_of_nil]%elem_of_cons. simpl. lia.
Qed.

Lemma max_height_stored T l s :
  stored T l s ->
  max_height T s = if decide (l = []) then None else Some (Z.of_nat (length l)).
Proof.
  intros Hs. pose proof (fold_max_spec (committed T s)) as Hm. unfold max_height.
  destruct (foldr _ None (committed T s)) as [m|].
  - destruct Hm as [(r & Hin) Hmax]. apply (committed_in T l s m r Hs) in Hin.
    apply elem_of_lookup_imap in Hin as (i & y & [= Em ->] & Hi).
    pose proof (lookup_lt_Some _ _ _ Hi) as Hlt.
    rewrite decide_False by (by intros ->). f_equal.
    destruct (lookup_lt_is_Some_2 l (length l - 1)) as [z Hz]; [lia|].
    assert ((Z.of_nat (length l - 1) + 1, z) ∈ committed T s) as Hc.
    { apply (committed_in T l s _ z Hs). apply elem_of_lookup_imap. eauto. }
    specialize (Hmax _ Hc). simpl in Hmax. lia.
  - rewrite decide_True; [done|]. pose proof (committed_perm T l s Hs) as Hp. rewrite Hm in Hp.
    apply Permutation_nil_l in Hp. unfold numbered in Hp. by destruct l.
Qed.

Lemma tip_lookup T l s :
  stored T l s -> l <> [] ->
  exists r, blocks s !! (T, Z.of_nat (length l)) = Some r /\ b_hash r = tip l.
Proof.
  intros [Hrows _] Hne. unfold tip. destruct (last l) as [r|] eqn:E; [|by apply last_None in E].
  exists r. split; [|done]. apply Hrows. rewrite last_lookup in E.
  assert (length l <> 0)%nat by (by destruct l). split; [lia|].
  by replace (Z.to_nat (Z.of_nat (length l) - 1)) with (pred (length l)) by lia.
Qed.

(** ** Appending *)

(** Acknowledging touches only the pending tables. *)
Lemma ack_pending_ok ids w u w' :
  ack_pending ids w = (Ok u, w') ->
  threads (db w') = threads (db w) /\ blocks (db w') = blocks (db w) /\
  pending (db w') = filter (fun p => p_id p ∉ ids) (pending (db w)).
Proof.
  unfold ack_pending. revert w. induction ids as [|i ids IH]; intros w H; simpl in H.
  - injection H as _ <-. split; [done|]. split; [done|]. symmetry. apply list_filter_all.
    intros x _. apply not_elem_of_nil.
  - apply bind_ok in H as (v & w1 & H1 & H). apply bind_ok in H1 as (v0 & w0 & H0%exec_ok & H1%exec_ok).
    apply IH in H as (-> & -> & ->). rewrite H1, H0. simpl. split; [done|]. split; [done|].
    rewrite list_filter_filter. apply list_filter_iff. intros x. rewrite not_elem_of_cons. tauto.
Qed.

Lemma stored_snoc T l s b :
  stored T l s -> ThreadId b = T -> Height b = Z.of_nat (length l) + 1 -> 0 < CommittedAt b ->
  stored T (l ++ [block_to_row b]) (replace_block b s).
Proof.
  intros [Hrows Hc] HT Hh Hpos. split.
  - intros h r. simpl. rewrite HT, Hh.
    destruct (decide (h = Z.of_nat (length l) + 1)) as [->|Hne].
    + rewrite lookup_insert_eq.
      replace (Z.to_nat (Z.of_nat (length l) + 1 - 1)) with (length l) by lia.
      rewrite lookup_app_r, Nat.sub_diag by lia. simpl. split; [intros [= <-]; split; [lia|done]|].
      by intros [_ ?].
    + rewrite lookup_insert_ne by congruence. rewrite Hrows. split; intros [Hle Hl]; (split; [done|]).
      * by apply lookup_app_l_Some.
      * pose proof (lookup_lt_Some _ _ _ Hl) as Hlt. rewrite length_app in Hlt. simpl in Hlt.
        rewrite lookup_app_l in Hl by lia. done.
  - apply Forall_app. split; [done|]. by constructor.
Qed.

Lemma stored_fresh T l s : stored T l s -> blocks s !! (T, Z.of_nat (length l) + 1) = None.
Proof.
  intros [Hrows _]. destruct (blocks s !! _) as [r|] eqn:E; [|done].
  apply Hrows in E as [_ E]. apply lookup_lt_Some in E. lia.
Qed.

Lemma stored_blocks T l s s' : blocks s' = blocks s -> stored T l s -> stored T l s'.
Proof. intros E [Hr Hc]. split; [|done]. by rewrite E. Qed.

Lemma AppendBlock_ok T ids fill w b w' l :
  AppendBlockAndAckPending T ids fill w = (Ok b, w') ->
  stored T l (db w) -> Z.of_nat (length l) + 1 < 2 ^ 63 ->
  fill (Z.of_nat (length l) + 1) (tip l) = Some b /\
  blocks (db w') = <[(ThreadId b, Height b) := block_to_row b]> (blocks (db w)) /\
  blocks (db w) !! (ThreadId b, Height b) = None /\
  pending (db w') = filter (fun p => p_id p ∉ ids) (pending (db w)) /\
  threads (db w') = threads (db w).
Proof.
  intros H Hs Hlen. unfold AppendBlockAndAckPending in H.
  apply tx_ok in H as (w1 & w2 & E1 & H & ->). rewrite <- E1 in *. clear E1 w w'.
  apply bind_ok in H as (mh & w3 & [Hmh E3]%query_ok & H). rewrite <- E3 in *. clear E3.
  injection Hmh as <-. rewrite (max_height_stored T l _ Hs) in H.
  apply bind_ok in H as (hp & w4 & Hhp & H).
  assert (hp = (Z.of_nat (length l) + 1, tip l) /\ db w4 = db w3) as [-> E4].
  { case_decide as Hl; [subst l; by injection Hhp as <- <-|].
    destruct (tip_lookup T l _ Hs Hl) as (r & Hr & Ht). unfold catch in Hhp.
    destruct (query _ w3) as [[x|e|] w5] eqn:Hq; [| |done].
    - apply query_ok in Hq as [Hq E5]. rewrite Hr in Hq. injection Hq as <-.
      injection Hhp as <- <-. rewrite int64_small by lia. by rewrite Ht.
    - apply query_err in Hq as [[->|Hq] _]; [done|]. rewrite Hr in Hq. discriminate. }
  simpl in H. destruct (fill _ _) as [b'|]; [|done].
  apply bind_ok in H as (u & w5 & Hins%stmt_ok & H). apply bind_ok in H as (u' & w6 & Hack & H).
  injection H as <- <-. apply ack_pending_ok in Hack as (-> & -> & ->).
  rewrite E4 in Hins. unfold insert_block in Hins.
  destruct (blocks (db w3) !! (ThreadId b', Height b')) eqn:Ef; [done|].
  apply (f_equal snd) in Hins. simpl in Hins. rewrite <- Hins. simpl. done.
Qed.

(** On a driver that does not fail the append succeeds whenever the block filled
    in lies at the allocated height of the thread. *)
Lemma ack_pending_run ids :
  succeeds (fun _ => True) (ack_pending ids) (fun _ _ => True).
Proof.
  unfold ack_pending. induction ids as [|i ids IH]; simpl; [by apply succeeds_ret|].
  eapply (succeeds_bind _ (fun _ _ => True)); [|by intros].
  eapply (succeeds_bind _ (fun _ _ => True)); intros; by apply succeeds_exec.
Qed.

Lemma AppendBlock_run T ids fill l b s :
  stored T l s -> Z.of_nat (length l) + 1 < 2 ^ 63 ->
  fill (Z.of_nat (length l) + 1) (tip l) = Some b -> ThreadId b = T ->
  Height b = Z.of_nat (length l) + 1 ->
  exists s', AppendBlockAndAckPending T ids fill (World s []) = (Ok b, World s' []).
Proof.
  intros Hs Hlen Hf HT Hh. unfold AppendBlockAndAckPending.
  assert (Hbody : forall body, (exists s', body (World s []) = (Ok b, World s' [])) ->
    exists s', tx body (World s []) = (Ok b, World s' [])).
  { intros body (s' & Eb). exists s'. by rewrite (tx_nofault body s (Ok b) (World s' [])). }
  apply Hbody. clear Hbody. unfold bind at 1. unfold query at 1. rewrite stmt_nofault. cbn [fst snd].
  rewrite (max_height_stored T l s Hs).
  assert (Hhp : (match (if decide (l = []) then None else Some (Z.of_nat (length l))) with
     | Some m => catch (query (fun s => match blocks s !! (T, m) with
                               | Some r => Ok (b_hash r) | None => Err ErrNoRows end))
          (fun res => match res with
                      | Ok h => ret (int64 (m + 1), h) | Err ErrNoRows => ret (int64 (m + 1), "")
                      | Err e => throw e | Panic => panic end)
     | None => ret (1, "") end) (World s []) = (Ok (Z.of_nat (length l) + 1, tip l), World s [])).
  { case_decide as Hl; [by subst l|]. destruct (tip_lookup T l s Hs Hl) as (r & Hr & Ht).
    unfold catch, query. rewrite stmt_nofault. cbn [fst snd]. rewrite Hr, Ht, int64_small by lia. done. }
  unfold bind at 1. rewrite Hhp. cbn [fst snd]. rewrite Hf.
  unfold bind at 1. rewrite stmt_nofault. unfold insert_block.
  rewrite HT, Hh, (stored_fresh T l s Hs). cbn [fst snd]. unfold bind.
  destruct (ack_pending_run ids (replace_block b s) I) as (u & s' & -> & _). by exists s'.
Qed.
