(* ===== verification/ConsensusStore.v ===== *)
(** * Consensus tables of the thread store ([daemon/thread/store_consensus.go])

    Votes, the Raft log, hard state and snapshots, the consensus state of
    Tendermint and the passivation checkpoints.  A BLOB or JSON column holds
    the value it decodes to. *)

From stdpp Require Import base gmap strings list sorting.
From Stdlib Require Import ZArith Lia.
From S2P Require Import Prelude ThreadStore.

Local Open Scope string_scope.
Local Open Scope Z_scope.
Local Open Scope go_scope.

Module ConsensusStore.
Import ThreadStore.

(** ** Data *)

Inductive VoteType : Type := VOTE_UNSPECIFIED | PREVOTE | PRECOMMIT | VOTE_OTHER (n : Z).
#[export] Instance VoteType_eq_dec : EqDecision VoteType.
Proof. solve_decision. Defined.

(** The enum's number, as it is stored and signed. *)
Definition vote_num (t : VoteType) : Z :=
  match t with VOTE_UNSPECIFIED => 0 | PREVOTE => 1 | PRECOMMIT => 2 | VOTE_OTHER n => n end.

Record Vote : Type := mkVote {
  v_ThreadId : string; v_Height : Z; v_Round : Z; v_Type : VoteType; v_BlockHash : string;
  v_VoterDid : string; v_Signature : string }.
#[export] Instance Vote_eq_dec : EqDecision Vote.
Proof. solve_decision. Defined.

(** [raftpb.HardState], [raftpb.Entry] and [raftpb.Snapshot]'s metadata. *)
Record HardState : Type := mkHardState { hs_Term : Z; hs_Vote : Z; hs_Commit : Z }.
#[export] Instance HardState_eq_dec : EqDecision HardState.
Proof. solve_decision. Defined.

Definition emptyHardState : HardState := mkHardState 0 0 0.
Definition IsEmptyHardState (hs : HardState) : bool := bool_decide (hs = emptyHardState).

(** What an entry's data decodes to: a proposal, a bare entry list of an older
    log, a configuration change with its context token, or nothing useful. *)
Inductive entry_data : Type :=
| DataEmpty
| DataProposal (pendingIDs : list Z) (entries : list ThreadEntry) (ownerDID : string)
| DataLegacy (entries : list ThreadEntry)
| DataConfChange (token : string) (add : bool) (nodeID : Z)
| DataGarbage.

Inductive EntryType : Type := EntryNormal | EntryConfChange | EntryConfChangeV2.

Record RaftEntry : Type := mkRaftEntry {
  re_Term : Z; re_Index : Z; re_Type : EntryType; re_Data : entry_data }.

Record Snapshot : Type := mkSnapshot { sn_Index : Z; sn_Term : Z; sn_Voters : list Z }.
Definition emptySnapshot : Snapshot := mkSnapshot 0 0 [].
Definition IsEmptySnap (s : Snapshot) : bool := sn_Index s =? 0.

Record ConsensusState : Type := mkCS {
  cs_Height : Z; cs_Round : Z; cs_Step : string; cs_LockedRound : Z; cs_LockedHash : string;
  cs_ValidRound : Z; cs_ValidHash : string }.

Record ThreadCheckpoint : Type := mkCheckpoint { CommittedHeight : Z; PassivatedAt : Z }.

Record ConsensusDB : Type := mkCDB {
  votes : gmap (string * Z * Z * Z * string) Vote;
  hard_states : gmap string HardState;
  raft_entries : gmap (string * Z) RaftEntry;
  snapshots : gmap string Snapshot;
  consensus_state : gmap string ConsensusState;
  checkpoints : gmap string ThreadCheckpoint }.

Definition empty_cdb : ConsensusDB := mkCDB ∅ ∅ ∅ ∅ ∅ ∅.

Definition with_votes f (s : ConsensusDB) : ConsensusDB :=
  mkCDB (f (votes s)) (hard_states s) (raft_entries s) (snapshots s) (consensus_state s) (checkpoints s).
Definition with_hard f (s : ConsensusDB) : ConsensusDB :=
  mkCDB (votes s) (f (hard_states s)) (raft_entries s) (snapshots s) (consensus_state s) (checkpoints s).
Definition with_raft f (s : ConsensusDB) : ConsensusDB :=
  mkCDB (votes s) (hard_states s) (f (raft_entries s)) (snapshots s) (consensus_state s) (checkpoints s).
Definition with_snaps f (s : ConsensusDB) : ConsensusDB :=
  mkCDB (votes s) (hard_states s) (raft_entries s) (f (snapshots s)) (consensus_state s) (checkpoints s).
Definition with_cs f (s : ConsensusDB) : ConsensusDB :=
  mkCDB (votes s) (hard_states s) (raft_entries s) (snapshots s) (f (consensus_state s)) (checkpoints s).
Definition with_checkpoints f (s : ConsensusDB) : ConsensusDB :=
  mkCDB (votes s) (hard_states s) (raft_entries s) (snapshots s) (consensus_state s) (f (checkpoints s)).

(** ** Votes *)

Definition vote_key (v : Vote) : string * Z * Z * Z * string :=
  (v_ThreadId v, v_Height v, v_Round v, vote_num (v_Type v), v_VoterDid v).

(** [INSERT OR IGNORE]: the first vote of a voter stands. *)
Definition SaveVote (v : Vote) : M ConsensusDB unit :=
  exec (with_votes (fun m => match m !! vote_key v with Some _ => m | None => <[vote_key v := v]> m end)).

Definition select_votes (threadID : string) (height round : Z) (vtype : VoteType) (s : ConsensusDB)
    : list Vote :=
  snd <$> filter (fun p => fst (fst p) = (threadID, height, round, vote_num vtype))
            (map_to_list (votes s)).

Definition GetVotes (threadID : string) (height round : Z) (vtype : VoteType)
    : M ConsensusDB (list Vote) :=
  query (fun s => Ok (select_votes threadID height round vtype s)).

(** ** Raft *)

Definition SaveRaftReady (threadID : string) (hardState : HardState) (entries : list RaftEntry)
    : M ConsensusDB unit :=
  tx (do! (if IsEmptyHardState hardState then ret tt
           else exec (with_hard (<[threadID := hardState]>))) in
      for_each entries (fun e => exec (with_raft (<[(threadID, re_Index e) := e]>)))).

Definition index_le (x y : RaftEntry) : Prop := re_Index x <= re_Index y.
#[export] Instance index_le_dec : RelDecision index_le.
Proof. intros x y. unfold index_le. apply _. Defined.

(** [SELECT entry ... WHERE log_index > ? ORDER BY log_index]. *)
Definition log_after (threadID : string) (index : Z) (s : ConsensusDB) : list RaftEntry :=
  merge_sort index_le (snd <$> filter (fun p => fst (fst p) = threadID /\ index < snd (fst p))
                                (map_to_list (raft_entries s))).

Definition LoadRaftState (threadID : string)
    : M ConsensusDB (Snapshot * HardState * list RaftEntry) :=
  let! snapshot := query (fun s => Ok (default emptySnapshot (snapshots s !! threadID))) in
  let! hardState := query (fun s => Ok (default emptyHardState (hard_states s !! threadID))) in
  let! entries := query (fun s => Ok (log_after threadID (sn_Index snapshot) s)) in
  ret (snapshot, hardState, entries).

Definition SaveRaftSnapshot (threadID : string) (snapshot : Snapshot) : M ConsensusDB unit :=
  tx (do! exec (with_snaps (<[threadID := snapshot]>)) in
      exec (with_raft (filter (fun p => ~ (fst (fst p) = threadID /\ snd (fst p) <= sn_Index snapshot))))).

(** ** Consensus state and checkpoints *)

Definition SaveCheckpoint (threadID : string) (c : ThreadCheckpoint) : M ConsensusDB unit :=
  exec (with_checkpoints (<[threadID := c]>)).

Definition LoadCheckpoint (threadID : string) : M ConsensusDB ThreadCheckpoint :=
  query (fun s => Ok (default (mkCheckpoint 0 0) (checkpoints s !! threadID))).

Definition SaveConsensusState (threadID : string) (cs : ConsensusState) : M ConsensusDB unit :=
  exec (with_cs (<[threadID := cs]>)).

Definition LoadConsensusState (threadID : string) : M ConsensusDB ConsensusState :=
  query (fun s => Ok (default (mkCS 1 0 "propose" (-1) "" (-1) "") (consensus_state s !! threadID))).

End ConsensusStore.
