(* ===== verification/Membership.v ===== *)
(** * Thread membership and keys ([daemon/thread/store_membership.go],
    [store_keys.go], [store_archive.go])

    The tables of members, membership epochs, invites, key envelopes, recovery
    capabilities and archive receipts, with every store operation on them.
    Epochs are uint64 columns. *)

From stdpp Require Import base gmap strings list sorting.
From Stdlib Require Import ZArith Lia.
From S2P Require Import Prelude GoStd Identity.

Local Open Scope string_scope.
Local Open Scope Z_scope.
Local Open Scope go_scope.

Module Membership.

(** ** Members, epochs and invites *)

Inductive Role : Type := ROLE_UNSPECIFIED | OBSERVER | VOTER | ADMIN | ROLE_OTHER (n : Z).
#[export] Instance Role_eq_dec : EqDecision Role.
Proof. solve_decision. Defined.

Record ThreadMember : Type := mkMember { Did : string; MRole : Role; JoinedEpoch : Z }.

Record invite : Type := mkInvite { inv_role : Role; inv_expires : Z; inv_accepted : Z }.

(** Members by (thread, did) with role and joined epoch; invites by
    (thread, invitee, nonce). *)
Record MemberDB : Type := mkDB {
  members : gmap (string * string) (Role * Z);
  epochs : gmap string Z;
  invites : gmap (string * string * string) invite }.

Definition empty_db : MemberDB := mkDB ∅ ∅ ∅.

Definition with_members f (s : MemberDB) : MemberDB := mkDB (f (members s)) (epochs s) (invites s).
Definition with_epochs f (s : MemberDB) : MemberDB := mkDB (members s) (f (epochs s)) (invites s).
Definition with_invites f (s : MemberDB) : MemberDB := mkDB (members s) (epochs s) (f (invites s)).

Definition invalid_member : error := Errorf "invalid thread member".

(** [INSERT OR IGNORE INTO thread_membership_epochs VALUES (?, 1)]. *)
Definition init_epoch (threadID : string) : MemberDB -> MemberDB :=
  with_epochs (fun m => match m !! threadID with Some _ => m | None => <[threadID := 1]> m end).

Definition SaveMember (threadID : string) (member : option ThreadMember) : M MemberDB unit :=
  match member with
  | None => throw invalid_member
  | Some m =>
      if String.eqb threadID "" || String.eqb (Did m) "" || bool_decide (MRole m = ROLE_UNSPECIFIED)
      then throw invalid_member else
      tx (do! exec (with_members (<[(threadID, Did m) := (MRole m, JoinedEpoch m)]>)) in
          exec (init_epoch threadID))
  end.

Definition select_epoch (threadID : string) (s : MemberDB) : outcome Z :=
  match epochs s !! threadID with Some e => Ok e | None => Err ErrNoRows end.

Definition MembershipEpochOf (threadID : string) : M MemberDB Z :=
  catch (query (select_epoch threadID)) (fun res =>
    match res with
    | Ok e => ret e
    | Err ErrNoRows => ret 1
    | Err e => throw e
    | Panic => panic
    end).

Definition AdvanceMembershipEpoch (threadID : string) : M MemberDB Z :=
  tx (catch (query (select_epoch threadID)) (fun res =>
        match res with
        | Err ErrNoRows =>
            do! exec (with_epochs (<[threadID := 1]>)) in ret 1
        | Err e => throw e
        | Ok epoch =>
            let epoch := uint64 (epoch + 1) in
            do! exec (with_epochs (alter (fun _ => epoch) threadID)) in ret epoch
        | Panic => panic
        end)).

Definition advanceMembershipEpochTx (threadID : string) : M MemberDB Z :=
  catch (query (select_epoch threadID)) (fun res =>
    let advance epoch :=
      let epoch := uint64 (epoch + 1) in
      do! exec (with_epochs (alter (fun _ => epoch) threadID)) in ret epoch in
    match res with
    | Err ErrNoRows => do! exec (with_epochs (<[threadID := 1]>)) in advance 1
    | Err e => throw e
    | Ok epoch => advance epoch
    | Panic => panic
    end).

(** [SELECT ... FROM thread_members WHERE thread_id=?]. *)
Definition thread_members (threadID : string) (s : MemberDB) : list ThreadMember :=
  (fun p => mkMember (snd (fst p)) (fst (snd p)) (snd (snd p))) <$>
    filter (fun p => fst (fst p) = threadID) (map_to_list (members s)).

Definition string_le (a b : string) : bool := String.leb a b.
Definition member_le (x y : ThreadMember) : Prop := String.leb (Did x) (Did y) = true.
#[export] Instance member_le_dec : RelDecision member_le.
Proof. intros x y. unfold member_le. apply _. Defined.

Definition ListMembers (threadID : string) : M MemberDB (list ThreadMember) :=
  query (fun s => Ok (merge_sort member_le (thread_members threadID s))).

Definition votes (r : Role) : bool := match r with VOTER | ADMIN => true | _ => false end.

(** [SELECT COUNT( * ) ... role IN (VOTER, ADMIN)]. *)
Definition count_voters (threadID : string) (s : MemberDB) : Z :=
  llen (filter (fun m => votes (MRole m) = true) (thread_members threadID s)).

Definition select_member (threadID did : string) (s : MemberDB) : outcome (Role * Z) :=
  match members s !! (threadID, did) with Some r => Ok r | None => Err ErrNoRows end.

Definition RemoveMemberWithEpoch (threadID did : string) : M MemberDB Z :=
  if String.eqb threadID "" || String.eqb did "" then throw invalid_member else
  tx (let! role := query (select_member threadID did) in
      do! (if votes (fst role) then
             let! voters := query (fun s => Ok (count_voters threadID s)) in
             guard! negb (voters <=? 1) else Errorf "cannot remove last voter" in ret tt
           else ret tt) in
      do! exec (with_members (delete (threadID, did))) in
      advanceMembershipEpochTx threadID).

Definition RemoveMember (threadID did : string) : M MemberDB unit :=
  let! _ := RemoveMemberWithEpoch threadID did in ret tt.

Definition PromoteMemberWithEpoch (threadID did : string) : M MemberDB (ThreadMember * Z) :=
  if String.eqb threadID "" || String.eqb did "" then throw invalid_member else
  tx (let! row := query (select_member threadID did) in
      guard! bool_decide (fst row = OBSERVER) else Errorf "only observers may be promoted" in
      do! exec (with_members (alter (fun r => (VOTER, snd r)) (threadID, did))) in
      let! epoch := advanceMembershipEpochTx threadID in
      ret (mkMember did VOTER (snd row), epoch)).

Definition PromoteMember (threadID did : string) : M MemberDB ThreadMember :=
  let! r := PromoteMemberWithEpoch threadID did in ret (fst r).

Definition SaveInvite (now : Z) (threadID invitee : string) (role : Role) (nonce : string)
    (expiresAt : Z) : M MemberDB unit :=
  if String.eqb threadID "" || String.eqb invitee "" || bool_decide (role = ROLE_UNSPECIFIED)
     || String.eqb nonce "" || (expiresAt <=? now)
  then throw (Errorf "invalid thread invite") else
  exec (with_invites (<[(threadID, invitee, nonce) := mkInvite role expiresAt 0]>)).

(** [now1] is read when the invite is checked, [now2] when it is marked. *)
Definition AcceptInviteWithEpoch (now1 now2 : Z) (threadID invitee nonce : string)
    : M MemberDB (ThreadMember * Z) :=
  if String.eqb threadID "" || String.eqb invitee "" || String.eqb nonce ""
  then throw (Errorf "invalid thread invite") else
  tx (let! inv := query (fun s => match invites s !! (threadID, invitee, nonce) with
                                  | Some i => Ok i | None => Err ErrNoRows end) in
      guard! (inv_accepted inv =? 0) && (now1 <? inv_expires inv)
        else Errorf "thread invite expired or already accepted" in
      let! epoch := advanceMembershipEpochTx threadID in
      let member := mkMember invitee (inv_role inv) epoch in
      do! exec (with_members (<[(threadID, invitee) := (inv_role inv, epoch)]>)) in
      do! exec (with_invites (alter (fun i => if inv_accepted i =? 0
                                              then mkInvite (inv_role i) (inv_expires i) now2 else i)
                                (threadID, invitee, nonce))) in
      ret (member, epoch)).

Definition AcceptInvite (now1 now2 : Z) (threadID invitee nonce : string)
    : M MemberDB ThreadMember :=
  let! r := AcceptInviteWithEpoch now1 now2 threadID invitee nonce in ret (fst r).

End Membership.

Module Keys.
Section Keys.
Context `{Crypto}.

Record ThreadKeyEnvelope : Type := mkEnvelope {
  k_ThreadId : string; k_EncryptionEpoch : Z; k_RecipientDid : string;
  k_EphemeralPublicKey : string; k_Nonce : string; k_Ciphertext : string; k_Recovery : bool;
  k_AuthorSignature : string }.

Record KeysDB : Type := mkKeysDB {
  envelopes : gmap (string * Z * string) ThreadKeyEnvelope;
  recovery_envelopes : gmap (string * Z) ThreadKeyEnvelope;
  capabilities : gmap string string }.

(** The table of envelopes has no column for the signature. *)
Definition strip_signature (e : ThreadKeyEnvelope) : ThreadKeyEnvelope :=
  mkEnvelope (k_ThreadId e) (k_EncryptionEpoch e) (k_RecipientDid e) (k_EphemeralPublicKey e) (k_Nonce e)
    (k_Ciphertext e) (k_Recovery e) "".

Definition SaveKeyEnvelope (e : option ThreadKeyEnvelope) : M KeysDB unit :=
  match e with
  | None => throw (Errorf "invalid thread key envelope")
  | Some e =>
      if String.eqb (k_ThreadId e) "" || String.eqb (k_RecipientDid e) ""
         || (k_EncryptionEpoch e =? 0) || (slen (k_Ciphertext e) =? 0)
      then throw (Errorf "invalid thread key envelope") else
      if negb (slen (k_EphemeralPublicKey e) =? 32) || negb (slen (k_Nonce e) =? 24)
         || (64 * 1024 <? slen (k_Ciphertext e))
      then throw (Errorf "invalid thread key envelope size") else
      exec (fun s => mkKeysDB
        (<[(k_ThreadId e, k_EncryptionEpoch e, k_RecipientDid e) := strip_signature e]> (envelopes s))
        (recovery_envelopes s) (capabilities s))
  end.

Definition KeyEnvelopes (threadID : string) (epoch : Z) (recipientDID : string)
    : M KeysDB (list ThreadKeyEnvelope) :=
  query (fun s => Ok (match envelopes s !! (threadID, epoch, recipientDID) with
                      | Some e => [e] | None => [] end)).

(** The recovery table has no columns for the recipient and the signature. *)
Definition strip_recipient (e : ThreadKeyEnvelope) : ThreadKeyEnvelope :=
  mkEnvelope (k_ThreadId e) (k_EncryptionEpoch e) "" (k_EphemeralPublicKey e) (k_Nonce e)
    (k_Ciphertext e) true "".

Definition SaveRecoveryKeyEnvelope (e : option ThreadKeyEnvelope) : M KeysDB unit :=
  match e with
  | None => throw (Errorf "invalid recovery key envelope")
  | Some e =>
      if negb (k_Recovery e) then throw (Errorf "invalid recovery key envelope") else
      if String.eqb (k_ThreadId e) "" || (k_EncryptionEpoch e =? 0)
         || negb (slen (k_EphemeralPublicKey e) =? 32) || negb (slen (k_Nonce e) =? 24)
         || (slen (k_Ciphertext e) =? 0) || (64 * 1024 <? slen (k_Ciphertext e))
      then throw (Errorf "invalid recovery key envelope") else
      exec (fun s => mkKeysDB (envelopes s)
        (<[(k_ThreadId e, k_EncryptionEpoch e) := strip_recipient e]> (recovery_envelopes s))
        (capabilities s))
  end.

Definition epoch_le (x y : ThreadKeyEnvelope) : Prop := k_EncryptionEpoch x <= k_EncryptionEpoch y.
#[export] Instance epoch_le_dec : RelDecision epoch_le.
Proof. intros x y. unfold epoch_le. apply _. Defined.

Definition RecoveryKeyEnvelopes (threadID : string) : M KeysDB (list ThreadKeyEnvelope) :=
  query (fun s => Ok (merge_sort epoch_le
    (snd <$> filter (fun p => fst (fst p) = threadID) (map_to_list (recovery_envelopes s))))).

(** Only the digest of the secret is stored. *)
Definition SaveRecoveryCapability (threadID secret : string) : M KeysDB unit :=
  if String.eqb threadID "" || negb (slen secret =? 32)
  then throw (Errorf "invalid recovery capability") else
  exec (fun s => mkKeysDB (envelopes s) (recovery_envelopes s)
                   (<[threadID := Sum256 secret]> (capabilities s))).

Definition AuthorizeRecoveryCapability (threadID secret : string) : M KeysDB bool :=
  if String.eqb threadID "" || negb (slen secret =? 32) then ret false else
  catch (query (fun s => match capabilities s !! threadID with
                         | Some h => Ok h | None => Err ErrNoRows end)) (fun res =>
    match res with
    | Ok expected => ret (String.eqb expected (Sum256 secret))
    | Err ErrNoRows => ret false
    | Err e => throw e
    | Panic => panic
    end).

End Keys.
End Keys.

Module Archive.
Section Archive.
Context `{Crypto}.

Record Acknowledgement : Type := mkAck {
  a_ThreadId : string; a_ProviderDid : string; a_BlockHash : string; a_At : Z; a_Signature : string }.

(** The deterministic protobuf encoding of an acknowledgement. *)
Context (proto_ack : Acknowledgement -> string).

Record ProviderRecord : Type := mkProvider {
  pr_Did : string; pr_PeerId : string; pr_Addrs : list string; pr_Expires : Z; pr_Signature : string }.

Record Diagnostic : Type := mkDiag {
  dg_Thread : string; dg_Provider : string; dg_Kind : string; dg_Detail : string; dg_At : Z }.

Record ArchiveDB : Type := mkArchiveDB {
  acks : gmap (string * string * string) Acknowledgement;
  providers : gmap string ProviderRecord;
  diagnostics : list Diagnostic }.

Definition VerifyArchiveAcknowledgement (ack : option Acknowledgement) : outcome unit :=
  match ack with
  | None => Err (Errorf "invalid archive acknowledgement")
  | Some a =>
      if String.eqb (a_ThreadId a) "" || String.eqb (a_ProviderDid a) ""
         || String.eqb (a_BlockHash a) "" || String.eqb (a_Signature a) ""
      then Err (Errorf "invalid archive acknowledgement") else
      let data := proto_ack (mkAck (a_ThreadId a) (a_ProviderDid a) (a_BlockHash a) (a_At a) "") in
      match Identity.VerifyDID (a_ProviderDid a) data (a_Signature a) with
      | Ok true => Ok tt
      | Panic => Panic
      | _ => Err (Errorf "invalid archive acknowledgement signature")
      end
  end.

Definition SaveArchiveAcknowledgement (ack : option Acknowledgement) : M ArchiveDB unit :=
  match VerifyArchiveAcknowledgement ack, ack with
  | Ok _, Some a =>
      exec (fun s => mkArchiveDB (<[(a_ThreadId a, a_ProviderDid a, a_BlockHash a) := a]> (acks s))
                       (providers s) (diagnostics s))
  | Panic, _ => panic
  | _, _ => throw (Errorf "verify archive acknowledgement")
  end.

Definition ArchiveAcknowledgements (threadID blockHash : string) : M ArchiveDB (list Acknowledgement) :=
  query (fun s => Ok (filter (fun a => a_ThreadId a = threadID /\ a_BlockHash a = blockHash)
                        (snd <$> map_to_list (acks s)))).

Definition HasArchiveAcknowledgementQuorum (threadID blockHash : string) (required : Z)
    : M ArchiveDB bool :=
  if String.eqb threadID "" || String.eqb blockHash "" || (required <=? 0)
  then throw (Errorf "invalid archive acknowledgement policy") else
  query (fun s => Ok (required <=? Z.of_nat (size (list_to_set (C := gset string)
    (a_ProviderDid <$> filter (fun a => a_ThreadId a = threadID /\ a_BlockHash a = blockHash)
       (snd <$> map_to_list (acks s))))))).

Definition SaveArchiveProvider (now : Z) (record : option ProviderRecord) : M ArchiveDB unit :=
  match record with
  | None => throw (Errorf "invalid archive provider record")
  | Some r =>
      if String.eqb (pr_Did r) "" || String.eqb (pr_PeerId r) "" || (pr_Expires r <=? now)
         || String.eqb (pr_Signature r) ""
      then throw (Errorf "invalid archive provider record") else
      exec (fun s => mkArchiveDB (acks s) (<[pr_Did r := r]> (providers s)) (diagnostics s))
  end.

Definition expires_ge (x y : ProviderRecord) : Prop := pr_Expires y <= pr_Expires x.
#[export] Instance expires_ge_dec : RelDecision expires_ge.
Proof. intros x y. unfold expires_ge. apply _. Defined.

Definition ArchiveProviders (now limit : Z) : M ArchiveDB (list ProviderRecord) :=
  query (fun s =>
    let l := merge_sort expires_ge (filter (fun r => now < pr_Expires r) (snd <$> map_to_list (providers s))) in
    Ok (if 0 <? limit then take (Z.to_nat limit) l else l)).

Definition PruneArchiveProviders (now : Z) : M ArchiveDB Z :=
  stmt (fun s =>
    let kept := filter (fun p : string * ProviderRecord => now < pr_Expires (snd p)) (providers s) in
    (Ok (Z.of_nat (size (providers s)) - Z.of_nat (size kept)),
     mkArchiveDB (acks s) kept (diagnostics s))).

Definition RecordArchiveDiagnostic (now : Z) (d : Diagnostic) : M ArchiveDB unit :=
  if String.eqb (dg_Thread d) "" || String.eqb (dg_Provider d) "" || String.eqb (dg_Kind d) ""
  then throw (Errorf "invalid archive diagnostic") else
  let at_ := if dg_At d =? 0 then now else dg_At d in
  exec (fun s => mkArchiveDB (acks s) (providers s)
    (diagnostics s ++ [mkDiag (dg_Thread d) (dg_Provider d) (dg_Kind d) (dg_Detail d) at_])).

End Archive.
End Archive.
