(* ===== verification/MembershipFacts.v ===== *)
(** * Properties of membership, recovery keys and archive receipts

    The epoch counter, the voter floor, single-use invites and the recovery
    capability, under any schedule of database failures. *)

From stdpp Require Import base gmap strings list sorting.
From Stdlib Require Import ZArith Lia.
From S2P Require Import Prelude GoStd Identity Membership.

Local Open Scope string_scope.
Local Open Scope Z_scope.
Local Open Scope go_scope.
Import Membership.

(** ** The voter floor *)

Definition has_voter (T : string) (s : MemberDB) : Prop :=
  exists did r e, members s !! (T, did) = Some (r, e) /\ votes r = true.

Lemma thread_members_in T s m :
  m ∈ thread_members T s <-> members s !! (T, Did m) = Some (MRole m, JoinedEpoch m).
Proof.
  unfold thread_members. rewrite list_elem_of_fmap. split.
  - intros ([[t d] [r e]] & -> & Hin). apply list_elem_of_filter in Hin as [Ht Hin].
    simpl in *. subst. by apply elem_of_map_to_list in Hin.
  - intros Hm. exists ((T, Did m), (MRole m, JoinedEpoch m)). split; [by destruct m|].
    apply list_elem_of_filter. split; [done|]. by apply elem_of_map_to_list.
Qed.

Lemma thread_members_nodup T s : NoDup (Did <$> thread_members T s).
Proof.
  unfold thread_members. rewrite <- list_fmap_compose.
  assert (Hk : NoDup (fst <$> filter (fun p => fst (fst p) = T) (map_to_list (members s)))).
  { eapply sublist_NoDup; [apply (NoDup_fst_map_to_list (members s))|].
    apply fmap_sublist, sublist_filter. }
  assert (Hall : Forall (fun p => fst (fst p) = T)
            (filter (fun p => fst (fst p) = T) (map_to_list (members s)))).
  { apply Forall_forall. intros p [? _]%list_elem_of_filter. done. }
  induction Hall as [|[[t d] x] l Ht Hl IH]; [constructor|].
  simpl in *. apply NoDup_cons in Hk as [Hni Hk]. constructor; [|auto].
  intros (p & Ep & Hp)%list_elem_of_fmap. apply Hni. simpl in Ep.
  rewrite Forall_forall in Hl. apply list_elem_of_fmap. exists p. split; [|done].
  specialize (Hl p Hp). destruct p as [[t' d'] y]. simpl in *. congruence.
Qed.

(** With more than one voter there is one besides [did]. *)
Lemma other_voter T s did :
  1 < count_voters T s ->
  exists d r e, d <> did /\ members s !! (T, d) = Some (r, e) /\ votes r = true.
Proof.
  unfold count_voters, llen. intros Hc.
  set (L := filter (fun m => votes (MRole m) = true) (thread_members T s)) in *.
  assert (NoDup (Did <$> L)) as Hnd.
  { eapply sublist_NoDup; [apply (thread_members_nodup T s)|]. apply fmap_sublist, sublist_filter. }
  assert (Hin : forall m, m ∈ L -> members s !! (T, Did m) = Some (MRole m, JoinedEpoch m) /\ votes (MRole m) = true).
  { intros m [? ?]%list_elem_of_filter. split; [by apply thread_members_in|done]. }
  destruct L as [|a [|b L]]; simpl in Hc; [lia|lia|].
  destruct (decide (Did a = did)) as [Ea|Ha].
  - exists (Did b), (MRole b), (JoinedEpoch b). split; [|apply Hin; by right; left].
    intros Eb. simpl in Hnd. apply NoDup_cons in Hnd as [Hni _]. apply Hni.
    rewrite Ea, <- Eb. by left.
  - exists (Did a), (MRole a), (JoinedEpoch a). split; [done|]. apply Hin. by left.
Qed.

Lemma advance_members (I : gmap (string * string) (Role * Z) -> Prop) T :
  preserves (fun s => I (members s)) (advanceMembershipEpochTx T).
Proof. unfold advanceMembershipEpochTx. cbv zeta. go_preserves; done. Qed.

Lemma advance_floor T T' : preserves (has_voter T) (advanceMembershipEpochTx T').
Proof.
  exact (advance_members (fun m => exists did r e, m !! (T, did) = Some (r, e) /\ votes r = true) T').
Qed.

Lemma Remove_floor T T' did : preserves (has_voter T) (RemoveMemberWithEpoch T' did).
Proof.
  unfold RemoveMemberWithEpoch. apply preserves_if; [apply preserves_throw|].
  apply preserves_tx. apply (leads_query_bind (has_voter T) (has_voter T)); [done|].
  intros [r e]. cbn [fst].
  assert (Hdel : forall s, select_member T' did s = Ok (r, e) -> has_voter T s ->
            (votes r = true -> T' = T -> 1 < count_voters T s) ->
            has_voter T (with_members (delete (T', did)) s)).
  { intros s Hsel (d & r0 & e0 & Hd & Hv) Hc. unfold select_member in Hsel.
    destruct (members s !! (T', did)) as [x|] eqn:Hx; [|done]. injection Hsel as ->.
    destruct (decide ((T', did) = (T, d))) as [E|Hne].
    - injection E as -> ->. rewrite Hx in Hd. injection Hd as -> ->.
      destruct (other_voter T s d (Hc Hv eq_refl)) as (d' & r' & e' & Hne & Hd' & Hv').
      exists d', r', e'. simpl. rewrite lookup_delete_ne by congruence. done.
    - exists d, r0, e0. simpl. by rewrite lookup_delete_ne. }
  destruct (votes r) eqn:Hr.
  - apply leads_bind_assoc. apply leads_query_bind; [by intros ? []|]. intros n.
    destruct (negb (n <=? 1)) eqn:En; [|intros w Hw; exact (proj1 (proj1 Hw))].
    apply (leads_bind _ _ (exec (with_members (delete (T', did)))) (fun _ => advanceMembershipEpochTx T')).
    + apply leads_exec; [by intros ? [[] _]|]. intros s [[Hs Hsel] [= <-]].
      apply Hdel; [done..|]. intros _ ->. lia.
    + intros _. apply advance_floor.
  - apply (leads_bind _ _ (exec (with_members (delete (T', did)))) (fun _ => advanceMembershipEpochTx T')).
    + apply leads_exec; [by intros ? []|]. intros s [Hs Hsel]. by apply Hdel.
    + intros _. apply advance_floor.
Qed.

Lemma Promote_floor T T' did : preserves (has_voter T) (PromoteMemberWithEpoch T' did).
Proof.
  unfold PromoteMemberWithEpoch. apply preserves_if; [apply preserves_throw|].
  apply preserves_tx, preserves_bind; [apply preserves_query|]. intros row.
  apply preserves_if; [|apply preserves_throw]. apply preserves_bind.
  - apply preserves_exec. intros s (d & r & e & Hd & Hv). simpl.
    destruct (decide ((T', did) = (T, d))) as [E|Hne].
    + exists d, VOTER, e. simpl. by rewrite E, lookup_alter_eq, Hd.
    + exists d, r, e. simpl. by rewrite lookup_alter_ne.
  - intros _. apply preserves_bind; [apply advance_floor|]. intros. apply preserves_ret.
Qed.

(** ** Epochs *)

(** The epoch MembershipEpoch reports. *)
Definition visible (T : string) (s : MemberDB) : Z := default 1 (epochs s !! T).

Lemma advance_ok T w e w' :
  advanceMembershipEpochTx T w = (Ok e, w') ->
  e = uint64 (visible T (db w) + 1) /\ epochs (db w') !! T = Some e /\
  members (db w') = members (db w) /\ invites (db w') = invites (db w).
Proof.
  unfold advanceMembershipEpochTx, catch. cbv zeta.
  destruct (query (select_epoch T) w) as [[e0|er|] w1] eqn:Hq; [| |done].
  - apply query_ok in Hq as [Hsel Hdb]. unfold select_epoch in Hsel.
    destruct (epochs (db w) !! T) eqn:E; [|done]. injection Hsel as ->. intros H. go_inv.
    unfold visible. rewrite E, Hm, Hdb. simpl. by rewrite lookup_alter_eq, E.
  - apply query_err in Hq as [Hsel Hdb]. destruct er; try done. intros H.
    destruct Hsel as [|Hsel]; [done|]. unfold select_epoch in Hsel.
    destruct (epochs (db w) !! T) eqn:E; [done|]. go_inv.
    unfold visible. rewrite E, Hm0, Hm, Hdb. simpl. by rewrite lookup_alter_eq, lookup_insert_eq.
Qed.

(** ** Sequences of membership calls *)

Inductive member_op : Type :=
| OpSaveMember (T : string) (m : option ThreadMember)
| OpRemove (T did : string)
| OpPromote (T did : string)
| OpInvite (now : Z) (T invitee : string) (role : Role) (nonce : string) (expires : Z)
| OpAccept (now1 now2 : Z) (T invitee nonce : string).

Definition run_op (o : member_op) (w : world MemberDB) : world MemberDB :=
  match o with
  | OpSaveMember T m => snd (SaveMember T m w)
  | OpRemove T did => snd (RemoveMemberWithEpoch T did w)
  | OpPromote T did => snd (PromoteMemberWithEpoch T did w)
  | OpInvite now T i r n e => snd (SaveInvite now T i r n e w)
  | OpAccept n1 n2 T i n => snd (AcceptInviteWithEpoch n1 n2 T i n w)
  end.

Definition run_ops (l : list member_op) (w : world MemberDB) : world MemberDB :=
  foldl (fun w o => run_op o w) w l.

Lemma member_ops_preserve (I : MemberDB -> Prop) (P : member_op -> Prop) l w :
  (forall o w, P o -> I (db w) -> I (db (run_op o w))) -> Forall P l ->
  I (db w) -> I (db (run_ops l w)).
Proof.
  intros Hs Hl. revert w. induction Hl as [|o l Ho Hl IH]; intros w Hw; [done|].
  simpl. apply IH. by apply Hs.
Qed.

(** The calls that cannot overwrite a member's role downwards. *)
Definition keeps_roles (o : member_op) : Prop :=
  match o with OpSaveMember _ _ | OpAccept _ _ _ _ _ => False | _ => True end.

Lemma SaveInvite_floor T now T' i r n e : preserves (has_voter T) (SaveInvite now T' i r n e).
Proof. unfold SaveInvite. by go_preserves. Qed.

(** C31: The voter floor: once a thread has a voting member (voter or admin), no
    sequence of removals, promotions and issued invites, under any database
    failures, leaves it without one (accepting an invite and writing a member
    row directly do not keep the floor). *)
Theorem voter_floor ops w T :
  has_voter T (db w) -> Forall keeps_roles ops -> has_voter T (db (run_ops ops w)).
Proof.
  intros Hw Hops. apply (member_ops_preserve _ keeps_roles); [|done..].
  intros [T' m|T' did|T' did|now T' i r n e|n1 n2 T' i n] w0 Ho Hw0; simpl in *; try done.
  - by apply Remove_floor.
  - by apply Promote_floor.
  - by apply SaveInvite_floor.
Qed.

Definition example_db : MemberDB :=
  db (run_ops [OpSaveMember "T" (Some (mkMember "did:a" ADMIN 1));
               OpSaveMember "T" (Some (mkMember "did:b" OBSERVER 1))] (World empty_db [])).

Lemma voter_floor_witness :
  has_voter "T" (db (run_ops [OpRemove "T" "did:b"; OpRemove "T" "did:a"] (World example_db [false; true]))).
Proof.
  apply (voter_floor _ (World example_db [false; true])).
  - exists "did:a", ADMIN, 1. split; [vm_compute; reflexivity|reflexivity].
  - repeat constructor.
Defined.

(** The floor does not hold for invitations: accepting an OBSERVER invite
    replaces the member row of the invitee, so the only admin of a thread who
    is invited and accepts is demoted and the thread is left without voters. *)
Theorem accept_demotes_last_voter :
  has_voter "T" example_db /\
  ~ has_voter "T" (db (run_ops [OpInvite 5 "T" "did:a" OBSERVER "n" 100; OpAccept 6 7 "T" "did:a" "n"]
                        (World example_db []))).
Proof.
  split; [exists "did:a", ADMIN, 1; split; [vm_compute; reflexivity|reflexivity]|].
  intros (did & r & e & Hl & Hv).
  apply elem_of_map_to_list in Hl. revert Hl.
  match goal with |- _ ∈ ?l -> _ => let v := eval vm_compute in l in change l with v end.
  intros Hl. repeat (apply elem_of_cons in Hl as [Hl|Hl]; [injection Hl as -> -> ->; discriminate Hv|]).
  by apply elem_of_nil in Hl.
Qed.

(** What a membership change returned, against the store before it. *)
Definition change_spec (T : string) (s : MemberDB) (r : outcome Z) (s' : MemberDB) : Prop :=
  match r with
  | Ok e => e = uint64 (visible T s + 1) /\ visible T s' = e
  | _ => s' = s
  end.

Definition epoch_of {A} (r : outcome (A * Z)) : outcome Z :=
  match r with Ok p => Ok (snd p) | Err e => Err e | Panic => Panic end.

Lemma change_rollback {A} (body : M MemberDB A) w r w' :
  tx body w = (r, w') -> is_ok r = false -> db w' = db w.
Proof. apply tx_rollback. Qed.

Lemma Remove_change T did w :
  let res := RemoveMemberWithEpoch T did w in change_spec T (db w) (fst res) (db (snd res)).
Proof.
  unfold RemoveMemberWithEpoch. destruct (_ || _); [done|]. cbv zeta.
  destruct (tx _ w) as [r w'] eqn:E. simpl. destruct r as [e|er|];
    [|by eapply change_rollback..].
  apply tx_ok in E as (w1 & w2 & E1 & E & ->). rewrite <- E1. clear E1 w.
  apply bind_ok in E as (role & w3 & [_ E3]%query_ok & E). rewrite <- E3. clear E3.
  apply bind_ok in E as (u & w4 & Hg & E).
  assert (db w4 = db w3) as E4.
  { destruct (votes (fst role)); [|by injection Hg as _ <-].
    apply bind_ok in Hg as (n & w5 & [_ E5]%query_ok & Hg).
    destruct (negb _); [|discriminate]. injection Hg as _ <-. done. }
  apply bind_ok in E as (u' & w6 & E6%exec_ok & E). apply advance_ok in E as (-> & He & _).
  unfold change_spec, visible in *. rewrite E6, E4 in *. simpl in *. rewrite He. done.
Qed.

Lemma Promote_change T did w :
  let res := PromoteMemberWithEpoch T did w in
  change_spec T (db w) (epoch_of (fst res)) (db (snd res)).
Proof.
  unfold PromoteMemberWithEpoch. destruct (_ || _); [done|]. cbv zeta.
  destruct (tx _ w) as [r w'] eqn:E. simpl. destruct r as [e|er|];
    [|by eapply change_rollback..].
  apply tx_ok in E as (w1 & w2 & E1 & E & ->). rewrite <- E1. clear E1 w.
  apply bind_ok in E as (role & w3 & [_ E3]%query_ok & E). rewrite <- E3. clear E3.
  case_bool_decide; [|discriminate].
  apply bind_ok in E as (u' & w6 & E6%exec_ok & E).
  apply bind_ok in E as (ep & w7 & E & Hr). injection Hr as <- <-.
  apply advance_ok in E as (-> & He & _).
  unfold change_spec, visible in *. simpl. rewrite E6 in *. simpl in *. rewrite He. done.
Qed.

Lemma Accept_change n1 n2 T i n w :
  let res := AcceptInviteWithEpoch n1 n2 T i n w in
  change_spec T (db w) (epoch_of (fst res)) (db (snd res)).
Proof.
  unfold AcceptInviteWithEpoch. destruct (_ || _); [done|]. cbv zeta.
  destruct (tx _ w) as [r w'] eqn:E. simpl. destruct r as [e|er|];
    [|by eapply change_rollback..].
  apply tx_ok in E as (w1 & w2 & E1 & E & ->). rewrite <- E1. clear E1 w.
  apply bind_ok in E as (inv & w3 & [_ E3]%query_ok & E). rewrite <- E3. clear E3.
  destruct (_ && _); [|discriminate].
  apply bind_ok in E as (ep & w7 & E & Hr). apply advance_ok in E as (-> & He & _).
  apply bind_ok in Hr as (u1 & w8 & E8%exec_ok & Hr).
  apply bind_ok in Hr as (u2 & w9 & E9%exec_ok & Hr). injection Hr as <- <-.
  unfold change_spec, visible in *. simpl. rewrite E9, E8. simpl. rewrite He. done.
Qed.

(** C32: A membership change and its epoch are one step: a removal, promotion or
    acceptance that succeeds returns the epoch visible before plus one (as a
    uint64) and makes it the visible epoch; one that fails, at whatever
    statement, leaves members, epochs and invites exactly as they were. *)
Theorem membership_change_atomic T did n1 n2 nonce w :
  (let res := RemoveMemberWithEpoch T did w in change_spec T (db w) (fst res) (db (snd res))) /\
  (let res := PromoteMemberWithEpoch T did w in
   change_spec T (db w) (epoch_of (fst res)) (db (snd res))) /\
  (let res := AcceptInviteWithEpoch n1 n2 T did nonce w in
   change_spec T (db w) (epoch_of (fst res)) (db (snd res))).
Proof. split; [apply Remove_change|]. split; [apply Promote_change|apply Accept_change]. Qed.

(** ** Invites *)

Definition consumed (k : string * string * string) (s : MemberDB) : Prop :=
  exists i, invites s !! k = Some i /\ inv_accepted i <> 0.

(** The call does not write the invite [k] anew. *)
Definition not_reissued (k : string * string * string) (o : member_op) : Prop :=
  match o with OpInvite _ T i _ n _ => (T, i, n) <> k | _ => True end.

Lemma run_op_consumed k o w : not_reissued k o -> consumed k (db w) -> consumed k (db (run_op o w)).
Proof.
  assert (Hadv : forall T, preserves (consumed k) (advanceMembershipEpochTx T)).
  { intros T. unfold advanceMembershipEpochTx. cbv zeta. go_preserves; done. }
  intros Hn Hc. destruct o as [T m|T did|T did|now T i r n e|n1 n2 T i n]; simpl.
  - revert w Hc. change (preserves (consumed k) (SaveMember T m)). unfold SaveMember.
    go_preserves; done.
  - revert w Hc. change (preserves (consumed k) (RemoveMemberWithEpoch T did)).
    unfold RemoveMemberWithEpoch. go_preserves; done.
  - revert w Hc. change (preserves (consumed k) (PromoteMemberWithEpoch T did)).
    unfold PromoteMemberWithEpoch. go_preserves; done.
  - revert w Hc. change (preserves (consumed k) (SaveInvite now T i r n e)). unfold SaveInvite.
    go_preserves. destruct H as (v & Hv & Ha). exists v. simpl in *.
    by rewrite lookup_insert_ne.
  - revert w Hc. change (preserves (consumed k) (AcceptInviteWithEpoch n1 n2 T i n)).
    unfold AcceptInviteWithEpoch. cbv zeta. go_preserves; try done.
    destruct H as (v & Hv & Ha). destruct (decide ((T, i, n) = k)) as [<-|Hne].
    + exists v. simpl. rewrite lookup_alter_eq, Hv. simpl.
      destruct (Z.eqb_spec (inv_accepted v) 0); done.
    + exists v. simpl. by rewrite lookup_alter_ne.
Qed.

Lemma Accept_consumes n1 n2 T i n w p w' :
  AcceptInviteWithEpoch n1 n2 T i n w = (Ok p, w') -> n2 <> 0 -> consumed (T, i, n) (db w').
Proof.
  unfold AcceptInviteWithEpoch. destruct (_ || _); [done|]. cbv zeta. intros E Hn.
  apply tx_ok in E as (w1 & w2 & E1 & E & ->).
  apply bind_ok in E as (inv & w3 & [Hsel E3]%query_ok & E).
  destruct (invites (db w1) !! (T, i, n)) as [v|] eqn:Hv; [|done]. injection Hsel as ->.
  destruct (_ && _) eqn:Hg; [|discriminate]. apply andb_true_iff in Hg as [Ha _].
  apply bind_ok in E as (ep & w7 & E & Hr). apply advance_ok in E as (_ & _ & _ & Hi).
  apply bind_ok in Hr as (u1 & w8 & E8%exec_ok & Hr).
  apply bind_ok in Hr as (u2 & w9 & E9%exec_ok & Hr). injection Hr as _ <-.
  unfold consumed. rewrite E9, E8. simpl. rewrite lookup_alter_eq, Hi, E3, Hv. simpl.
  rewrite Ha. by eexists.
Qed.

(** An invite is accepted at most once: after a successful acceptance (at a
    non-zero time), whatever membership calls and failures follow, as long as
    that invite is not issued again, accepting it again fails and changes
    nothing. *)
Theorem invite_accepted_once n1 n2 T i n w p wA ops m1 m2 :
  AcceptInviteWithEpoch n1 n2 T i n w = (Ok p, wA) -> n2 <> 0 ->
  Forall (not_reissued (T, i, n)) ops ->
  let wB := run_ops ops wA in
  is_ok (fst (AcceptInviteWithEpoch m1 m2 T i n wB)) = false /\
  db (snd (AcceptInviteWithEpoch m1 m2 T i n wB)) = db wB.
Proof.
  intros Hacc Hn Hops wB.
  assert (consumed (T, i, n) (db wB)) as (v & Hv & Ha).
  { apply (member_ops_preserve _ (not_reissued (T, i, n))); [|done|by eapply Accept_consumes].
    intros. by apply run_op_consumed. }
  assert (is_ok (fst (AcceptInviteWithEpoch m1 m2 T i n wB)) = false) as Hf.
  { destruct (AcceptInviteWithEpoch m1 m2 T i n wB) as [[q|e|] w'] eqn:E; [|done..].
    exfalso. unfold AcceptInviteWithEpoch in E. destruct (_ || _); [done|]. cbv zeta in E.
    apply tx_ok in E as (w1 & w2 & E1 & E & _). rewrite <- E1 in Hv.
    apply bind_ok in E as (inv & w3 & [Hsel _]%query_ok & E). rewrite Hv in Hsel.
    injection Hsel as ->. destruct (Z.eqb_spec (inv_accepted inv) 0); done. }
  split; [done|]. unfold AcceptInviteWithEpoch in *. destruct (_ || _); [done|]. cbv zeta in *.
  destruct (tx _ wB) as [r w'] eqn:E. simpl in *. by eapply tx_rollback.
Qed.

Definition example_invited : world MemberDB :=
  run_ops [OpInvite 5 "T" "did:c" OBSERVER "n" 100] (World example_db []).

Lemma invite_accepted_once_witness :
  exists p wA, AcceptInviteWithEpoch 6 7 "T" "did:c" "n" example_invited = (Ok p, wA) /\
  let wB := run_ops [OpPromote "T" "did:c"] wA in
  is_ok (fst (AcceptInviteWithEpoch 8 9 "T" "did:c" "n" wB)) = false /\
  db (snd (AcceptInviteWithEpoch 8 9 "T" "did:c" "n" wB)) = db wB.
Proof.
  eexists _, _. split; [vm_compute; reflexivity|].
  apply (invite_accepted_once 6 7 "T" "did:c" "n" example_invited (mkMember "did:c" OBSERVER 2, 2));
    [vm_compute; reflexivity|lia|repeat constructor].
Defined.

(** ** Recovery capability *)

(** A recovery capability is granted only to the holder of the secret last
    registered for the thread: assuming SHA-256 has no collisions, after
    SaveRecoveryCapability stored a secret, AuthorizeRecoveryCapability
    answers true for that secret and false for every other. *)
Theorem recovery_capability_exact `{CryptoLaws} T secret secret' w u w' :
  Keys.SaveRecoveryCapability T secret w = (Ok u, w') ->
  run (Keys.AuthorizeRecoveryCapability T secret') (db w') = (Ok (bool_decide (secret' = secret)), db w').
Proof.
  unfold Keys.SaveRecoveryCapability, Keys.AuthorizeRecoveryCapability.
  destruct (String.eqb T "" || negb (slen secret =? 32)) eqn:E; [done|]. intros Hs%exec_ok.
  apply orb_false_iff in E as [ET El]. rewrite ET. cbn [orb].
  destruct (slen secret' =? 32) eqn:El'; cbn [negb].
  - unfold run, catch, query, stmt. cbn. rewrite Hs. cbn. rewrite lookup_insert_eq.
    destruct (String.eqb_spec (Sum256 secret) (Sum256 secret')) as [Eq|Ne].
    + apply Sum256_inj in Eq. subst. by rewrite bool_decide_true.
    + rewrite bool_decide_false by congruence. done.
  - rewrite bool_decide_false; [done|]. intros ->. rewrite El' in El. done.
Qed.

Lemma recovery_capability_exact_witness :
  exists w', Keys.SaveRecoveryCapability "T" toy_key (World (Keys.mkKeysDB ∅ ∅ ∅) []) = (Ok tt, w') /\
  run (Keys.AuthorizeRecoveryCapability "T" "wrong") (db w') = (Ok (bool_decide ("wrong" = toy_key)), db w').
Proof.
  eexists. split; [reflexivity|].
  apply (recovery_capability_exact "T" toy_key "wrong" (World (Keys.mkKeysDB ∅ ∅ ∅) []) tt). reflexivity.
Defined.
