(* ===== verification/Chain.v ===== *)
(** * Block hashes and chain verification ([daemon/thread/verify.go],
    [raftBlockHash] of [raft.go], [computeBlockHash] of [tendermint.go],
    [descriptor.go])

    The two serializers the hashes go through are the class [Codec]: the
    deterministic protobuf encoding of an entry and the JSON encoding of the
    projected entries. *)

From stdpp Require Import base gmap strings list pretty.
From Stdlib Require Import ZArith Lia Ascii.
From S2P Require Import Prelude GoStd Identity ThreadStore.

Local Open Scope string_scope.
Local Open Scope Z_scope.
Import Identity ThreadStore.

Class Codec : Type := {
  proto_entry : ThreadEntry -> string;
  json_entries : list entryJSON -> string;
  proto_thread : Thread -> string }.

(** An entry with only its author, and the same entry without it. *)
Definition author_only (e : ThreadEntry) : ThreadEntry :=
  mkEntry (AuthorDid e) "" "" "" 0 0 0 "" 0 0 "" "".
Definition without_author (e : ThreadEntry) : ThreadEntry :=
  mkEntry "" (Payload e) (Kind e) (AuthorSig e) (SubmittedAt e) (EncodingVersion e) (Sequence e)
    (PreviousBlockHash e) (MembershipEpoch e) (EncryptionEpoch e) (Nonce e) (AuthorSignature e).

(** Both encodings determine what they encode; protobuf writes the set fields
    of a message in the order of their numbers, one after the other. *)
Class CodecLaws `{Codec} : Prop := {
  proto_entry_inj : forall a b, proto_entry a = proto_entry b -> a = b;
  proto_entry_fields : forall e,
    proto_entry e = proto_entry (author_only e) +:+ proto_entry (without_author e);
  json_entries_inj : forall a b, json_entries a = json_entries b -> a = b }.

Module Chain.
Section Chain.
Context `{Crypto} `{Codec}.

Inductive BackendKind : Type := BackendTendermint | BackendRaft | BackendOther (s : string).

Fixpoint concat_entries (l : list ThreadEntry) : string :=
  match l with [] => "" | e :: l' => proto_entry e +:+ concat_entries l' end.

Definition raftBlockHash (b : ThreadBlock) : string :=
  hex_encode (Sum256 (
    "raft:" +:+ ThreadId b +:+ ":" +:+ pretty (Height b) +:+ ":" +:+ pretty (Round b) +:+ ":"
    +:+ ParentHash b +:+ ":" +:+ ProposerDid b +:+ ":" +:+ concat_entries (Entries b))).

Definition computeBlockHash (b : ThreadBlock) : string :=
  let entriesJSON := json_entries (marshalEntries (Entries b)) in
  hex_encode (Sum256 (
    ThreadId b +:+ ":" +:+ pretty (Height b) +:+ ":" +:+ pretty (Round b) +:+ ":"
    +:+ ParentHash b +:+ ":" +:+ hex_encode entriesJSON +:+ ":" +:+ ProposerDid b)).

Definition blockHashFn (kind : BackendKind) : ThreadBlock -> string :=
  match kind with BackendTendermint => computeBlockHash | _ => raftBlockHash end.

(** The loop of [VerifyChain]: [i] blocks done, the last hash seen. *)
Fixpoint verify_loop (kind : BackendKind) (i : Z) (parentHash : string) (l : list ThreadBlock)
    : outcome unit :=
  match l with
  | [] => Ok tt
  | b :: l' =>
      let wantHeight := i + 1 in
      if negb (Height b =? wantHeight) then Err (Errorf "verify chain: height") else
      if negb (String.eqb (ParentHash b) parentHash) then Err (Errorf "verify chain: chain broken") else
      let got := blockHashFn kind b in
      if negb (String.eqb got (BlockHash b)) then Err (Errorf "verify chain: hash mismatch") else
      verify_loop kind (i + 1) (BlockHash b) l'
  end.

Definition VerifyChain (kind : BackendKind) (l : list ThreadBlock) : outcome unit :=
  match l with
  | [] => Err (Errorf "verify chain: no blocks")
  | _ => verify_loop kind 0 "" l
  end.

(** [ThreadHead] of publisher.go. *)
Record ThreadHead : Type := mkHead {
  h_ThreadID : string; h_Height : Z; h_BlockCid : string; h_BlockHash : string; h_UpdatedAt : Z;
  h_Thread : option Thread }.

(** The walk from height [n] down to 1; [acc] holds the blocks above. *)
Fixpoint walk_back (kind : BackendKind) (threadID : string) (head : ThreadHead)
    (resolveHeight : Z -> outcome ThreadHead) (fetchBlock : string -> outcome ThreadBlock)
    (n : nat) (wantHash : string) (acc : list ThreadBlock) : outcome (list ThreadBlock) :=
  match n with
  | O => if negb (String.eqb wantHash "")
         then Err (Errorf "verify chain: genesis block has non-empty parent_hash") else Ok acc
  | S n' =>
      let h := Z.of_nat n in
      match (if h =? h_Height head then Ok head else resolveHeight h) with
      | Err e => Err e
      | Panic => Panic
      | Ok ptr =>
          if negb (String.eqb (h_BlockHash ptr) wantHash)
          then Err (Errorf "verify chain: pointer block_hash") else
          match fetchBlock (h_BlockCid ptr) with
          | Err e => Err e
          | Panic => Panic
          | Ok block =>
              if negb (String.eqb (ThreadId block) threadID)
              then Err (Errorf "verify chain: thread_id") else
              if negb (Height block =? h) then Err (Errorf "verify chain: height") else
              let got := blockHashFn kind block in
              if negb (String.eqb got (BlockHash block))
              then Err (Errorf "verify chain: block_hash does not match recomputed") else
              if negb (String.eqb got wantHash)
              then Err (Errorf "verify chain: block_hash does not match child") else
              walk_back kind threadID head resolveHeight fetchBlock n' (ParentHash block)
                (block :: acc)
          end
      end
  end.

(** [make] of a slice of pointers panics on a negative length and on one whose bytes
    exceed the address space of 64-bit platforms. *)
Definition max_pointers : Z := 2 ^ 45.

Definition VerifyChainFromHead (kind : BackendKind) (threadID : string)
    (resolveHead : outcome ThreadHead) (resolveHeight : Z -> outcome ThreadHead)
    (fetchBlock : string -> outcome ThreadBlock) : outcome (list ThreadBlock) :=
  match resolveHead with
  | Err e => Err e
  | Panic => Panic
  | Ok head =>
      if (h_Height head <? 0) || (max_pointers <? h_Height head) then Panic else
      walk_back kind threadID head resolveHeight fetchBlock (Z.to_nat (h_Height head))
        (h_BlockHash head) []
  end.

(** ** Thread descriptors *)

Definition descriptorSignatureKey : string := "creator_signature".

Definition descriptorBytes (th : Thread) : string :=
  proto_thread (mkThread (t_Id th) (CreatorDid th) (ReplicaDids th) (t_N th) (t_F th) (EpochMs th)
    (CreatedAt th) (delete descriptorSignatureKey (Metadata th))).

Definition set_metadata (f : gmap string string -> gmap string string) (th : Thread) : Thread :=
  mkThread (t_Id th) (CreatorDid th) (ReplicaDids th) (t_N th) (t_F th) (EpochMs th)
    (CreatedAt th) (f (Metadata th)).

(** [did] and [sk]: the identity's DID and private key. *)
Definition SignDescriptor (th : Thread) (did sk : string) : outcome Thread :=
  if negb (String.eqb (CreatorDid th) did)
  then Err (Errorf "only creator can sign thread descriptor")
  else Ok (set_metadata (<[descriptorSignatureKey := std_encode (ed25519_sign sk (descriptorBytes th))]>) th).

Definition VerifyDescriptor (th : option Thread) : outcome unit :=
  match th with
  | None => Err (Errorf "invalid thread descriptor")
  | Some th =>
      if String.eqb (t_Id th) "" || String.eqb (CreatorDid th) ""
      then Err (Errorf "invalid thread descriptor") else
      match std_decode (default "" (Metadata th !! descriptorSignatureKey)) with
      | None => Err (Errorf "decode creator signature")
      | Some sig =>
          match VerifyDID (CreatorDid th) (descriptorBytes th) sig with
          | Ok true => Ok tt
          | Ok false => Err (Errorf "invalid creator signature")
          | Err e => Err e
          | Panic => Panic
          end
      end
  end.

End Chain.
End Chain.
