(* ===== verification/Instances.v ===== *)
(** * A concrete codec

    Serializers that satisfy the laws of [Codec]: every set field is written
    as a tag character, a length and its bytes, in the order of the field
    numbers, and an unset field is omitted.  The theorems that take the laws as
    hypotheses are instantiated with it. *)

From stdpp Require Import base gmap strings list pretty.
From Stdlib Require Import ZArith Lia Ascii.
From S2P Require Import Prelude GoStd Identity ThreadStore Chain.

Local Open Scope string_scope.
Local Open Scope Z_scope.
#[local] Arguments String.append : simpl nomatch.
Import ThreadStore.

(** A byte string as its length and bytes. *)
Definition frame (s : string) : string := pretty (slen s) +:+ String ":"%char s.

Lemma append_len_inj a a' b b' : slen a = slen a' -> a +:+ b = a' +:+ b' -> a = a' /\ b = b'.
Proof.
  revert a'. induction a as [|c a IH]; intros [|c' a']; unfold slen; simpl; intros Hl E; try lia.
  - done.
  - injection E as -> E. apply IH in E as [-> ->]; [done|]. unfold slen. lia.
Qed.

Lemma frame_inj s s' r r' : frame s +:+ r = frame s' +:+ r' -> s = s' /\ r = r'.
Proof.
  unfold frame. rewrite <- !append_assoc_str. simpl. intros E.
  apply sep_inj in E as [Hl E]; [|by apply pretty_Z_free..].
  apply (inj pretty) in Hl. by apply append_len_inj.
Qed.

Definition field (c : ascii) (s : string) : string :=
  if String.eqb s "" then "" else String c (frame s).

Fixpoint fields (l : list (ascii * string)) : string :=
  match l with [] => "" | (c, s) :: l' => field c s +:+ fields l' end.

(** The first character of an encoding is one of its tags. *)
Lemma fields_head c l s : fields l = String c s -> c ∈ l.*1.
Proof.
  induction l as [|[d x] l IH]; simpl; [done|]. unfold field.
  destruct (String.eqb x ""); simpl; [right; auto|]. intros [= -> _]. by left.
Qed.

Lemma fields_inj tags xs ys :
  NoDup tags -> length xs = length tags -> length ys = length tags ->
  fields (zip tags xs) = fields (zip tags ys) -> xs = ys.
Proof.
  intros Hnd. revert xs ys. induction Hnd as [|c tags Hc Hnd IH]; intros [|x xs] [|y ys];
    simpl; try done; intros Hx Hy E.
  assert (Hh : forall zs s, length zs = length tags -> fields (zip tags zs) = String c s -> False).
  { intros zs s Hl Hs%fields_head. apply Hc. rewrite fst_zip in Hs by lia. done. }
  unfold field in E. destruct (String.eqb_spec x ""), (String.eqb_spec y ""); subst; simpl in E.
  - f_equal. apply IH; lia || done.
  - exfalso. eapply Hh; [|exact E]. lia.
  - exfalso. eapply Hh; [|symmetry; exact E]. lia.
  - injection E as E. apply frame_inj in E as [-> E]. f_equal. apply IH; lia || done.
Qed.

Definition num (n : Z) : string := if n =? 0 then "" else pretty n.

Lemma pretty_nonempty (n : Z) : n <> 0 -> pretty n <> "".
Proof.
  intros Hn E. assert (Hb : no_char "a"%char (pretty n) = true) by (by apply pretty_Z_free).
  destruct n; [done| |discriminate E].
  unfold pretty, pretty_Z, pretty, pretty_positive, pretty, pretty_N in E.
  destruct (decide (N.pos p = 0)%N); [done|].
  assert (Hg : forall x s, s <> "" -> pretty_N_go x s <> "").
  { intros x. induction (N.lt_wf_0 x) as [x _ IH]; intros s Hs.
    destruct (decide (0 < x)%N); [rewrite pretty_N_go_step by done; apply IH; [by apply N.div_lt|done]|].
    replace x with 0%N by lia. by rewrite pretty_N_go_0. }
  rewrite pretty_N_go_step in E by done. by eapply Hg in E.
Qed.

Lemma num_inj a b : num a = num b -> a = b.
Proof.
  unfold num. destruct (Z.eqb_spec a 0), (Z.eqb_spec b 0); subst; try done; intros E.
  - symmetry in E. by apply pretty_nonempty in E.
  - by apply pretty_nonempty in E.
  - by apply (inj pretty) in E.
Qed.

Definition entry_tags : list ascii := ["a"; "b"; "c"; "d"; "e"; "f"; "g"; "h"; "i"; "j"; "k"; "l"]%char.

Definition entry_values (e : ThreadEntry) : list string :=
  [AuthorDid e; Payload e; Kind e; AuthorSig e; num (SubmittedAt e); num (EncodingVersion e);
   num (Sequence e); PreviousBlockHash e; num (MembershipEpoch e); num (EncryptionEpoch e);
   Nonce e; AuthorSignature e].

Definition toy_proto (e : ThreadEntry) : string := fields (zip entry_tags (entry_values e)).

Definition json_values (j : entryJSON) : list string :=
  [j_AuthorDid j; j_Payload j; j_Kind j; j_AuthorSig j; num (j_SubmittedAt j)].

Definition toy_json_one (j : entryJSON) : string := fields (zip (take 5 entry_tags) (json_values j)).

Fixpoint toy_json (l : list entryJSON) : string :=
  match l with [] => "" | j :: l' => frame (toy_json_one j) +:+ toy_json l' end.

#[export] Instance toy_codec : Codec := {|
  proto_entry := toy_proto; json_entries := toy_json; proto_thread th := t_Id th |}.

Lemma toy_json_inj l l' : toy_json l = toy_json l' -> l = l'.
Proof.
  assert (Hne : forall s r, frame s +:+ r <> "").
  { intros s r E. apply (f_equal slen) in E. rewrite slen_app in E. unfold frame in E.
    rewrite slen_app in E. pose proof (slen_nonneg r). pose proof (slen_nonneg (pretty (slen s))).
    unfold slen in *. simpl in *. lia. }
  revert l'. induction l as [|j l IH]; intros [|j' l']; simpl; intros E.
  - done.
  - by destruct (Hne (toy_json_one j') (toy_json l')).
  - by destruct (Hne (toy_json_one j) (toy_json l)).
  - apply frame_inj in E as [Ej E]. f_equal; [|by apply IH].
    apply fields_inj in Ej; [|apply (bool_decide_unpack _); vm_compute; exact I|done|done].
    unfold json_values in Ej. injection Ej as E1 E2 E3 E4 E5%num_inj.
    destruct j, j'. simpl in *. by subst.
Qed.

#[export] Instance toy_codec_laws : CodecLaws.
Proof.
  split.
  - intros a b E. apply fields_inj in E; [|apply (bool_decide_unpack _); vm_compute; exact I|done|done].
    unfold entry_values in E.
    injection E as E1 E2 E3 E4 E5%num_inj E6%num_inj E7%num_inj E8 E9%num_inj E10%num_inj E11 E12.
    destruct a, b. simpl in *. by subst.
  - intros e. change (proto_entry (author_only e)) with (field "a"%char (AuthorDid e) +:+ "").
    by rewrite append_empty_r.
  - apply toy_json_inj.
Qed.
