(* ===== verification/ChainFacts.v ===== *)
(** * Properties of chain verification

    What an accepted chain is, soundness of the backward walk from a published
    head, tamper evidence of the head hash for both backends, and where the
    hashes stop short. *)

From stdpp Require Import base gmap strings list pretty.
From Stdlib Require Import ZArith Lia Ascii.
From S2P Require Import Prelude GoStd Identity ThreadStore Chain Instances.

Local Open Scope string_scope.
Local Open Scope Z_scope.
#[local] Arguments String.append : simpl nomatch.
Import Identity ThreadStore Chain.

Section ChainFacts.
Context `{Crypto} `{Codec}.

(** The hash of the last block, or [p] when there is none. *)
Definition last_hash (p : string) (l : list ThreadBlock) : string :=
  match last l with Some b => BlockHash b | None => p end.

Lemma last_hash_snoc p l b : last_hash p (l ++ [b]) = BlockHash b.
Proof. unfold last_hash. by rewrite last_snoc. Qed.

Lemma last_hash_cons p b l : last_hash p (b :: l) = last_hash (BlockHash b) l.
Proof.
  unfold last_hash. destruct l as [|c l]; [done|]. rewrite last_cons. by destruct (last (c :: l)) eqn:E;
    [|apply last_None in E].
Qed.

(** One more block is accepted exactly when it extends the chain. *)
Definition extends (kind : BackendKind) (h : Z) (parent : string) (b : ThreadBlock) : Prop :=
  Height b = h /\ ParentHash b = parent /\ blockHashFn kind b = BlockHash b.

Lemma verify_loop_snoc kind i p l b :
  verify_loop kind i p (l ++ [b]) = Ok tt <->
  verify_loop kind i p l = Ok tt /\ extends kind (i + Z.of_nat (length l) + 1) (last_hash p l) b.
Proof.
  revert i p. induction l as [|c l IH]; intros i p.
  - unfold extends, last_hash. simpl. replace (i + Z.of_nat 0 + 1) with (i + 1) by lia.
    destruct (Z.eqb_spec (Height b) (i + 1)), (String.eqb_spec (ParentHash b) p),
      (String.eqb_spec (blockHashFn kind b) (BlockHash b)); simpl;
      (split; [intros; try discriminate; by repeat split|intros (_ & ? & ? & ?); congruence]).
  - simpl app. rewrite last_hash_cons. simpl.
    destruct (negb (Height c =? i + 1)); [split; [discriminate|by intros [? _]]|].
    destruct (negb (String.eqb (ParentHash c) p)); [split; [discriminate|by intros [? _]]|].
    destruct (negb (String.eqb (blockHashFn kind c) (BlockHash c))); [split; [discriminate|by intros [? _]]|].
    rewrite IH. replace (i + 1 + Z.of_nat (length l) + 1) with (i + Z.of_nat (S (length l)) + 1) by lia.
    done.
Qed.

Lemma verify_loop_app kind i p l1 l2 :
  verify_loop kind i p (l1 ++ l2) = Ok tt <->
  verify_loop kind i p l1 = Ok tt /\
  verify_loop kind (i + Z.of_nat (length l1)) (last_hash p l1) l2 = Ok tt.
Proof.
  revert i p. induction l1 as [|c l IH]; intros i p.
  - unfold last_hash. simpl. replace (i + Z.of_nat 0) with i by lia. split; [by split|by intros [_ ?]].
  - simpl app. rewrite last_hash_cons. simpl.
    destruct (negb (Height c =? i + 1)); [split; [discriminate|by intros [? _]]|].
    destruct (negb (String.eqb (ParentHash c) p)); [split; [discriminate|by intros [? _]]|].
    destruct (negb (String.eqb (blockHashFn kind c) (BlockHash c))); [split; [discriminate|by intros [? _]]|].
    rewrite IH. by replace (i + 1 + Z.of_nat (length l)) with (i + Z.of_nat (S (length l))) by lia.
Qed.

Lemma VerifyChain_loop kind l : l <> [] -> VerifyChain kind l = verify_loop kind 0 "" l.
Proof. by destruct l. Qed.

(** ** The walk from the head *)

Lemma walk_back_sound kind T head rh fb n want acc res :
  walk_back kind T head rh fb n want acc = Ok res ->
  exists pre, res = (pre ++ acc)%list /\ length pre = n /\ last_hash "" pre = want /\
    verify_loop kind 0 "" pre = Ok tt /\ Forall (fun b => ThreadId b = T) pre.
Proof.
  revert want acc. induction n as [|n IH]; intros want acc; cbn [walk_back].
  - destruct (String.eqb_spec want ""); simpl; [|done]. intros [= <-]. exists []. by subst.
  - cbv zeta. destruct (if Z.of_nat (S n) =? _ then _ else _) as [ptr|e|]; [|done..].
    destruct (negb (String.eqb (h_BlockHash ptr) want)); [done|].
    destruct (fb _) as [b|e|]; [|done..].
    destruct (String.eqb_spec (ThreadId b) T) as [HT|]; simpl negb; [|done].
    destruct (Z.eqb_spec (Height b) (Z.of_nat (S n))) as [Hh|]; simpl negb; [|done].
    destruct (String.eqb_spec (blockHashFn kind b) (BlockHash b)) as [Hb|]; simpl negb; [|done].
    destruct (String.eqb_spec (blockHashFn kind b) want) as [Hw|]; simpl negb; [|done].
    intros (pre & -> & Hl & Hlast & Hv & Hall)%IH. exists (pre ++ [b])%list.
    split; [by rewrite <- app_assoc|]. split; [rewrite length_app; simpl; lia|].
    split; [rewrite last_hash_snoc; congruence|]. split.
    + apply verify_loop_snoc. split; [done|]. unfold extends. rewrite Hlast. repeat split; try done. lia.
    + apply Forall_app. split; [done|]. by constructor.
Qed.

Lemma from_head_verified kind T head rh fb bs :
  VerifyChainFromHead kind T (Ok head) rh fb = Ok bs ->
  0 <= h_Height head <= max_pointers /\ Z.of_nat (length bs) = h_Height head /\
  last_hash "" bs = h_BlockHash head /\ verify_loop kind 0 "" bs = Ok tt /\
  Forall (fun b => ThreadId b = T) bs.
Proof.
  unfold VerifyChainFromHead. destruct (h_Height head <? 0) eqn:E; [done|].
  destruct (max_pointers <? h_Height head) eqn:E'; [done|].
  intros (pre & -> & Hl & Hlast & Hv & HT)%walk_back_sound. rewrite app_nil_r. split; [lia|]. by split; [lia|].
Qed.

(** ** What the hashes determine *)

(** The part of a block its hash covers. *)
Definition covered (kind : BackendKind) (b : ThreadBlock) : string :=
  match kind with
  | BackendTendermint => hex_encode (json_entries (marshalEntries (Entries b))) +:+ ":" +:+ ProposerDid b
  | _ => ProposerDid b +:+ ":" +:+ concat_entries (Entries b)
  end.

Lemma colon_free_pretty (n : Z) : no_char ":"%char (pretty n) = true.
Proof. by apply pretty_Z_free. Qed.

Lemma blockHashFn_nocolon kind b : no_char ":"%char (blockHashFn kind b) = true.
Proof. destruct kind; apply hex_encode_nocolon. Qed.

Lemma blockHashFn_inj `{!CryptoLaws} kind a b :
  ThreadId a = ThreadId b ->
  no_char ":"%char (ParentHash a) = true -> no_char ":"%char (ParentHash b) = true ->
  blockHashFn kind a = blockHashFn kind b ->
  Height a = Height b /\ Round a = Round b /\ ParentHash a = ParentHash b /\ covered kind a = covered kind b.
Proof.
  intros HT Ha Hb E.
  assert (Hsep : forall (n m : Z) s t, pretty n +:+ ":" +:+ s = pretty m +:+ ":" +:+ t -> n = m /\ s = t).
  { intros n m s t E1. apply (sep_inj ":"%char) in E1 as [E1 ->]; [|apply colon_free_pretty..].
    by apply (inj pretty) in E1. }
  destruct kind; simpl in E; unfold raftBlockHash, computeBlockHash in E;
    apply hex_encode_inj, Sum256_inj in E; rewrite HT in E; rewrite ?HT in E;
    repeat apply String.app_inj in E;
    apply Hsep in E as [-> E]; apply Hsep in E as [-> E];
    apply (sep_inj ":"%char) in E as [-> E]; try done.
Qed.

(** The same history: block by block equal in height, round, links, hash and
    everything the hash covers. *)
Definition same_block (kind : BackendKind) (a b : ThreadBlock) : Prop :=
  Height a = Height b /\ Round a = Round b /\ ParentHash a = ParentHash b /\
  BlockHash a = BlockHash b /\ covered kind a = covered kind b.

Lemma verified_parent_nocolon kind l b :
  verify_loop kind 0 "" (l ++ [b]) = Ok tt -> no_char ":"%char (ParentHash b) = true.
Proof.
  intros (Hl & _ & -> & _)%verify_loop_snoc. destruct l as [|c l _] using rev_ind; [done|].
  rewrite last_hash_snoc. apply verify_loop_snoc in Hl as (_ & _ & _ & <-).
  apply blockHashFn_nocolon.
Qed.

Lemma chain_determined `{!CryptoLaws} kind T l l' :
  verify_loop kind 0 "" l = Ok tt -> verify_loop kind 0 "" l' = Ok tt ->
  Forall (fun b => ThreadId b = T) l -> Forall (fun b => ThreadId b = T) l' ->
  l <> [] -> l' <> [] -> last_hash "" l = last_hash "" l' ->
  Forall2 (same_block kind) l l'.
Proof.
  revert l'. induction l as [|b l IH] using rev_ind; [done|].
  intros l' Hv Hv' HT HT' _ Hne E. destruct l' as [|b' l' _] using rev_ind; [done|].
  rewrite !last_hash_snoc in E.
  pose proof (verified_parent_nocolon _ _ _ Hv) as Hp.
  pose proof (verified_parent_nocolon _ _ _ Hv') as Hp'.
  apply verify_loop_snoc in Hv as (Hv & Hh & Hpar & Hhash).
  apply verify_loop_snoc in Hv' as (Hv' & Hh' & Hpar' & Hhash').
  apply Forall_app in HT as [HT [HTb _]%Forall_cons], HT' as [HT' [HTb' _]%Forall_cons].
  destruct (blockHashFn_inj kind b b') as (E1 & E2 & E3 & E4); try congruence.
  apply Forall2_app; [|constructor; [by repeat split|constructor]].
  assert (length l = length l') as Hlen by lia.
  destruct l as [|c l]; [destruct l'; [constructor|discriminate]|].
  destruct l' as [|c' l']; [discriminate|].
  apply IH; try done. congruence.
Qed.

End ChainFacts.

(** ** Properties *)

Definition toy_block (T : string) (h : Z) (parent : string) (es : list ThreadEntry) : ThreadBlock :=
  let b := mkBlock T h 1 parent es "did:key:zp" "" "" 1 in
  mkBlock T h 1 parent es "did:key:zp" "" (raftBlockHash b) 1.
Definition toy_entry (payload : string) : ThreadEntry :=
  mkEntry "did:key:za" payload "message" "" 5 0 0 "" 0 0 "" "".
Definition toy_b1 : ThreadBlock := toy_block "T" 1 "" [toy_entry "hello"].
Definition toy_b2 : ThreadBlock := toy_block "T" 2 (BlockHash toy_b1) [toy_entry "world"].
Definition toy_chain : list ThreadBlock := [toy_b1; toy_b2].

(** The backward walk is sound: whatever the DHT and the block exchange
    answer, the blocks VerifyChainFromHead returns for a head of positive
    height are as many as the head's height, all of the requested thread, end
    in the head's hash, and are accepted by VerifyChain from genesis. *)
Theorem VerifyChainFromHead_sound `{Crypto} `{Codec} kind T head rh fb bs :
  1 <= h_Height head ->
  VerifyChainFromHead kind T (Ok head) rh fb = Ok bs ->
  VerifyChain kind bs = Ok tt /\ Z.of_nat (length bs) = h_Height head /\
  last_hash "" bs = h_BlockHash head /\ Forall (fun b => ThreadId b = T) bs.
Proof.
  intros Hh (_ & Hl & Hlast & Hv & HT)%from_head_verified.
  rewrite VerifyChain_loop by (intros ->; simpl in Hl; lia). done.
Qed.

Definition toy_head : ThreadHead := mkHead "T" 2 "cid2" (BlockHash toy_b2) 1 None.
Definition toy_heights (h : Z) : outcome ThreadHead := Ok (mkHead "T" 1 "cid1" (BlockHash toy_b1) 1 None).
Definition toy_fetch (cid : string) : outcome ThreadBlock :=
  if String.eqb cid "cid1" then Ok toy_b1 else if String.eqb cid "cid2" then Ok toy_b2
  else Err (Errorf "not found").

Lemma VerifyChainFromHead_sound_witness :
  VerifyChain BackendRaft toy_chain = Ok tt /\ Z.of_nat (length toy_chain) = 2 /\
  last_hash "" toy_chain = BlockHash toy_b2 /\ Forall (fun b => ThreadId b = "T") toy_chain.
Proof.
  apply (VerifyChainFromHead_sound BackendRaft "T" toy_head toy_heights toy_fetch toy_chain);
    [simpl; lia|vm_compute; reflexivity].
Defined.

(** C28: The head hash commits to the whole history: assuming SHA-256 has no
    collisions, two chains of the same thread that VerifyChain accepts and that
    end in the same block hash have the same length and agree block by block in
    height, round, parent link, hash and every byte the hash covers (for
    Tendermint the projected entries and the proposer; for Raft the proposer
    followed by the serialized entries). *)
Theorem chain_tamper_evident `{CryptoLaws} `{Codec} kind T l l' :
  VerifyChain kind l = Ok tt -> VerifyChain kind l' = Ok tt ->
  Forall (fun b => ThreadId b = T) l -> Forall (fun b => ThreadId b = T) l' ->
  last_hash "" l = last_hash "" l' ->
  Forall2 (same_block kind) l l'.
Proof.
  intros Hv Hv' HT HT' E.
  assert (l <> []) by (by intros ->). assert (l' <> []) by (by intros ->).
  rewrite VerifyChain_loop in Hv, Hv' by done. by apply (chain_determined kind T).
Qed.

Lemma chain_tamper_evident_witness : Forall2 (same_block BackendRaft) toy_chain toy_chain.
Proof.
  apply (chain_tamper_evident BackendRaft "T"); [reflexivity|reflexivity|by repeat constructor
    |by repeat constructor|reflexivity].
Defined.

(** A Tendermint head hash determines the entries' five projected fields:
    under the same assumptions, and with an injective JSON encoding, the chains
    carry the same proposers and the same author, payload, kind, signature and
    submission time of every entry. *)
Theorem tendermint_entries_determined `{CryptoLaws} `{CodecLaws} T l l' :
  VerifyChain BackendTendermint l = Ok tt -> VerifyChain BackendTendermint l' = Ok tt ->
  Forall (fun b => ThreadId b = T) l -> Forall (fun b => ThreadId b = T) l' ->
  last_hash "" l = last_hash "" l' ->
  Forall2 (fun a b => ProposerDid a = ProposerDid b /\
                      marshalEntries (Entries a) = marshalEntries (Entries b)) l l'.
Proof.
  intros Hv Hv' HT HT' E.
  assert (l <> []) by (by intros ->). assert (l' <> []) by (by intros ->).
  rewrite VerifyChain_loop in Hv, Hv' by done.
  eapply Forall2_impl; [by apply (chain_determined BackendTendermint T)|].
  intros a b (_ & _ & _ & _ & Hc). simpl in Hc.
  apply (sep_inj ":"%char) in Hc as [Hj ->]; [|apply hex_encode_nocolon..].
  by apply hex_encode_inj, json_entries_inj in Hj.
Qed.

Definition toy_tm : ThreadBlock :=
  mkBlock "T" 1 0 "" [toy_entry "hello"] "did:key:zp" ""
    (computeBlockHash (mkBlock "T" 1 0 "" [toy_entry "hello"] "did:key:zp" "" "" 1)) 1.

Lemma tendermint_entries_determined_witness :
  Forall2 (fun a b => ProposerDid a = ProposerDid b /\
                      marshalEntries (Entries a) = marshalEntries (Entries b)) [toy_tm] [toy_tm].
Proof.
  apply (tendermint_entries_determined "T"); [reflexivity|reflexivity|by repeat constructor
    |by repeat constructor|reflexivity].
Defined.

(** Entry boundaries are not covered by a Raft block hash: because the
    serialized entries are concatenated without framing, replacing an entry by
    two, one with only its author and one with the rest, leaves the hash of the
    block unchanged, whatever the hash function. *)
Theorem raft_hash_ignores_boundaries `{Crypto} `{CodecLaws} b e :
  Entries b = [e] ->
  raftBlockHash (mkBlock (ThreadId b) (Height b) (Round b) (ParentHash b)
                   [author_only e; without_author e] (ProposerDid b) (ProposerSig b)
                   (BlockHash b) (CommittedAt b)) = raftBlockHash b.
Proof.
  intros He. unfold raftBlockHash. simpl. rewrite He. simpl.
  by rewrite !append_empty_r, <- proto_entry_fields.
Qed.

Lemma raft_hash_ignores_boundaries_witness :
  raftBlockHash (mkBlock "T" 1 1 "" [author_only (toy_entry "hello"); without_author (toy_entry "hello")]
                   "did:key:zp" "" (BlockHash toy_b1) 1) = raftBlockHash toy_b1.
Proof. apply (raft_hash_ignores_boundaries toy_b1 (toy_entry "hello")). reflexivity. Defined.

(** Signing by the creator, and what it leaves alone. *)
Lemma SignDescriptor_verifies `{CryptoLaws} `{Codec} sk th th' :
  slen (ed25519_public sk) = 32 -> t_Id th <> "" ->
  SignDescriptor th (DIDFromPubBytes (ed25519_public sk)) sk = Ok th' ->
  CreatorDid th = DIDFromPubBytes (ed25519_public sk) /\
  th' = set_metadata (<[descriptorSignatureKey := std_encode (ed25519_sign sk (descriptorBytes th))]>) th /\
  VerifyDescriptor (Some th') = Ok tt /\ descriptorBytes th' = descriptorBytes th.
Proof.
  intros Hpk Hid. unfold SignDescriptor.
  destruct (String.eqb_spec (CreatorDid th) (DIDFromPubBytes (ed25519_public sk))) as [Hc|]; [|done].
  intros [= <-]. set (sig := ed25519_sign sk (descriptorBytes th)). split; [done|]. split; [done|].
  assert (Hb : descriptorBytes (set_metadata (<[descriptorSignatureKey:=std_encode sig]>) th) = descriptorBytes th).
  { unfold descriptorBytes. simpl. by rewrite delete_insert_eq. }
  split; [|done]. unfold VerifyDescriptor. simpl t_Id. simpl CreatorDid.
  destruct (String.eqb_spec (t_Id th) ""); [done|].
  destruct (String.eqb_spec (CreatorDid th) "") as [E|_]; [rewrite Hc in E; discriminate E|].
  cbn [orb]. simpl Metadata. rewrite lookup_insert_eq. simpl default. rewrite std_roundtrip, Hb, Hc.
  unfold sig. by rewrite VerifyDID_complete.
Qed.

(** A signed thread descriptor verifies: when the creator signs, the
    descriptor that results passes VerifyDescriptor, and signing it again
    (after the metadata already holds a signature) does not change what is
    signed.  A signer other than the creator is refused. *)
Theorem descriptor_sign_verify `{CryptoLaws} `{Codec} sk th :
  slen (ed25519_public sk) = 32 -> t_Id th <> "" ->
  CreatorDid th = DIDFromPubBytes (ed25519_public sk) ->
  exists th', SignDescriptor th (CreatorDid th) sk = Ok th' /\
    VerifyDescriptor (Some th') = Ok tt /\ descriptorBytes th' = descriptorBytes th /\
    (forall did, did <> CreatorDid th -> is_ok (SignDescriptor th did sk) = false).
Proof.
  intros Hpk Hid Hc. assert (Hs : exists th', SignDescriptor th (CreatorDid th) sk = Ok th').
  { unfold SignDescriptor. rewrite String.eqb_refl. eexists. reflexivity. }
  destruct Hs as [th' Hs]. exists th'. split; [done|]. rewrite Hc in Hs.
  destruct (SignDescriptor_verifies sk th th' Hpk Hid Hs) as (_ & _ & Hv & Hb). split; [done|]. split; [done|].
  intros did Hne. unfold SignDescriptor. destruct (String.eqb_spec (CreatorDid th) did); [congruence|done].
Qed.

Definition toy_thread : Thread := mkThread "T" (DIDFromPubBytes toy_key) [] 1 0 1000 5 ∅.

Lemma descriptor_sign_verify_witness :
  exists th', SignDescriptor toy_thread (CreatorDid toy_thread) toy_key = Ok th' /\
    VerifyDescriptor (Some th') = Ok tt /\ descriptorBytes th' = descriptorBytes toy_thread /\
    (forall did, did <> CreatorDid toy_thread -> is_ok (SignDescriptor toy_thread did toy_key) = false).
Proof.
  apply (descriptor_sign_verify toy_key toy_thread); [reflexivity|discriminate|reflexivity].
Defined.
