(* ===== verification/Raft.v ===== *)
(** * The Raft backend ([daemon/thread/raft.go])

    The code around the etcd/raft node: applying the batches it hands out,
    persisting them, committing blocks, the committed-block broadcast of
    observers, and the membership commands.  The node itself is third-party
    code: its Ready batches, its answer to ApplyConfChange, whether it knows a
    leader and whether it accepts a proposal are arguments.  The broadcast and
    commit callbacks are modelled by the lists of what was handed to them. *)

From stdpp Require Import base gmap strings list pretty.
From Stdlib Require Import ZArith Lia.
From S2P Require Import Prelude GoStd Identity ThreadStore ConsensusStore Chain.

Local Open Scope string_scope.
Local Open Scope Z_scope.
Local Open Scope go_scope.

Module Raft.
Import ThreadStore ConsensusStore Chain.
Section Raft.
Context `{Crypto} `{Codec}.

(** The node's storage applying a received snapshot: [None] on success and for
    a snapshot that is out of date. *)
Context (applySnapshot : Snapshot -> option error).

(** ** State *)

(** A raft message: its destination and its encoded body. *)
Record RaftMsg : Type := mkRaftMsg { rm_To : Z; rm_Body : string }.

(** What is handed to the broadcast callback. *)
Inductive outgoing : Type :=
| OutRaft (m : RaftMsg)
| OutCommitted (b : ThreadBlock).

(** An inbound message: a committed block, a raft message for some node, or
    something else. *)
Inductive inbound : Type :=
| InCommitted (b : ThreadBlock)
| InRaft (m : RaftMsg)
| InOther.

(** One batch of the node ([raft.Ready]). *)
Record Ready : Type := mkReady {
  rd_HardState : HardState; rd_Entries : list RaftEntry; rd_Snapshot : Snapshot;
  rd_Messages : list RaftMsg; rd_Committed : list RaftEntry }.

(** [RaftBackend] with the store it writes to; [id] is the replica's DID and
    [key] its private key. *)
Record RaftState : Type := mkRaft {
  bdb : BlocksDB; cdb : ConsensusDB;
  thread : Thread; id : string; key : string;
  selfID : Z; peerIDs : gmap string Z; didByID : gmap Z string;
  appliedIndex : Z; appliedTerm : Z; voters : list Z;
  pendingReady : option Ready;
  changeSeq : Z; changes : gset string; completed : list string;
  sent : list outgoing; commits : list ThreadBlock; inboundCh : list inbound }.

Definition set_bdb (b : BlocksDB) (r : RaftState) : RaftState :=
  mkRaft b (cdb r) (thread r) (id r) (key r) (selfID r) (peerIDs r) (didByID r) (appliedIndex r)
    (appliedTerm r) (voters r) (pendingReady r) (changeSeq r) (changes r) (completed r) (sent r) (commits r) (inboundCh r).
Definition set_cdb (c : ConsensusDB) (r : RaftState) : RaftState :=
  mkRaft (bdb r) c (thread r) (id r) (key r) (selfID r) (peerIDs r) (didByID r) (appliedIndex r)
    (appliedTerm r) (voters r) (pendingReady r) (changeSeq r) (changes r) (completed r) (sent r) (commits r) (inboundCh r).
Definition set_thread (t : Thread) (r : RaftState) : RaftState :=
  mkRaft (bdb r) (cdb r) t (id r) (key r) (selfID r) (peerIDs r) (didByID r) (appliedIndex r)
    (appliedTerm r) (voters r) (pendingReady r) (changeSeq r) (changes r) (completed r) (sent r) (commits r) (inboundCh r).
Definition set_peers (p : gmap string Z) (d : gmap Z string) (r : RaftState) : RaftState :=
  mkRaft (bdb r) (cdb r) (thread r) (id r) (key r) (selfID r) p d (appliedIndex r)
    (appliedTerm r) (voters r) (pendingReady r) (changeSeq r) (changes r) (completed r) (sent r) (commits r) (inboundCh r).
Definition set_applied (i t : Z) (r : RaftState) : RaftState :=
  mkRaft (bdb r) (cdb r) (thread r) (id r) (key r) (selfID r) (peerIDs r) (didByID r) i t
    (voters r) (pendingReady r) (changeSeq r) (changes r) (completed r) (sent r) (commits r) (inboundCh r).
Definition set_voters (v : list Z) (r : RaftState) : RaftState :=
  mkRaft (bdb r) (cdb r) (thread r) (id r) (key r) (selfID r) (peerIDs r) (didByID r) (appliedIndex r)
    (appliedTerm r) v (pendingReady r) (changeSeq r) (changes r) (completed r) (sent r) (commits r) (inboundCh r).
Definition set_pending (p : option Ready) (r : RaftState) : RaftState :=
  mkRaft (bdb r) (cdb r) (thread r) (id r) (key r) (selfID r) (peerIDs r) (didByID r) (appliedIndex r)
    (appliedTerm r) (voters r) p (changeSeq r) (changes r) (completed r) (sent r) (commits r) (inboundCh r).
Definition set_changes (n : Z) (c : gset string) (d : list string) (r : RaftState) : RaftState :=
  mkRaft (bdb r) (cdb r) (thread r) (id r) (key r) (selfID r) (peerIDs r) (didByID r) (appliedIndex r)
    (appliedTerm r) (voters r) (pendingReady r) n c d (sent r) (commits r) (inboundCh r).
Definition send (o : outgoing) (r : RaftState) : RaftState :=
  mkRaft (bdb r) (cdb r) (thread r) (id r) (key r) (selfID r) (peerIDs r) (didByID r) (appliedIndex r)
    (appliedTerm r) (voters r) (pendingReady r) (changeSeq r) (changes r) (completed r)
    (sent r ++ [o]) (commits r) (inboundCh r).
Definition commit_cb (b : ThreadBlock) (r : RaftState) : RaftState :=
  mkRaft (bdb r) (cdb r) (thread r) (id r) (key r) (selfID r) (peerIDs r) (didByID r) (appliedIndex r)
    (appliedTerm r) (voters r) (pendingReady r) (changeSeq r) (changes r) (completed r)
    (sent r) (commits r ++ [b]) (inboundCh r).
Definition set_inbound (q : list inbound) (r : RaftState) : RaftState :=
  mkRaft (bdb r) (cdb r) (thread r) (id r) (key r) (selfID r) (peerIDs r) (didByID r) (appliedIndex r)
    (appliedTerm r) (voters r) (pendingReady r) (changeSeq r) (changes r) (completed r)
    (sent r) (commits r) q.

Definition on_blocks {A} (m : M BlocksDB A) : M RaftState A := zoom bdb set_bdb m.
Definition on_consensus {A} (m : M ConsensusDB A) : M RaftState A := zoom cdb set_cdb m.
Definition get_state : M RaftState RaftState := fun w => (Ok (db w), w).

(** ** Construction *)

(** The 1-based position in ReplicaDids is the raft id; of a repeated DID the
    last position wins in [peerIDs]. *)
Fixpoint number_peers (i : Z) (dids : list string) (p : gmap string Z) (d : gmap Z string)
    : gmap string Z * gmap Z string :=
  match dids with
  | [] => (p, d)
  | did :: l => number_peers (i + 1) l (<[did := i + 1]> p) (<[i + 1 := did]> d)
  end.

(** The voters: the first [thread.N] replicas, all of them when N is out of
    range. *)
Definition initial_voters (t : Thread) (p : gmap string Z) : list Z :=
  let len := llen (ReplicaDids t) in
  let n := if (t_N t <=? 0) || (len <? t_N t) then len else t_N t in
  (fun did => default 0 (p !! did)) <$> take (Z.to_nat n) (ReplicaDids t).

(** What the constructor puts into the node's in-memory log storage, in order;
    the storage, which is third-party code, may refuse a step. *)
Inductive storage_op : Type :=
| ApplySnapshot (s : Snapshot)
| Append (l : list RaftEntry)
| SetHardState (hs : HardState).

(** How the node is started: afresh with the initial voters, or from the
    storage. *)
Record boot : Type := mkBoot { storage : list storage_op; restart : bool }.

Definition last_index (l : list RaftEntry) (default_index : Z) : Z :=
  match last l with Some e => re_Index e | None => default_index end.

(** A committed block as an entry of a legacy log. *)
Definition legacy_entry (b : ThreadBlock) : RaftEntry :=
  mkRaftEntry (uint64 (Round b)) (uint64 (Height b)) EntryNormal (DataLegacy (Entries b)).

(** One step of storage, refused when [refuse] gives an error for it. *)
Definition store_op (refuse : storage_op -> option error) (op : storage_op) (l : list storage_op)
    : M RaftState (list storage_op) :=
  match refuse op with Some e => throw e | None => ret (l ++ [op])%list end.

Definition newRaftBackend (refuse : storage_op -> option error)
    (t : Thread) (did sk : string) (b : BlocksDB) (c : ConsensusDB)
    : list bool -> outcome (RaftState * boot) * list bool := fun fs =>
  let '(p, d) := number_peers 0 (ReplicaDids t) ∅ ∅ in
  match p !! did with
  | None => (Err (Errorf "raft: local DID not in ReplicaDids"), fs)
  | Some self =>
      let init := mkRaft b c t did sk self p d 0 0 (initial_voters t p) None 0 ∅ [] [] [] [] in
      let '(r, w) :=
        (do! on_blocks (ReleasePendingClaims (t_Id t)) in
         let! commitIndex := on_blocks (GetCommittedHeight (t_Id t)) in
         let! st := on_consensus (LoadRaftState (t_Id t)) in
         let '(snapshot, hardState, raftEntries) := st in
         let hasExactState := negb (IsEmptySnap snapshot) || negb (IsEmptyHardState hardState)
                              || negb (bool_decide (llen raftEntries = 0)) in
         let! ops := (if IsEmptySnap snapshot then ret [] else store_op refuse (ApplySnapshot snapshot) []) in
         let lastLogIndex := if IsEmptySnap snapshot then 0 else sn_Index snapshot in
         let! ops := (if llen raftEntries =? 0 then ret ops else store_op refuse (Append raftEntries) ops) in
         let lastLogIndex := last_index raftEntries lastLogIndex in
         let! ol :=
           (if hasExactState && negb (IsEmptyHardState hardState) then
              let! ops := store_op refuse (SetHardState hardState) ops in ret (ops, lastLogIndex)
            else if 0 <? commitIndex then
              let! bs := on_blocks (GetBlocksSince (t_Id t) 0 commitIndex) in
              let l := legacy_entry <$> bs in
              if llen l =? 0 then ret (ops, lastLogIndex)
              else let! ops := store_op refuse (Append l) ops in ret (ops, last_index l lastLogIndex)
            else ret (ops, lastLogIndex)) in
         let '(ops, lastLogIndex) := ol in
         let! cs := on_consensus (LoadConsensusState (t_Id t)) in
         let! ops :=
           (if negb hasExactState && ((1 <? cs_Height cs) || (0 <? cs_Round cs)) then
              let vote := if String.eqb (cs_Step cs) "" then 0 else ParseUint64 (cs_Step cs) in
              let commit := uint64 (cs_Round cs) in
              let commit := if lastLogIndex <? commit then lastLogIndex else commit in
              store_op refuse (SetHardState (mkHardState (uint64 (cs_Height cs)) vote commit)) ops
            else ret ops) in
         do! modify (set_applied (sn_Index snapshot) (sn_Term snapshot)) in
         do! (if IsEmptySnap snapshot then ret tt else modify (set_voters (sn_Voters snapshot))) in
         let! r := get_state in
         ret (r, mkBoot ops (hasExactState || negb (commitIndex =? 0)))) (World init fs) in
      (r, faults w)
  end.

(** ** Membership commands *)

Definition set_replicas (l : list string) (t : Thread) : Thread :=
  mkThread (t_Id t) (CreatorDid t) l (t_N t) (t_F t) (EpochMs t) (CreatedAt t) (Metadata t).
Definition set_n (n : Z) (t : Thread) : Thread :=
  mkThread (t_Id t) (CreatorDid t) (ReplicaDids t) n (t_F t) (EpochMs t) (CreatedAt t) (Metadata t).

(** The loop of [applyMembershipEntries], with its [changed] flag. *)
Fixpoint add_observers (entries : list ThreadEntry) (changed : bool) (r : RaftState)
    : bool * RaftState :=
  match entries with
  | [] => (changed, r)
  | e :: l =>
      if negb (String.eqb (Kind e) "membership:add-observer") then add_observers l changed r else
      let did := Payload e in
      if String.eqb did "" then add_observers l changed r else
      match peerIDs r !! did with
      | Some _ => add_observers l changed r
      | None =>
          let replicas := (ReplicaDids (thread r) ++ [did])%list in
          let rid := llen replicas in
          add_observers l true
            (set_peers (<[did := rid]> (peerIDs r)) (<[rid := did]> (didByID r))
               (set_thread (set_replicas replicas (thread r)) r))
      end
  end.

(** The creator signs the changed descriptor and stores it. *)
Definition sign_and_save : M RaftState unit :=
  let! r := get_state in
  if negb (String.eqb (id r) (CreatorDid (thread r))) then ret tt else
  match SignDescriptor (thread r) (id r) (key r) with
  | Ok t => do! modify (set_thread t) in log_err (on_blocks (SaveThread t))
  | _ => ret tt
  end.

Definition applyMembershipEntries (entries : list ThreadEntry) : M RaftState unit :=
  let! r := get_state in
  let '(changed, r') := add_observers entries false r in
  do! modify (fun _ => r') in
  if changed then sign_and_save else ret tt.

Definition persistVoterCount (n : Z) : M RaftState unit :=
  let! r := get_state in
  if (n <=? 0) || (int32 n =? t_N (thread r)) then ret tt else
  do! modify (set_thread (set_n (int32 n) (thread r))) in
  sign_and_save.

Definition persistHardState (hs : HardState) : M RaftState unit :=
  let! r := get_state in
  log_err (on_consensus (SaveConsensusState (t_Id (thread r))
    (mkCS (int64 (hs_Term hs)) (int32 (hs_Commit hs)) (pretty (hs_Vote hs)) 0 "" 0 ""))).

(** ** Committing *)

(** The block [commitBlock] fills in for a height and parent. *)
Definition raft_fill (threadID : string) (term : Z) (entries : list ThreadEntry)
    (proposerDID : string) (now : Z) (height : Z) (parentHash : string) : option ThreadBlock :=
  let b := mkBlock threadID height (int32 term) parentHash entries proposerDID "" "" now in
  Some (mkBlock threadID height (int32 term) parentHash entries proposerDID "" (raftBlockHash b) now).

Definition commitBlock (now term : Z) (entries : list ThreadEntry) (pendingIDs : list Z)
    (proposerDID : string) : M RaftState unit :=
  let! r := get_state in
  catch (on_blocks (AppendBlockAndAckPending (t_Id (thread r)) pendingIDs
           (raft_fill (t_Id (thread r)) term entries proposerDID now))) (fun res =>
    match res with
    | Ok block =>
        do! applyMembershipEntries entries in
        do! modify (send (OutCommitted block)) in
        modify (commit_cb block)
    | _ => ret tt
    end).

(** A block broadcast by the leader, applied by a replica. *)
Definition applyCommittedBlock (block : ThreadBlock) : M RaftState unit :=
  let! r := get_state in
  catch (on_blocks (GetBlock (t_Id (thread r)) (Height block))) (fun existing =>
    match existing with
    | Ok _ => ret tt
    | _ =>
        catch (on_blocks (SaveBlock block)) (fun saved =>
          match saved with
          | Ok _ =>
              do! applyMembershipEntries (Entries block) in
              modify (commit_cb block)
          | _ => ret tt
          end)
    end).

(** ** Voter changes *)

Definition token_of (n : Z) : string := pretty n.

Definition beginVoterChange (isLeader proposeOk : bool) (did : string) : M RaftState string :=
  let! r := get_state in
  guard! isLeader else Errorf "raft: voter change must be proposed by leader" in
  guard! negb (default 0 (peerIDs r !! did) =? 0) else Errorf "raft: unknown observer" in
  let n := uint64 (changeSeq r + 1) in
  let token := token_of n in
  do! modify (set_changes n ({[token]} ∪ changes r) (completed r)) in
  if proposeOk then ret token
  else do! modify (fun r => set_changes (changeSeq r) (changes r ∖ {[token]}) (completed r) r) in
       throw (Errorf "raft: propose conf change").

Definition completeVoterChange (token : string) : M RaftState unit :=
  if String.eqb token "" then ret tt else
  modify (fun r => set_changes (changeSeq r) (changes r ∖ {[token]})
                     (if decide (token ∈ changes r) then completed r ++ [token] else completed r)%list r).

(** ** Ready batches *)

Definition sendRaftMsg (m : RaftMsg) : M RaftState unit :=
  let! r := get_state in
  if bool_decide (didByID r !! rm_To m = None) && negb (rm_To m =? 0) then ret tt
  else modify (send (OutRaft m)).

(** One committed entry.  [applyConf] is the node's answer to ApplyConfChange,
    [clock] the time at which the entry's block is committed. *)
Definition apply_entry (applyConf : entry_data -> option (list Z)) (clock : Z -> Z) (e : RaftEntry)
    : M RaftState unit :=
  do! modify (set_applied (re_Index e) (re_Term e)) in
  let conf :=
    match applyConf (re_Data e) with
    | Some vs => do! modify (set_voters vs) in persistVoterCount (llen vs)
    | None => ret tt
    end in
  match re_Type e, re_Data e with
  | EntryConfChange, DataConfChange _ _ _ => conf
  | EntryConfChange, _ => ret tt
  | EntryConfChangeV2, DataConfChange token _ _ => do! conf in completeVoterChange token
  | EntryConfChangeV2, _ => ret tt
  | EntryNormal, DataProposal pendingIDs entries owner =>
      let! r := get_state in
      let owner := if String.eqb owner "" then id r else owner in
      let pendingIDs := if String.eqb owner (id r) then pendingIDs else [] in
      commitBlock (clock (re_Index e)) (re_Term e) entries pendingIDs owner
  | EntryNormal, DataLegacy entries =>
      let! r := get_state in
      commitBlock (clock (re_Index e)) (re_Term e) entries [] (id r)
  | EntryNormal, _ => ret tt
  end.

Definition handleReady (applyConf : entry_data -> option (list Z)) (clock : Z -> Z) (rd : Ready)
    : M RaftState bool :=
  let! r := get_state in
  let T := t_Id (thread r) in
  catch (on_consensus (SaveRaftReady T (rd_HardState rd) (rd_Entries rd))) (fun saved =>
    match saved with
    | Ok _ =>
        let! ok :=
          (if IsEmptySnap (rd_Snapshot rd) then ret true else
           catch (on_consensus (SaveRaftSnapshot T (rd_Snapshot rd))) (fun snap =>
             match snap with
             | Ok _ =>
                 match applySnapshot (rd_Snapshot rd) with
                 | Some _ => ret false
                 | None =>
                     do! modify (set_applied (sn_Index (rd_Snapshot rd)) (sn_Term (rd_Snapshot rd))) in
                     do! modify (set_voters (sn_Voters (rd_Snapshot rd))) in ret true
                 end
             | _ => ret false
             end)) in
        if negb ok then ret false else
        do! (if IsEmptyHardState (rd_HardState rd) then ret tt
             else persistHardState (rd_HardState rd)) in
        do! for_each (rd_Messages rd) sendRaftMsg in
        do! for_each (rd_Committed rd) (apply_entry applyConf clock) in
        ret true
    | _ => ret false
    end).

(** A batch that could not be persisted is kept and retried. *)
Definition processReady (applyConf : entry_data -> option (list Z)) (clock : Z -> Z) (rd : Ready)
    : M RaftState bool :=
  let! ok := handleReady applyConf clock rd in
  if ok then do! modify (set_pending None) in ret true
  else do! modify (set_pending (Some rd)) in ret false.

(** [next] is what the node's Ready channel holds. *)
Definition TryReady (applyConf : entry_data -> option (list Z)) (clock : Z -> Z) (next : option Ready)
    : M RaftState bool :=
  let! r := get_state in
  match pendingReady r, next with
  | Some rd, _ => processReady applyConf clock rd
  | None, Some rd => processReady applyConf clock rd
  | None, None => ret false
  end.

(** [hasLeader]: the node knows a leader; [proposeOk]: it accepts the proposal.
    Returns the proposal handed to the node. *)
Definition proposePending (hasLeader proposeOk : bool) : M RaftState (option entry_data) :=
  if negb hasLeader then ret None else
  let! r := get_state in
  catch (on_blocks (ClaimPendingEntries (t_Id (thread r)) 64)) (fun res =>
    match res with
    | Ok batch =>
        if bool_decide (BEntries batch = []) then ret None else
        if proposeOk then ret (Some (DataProposal (IDs batch) (BEntries batch) (id r)))
        else do! log_err (on_blocks (ReleasePendingClaimIDs (IDs batch))) in ret None
    | _ => ret None
    end).

(** The raft message stepped into the node, if any, and the proposal made. *)
Definition handleInbound (hasLeader proposeOk : bool) (msg : inbound)
    : M RaftState (option RaftMsg * option entry_data) :=
  match msg with
  | InCommitted b => do! applyCommittedBlock b in ret (None, None)
  | InOther => ret (None, None)
  | InRaft m =>
      let! r := get_state in
      if negb (rm_To m =? 0) && negb (rm_To m =? selfID r) then ret (None, None) else
      let! p := proposePending hasLeader proposeOk in
      ret (Some m, p)
  end.

Definition StepInbound := handleInbound.

(** The inbound channel holds 512 messages; one more is dropped. *)
Definition Deliver (msg : inbound) : M RaftState unit :=
  modify (fun r => if llen (inboundCh r) <? 512 then set_inbound (inboundCh r ++ [msg]) r else r).

(** The steps handed to the node by one call: messages stepped and proposals. *)
Definition node_input : Type := list (option RaftMsg * option entry_data).

Definition TryDrainInbound (hasLeader proposeOk : bool) : M RaftState (bool * node_input) :=
  let! r := get_state in
  match inboundCh r with
  | [] => ret (false, [])
  | msg :: q =>
      do! modify (set_inbound q) in
      let! i := handleInbound hasLeader proposeOk msg in
      ret (true, [i])
  end.

(** Whether the node's clock was advanced, and the proposal made. *)
Definition Tick (hasLeader proposeOk : bool) : M RaftState (bool * option entry_data) :=
  let! r := get_state in
  match pendingReady r with
  | Some _ => ret (false, None)
  | None => let! p := proposePending hasLeader proposeOk in ret (true, p)
  end.

(** What the node shows at one iteration of [Pump]. *)
Record node_view : Type := mkNodeView { nv_hasLeader : bool; nv_proposeOk : bool; nv_ready : option Ready }.

Definition pumpMaxIterations : nat := 64.
Definition pumpIdleYields : Z := 32.

Fixpoint pump_loop (applyConf : entry_data -> option (list Z)) (clock : Z -> Z) (view : nat -> node_view)
    (n i : nat) (idle : Z) (acc : node_input) : M RaftState node_input :=
  match n with
  | O => ret acc
  | S n' =>
      let v := view i in
      let! drained := TryDrainInbound (nv_hasLeader v) (nv_proposeOk v) in
      let! ready := TryReady applyConf clock (nv_ready v) in
      let acc := (acc ++ snd drained)%list in
      if fst drained || ready then pump_loop applyConf clock view n' (S i) 0 acc
      else if pumpIdleYields <=? idle then ret acc
      else pump_loop applyConf clock view n' (S i) (idle + 1) acc
  end.

Definition Pump (applyConf : entry_data -> option (list Z)) (clock : Z -> Z) (view : nat -> node_view)
    : M RaftState node_input :=
  pump_loop applyConf clock view pumpMaxIterations 0 0 [].

(** What the node's storage answers to CreateSnapshot. *)
Inductive snap_answer : Type := SnapOk (s : Snapshot) | SnapOutOfDate | SnapErr (e : error).

(** [compact] is the storage's answer to Compact, [None] for success and for
    a log that is already compacted. *)
Definition SnapshotNow (create : Z -> list Z -> snap_answer) (compact : Z -> option error)
    : M RaftState unit :=
  let! r := get_state in
  if appliedIndex r =? 0 then ret tt else
  match create (appliedIndex r) (voters r) with
  | SnapErr e => throw e
  | SnapOutOfDate => ret tt
  | SnapOk s =>
      do! on_consensus (SaveRaftSnapshot (t_Id (thread r)) s) in
      match compact (appliedIndex r) with Some e => throw e | None => ret tt end
  end.

End Raft.
End Raft.
