(* ===== verification/RaftFacts.v ===== *)
(** * Properties of the Raft backend

    Committed log entries and the chain they make: the stored chain of a
    replica verifies whatever database statements fail, a replica whose
    database does not fail stores exactly the chain the log determines, and
    where the storage format breaks verification. *)

From stdpp Require Import base gmap strings list pretty.
From Stdlib Require Import ZArith Lia.
From S2P Require Import Prelude GoStd Identity ThreadStore BlocksFacts ConsensusStore Chain Instances ChainFacts Raft.

Local Open Scope string_scope.
Local Open Scope Z_scope.
Local Open Scope go_scope.
Import ThreadStore ConsensusStore Chain Raft.

Section RaftFacts.
Context `{Crypto} `{Codec}.

(** An entry that the JSON projection loses nothing of. *)
Definition plain (e : ThreadEntry) : Prop := unmarshal_one (marshal_one e) = e.

Lemma unmarshal_plain es : Forall plain es -> unmarshalEntries (marshalEntries es) = es.
Proof.
  induction 1 as [|e es He Hes IH]; [done|].
  change (unmarshalEntries (marshalEntries (e :: es)))
    with (unmarshal_one (marshal_one e) :: unmarshalEntries (marshalEntries es)).
  by rewrite He, IH.
Qed.

(** The block [raft_fill] makes. *)
Definition raft_block (T : string) (term : Z) (es : list ThreadEntry) (owner : string)
    (now h : Z) (parent : string) : ThreadBlock :=
  let b := mkBlock T h (int32 term) parent es owner "" "" now in
  mkBlock T h (int32 term) parent es owner "" (raftBlockHash b) now.

Lemma raft_fill_block T term es owner now h p :
  raft_fill T term es owner now h p = Some (raft_block T term es owner now h p).
Proof. done. Qed.

Lemma scanned_snoc T l r :
  scanned T (l ++ [r]) = (scanned T l ++ [scanBlock (T, Z.of_nat (length l) + 1) r])%list.
Proof.
  unfold scanned, numbered. rewrite imap_app, fmap_app. simpl. by rewrite Nat.add_0_r.
Qed.

Lemma scanned_length T l : length (scanned T l) = length l.
Proof. unfold scanned, numbered. by rewrite length_fmap, length_imap. Qed.

Lemma scanned_last T l : last_hash "" (scanned T l) = tip l.
Proof.
  destruct l as [|r l _] using rev_ind; [done|].
  rewrite scanned_snoc, last_hash_snoc. unfold tip. by rewrite last_snoc.
Qed.

Lemma verify_snoc_block T l term es owner now :
  verify_loop BackendRaft 0 "" (scanned T l) = Ok tt -> Forall plain es ->
  verify_loop BackendRaft 0 "" (scanned T
    (l ++ [block_to_row (raft_block T term es owner now (Z.of_nat (length l) + 1) (tip l))])) = Ok tt.
Proof.
  intros Hv Hp. rewrite scanned_snoc. apply verify_loop_snoc. split; [done|].
  rewrite scanned_length, scanned_last. unfold extends, scanBlock, block_to_row. simpl.
  rewrite (unmarshal_plain es Hp). by repeat split.
Qed.

(** ** Operations that leave the chain alone *)

(** The parts of the state a commit's callbacks leave alone. *)
Definition frame_of (r : RaftState) := (t_Id (thread r), id r, blocks (bdb r), pending (bdb r)).

Lemma add_observers_frame es c r : frame_of (snd (add_observers es c r)) = frame_of r.
Proof.
  revert c r. induction es as [|e es IH]; intros c r; simpl; [done|].
  destruct (negb _); [done|]. destruct (String.eqb _ _); [done|].
  destruct (peerIDs r !! Payload e); [done|]. by rewrite IH.
Qed.

Lemma SignDescriptor_id t did sk t' : SignDescriptor t did sk = Ok t' -> t_Id t' = t_Id t.
Proof. unfold SignDescriptor. destruct (negb _); [done|]. by intros [= <-]. Qed.

Lemma sign_and_save_frame F : preserves (fun r => frame_of r = F) (sign_and_save).
Proof.
  unfold sign_and_save, get_state. intros w Hw. unfold bind at 1.
  destruct (negb _); [done|].
  destruct (SignDescriptor _ _ _) as [t|e|] eqn:Es; [|done..]. apply SignDescriptor_id in Es.
  unfold bind, modify, log_err, catch, on_blocks, zoom, SaveThread, exec, stmt. simpl.
  destruct (faults w) as [|[] fs]; simpl; rewrite <- Hw; unfold frame_of; simpl; by rewrite Es.
Qed.

Lemma applyMembership_frame F es : preserves (fun r => frame_of r = F) (applyMembershipEntries es).
Proof.
  unfold applyMembershipEntries, get_state. intros w Hw. unfold bind at 1.
  pose proof (add_observers_frame es false (db w)) as Ha.
  destruct (add_observers es false (db w)) as [changed r'] eqn:E. simpl in Ha.
  unfold bind at 1, modify. destruct changed; [|simpl; congruence].
  apply sign_and_save_frame. simpl. congruence.
Qed.

Lemma persistVoterCount_frame F n : preserves (fun r => frame_of r = F) (persistVoterCount n).
Proof.
  unfold persistVoterCount, get_state. intros w Hw. unfold bind at 1.
  destruct (_ || _); [done|]. unfold bind at 1, modify. by apply sign_and_save_frame.
Qed.

(** ** The chain invariant of a replica *)

Definition chain_inv (T : string) (n : nat) (r : RaftState) : Prop :=
  t_Id (thread r) = T /\ exists l, stored T l (bdb r) /\ (length l <= n)%nat /\
    verify_loop BackendRaft 0 "" (scanned T l) = Ok tt.

Lemma chain_inv_frame T n r r' : frame_of r' = frame_of r -> chain_inv T n r -> chain_inv T n r'.
Proof.
  unfold frame_of. intros [= E1 E2 E3 E4] (HT & l & Hs & Hr). split; [congruence|].
  exists l. split; [|done]. by eapply stored_blocks.
Qed.

Lemma preserves_frame {A} (m : M RaftState A) T n :
  (forall F, preserves (fun r => frame_of r = F) m) -> preserves (chain_inv T n) m.
Proof.
  intros Hm w Hw. eapply chain_inv_frame; [|exact Hw]. exact (Hm _ w eq_refl).
Qed.

Lemma commitBlock_chain T n now term es ids owner :
  0 < now -> Forall plain es -> Z.of_nat n + 1 < 2 ^ 63 ->
  leads (chain_inv T n) (commitBlock now term es ids owner) (chain_inv T (S n)).
Proof.
  intros Hnow Hp Hn w (HT & l & Hs & Hl & Hv).
  assert (Hweak : chain_inv T (S n) (db w)).
  { split; [done|]. exists l. split; [done|]. split; [lia|done]. }
  unfold commitBlock, get_state. unfold bind at 1. unfold catch, on_blocks, zoom.
  destruct (AppendBlockAndAckPending _ _ _ _) as [res w1] eqn:Happ. rewrite HT in Happ.
  destruct res as [b|e|]; cbn [fst snd].
  - apply (AppendBlock_ok T ids _ _ b w1 l) in Happ as (Hf & Hb & _); [|done|lia].
    rewrite raft_fill_block in Hf. injection Hf as <-.
    set (b := raft_block _ _ _ _ _ _ _) in *.
    assert (Hst : chain_inv T (S n) (set_bdb (db w1) (db w))).
    { split; [done|]. exists (l ++ [block_to_row b])%list. split.
      - simpl. eapply stored_blocks; [|apply (stored_snoc T l (bdb (db w)) b); done].
        by rewrite Hb.
      - rewrite length_app. simpl. split; [lia|]. by apply verify_snoc_block. }
    revert Hst. generalize (set_bdb (db w1) (db w)). intros r Hr.
    apply (preserves_bind (chain_inv T (S n)) (applyMembershipEntries es)).
    + apply preserves_frame. intros F. apply applyMembership_frame.
    + intros _. apply preserves_frame. intros F. go_preserves; done.
    + exact Hr.
  - unfold AppendBlockAndAckPending in Happ. apply tx_rollback in Happ; [|done]. simpl in *.
    rewrite Happ. by destruct (db w).
  - unfold AppendBlockAndAckPending in Happ. apply tx_rollback in Happ; [|done]. simpl in *.
    rewrite Happ. by destruct (db w).
Qed.

(** The log entries commit only entries the projection keeps. *)
Definition plain_entry (e : RaftEntry) : Prop :=
  match re_Data e with
  | DataProposal _ es _ | DataLegacy es => Forall plain es
  | _ => True
  end.

Lemma apply_entry_chain T n conf clock e :
  0 < clock (re_Index e) -> plain_entry e -> Z.of_nat n + 1 < 2 ^ 63 ->
  leads (chain_inv T n) (apply_entry conf clock e) (chain_inv T (S n)).
Proof.
  intros Hc Hp Hn w Hw.
  assert (Hup : forall r, chain_inv T n r -> chain_inv T (S n) r).
  { intros r (HT & l & Hs & Hl & Hv). split; [done|]. exists l. split; [done|]. split; [lia|done]. }
  unfold apply_entry. unfold bind at 1, modify. cbv zeta.
  assert (Hw' : chain_inv T n (set_applied (re_Index e) (re_Term e) (db w))) by done.
  revert Hw'. generalize (set_applied (re_Index e) (re_Term e) (db w)). intros r Hr.
  assert (Hconf : forall d, preserves (chain_inv T n)
    (match conf d with Some vs => bind (modify (set_voters vs)) (fun _ => persistVoterCount (llen vs))
     | None => ret tt end)).
  { intros d. apply preserves_frame. intros F. destruct (conf d); [|apply preserves_ret].
    apply preserves_bind; [by apply preserves_modify|]. intros _. apply persistVoterCount_frame. }
  assert (Hdone : forall tok, preserves (chain_inv T n) (completeVoterChange tok)).
  { intros tok. apply preserves_frame. intros F. unfold completeVoterChange. go_preserves; done. }
  unfold plain_entry in Hp.
  destruct (re_Type e), (re_Data e); try (by apply Hup); try (apply Hup; by apply Hconf);
    try (apply Hup; apply preserves_bind; [apply Hconf|intros; apply Hdone|done]);
    unfold bind at 1, get_state; by apply commitBlock_chain.
Qed.

Lemma apply_entries_chain T conf clock es : forall n,
  Forall (fun e => 0 < clock (re_Index e) /\ plain_entry e) es ->
  Z.of_nat n + Z.of_nat (length es) < 2 ^ 63 ->
  leads (chain_inv T n) (for_each es (apply_entry conf clock)) (chain_inv T (n + length es)).
Proof.
  induction es as [|e es IH]; intros n Hes Hn; cbn [for_each length].
  - rewrite Nat.add_0_r. by intros w Hw.
  - apply Forall_cons in Hes as [[Hc Hp] Hes]. cbn [length] in Hn.
    intros w Hw. assert (Z.of_nat n + 1 < 2 ^ 63) as Hn1 by lia.
    pose proof (apply_entry_chain T n conf clock e Hc Hp Hn1 w Hw) as H1.
    assert (Hup : forall m r, chain_inv T (S n) r -> chain_inv T (n + S m) r).
    { intros m r (HT & l & Hs & Hl & Hv). split; [done|]. exists l.
      split; [done|]. split; [lia|done]. }
    unfold bind. destruct (apply_entry conf clock e w) as [[u|er|] w1]; cbn [fst snd] in *;
      [|by apply Hup..].
    replace (n + S (length es))%nat with (S n + length es)%nat by lia.
    apply IH; [done| |done]. lia.
Qed.

(** ** The whole backend *)

Lemma chain_inv_le T n m r : (n <= m)%nat -> chain_inv T n r -> chain_inv T m r.
Proof.
  intros Hle (HT & l & Hs & Hl & Hv). split; [done|]. exists l. split; [done|]. split; [lia|done].
Qed.

Lemma on_consensus_frame {A} F (m : M ConsensusDB A) : preserves (fun r => frame_of r = F) (on_consensus m).
Proof. intros w Hw. unfold on_consensus, zoom. by destruct (m _). Qed.

Lemma sendRaftMsg_frame F m : preserves (fun r => frame_of r = F) (sendRaftMsg m).
Proof. unfold sendRaftMsg, get_state. intros w Hw. unfold bind. by destruct (_ && _). Qed.

Lemma persistHardState_frame F hs : preserves (fun r => frame_of r = F) (persistHardState hs).
Proof.
  unfold persistHardState, get_state. intros w Hw. unfold bind.
  exact (preserves_log_err (fun r => frame_of r = F) _ (on_consensus_frame F _) w Hw).
Qed.

Lemma proposePending_frame F hl ok : preserves (fun r => frame_of r = F) (proposePending hl ok).
Proof.
  unfold proposePending. destruct (negb hl); [apply preserves_ret|]. unfold get_state. intros w Hw.
  unfold bind at 1.
  match goal with |- frame_of (db (snd (?m w))) = F => assert (Hm : preserves (fun r => frame_of r = F) m) end;
    [|by apply Hm].
  apply preserves_catch.
  - apply preserves_zoom; [|by intros]. intros r Hr. unfold ClaimPendingEntries. go_preserves.
    by case_decide.
  - intros [b|er|]; [|apply preserves_ret..]. destruct (bool_decide _); [apply preserves_ret|].
    destruct ok; [apply preserves_ret|]. apply preserves_bind; [|intros; apply preserves_ret].
    apply preserves_log_err, preserves_zoom; [|by intros]. intros r Hr.
    unfold ReleasePendingClaimIDs. by go_preserves.
Qed.

Context (applySnapshot : Snapshot -> option error).

Lemma handleReady_chain T n conf clock rd :
  Forall (fun e => 0 < clock (re_Index e) /\ plain_entry e) (rd_Committed rd) ->
  Z.of_nat n + Z.of_nat (length (rd_Committed rd)) < 2 ^ 63 ->
  leads (chain_inv T n) (handleReady applySnapshot conf clock rd)
    (chain_inv T (n + length (rd_Committed rd))).
Proof.
  intros Hes Hn w Hw. set (k := (n + _)%nat).
  assert (Hup : forall r, chain_inv T n r -> chain_inv T k r) by (intros; eapply chain_inv_le; [|done]; lia).
  unfold handleReady, get_state. unfold bind at 1. cbv zeta. unfold catch at 1.
  pose proof (preserves_frame (on_consensus (SaveRaftReady (t_Id (thread (db w))) (rd_HardState rd) (rd_Entries rd)))
    T n (fun F => on_consensus_frame F _) w Hw) as H1.
  destruct (on_consensus _ w) as [[u|er|] w1]; cbn [fst snd] in *; [|by apply Hup..].
  match goal with |- context [bind ?m ?k0 w1] => 
    assert (Hsnap : preserves (chain_inv T n) m);
    [|assert (Hrest : forall ok, leads (chain_inv T n) (k0 ok) (chain_inv T k))] end.
  - destruct (IsEmptySnap _); [apply preserves_ret|].
    apply preserves_catch; [apply preserves_frame; intros F; apply on_consensus_frame|].
    intros [?|?|]; [|apply preserves_ret..]. destruct (applySnapshot _); [apply preserves_ret|].
    apply preserves_frame. intros F. go_preserves; done.
  - intros ok. destruct (negb ok); [by apply leads_ret|].
    intros x Hx. unfold bind at 1.
    match goal with |- context [match ?m x with _ => _ end] =>
      assert (Hp : chain_inv T n (db (snd (m x)))); [|destruct (m x) as [[u'|er|] x1]] end;
      cbn [fst snd] in *; [|idtac|by apply Hup..].
    { destruct (IsEmptyHardState _); [done|]. by apply (preserves_frame _ _ _ (fun F => persistHardState_frame F _)). }
    pose proof (preserves_frame (for_each (rd_Messages rd) sendRaftMsg) T n
      (fun F => preserves_for_each _ _ _ (sendRaftMsg_frame F)) x1 Hp) as Hm.
    unfold bind at 1. destruct (for_each (rd_Messages rd) sendRaftMsg x1) as [[u2|er|] x2];
      cbn [fst snd] in *; [|by apply Hup..].
    pose proof (apply_entries_chain T conf clock (rd_Committed rd) n Hes Hn x2 Hm) as Hc.
    unfold bind. by destruct (for_each (rd_Committed rd) _ x2) as [[u3|er|] x3].
  - unfold bind at 1. specialize (Hsnap w1 H1).
    match goal with |- context [match ?m w1 with _ => _ end] => destruct (m w1) as [[ok|er|] w2] end;
      cbn [fst snd] in *; [by apply Hrest|by apply Hup..].
Qed.

Lemma processReady_chain T n conf clock rd :
  Forall (fun e => 0 < clock (re_Index e) /\ plain_entry e) (rd_Committed rd) ->
  Z.of_nat n + Z.of_nat (length (rd_Committed rd)) < 2 ^ 63 ->
  leads (chain_inv T n) (processReady applySnapshot conf clock rd)
    (chain_inv T (n + length (rd_Committed rd))).
Proof.
  intros Hes Hn w Hw. pose proof (handleReady_chain T n conf clock rd Hes Hn w Hw) as H1.
  unfold processReady, bind at 1. destruct (handleReady _ _ _ _ w) as [[[]|er|] w1]; done.
Qed.

(** A replica of thread [T] that holds the chain [l]. *)
Definition replica (T : string) (l : list block_row) (r : RaftState) : Prop :=
  t_Id (thread r) = T /\ stored T l (bdb r).

(** Operations of the backend, with what the node answers. *)
Inductive raft_op : Type :=
| OpTick (hasLeader proposeOk : bool)
| OpReady (conf : entry_data -> option (list Z)) (clock : Z -> Z) (next : option Ready)
| OpRaftMsg (hasLeader proposeOk : bool) (m : RaftMsg)
| OpVoterChange (isLeader proposeOk : bool) (did : string)
| OpSnapshot (create : Z -> list Z -> snap_answer) (compact : Z -> option error).

Definition run_raft_op (o : raft_op) : M RaftState unit :=
  match o with
  | OpTick hl ok => do! Tick hl ok in ret tt
  | OpReady conf clock next => do! TryReady applySnapshot conf clock next in ret tt
  | OpRaftMsg hl ok m => do! handleInbound hl ok (InRaft m) in ret tt
  | OpVoterChange il ok did => do! beginVoterChange il ok did in ret tt
  | OpSnapshot create compact => SnapshotNow create compact
  end.

(** The batch an operation works on: the retained one before a new one. *)
Definition batch_of (o : raft_op) (r : RaftState) : option Ready :=
  match o with
  | OpReady _ _ next => match pendingReady r with Some rd => Some rd | None => next end
  | _ => None
  end.

Definition op_ok (o : raft_op) (r : RaftState) : Prop :=
  match o, batch_of o r with
  | OpReady _ clock _, Some rd => Forall (fun e => 0 < clock (re_Index e) /\ plain_entry e) (rd_Committed rd)
  | _, _ => True
  end.

Definition op_cost (o : raft_op) (r : RaftState) : nat :=
  match batch_of o r with Some rd => length (rd_Committed rd) | None => 0 end.

(** States of a replica that began with an empty chain; the counter bounds the
    committed entries handed to it. *)
Inductive raft_reach (T : string) : nat -> RaftState -> Prop :=
| raft_reach_new r : replica T [] r -> raft_reach T 0 r
| raft_reach_op n r o fs :
    raft_reach T n r -> op_ok o r ->
    raft_reach T (n + op_cost o r) (db (snd (run_raft_op o (World r fs)))).

Lemma run_raft_op_chain T n o r fs :
  chain_inv T n r -> op_ok o r -> Z.of_nat (n + op_cost o r) < 2 ^ 63 ->
  chain_inv T (n + op_cost o r) (db (snd (run_raft_op o (World r fs)))).
Proof.
  intros Hr Hok Hn. unfold op_cost, op_ok in *.
  assert (Hfr : forall A (m : M RaftState A), (forall F, preserves (fun r => frame_of r = F) m) ->
    chain_inv T (n + 0) (db (snd (m (World r fs))))).
  { intros A m Hm. rewrite Nat.add_0_r. by apply (preserves_frame m T n Hm). }
  destruct o as [hl ok|conf clock next|hl ok m|il ok did|create compact]; simpl in *.
  - apply Hfr. intros F. apply preserves_bind; [|intros; apply preserves_ret]. unfold Tick.
    intros w Hw. unfold get_state, bind at 1. destruct (pendingReady _); [done|].
    apply preserves_bind with (w := w); [apply proposePending_frame|intros; apply preserves_ret|done].
  - assert (Hb : forall rd, Forall (fun e => 0 < clock (re_Index e) /\ plain_entry e) (rd_Committed rd) ->
      Z.of_nat (n + length (rd_Committed rd)) < 2 ^ 63 -> chain_inv T (n + length (rd_Committed rd))
        (db (snd (bind (processReady applySnapshot conf clock rd) (fun _ => ret tt) (World r fs))))).
    { intros rd Hrd Hk. assert (Hpr := processReady_chain T n conf clock rd Hrd ltac:(lia) (World r fs) Hr).
      unfold bind. by destruct (processReady _ _ _ _ _) as [[?|?|] ?]. }
    assert (Etr : TryReady applySnapshot conf clock next (World r fs) =
      match (match pendingReady r with Some rd => Some rd | None => next end) with
      | Some rd => processReady applySnapshot conf clock rd | None => ret false end (World r fs))
      by (unfold TryReady, bind, get_state; simpl; by destruct (pendingReady r), next).
    unfold bind in Hb |- *. rewrite Etr. clear Etr.
    revert Hok Hn. destruct (pendingReady r) as [rd|]; [intros; by apply Hb|].
    destruct next as [rd|]; intros; [by apply Hb|]. by rewrite Nat.add_0_r.
  - apply Hfr. intros F. apply preserves_bind; [|intros; apply preserves_ret].
    intros w Hw. unfold get_state, bind at 1. destruct (_ && _); [done|].
    apply preserves_bind with (w := w); [apply proposePending_frame|intros; apply preserves_ret|done].
  - apply Hfr. intros F. apply preserves_bind; [|intros; apply preserves_ret].
    intros w Hw. unfold beginVoterChange, get_state, bind at 1. destruct il; [|done].
    destruct (negb _); [|done]. by destruct ok.
  - apply Hfr. intros F w Hw. unfold SnapshotNow, get_state, bind at 1. destruct (_ =? 0); [done|].
    destruct (create _ _); [|done..].
    apply preserves_bind with (w := w); [apply on_consensus_frame| |done].
    intros _. destruct (compact _); [apply preserves_throw|apply preserves_ret].
Qed.

Lemma raft_reach_chain T n r : raft_reach T n r -> Z.of_nat n < 2 ^ 63 -> chain_inv T n r.
Proof.
  induction 1 as [r [HT Hs]|n r o fs Hr IH Hok]; intros Hn.
  - split; [done|]. exists []. by split.
  - apply run_raft_op_chain; [apply IH; lia|done|done].
Qed.

(** ** The chain a log determines *)

(** A stored row without the local commit time. *)
Definition core (r : block_row) : block_row :=
  mkBlockRow (b_round r) (b_parent r) (b_entries r) (b_proposer r) (b_sig r) (b_hash r) 1.

(** The abstract state machine: a committed proposal appends one block. *)
Definition spec_step (T : string) (l : list block_row) (e : RaftEntry) : list block_row :=
  match re_Type e, re_Data e with
  | EntryNormal, DataProposal _ es owner =>
      (l ++ [core (block_to_row
              (raft_block T (re_Term e) es owner 1 (Z.of_nat (length l) + 1) (tip l)))])%list
  | _, _ => l
  end.

Lemma replica_frame T l r r' : frame_of r' = frame_of r -> replica T l r -> replica T l r'.
Proof.
  unfold frame_of. intros [= E1 E2 E3 E4] [HT Hs]. split; [congruence|]. by eapply stored_blocks.
Qed.

Lemma tip_core l : tip (core <$> l) = tip l.
Proof. unfold tip. rewrite fmap_last. by destruct (last l). Qed.

Lemma core_block T term es owner now h p :
  core (block_to_row (raft_block T term es owner now h p)) =
  core (block_to_row (raft_block T term es owner 1 h p)).
Proof. done. Qed.

(** An operation that keeps the frame and returns when nothing fails. *)
Lemma succeeds_frame {A} (m : M RaftState A) T l :
  (forall F, preserves (fun r => frame_of r = F) m) ->
  succeeds (fun _ => True) m (fun _ _ => True) ->
  succeeds (replica T l) m (fun _ => replica T l).
Proof.
  intros Hp Hs r Hr. destruct (Hs r I) as (a & r' & E & _). exists a, r'. split; [done|].
  specialize (Hp _ (World r []) eq_refl). rewrite E in Hp. by eapply replica_frame.
Qed.

Lemma sign_and_save_runs : succeeds (fun _ => True) (sign_and_save) (fun _ _ => True).
Proof.
  intros r _. unfold sign_and_save, get_state, bind at 1.
  destruct (negb _); [by eexists _, _|].
  destruct (SignDescriptor _ _ _); by eexists _, _.
Qed.

Lemma applyMembership_runs es :
  succeeds (fun _ => True) (applyMembershipEntries es) (fun _ _ => True).
Proof.
  intros r _. unfold applyMembershipEntries, get_state, bind at 1.
  destruct (add_observers es false (db (World r []))) as [[|] r']; [|by eexists _, _].
  unfold bind, modify. by apply sign_and_save_runs.
Qed.

Lemma persistVoterCount_runs n :
  succeeds (fun _ => True) (persistVoterCount n) (fun _ _ => True).
Proof.
  intros r _. unfold persistVoterCount, get_state, bind at 1.
  destruct (_ || _); [by eexists _, _|]. unfold bind, modify. by apply sign_and_save_runs.
Qed.

Lemma commitBlock_runs T l now term es ids owner :
  0 < now -> Z.of_nat (length l) + 1 < 2 ^ 63 ->
  succeeds (replica T l) (commitBlock now term es ids owner)
    (fun _ => replica T (l ++ [block_to_row
       (raft_block T term es owner now (Z.of_nat (length l) + 1) (tip l))])).
Proof.
  intros Hnow Hlen r [HT Hs]. unfold commitBlock, get_state. unfold bind at 1. cbn [db].
  rewrite HT. set (b := raft_block _ _ _ _ _ _ _).
  destruct (AppendBlock_run T ids (raft_fill T term es owner now) l b (bdb r) Hs Hlen)
    as (s' & Happ); [done..|].
  unfold catch, on_blocks, zoom. cbn [db faults]. rewrite Happ. cbn [db faults].
  apply (AppendBlock_ok T ids _ _ b _ l) in Happ as (_ & Hb & _); [|done..]. cbn [db] in Hb.
  assert (Hr : replica T (l ++ [block_to_row b]) (set_bdb s' r)).
  { split; [done|]. eapply stored_blocks; [|by apply (stored_snoc T l (bdb r) b)]. done. }
  revert Hr. generalize (set_bdb s' r). intros r1 Hr1.
  eapply (succeeds_bind (replica T (l ++ [block_to_row b])) (fun _ => replica T (l ++ [block_to_row b])));
    [| |exact Hr1].
  - apply succeeds_frame; [intros F; apply applyMembership_frame|apply applyMembership_runs].
  - intros _. eapply (succeeds_bind _ (fun _ => replica T (l ++ [block_to_row b])));
      intros; by apply succeeds_modify.
Qed.

(** Proposals carry their owner, as [proposePending] writes them. *)
Definition owned (e : RaftEntry) : Prop :=
  match re_Data e with
  | DataProposal _ _ owner => owner <> ""
  | DataLegacy _ => False
  | _ => True
  end.

Lemma apply_entry_runs T l conf clock e :
  0 < clock (re_Index e) -> owned e -> Z.of_nat (length l) + 1 < 2 ^ 63 ->
  succeeds (replica T l) (apply_entry conf clock e)
    (fun _ r => exists l', replica T l' r /\ core <$> l' = spec_step T (core <$> l) e /\
                           (length l' <= length l + 1)%nat).
Proof.
  intros Hc Ho Hlen. unfold apply_entry.
  eapply (succeeds_bind _ (fun _ => replica T l)); [by apply succeeds_modify|]. intros _. cbv zeta.
  assert (Hsame : forall r, replica T l r -> spec_step T (core <$> l) e = core <$> l ->
    exists l', replica T l' r /\ core <$> l' = spec_step T (core <$> l) e /\ (length l' <= length l + 1)%nat).
  { intros r Hr ->. exists l. split; [done|]. split; [done|lia]. }
  assert (Hconf : forall d, succeeds (replica T l)
    (match conf d with Some vs => bind (modify (set_voters vs)) (fun _ => persistVoterCount (llen vs))
     | None => ret tt end) (fun _ => replica T l)).
  { intros d. destruct (conf d); [|by apply succeeds_ret].
    eapply (succeeds_bind _ (fun _ => replica T l)); [by apply succeeds_modify|]. intros _.
    apply succeeds_frame; [intros F; apply persistVoterCount_frame|apply persistVoterCount_runs]. }
  unfold owned in Ho. unfold spec_step in Hsame |- *.
  destruct (re_Type e), (re_Data e) as [|pids es owner|es|tok add nid|]; try done;
    try (apply succeeds_ret; intros; by apply Hsame);
    try (eapply succeeds_conseq; [done|apply Hconf|]; intros; by apply Hsame).
  - (* a proposal *)
    intros r Hr. unfold bind, get_state. cbn [db].
    destruct (String.eqb_spec owner "") as [->|Hne]; [done|].
    eapply succeeds_conseq; [done|by apply commitBlock_runs|..|exact Hr].
    intros a r' Hr'. eexists. split; [exact Hr'|]. split; [|rewrite length_app; simpl; lia].
    rewrite fmap_app, length_fmap, tip_core. done.
  - (* a joint configuration change *)
    eapply (succeeds_bind _ (fun _ => replica T l)); [apply Hconf|]. intros _.
    unfold completeVoterChange. destruct (String.eqb tok "");
      [apply succeeds_ret|apply succeeds_modify]; intros; by apply Hsame.
Qed.

Lemma apply_entries_run T conf clock es : forall l,
  Forall (fun e => 0 < clock (re_Index e) /\ owned e) es ->
  Z.of_nat (length l) + Z.of_nat (length es) < 2 ^ 63 ->
  succeeds (replica T l) (for_each es (apply_entry conf clock))
    (fun _ r => exists l', replica T l' r /\ core <$> l' = foldl (spec_step T) (core <$> l) es).
Proof.
  induction es as [|e es IH]; intros l Hes Hn; cbn [for_each foldl].
  - apply succeeds_ret. eauto.
  - apply Forall_cons in Hes as [[Hc Ho] Hes]. cbn [length] in Hn.
    intros r Hr. destruct (apply_entry_runs T l conf clock e Hc Ho) with (s := r)
      as (u & r1 & E1 & l1 & Hr1 & Hl1 & Hlen1); [lia|done|].
    destruct (IH l1 Hes) with (s := r1) as (u2 & r2 & E2 & l2 & Hr2 & Hl2); [lia|done|].
    exists u2, r2. unfold bind. rewrite E1. split; [done|]. exists l2. split; [done|].
    by rewrite Hl2, Hl1.
Qed.

End RaftFacts.

(** ** Properties *)

Definition toy_thread1 : Thread := mkThread "T" "did:creator" ["did:a"; "did:b"; "did:c"] 3 1 1000 5 ∅.
Definition toy_state (did : string) : RaftState :=
  mkRaft empty_db empty_cdb toy_thread1 did "key" 1 ∅ ∅ 0 0 [1; 2; 3] None 0 ∅ [] [] [] [].
Definition toy_log : list RaftEntry :=
  [mkRaftEntry 1 1 EntryConfChange (DataConfChange "" true 1);
   mkRaftEntry 1 2 EntryNormal DataEmpty;
   mkRaftEntry 1 3 EntryNormal (DataProposal [1; 2] [ChainFacts.toy_entry "hello"] "did:a");
   mkRaftEntry 2 4 EntryNormal (DataProposal [7] [ChainFacts.toy_entry "world"] "did:b")].

Lemma toy_replica did : replica "T" [] (toy_state did).
Proof. split; [done|]. by apply stored_empty. Qed.

(** The append is atomic and extends the chain: under any schedule of
    database failures, AppendBlockAndAckPending either fails and leaves the
    whole database as it was, or writes one block at the next height linked to
    the last stored hash, overwrites no block, acknowledges exactly the pending
    inputs it was given, and touches no other thread. *)
Theorem append_block_atomic `{Crypto} `{Codec} T ids term es owner now w l :
  stored T l (db w) -> 0 < now -> Z.of_nat (length l) + 1 < 2 ^ 63 ->
  match AppendBlockAndAckPending T ids (raft_fill T term es owner now) w with
  | (Ok b, w') =>
      Height b = Z.of_nat (length l) + 1 /\ ParentHash b = tip l /\ BlockHash b = raftBlockHash b /\
      stored T (l ++ [block_to_row b]) (db w') /\
      pending (db w') = filter (fun p => p_id p ∉ ids) (pending (db w)) /\
      (forall T' h, T' <> T -> blocks (db w') !! (T', h) = blocks (db w) !! (T', h))
  | (_, w') => db w' = db w
  end.
Proof.
  intros Hs Hnow Hlen.
  destruct (AppendBlockAndAckPending _ _ _ _) as [[b|e|] w'] eqn:E;
    [|unfold AppendBlockAndAckPending in E; by eapply tx_rollback..].
  apply (AppendBlock_ok T ids _ _ b w' l) in E as (Hf & Hb & _ & Hp & _); [|done..].
  rewrite raft_fill_block in Hf. injection Hf as <-.
  split; [done|]. split; [done|]. split; [done|]. split; [|split; [done|]].
  - eapply stored_blocks; [|by apply (stored_snoc T l (db w))]. by rewrite Hb.
  - intros T' h Hne. rewrite Hb. rewrite lookup_insert_ne; [done|]. simpl. congruence.
Qed.

Lemma append_block_atomic_witness :
  match AppendBlockAndAckPending "T" [1] (raft_fill "T" 1 [] "did:a" 9) (World empty_db [false; true]) with
  | (Ok b, w') =>
      Height b = 0 + 1 /\ ParentHash b = "" /\ BlockHash b = raftBlockHash b /\
      stored "T" ([] ++ [block_to_row b]) (db w') /\
      pending (db w') = filter (fun p => p_id p ∉ [1]) (pending empty_db) /\
      (forall T' h, T' <> "T" -> blocks (db w') !! (T', h) = blocks empty_db !! (T', h))
  | (_, w') => db w' = empty_db
  end.
Proof.
  apply (append_block_atomic "T" [1] 1 [] "did:a" 9 (World empty_db [false; true]) []);
    [by apply stored_empty|lia|simpl; lia].
Defined.

(** C8: A replica's stored history verifies: in every state a replica reaches from an empty
    chain by ticks, Ready batches (persisted, retried after a failure, with snapshots,
    messages and committed entries), raft messages, voter changes and snapshots,
    whatever database statements fail and whatever the node answers, the blocks read
    back from the store are none, or a chain that VerifyChain accepts.  The conditions:
    the committed entries do not use the fields of encrypted entries (with them the
    statement fails, [raft_v2_unverifiable]), the clock is positive at a commit, fewer
    than 2^63 entries are committed, and the replica is sent no CommittedBlock
    broadcast (which are not among the operations; [raft_broadcast_duplicates]). *)
Theorem raft_chain_verifies `{Crypto} `{Codec} applySnapshot T n r :
  raft_reach applySnapshot T n r -> Z.of_nat n < 2 ^ 63 ->
  let chain := blocks_since T 0 0 (bdb r) in
  chain = [] \/ VerifyChain BackendRaft chain = Ok tt.
Proof.
  intros Hr Hn chain. destruct (raft_reach_chain _ T n r Hr Hn) as (_ & l & Hl & _ & Hv).
  unfold chain. rewrite (blocks_since_stored T l) by done.
  destruct (scanned T l) as [|b bs]; [by left|right]. by rewrite VerifyChain_loop.
Qed.

Definition toy_ready : Ready := mkReady (mkHardState 1 1 4) toy_log emptySnapshot [] toy_log.

(** A batch whose persisting fails and is retried. *)
Definition toy_op (next : option Ready) : raft_op := OpReady (fun _ => Some [1; 2]) (fun i => i) next.
Definition toy_step (r : RaftState) (o : raft_op) (fs : list bool) : RaftState :=
  db (snd (run_raft_op (fun _ => None) o (World r fs))).
Definition toy_failed : RaftState := toy_step (toy_state "did:a") (toy_op (Some toy_ready)) [false; true].
Definition toy_retried : RaftState := toy_step toy_failed (toy_op None) [].

Lemma raft_chain_verifies_witness :
  let chain := blocks_since "T" 0 0 (bdb toy_retried) in
  chain = [] \/ VerifyChain BackendRaft chain = Ok tt.
Proof.
  assert (H0 : raft_reach (fun _ => None) "T" 0 (toy_state "did:a"))
    by apply raft_reach_new, toy_replica.
  assert (H1 := raft_reach_op _ "T" 0 _ (toy_op (Some toy_ready)) [false; true] H0
                  ltac:(repeat constructor; simpl; lia)).
  assert (Hok : op_ok (toy_op None) toy_failed) by (vm_compute; repeat constructor).
  assert (H2 := raft_reach_op _ "T" _ toy_failed (toy_op None) [] H1 Hok).
  apply (raft_chain_verifies (fun _ => None) "T" _ toy_retried H2).
  vm_compute. reflexivity.
Defined.

(** C7: Replicas that apply the same log hold the same history: on a database
    that does not fail, applying a log of owned proposals and configuration
    changes succeeds and stores exactly the chain that the log alone determines
    (rounds, parent links, entries, proposers and hashes), whichever replica
    applies it, at whatever times and with whatever configuration answers; only
    the local commit times differ. *)
Theorem raft_refines_log `{Crypto} `{Codec} T conf clock es r :
  replica T [] r -> Z.of_nat (length es) < 2 ^ 63 ->
  Forall (fun e => 0 < clock (re_Index e) /\ owned e) es ->
  exists r' l, for_each es (apply_entry conf clock) (World r []) = (Ok tt, World r' []) /\
    blocks_since T 0 0 (bdb r') = scanned T l /\ core <$> l = foldl (spec_step T) [] es.
Proof.
  intros Hr Hn Hes.
  destruct (apply_entries_run T conf clock es [] Hes Hn r Hr) as ([] & r' & E & l & [_ Hs] & Hl).
  exists r', l. split; [done|]. split; [by apply blocks_since_stored|done].
Qed.

Lemma raft_refines_log_witness :
  exists r' l, for_each toy_log (apply_entry (fun _ => None) (fun i => 100 + i))
                 (World (toy_state "did:b") []) = (Ok tt, World r' []) /\
    blocks_since "T" 0 0 (bdb r') = scanned "T" l /\ core <$> l = foldl (spec_step "T") [] toy_log.
Proof.
  apply (raft_refines_log "T" (fun _ => None) (fun i => 100 + i) toy_log (toy_state "did:b"));
    [apply toy_replica|simpl; lia|repeat constructor; simpl; try lia; discriminate].
Defined.

(** An encrypted entry breaks the stored chain: the store keeps five of an
    entry's twelve fields, so after a replica commits a block with one entry
    that uses any of the others, the block read back does not have the hash it
    was committed under (assuming hash and encoding are injective) and
    VerifyChain rejects the replica's own history. *)
Theorem raft_v2_unverifiable `{CryptoLaws} `{CodecLaws} T now term ids owner e r :
  replica T [] r -> 0 < now -> ~ plain e ->
  exists r', commitBlock now term [e] ids owner (World r []) = (Ok tt, World r' []) /\
    VerifyChain BackendRaft (blocks_since T 0 0 (bdb r'))
      = Err (Errorf "verify chain: hash mismatch").
Proof.
  intros Hr Hnow He.
  destruct (commitBlock_runs T [] now term [e] ids owner Hnow) with (s := r)
    as ([] & r' & E & _ & Hs); [simpl; lia|done|].
  exists r'. split; [done|]. rewrite (blocks_since_stored T _ _ Hs).
  unfold scanned. simpl. unfold scanBlock. simpl.
  case_match eqn:Hh; [done|]. exfalso. apply He.
  apply negb_false_iff, String.eqb_eq in Hh. unfold raft_block, raftBlockHash in Hh. simpl in Hh.
  apply hex_encode_inj, Sum256_inj in Hh. repeat apply String.app_inj in Hh.
  rewrite !append_empty_r in Hh. by apply proto_entry_inj in Hh.
Qed.

Definition toy_v2 : ThreadEntry :=
  mkEntry "did:key:za" "cipher" "message" "" 5 2 1 "" 1 1 "nonce" "sig".

Lemma raft_v2_unverifiable_witness :
  exists r', commitBlock 7 1 [toy_v2] [] "did:a" (World (toy_state "did:a") []) = (Ok tt, World r' []) /\
    VerifyChain BackendRaft (blocks_since "T" 0 0 (bdb r')) = Err (Errorf "verify chain: hash mismatch").
Proof.
  apply (raft_v2_unverifiable "T" 7 1 [] "did:a" toy_v2 (toy_state "did:a"));
    [apply toy_replica|lia|discriminate].
Defined.

Lemma applyCommittedBlock_run `{Crypto} `{Codec} T l b r :
  replica T l r -> ThreadId b = T -> Height b = Z.of_nat (length l) + 1 -> 0 < CommittedAt b ->
  exists r', applyCommittedBlock b (World r []) = (Ok tt, World r' []) /\
    replica T (l ++ [block_to_row b]) r'.
Proof.
  intros [HT Hs] Hb Hh Hc. unfold applyCommittedBlock, get_state. unfold bind at 1. cbn [db].
  rewrite HT, Hh. unfold catch at 1, on_blocks at 1, zoom, GetBlock, query. rewrite stmt_nofault. cbn [db faults fst snd].
  rewrite (stored_fresh T l (bdb r) Hs). unfold catch, on_blocks, zoom, SaveBlock, exec. cbn [db faults].
  rewrite stmt_nofault. cbn [fst snd db faults].
  assert (Hr : replica T (l ++ [block_to_row b]) (set_bdb (replace_block b (bdb r)) r)).
  { split; [done|]. simpl. by apply stored_snoc. }
  destruct (succeeds_bind (replica T (l ++ [block_to_row b])) (fun _ => replica T (l ++ [block_to_row b]))
    (applyMembershipEntries (Entries b)) (fun _ => modify (commit_cb b))
    (fun _ => replica T (l ++ [block_to_row b]))) with (s := set_bdb (replace_block b (bdb r)) r)
    as ([] & r' & E & Hr'); [|intros _; by apply succeeds_modify|exact Hr|by exists r'].
  apply succeeds_frame; [intros F; apply applyMembership_frame|apply applyMembership_runs].
Qed.

(** A committed-block broadcast makes voters store entries twice: handleInbound
    applies a CommittedBlock on every replica, voters included, and commitBlock
    later appends the entries of the same log entry at the next free height.  A
    voter that holds the same chain as the leader, receives the leader's
    broadcast of the block it made for a log entry, and then commits that log
    entry itself, ends with two blocks carrying the same entries. *)
Theorem raft_broadcast_duplicates `{Crypto} `{Codec} T l r conf clock now term idx pids es owner hl ok :
  replica T l r -> Z.of_nat (length l) + 2 < 2 ^ 63 -> 0 < now -> 0 < clock idx -> owner <> "" ->
  let b := raft_block T term es owner now (Z.of_nat (length l) + 1) (tip l) in
  exists r' b', bind (handleInbound hl ok (InCommitted b))
      (fun _ => apply_entry conf clock (mkRaftEntry term idx EntryNormal (DataProposal pids es owner)))
      (World r []) = (Ok tt, World r' []) /\
    replica T (l ++ [block_to_row b; block_to_row b']) r' /\
    Height b = Z.of_nat (length l) + 1 /\ Height b' = Z.of_nat (length l) + 2 /\ Entries b' = Entries b.
Proof.
  intros Hr Hn Hnow Hclk Ho b. unfold handleInbound.
  destruct (applyCommittedBlock_run T l b r Hr) as (r1 & E1 & Hr1); [done..|].
  unfold bind at 1 2. rewrite E1. cbn [ret]. unfold ret. unfold apply_entry. unfold bind at 1, modify.
  cbn [db faults re_Index re_Term re_Type re_Data]. unfold bind, get_state. cbn [db].
  destruct (String.eqb_spec owner "") as [->|_]; [done|].
  set (r2 := set_applied idx term r1).
  assert (Hr2 : replica T (l ++ [block_to_row b]) r2) by exact Hr1.
  edestruct (commitBlock_runs T (l ++ [block_to_row b]) (clock idx) term es) with (s := r2)
    as ([] & r3 & E3 & Hr3); [done|rewrite length_app; simpl; lia|exact Hr2|].
  eexists r3, _. split; [exact E3|]. split; [rewrite <- app_assoc in Hr3; exact Hr3|].
  split; [done|]. split; [|done]. simpl. rewrite length_app. simpl. lia.
Qed.

Lemma raft_broadcast_duplicates_witness :
  let b := raft_block "T" 1 [ChainFacts.toy_entry "hello"] "did:a" 7 1 "" in
  exists r' b', bind (handleInbound false false (InCommitted b))
      (fun _ => apply_entry (fun _ => None) (fun i => i)
         (mkRaftEntry 1 3 EntryNormal (DataProposal [1] [ChainFacts.toy_entry "hello"] "did:a")))
      (World (toy_state "did:b") []) = (Ok tt, World r' []) /\
    replica "T" ([] ++ [block_to_row b; block_to_row b']) r' /\
    Height b = 1 /\ Height b' = 2 /\ Entries b' = Entries b.
Proof.
  apply (raft_broadcast_duplicates "T" [] (toy_state "did:b") (fun _ => None) (fun i => i)
    7 1 3 [1] [ChainFacts.toy_entry "hello"] "did:a" false false);
    [apply toy_replica|simpl; lia|lia|lia|discriminate].
Defined.
