(* ===== verification/Tendermint.v ===== *)
(** * The Tendermint backend ([daemon/thread/tendermint.go])

    The state machine of one replica of a thread: proposals, votes, locks,
    phase timeouts, future-round votes and commits, over the tables of the
    thread store.  The broadcast and commit callbacks are modelled by the lists
    of what was handed to them.  [now] is the reading of the clock during a
    step, in nanoseconds; a deadline is [None] where the code keeps the zero
    time.  A replica is driven from one actor's mailbox, so a step runs alone. *)

From stdpp Require Import base gmap strings list pretty.
From Stdlib Require Import ZArith Lia.
From S2P Require Import Prelude GoStd Identity ThreadStore ConsensusStore Chain.

Local Open Scope string_scope.
Local Open Scope Z_scope.
Local Open Scope go_scope.

Module Tendermint.
Import Identity ThreadStore ConsensusStore Chain.

Definition stepPropose : string := "propose".
Definition stepPrevote : string := "prevote".
Definition stepPrecommit : string := "precommit".
Definition defaultEpochMs : Z := 1000.
Definition defaultTimeoutMs : Z := 500.
Definition maxPendingPerBlock : Z := 64.
Definition pumpMaxIterations : nat := 64.
Definition inboundCap : Z := 512.

(** ** Data *)

Record Proposal : Type := mkProposal {
  pr_ThreadId : string; pr_Height : Z; pr_Round : Z; pr_PolRound : Z;
  pr_Block : option ThreadBlock; pr_ProposerDid : string; pr_Signature : string }.

(** [pb.ConsensusMsg] by its payload; the other payloads are Raft's. *)
Inductive ConsensusMsg : Type :=
| MsgProposal (p : Proposal)
| MsgVote (v : Vote)
| MsgOther.

(** [TendermintBackend] with the store it writes to; [id] is the replica's DID
    and [key] its private key; [ready] says that the broadcast function was
    captured. *)
Record TendermintBackend : Type := mkTM {
  bdb : BlocksDB; cdb : ConsensusDB;
  thread : Thread; id : string; key : string;
  cs : ConsensusState; proposal : option Proposal; inboundCh : list ConsensusMsg;
  proposeAt : option Z; prevoteAt : option Z; precommitAt : option Z; epochMs : Z;
  ready : bool; started : bool;
  futureVotes : gmap Z (list Vote);
  sent : list ConsensusMsg; commits : list ThreadBlock }.

Definition set_bdb (b : BlocksDB) (e : TendermintBackend) : TendermintBackend :=
  mkTM b (cdb e) (thread e) (id e) (key e) (cs e) (proposal e) (inboundCh e) (proposeAt e) (prevoteAt e)
    (precommitAt e) (epochMs e) (ready e) (started e) (futureVotes e) (sent e) (commits e).
Definition set_cdb (c : ConsensusDB) (e : TendermintBackend) : TendermintBackend :=
  mkTM (bdb e) c (thread e) (id e) (key e) (cs e) (proposal e) (inboundCh e) (proposeAt e) (prevoteAt e)
    (precommitAt e) (epochMs e) (ready e) (started e) (futureVotes e) (sent e) (commits e).
Definition set_cs (c : ConsensusState) (e : TendermintBackend) : TendermintBackend :=
  mkTM (bdb e) (cdb e) (thread e) (id e) (key e) c (proposal e) (inboundCh e) (proposeAt e) (prevoteAt e)
    (precommitAt e) (epochMs e) (ready e) (started e) (futureVotes e) (sent e) (commits e).
Definition set_proposal (p : option Proposal) (e : TendermintBackend) : TendermintBackend :=
  mkTM (bdb e) (cdb e) (thread e) (id e) (key e) (cs e) p (inboundCh e) (proposeAt e) (prevoteAt e)
    (precommitAt e) (epochMs e) (ready e) (started e) (futureVotes e) (sent e) (commits e).
Definition set_inbound (q : list ConsensusMsg) (e : TendermintBackend) : TendermintBackend :=
  mkTM (bdb e) (cdb e) (thread e) (id e) (key e) (cs e) (proposal e) q (proposeAt e) (prevoteAt e)
    (precommitAt e) (epochMs e) (ready e) (started e) (futureVotes e) (sent e) (commits e).
Definition set_proposeAt (d : option Z) (e : TendermintBackend) : TendermintBackend :=
  mkTM (bdb e) (cdb e) (thread e) (id e) (key e) (cs e) (proposal e) (inboundCh e) d (prevoteAt e)
    (precommitAt e) (epochMs e) (ready e) (started e) (futureVotes e) (sent e) (commits e).
Definition set_prevoteAt (d : option Z) (e : TendermintBackend) : TendermintBackend :=
  mkTM (bdb e) (cdb e) (thread e) (id e) (key e) (cs e) (proposal e) (inboundCh e) (proposeAt e) d
    (precommitAt e) (epochMs e) (ready e) (started e) (futureVotes e) (sent e) (commits e).
Definition set_precommitAt (d : option Z) (e : TendermintBackend) : TendermintBackend :=
  mkTM (bdb e) (cdb e) (thread e) (id e) (key e) (cs e) (proposal e) (inboundCh e) (proposeAt e)
    (prevoteAt e) d (epochMs e) (ready e) (started e) (futureVotes e) (sent e) (commits e).
Definition set_running (r s : bool) (e : TendermintBackend) : TendermintBackend :=
  mkTM (bdb e) (cdb e) (thread e) (id e) (key e) (cs e) (proposal e) (inboundCh e) (proposeAt e)
    (prevoteAt e) (precommitAt e) (epochMs e) r s (futureVotes e) (sent e) (commits e).
Definition set_future (f : gmap Z (list Vote)) (e : TendermintBackend) : TendermintBackend :=
  mkTM (bdb e) (cdb e) (thread e) (id e) (key e) (cs e) (proposal e) (inboundCh e) (proposeAt e)
    (prevoteAt e) (precommitAt e) (epochMs e) (ready e) (started e) f (sent e) (commits e).
Definition send (m : ConsensusMsg) (e : TendermintBackend) : TendermintBackend :=
  mkTM (bdb e) (cdb e) (thread e) (id e) (key e) (cs e) (proposal e) (inboundCh e) (proposeAt e)
    (prevoteAt e) (precommitAt e) (epochMs e) (ready e) (started e) (futureVotes e)
    (sent e ++ [m]) (commits e).
Definition commit_cb (b : ThreadBlock) (e : TendermintBackend) : TendermintBackend :=
  mkTM (bdb e) (cdb e) (thread e) (id e) (key e) (cs e) (proposal e) (inboundCh e) (proposeAt e)
    (prevoteAt e) (precommitAt e) (epochMs e) (ready e) (started e) (futureVotes e)
    (sent e) (commits e ++ [b]).

Definition on_blocks {A} (m : M BlocksDB A) : M TendermintBackend A := zoom bdb set_bdb m.
Definition on_consensus {A} (m : M ConsensusDB A) : M TendermintBackend A := zoom cdb set_cdb m.
Definition get_state : M TendermintBackend TendermintBackend := fun w => (Ok (db w), w).
Definition lift {A} (r : outcome A) : M TendermintBackend A := fun w => (r, w).

Definition with_step (s : string) (c : ConsensusState) : ConsensusState :=
  mkCS (cs_Height c) (cs_Round c) s (cs_LockedRound c) (cs_LockedHash c) (cs_ValidRound c) (cs_ValidHash c).
Definition with_round (r : Z) (c : ConsensusState) : ConsensusState :=
  mkCS (cs_Height c) r (cs_Step c) (cs_LockedRound c) (cs_LockedHash c) (cs_ValidRound c) (cs_ValidHash c).
Definition with_lock (r : Z) (h : string) (c : ConsensusState) : ConsensusState :=
  mkCS (cs_Height c) (cs_Round c) (cs_Step c) r h (cs_ValidRound c) (cs_ValidHash c).
Definition with_valid (r : Z) (h : string) (c : ConsensusState) : ConsensusState :=
  mkCS (cs_Height c) (cs_Round c) (cs_Step c) (cs_LockedRound c) (cs_LockedHash c) r h.

(** [time.Now().Add(time.Duration(ms) * time.Millisecond)]. *)
Definition after_ms (now ms : Z) : option Z := Some (now + int64 (ms * 1000000)).

(** [!d.IsZero() && !now.Before(d)]. *)
Definition elapsed (now : Z) (d : option Z) : bool :=
  match d with Some t => t <=? now | None => false end.

Section Tendermint.
Context `{Crypto} `{Codec}.

(** Go's unspecified iteration order of a map. *)
Context (range : gmap string Z -> list (string * Z)).

(** ** Helpers *)

Definition proposalSigData (threadID : string) (height round : Z) (blockHash : string) : string :=
  "proposal:" +:+ threadID +:+ ":" +:+ pretty height +:+ ":" +:+ pretty round +:+ ":" +:+ blockHash.

Definition voteSigData (threadID : string) (height round : Z) (vtype : VoteType) (blockHash : string)
    : string :=
  "vote:" +:+ threadID +:+ ":" +:+ pretty height +:+ ":" +:+ pretty round +:+ ":"
  +:+ pretty (vote_num vtype) +:+ ":" +:+ blockHash.

(** The replica at [(height + round) % len]: a panic on an empty replica list
    and on a negative index. *)
Definition isValidProposer (replicas : list string) (did : string) (height round : Z) : outcome bool :=
  if llen replicas =? 0 then Panic else
  let idx := Z.rem (int64 (height + round)) (llen replicas) in
  if idx <? 0 then Panic else
  match replicas !! Z.to_nat idx with
  | Some r => Ok (String.eqb r did)
  | None => Panic
  end.

Definition isProposer (e : TendermintBackend) : outcome bool :=
  isValidProposer (ReplicaDids (thread e)) (id e) (cs_Height (cs e)) (cs_Round (cs e)).

Definition isKnownValidator (t : Thread) (did : string) : bool :=
  existsb (fun r => String.eqb r did) (ReplicaDids t).

Definition quorum (t : Thread) : Z := 2 * t_F t + 1.

(** The check shared by [verifyProposalSig] and [verifyVoteSig]. *)
Definition verify_hex (did sigData signature : string) : outcome unit :=
  match hex_decode signature with
  | None => Err (Errorf "decode sig")
  | Some sigBytes =>
      match PubKeyFromDID did with
      | Ok pub =>
          match ed25519_Verify pub sigData sigBytes with
          | Ok true => Ok tt
          | Ok false => Err (Errorf "invalid signature")
          | Err er => Err er
          | Panic => Panic
          end
      | Err er => Err er
      | Panic => Panic
      end
  end.

Definition verifyProposalSig (prop : Proposal) (block : ThreadBlock) : outcome unit :=
  verify_hex (pr_ProposerDid prop)
    (proposalSigData (pr_ThreadId prop) (pr_Height prop) (pr_Round prop) (BlockHash block))
    (pr_Signature prop).

Definition verifyVoteSig (v : Vote) : outcome unit :=
  verify_hex (v_VoterDid v)
    (voteSigData (v_ThreadId v) (v_Height v) (v_Round v) (v_Type v) (v_BlockHash v))
    (v_Signature v).

Definition count_votes (votes : list Vote) : gmap string Z :=
  foldl (fun m v => <[v_BlockHash v := default 0 (m !! v_BlockHash v) + 1]> m) ∅ votes.

Definition majority (votes : list Vote) : string * Z :=
  foldl (fun best p => if snd best <? snd p then p else best) ("", 0) (range (count_votes votes)).

(** ** Messages out *)

Definition sendVote (vtype : VoteType) (blockHash : string) : M TendermintBackend unit :=
  let! e := get_state in
  let c := cs e in
  let sigData := voteSigData (t_Id (thread e)) (cs_Height c) (cs_Round c) vtype blockHash in
  let v := mkVote (t_Id (thread e)) (cs_Height c) (cs_Round c) vtype blockHash (id e)
             (hex_encode (ed25519_sign (key e) sigData)) in
  do! log_err (on_consensus (SaveVote v)) in
  modify (send (MsgVote v)).

(** [SaveConsensusState] with its error dropped. *)
Definition save_cs : M TendermintBackend unit :=
  let! e := get_state in
  log_err (on_consensus (SaveConsensusState (t_Id (thread e)) (cs e))).

Definition buildProposal : M TendermintBackend Proposal :=
  let! e := get_state in
  let c := cs e in
  let T := t_Id (thread e) in
  let revalidate := (0 <=? cs_ValidRound c) && negb (String.eqb (cs_ValidHash c) "") in
  do! (if revalidate then log_err (on_blocks (GetBlock T (cs_Height c))) else ret tt) in
  let polRound := if revalidate then cs_ValidRound c else -1 in
  let! entries := on_blocks (DequeuePendingEntries T maxPendingPerBlock) in
  let! parentHash :=
    (if 1 <? cs_Height c then
       catch (on_blocks (GetBlock T (cs_Height c - 1)))
         (fun r => match r with Ok prev => ret (BlockHash prev) | _ => ret "" end)
     else ret "") in
  let block := mkBlock T (cs_Height c) (cs_Round c) parentHash entries (id e) "" "" 0 in
  let blockHash := computeBlockHash block in
  let sig := hex_encode (ed25519_sign (key e)
               (proposalSigData T (cs_Height c) (cs_Round c) blockHash)) in
  ret (mkProposal T (cs_Height c) (cs_Round c) polRound
         (Some (mkBlock T (cs_Height c) (cs_Round c) parentHash entries (id e) sig blockHash 0))
         (id e) sig).

Definition enterPropose : M TendermintBackend unit :=
  let! e := get_state in
  let! mine := lift (isProposer e) in
  if negb mine then ret tt else
  catch buildProposal (fun r =>
    match r with
    | Ok p =>
        match pr_Block p with
        | None => panic
        | Some b => if slen (BlockHash b) <? 8 then ret tt else modify (send (MsgProposal p))
        end
    | _ => ret tt
    end).

(** ** Proposals *)

Definition handleProposal (now : Z) (prop : Proposal) : M TendermintBackend unit :=
  let! e := get_state in
  let c := cs e in
  if negb (pr_Height prop =? cs_Height c) || negb (pr_Round prop =? cs_Round c) then ret tt else
  if negb (String.eqb (cs_Step c) stepPropose) then ret tt else
  let! valid := lift (isValidProposer (ReplicaDids (thread e)) (pr_ProposerDid prop)
                        (pr_Height prop) (pr_Round prop)) in
  if negb valid then ret tt else
  match pr_Block prop with
  | None => ret tt
  | Some block =>
      catch (lift (verifyProposalSig prop block)) (fun r =>
        match r with
        | Ok _ =>
            do! modify (set_proposal (Some prop)) in
            let blockHash := BlockHash block in
            let locked := 0 <=? cs_LockedRound c in
            let lockedOnDifferent := locked && negb (String.eqb (cs_LockedHash c) blockHash) in
            let polcSupersedes := cs_LockedRound c <? pr_PolRound prop in
            do! (if lockedOnDifferent && negb polcSupersedes then sendVote PREVOTE ""
                 else
                   do! (if lockedOnDifferent && polcSupersedes
                        then modify (fun e => set_cs (with_lock (-1) "" (cs e)) e) else ret tt) in
                   sendVote PREVOTE blockHash) in
            do! modify (fun e => set_cs (with_step stepPrevote (cs e)) e) in
            do! save_cs in
            modify (set_prevoteAt (after_ms now defaultTimeoutMs))
        | _ => ret tt
        end)
  end.

(** ** Commits *)

Definition set_committed (t : Z) (b : ThreadBlock) : ThreadBlock :=
  mkBlock (ThreadId b) (Height b) (Round b) (ParentHash b) (Entries b) (ProposerDid b) (ProposerSig b)
    (BlockHash b) t.
Definition set_block (b : ThreadBlock) (p : Proposal) : Proposal :=
  mkProposal (pr_ThreadId p) (pr_Height p) (pr_Round p) (pr_PolRound p) (Some b) (pr_ProposerDid p)
    (pr_Signature p).

(** [block] is the stored proposal's block, which the code mutates in place.
    Logging [block.BlockHash[:8]] panics on a shorter hash. *)
Definition commitBlock (now : Z) (block : ThreadBlock) : M TendermintBackend unit :=
  let block := set_committed (now / 1000000) block in
  do! modify (fun e => set_proposal (set_block block <$> proposal e) e) in
  catch (on_blocks (SaveBlock block)) (fun r =>
    match r with
    | Ok _ =>
        if slen (BlockHash block) <? 8 then panic else
        do! modify (set_cs (mkCS (int64 (Height block + 1)) 0 stepPropose (-1) "" (-1) "")) in
        do! modify (set_proposal None) in
        do! modify (set_future ∅) in
        do! save_cs in
        do! modify (commit_cb block) in
        do! modify (fun e => set_proposeAt (after_ms now (epochMs e)) e) in
        enterPropose
    | _ => ret tt
    end).

(** ** Votes *)

Definition bufferFutureVote (vote : Vote) (e : TendermintBackend) : TendermintBackend :=
  let r := v_Round vote in
  let l := default [] (futureVotes e !! r) in
  if existsb (fun x => String.eqb (v_VoterDid x) (v_VoterDid vote) && bool_decide (v_Type x = v_Type vote)) l
  then e
  else set_future (<[r := (l ++ [vote])%list]> (futureVotes e)) e.

(** The distinct voters of the buffered prevotes of a round. *)
Definition prevoters (l : list Vote) : gset string :=
  list_to_set (v_VoterDid <$> filter (fun v => v_Type v = PREVOTE) l).

Definition checkFutureRoundSkip (now : Z) (futureRound : Z) : M TendermintBackend unit :=
  let! e := get_state in
  let buffered := default [] (futureVotes e !! futureRound) in
  if Z.of_nat (size (prevoters buffered)) <? quorum (thread e) then ret tt else
  do! modify (fun e => set_proposeAt None (set_prevoteAt None (set_precommitAt None e))) in
  do! for_each buffered (fun v => log_err (on_consensus (SaveVote v))) in
  do! modify (fun e => set_future (delete futureRound (futureVotes e)) e) in
  do! modify (fun e => set_cs (with_step stepPropose (with_round futureRound (cs e))) e) in
  do! save_cs in
  do! enterPropose in
  modify (fun e => set_proposeAt (after_ms now (epochMs e)) e).

(** The votes counted; a failed query counts none. *)
Definition tally (T : string) (height round : Z) (vtype : VoteType) : M TendermintBackend (string * Z) :=
  catch (on_consensus (GetVotes T height round vtype)) (fun r =>
    match r with Ok votes => ret (majority votes) | _ => ret (majority []) end).

(** The hash of the stored proposal's block: a nil block panics. *)
Definition proposal_hash (p : Proposal) : M TendermintBackend string :=
  match pr_Block p with Some b => ret (BlockHash b) | None => panic end.

(** The prevote arm: a polka moves the replica to precommit. *)
Definition on_prevote (now : Z) (vote : Vote) : M TendermintBackend unit :=
  let! e := get_state in
  if negb (String.eqb (cs_Step (cs e)) stepPrevote) then ret tt else
  let! bc := tally (t_Id (thread e)) (v_Height vote) (v_Round vote) PREVOTE in
  let '(blockHash, count) := bc in
  if count <? quorum (thread e) then ret tt else
  do! modify (set_prevoteAt None) in
  do! (if String.eqb blockHash "" then sendVote PRECOMMIT "" else
       let! seen := match proposal e with
                    | None => ret false
                    | Some p => let! h := proposal_hash p in ret (String.eqb h blockHash)
                    end in
       if seen then
         do! modify (fun e => set_cs (with_valid (v_Round vote) blockHash
                                       (with_lock (v_Round vote) blockHash (cs e))) e) in
         sendVote PRECOMMIT blockHash
       else sendVote PRECOMMIT "") in
  do! modify (fun e => set_cs (with_step stepPrecommit (cs e)) e) in
  do! save_cs in
  modify (set_precommitAt (after_ms now defaultTimeoutMs)).

(** The precommit arm: a quorum for the block at hand commits it. *)
Definition on_precommit (now : Z) (vote : Vote) : M TendermintBackend unit :=
  let! e := get_state in
  if negb (String.eqb (cs_Step (cs e)) stepPrecommit) then ret tt else
  let! bc := tally (t_Id (thread e)) (v_Height vote) (v_Round vote) PRECOMMIT in
  let '(blockHash, count) := bc in
  if (count <? quorum (thread e)) || String.eqb blockHash "" then ret tt else
  do! modify (set_precommitAt None) in
  match proposal e with
  | None => ret tt
  | Some p =>
      match pr_Block p with
      | None => panic
      | Some b => if negb (String.eqb (BlockHash b) blockHash) then ret tt else commitBlock now b
      end
  end.

Definition handleVote (now : Z) (vote : Vote) : M TendermintBackend unit :=
  let! e := get_state in
  let c := cs e in
  if negb (v_Height vote =? cs_Height c) then ret tt else
  if negb (isKnownValidator (thread e) (v_VoterDid vote)) then ret tt else
  catch (lift (verifyVoteSig vote)) (fun r =>
    match r with
    | Ok _ =>
        if cs_Round c <? v_Round vote then
          do! modify (bufferFutureVote vote) in
          checkFutureRoundSkip now (v_Round vote)
        else if v_Round vote <? cs_Round c then log_err (on_consensus (SaveVote vote))
        else catch (on_consensus (SaveVote vote)) (fun s =>
          match s with
          | Ok _ =>
              match v_Type vote with
              | PREVOTE => on_prevote now vote
              | PRECOMMIT => on_precommit now vote
              | _ => ret tt
              end
          | _ => ret tt
          end)
    | _ => ret tt
    end).

(** ** Steps *)

Definition Deliver (msg : ConsensusMsg) : M TendermintBackend unit :=
  modify (fun e => if llen (inboundCh e) <? inboundCap then set_inbound (inboundCh e ++ [msg]) e else e).

Definition StepInbound (now : Z) (msg : ConsensusMsg) : M TendermintBackend unit :=
  let! e := get_state in
  if negb (ready e) then ret tt else
  match msg with
  | MsgProposal p => handleProposal now p
  | MsgVote v => handleVote now v
  | MsgOther => ret tt
  end.

Fixpoint drain (n : nat) (now : Z) : M TendermintBackend unit :=
  match n with
  | O => ret tt
  | S n' =>
      let! e := get_state in
      match inboundCh e with
      | [] => ret tt
      | msg :: q => do! modify (set_inbound q) in do! StepInbound now msg in drain n' now
      end
  end.

Definition Pump (now : Z) : M TendermintBackend unit :=
  let! e := get_state in
  do! modify (set_running true true) in
  do! (if started e then ret tt else
       do! enterPropose in
       modify (fun e => set_proposeAt (after_ms now (epochMs e)) e)) in
  drain pumpMaxIterations now.

(** The three arms of [Tick]. *)
Definition tick_propose (now : Z) : M TendermintBackend unit :=
  let! e := get_state in
  if negb (elapsed now (proposeAt e)) then ret tt else
  do! modify (set_proposeAt None) in
  if negb (String.eqb (cs_Step (cs e)) stepPropose) then ret tt else
  do! sendVote PREVOTE "" in
  do! modify (fun e => set_cs (with_step stepPrevote (cs e)) e) in
  do! save_cs in
  modify (set_prevoteAt (after_ms now defaultTimeoutMs)).

Definition tick_prevote (now : Z) : M TendermintBackend unit :=
  let! e := get_state in
  if negb (elapsed now (prevoteAt e)) then ret tt else
  do! modify (set_prevoteAt None) in
  if negb (String.eqb (cs_Step (cs e)) stepPrevote) then ret tt else
  do! sendVote PRECOMMIT "" in
  do! modify (fun e => set_cs (with_step stepPrecommit (cs e)) e) in
  do! save_cs in
  modify (set_precommitAt (after_ms now defaultTimeoutMs)).

Definition tick_precommit (now : Z) : M TendermintBackend unit :=
  let! e := get_state in
  if negb (elapsed now (precommitAt e)) then ret tt else
  do! modify (set_precommitAt None) in
  if negb (String.eqb (cs_Step (cs e)) stepPrecommit) then ret tt else
  do! modify (fun e => set_cs (with_step stepPropose
                               (with_round (int32 (cs_Round (cs e) + 1)) (cs e))) e) in
  do! save_cs in
  do! enterPropose in
  modify (fun e => set_proposeAt (after_ms now (epochMs e)) e).

Definition Tick (now : Z) : M TendermintBackend unit :=
  let! e := get_state in
  if negb (ready e) then ret tt else
  do! tick_propose now in
  do! tick_prevote now in
  tick_precommit now.

Definition Stop : M TendermintBackend unit :=
  modify (fun e => set_proposeAt None (set_prevoteAt None (set_precommitAt None e))).

Definition newTendermintBackend (t : Thread) (did sk : string) (b : BlocksDB) (c : ConsensusDB)
    : list bool -> outcome TendermintBackend * list bool := fun fs =>
  let '(r, w) := LoadConsensusState (t_Id t) (World c fs) in
  (match r with
   | Ok st => Ok (mkTM b c t did sk st None [] None None None
                    (if EpochMs t =? 0 then defaultEpochMs else EpochMs t) false false ∅ [] [])
   | Err er => Err er
   | Panic => Panic
   end, faults w).

End Tendermint.
End Tendermint.
