(* ===== verification/TendermintFacts.v ===== *)
(** * Properties of the Tendermint backend

    Counting votes, what backs a committed block, that a replica never votes
    twice in a phase, agreement of quorums of a round, and the two ways in which
    a single validator gets around them. *)

From stdpp Require Import base gmap strings list pretty.
From Stdlib Require Import ZArith Lia.
From S2P Require Import Prelude GoStd Identity ThreadStore ConsensusStore Chain Instances Tendermint.

Local Open Scope string_scope.
Local Open Scope Z_scope.
Local Open Scope go_scope.
Import Identity ThreadStore ConsensusStore Chain Tendermint.

(** ** Counting *)

(** The votes for a hash. *)
Definition votes_for (h : string) (l : list Vote) : list Vote := filter (fun v => v_BlockHash v = h) l.

Lemma count_votes_spec l h :
  count_votes l !! h = (if decide (votes_for h l = []) then None else Some (llen (votes_for h l))).
Proof.
  unfold count_votes, votes_for, llen. induction l as [|v l IH] using rev_ind; [done|].
  rewrite foldl_app. simpl. rewrite filter_app. simpl.
  destruct (decide (v_BlockHash v = h)) as [<-|Hne].
  - rewrite lookup_insert_eq, IH, filter_cons_True, filter_nil by done.
    rewrite length_app. simpl.
    destruct (decide ((_ ++ _)%list = [])) as [E|_]; [by apply app_nil in E as [_ ?]|].
    destruct (decide (filter _ l = [])) as [->|]; simpl; f_equal; lia.
  - rewrite lookup_insert_ne by done. rewrite filter_cons_False, filter_nil, app_nil_r by done. exact IH.
Qed.

Section Majority.
Context (range : gmap string Z -> list (string * Z)).
Hypothesis Hrange : forall m, range m ≡ₚ map_to_list m.

Lemma range_counts l h n : (h, n) ∈ range (count_votes l) -> n = llen (votes_for h l) /\ 0 < n.
Proof.
  rewrite Hrange, elem_of_map_to_list, count_votes_spec. case_decide as E; [done|].
  intros [= <-]. split; [done|]. unfold llen. destruct (votes_for h l); [done|]. simpl. lia.
Qed.

(** The scan keeps an element of the list or the initial pair, of largest
    count. *)
Lemma scan_max (l : list (string * Z)) (b : string * Z) :
  let r := foldl (fun best p => if snd best <? snd p then p else best) b l in
  (r = b \/ r ∈ l) /\ snd b <= snd r /\ forall p, p ∈ l -> snd p <= snd r.
Proof.
  revert b. induction l as [|p l IH]; intros b; simpl.
  - split; [by left|]. split; [lia|]. intros q Hq. by apply not_elem_of_nil in Hq.
  - specialize (IH (if snd b <? snd p then p else b)). simpl in IH.
    destruct IH as (Hr & Hb & Hl). destruct (Z.ltb_spec (snd b) (snd p)) as [Hlt|Hge].
    + split; [destruct Hr as [->|Hr]; right; [left|by right]|]. split; [lia|].
      intros q [->|Hq]%elem_of_cons; [done|auto].
    + split; [destruct Hr as [->|Hr]; [by left|right; by right]|]. split; [lia|].
      intros q [->|Hq]%elem_of_cons; [lia|auto].
Qed.

Lemma majority_count l h n : majority range l = (h, n) -> n <= llen (votes_for h l).
Proof.
  unfold majority. intros E. destruct (scan_max (range (count_votes l)) ("", 0)) as ([Hr|Hr] & _).
  - rewrite E in Hr. injection Hr as -> ->. unfold llen. lia.
  - rewrite E in Hr. apply range_counts in Hr as [-> _]. lia.
Qed.

Lemma majority_max l h n h' : majority range l = (h, n) -> llen (votes_for h' l) <= n.
Proof.
  unfold majority. intros E.
  destruct (scan_max (range (count_votes l)) ("", 0)) as (_ & H0 & Hl). rewrite E in *. simpl in *.
  pose proof (count_votes_spec l h') as Hc. case_decide as Hd; [rewrite Hd; unfold llen; simpl; lia|].
  apply elem_of_map_to_list in Hc. rewrite <- Hrange in Hc. exact (Hl _ Hc).
Qed.
End Majority.

(** ** Steps *)

(** The votes a replica handed to the broadcast. *)
Definition sent_votes (e : TendermintBackend) : list Vote :=
  omap (fun m => match m with MsgVote v => Some v | _ => None end) (sent e).

(** What the invariants below depend on. *)
Definition view (e : TendermintBackend) :=
  (votes (cdb e), (thread e, id e, key e), cs e, proposal e, inboundCh e, futureVotes e,
   sent_votes e, commits e).

(** [framed m]: [m] changes nothing of the view, whatever fails. *)
Definition framed {A} (m : M TendermintBackend A) : Prop :=
  forall w, view (db (snd (m w))) = view (db w).

Lemma framed_preserves {A} (I : TendermintBackend -> Prop) (m : M TendermintBackend A) :
  framed m -> (forall e e', view e' = view e -> I e -> I e') -> preserves I m.
Proof. intros Hm HI w Hw. eapply HI; [apply Hm|done]. Qed.

Lemma framed_bind {A B} (m : M TendermintBackend A) (k : A -> M TendermintBackend B) :
  framed m -> (forall a, framed (k a)) -> framed (bind m k).
Proof.
  intros Hm Hk w. specialize (Hm w). unfold bind. destruct (m w) as [[a|er|] w1]; simpl in *; [|done|done].
  rewrite Hk. exact Hm.
Qed.

Lemma framed_catch {A B} (m : M TendermintBackend A) (k : outcome A -> M TendermintBackend B) :
  framed m -> (forall a, framed (k a)) -> framed (catch m k).
Proof.
  intros Hm Hk w. specialize (Hm w). unfold catch.
  destruct (m w) as [[a|er|] w1]; simpl in *; [rewrite Hk; exact Hm..|done].
Qed.

Lemma framed_ret {A} (a : A) : framed (ret a).
Proof. by intros w. Qed.
Lemma framed_panic {A} : framed (@panic _ A).
Proof. by intros w. Qed.
Lemma framed_get : framed get_state.
Proof. by intros w. Qed.
Lemma framed_lift {A} (r : outcome A) : framed (lift r).
Proof. by intros w. Qed.
Lemma framed_modify f : (forall e, view (f e) = view e) -> framed (modify f).
Proof. intros Hf w. apply Hf. Qed.
Lemma framed_blocks {A} (m : M BlocksDB A) : framed (on_blocks m).
Proof. intros w. unfold on_blocks, zoom. by destruct (m _). Qed.

Lemma save_cs_framed : framed save_cs.
Proof.
  intros w. unfold save_cs, get_state. unfold bind, log_err, catch, on_consensus, zoom,
    SaveConsensusState, exec, stmt. simpl. by destruct (faults w) as [|[] ?].
Qed.

Lemma bind_modify {S A} (f : S -> S) (k : unit -> M S A) w :
  bind (modify f) k w = k tt (World (f (db w)) (faults w)).
Proof. done. Qed.

Lemma bind_get {A} (k : TendermintBackend -> M TendermintBackend A) w :
  bind get_state k w = k (db w) w.
Proof. done. Qed.

(** Decomposes a [framed] goal along the program. *)
Ltac go_framed :=
  repeat first
    [ progress intros
    | apply framed_ret | apply framed_panic | apply framed_get | apply framed_lift
    | apply framed_blocks | apply save_cs_framed
    | apply framed_bind | apply framed_catch
    | apply framed_modify; intros; done
    | match goal with
      | |- framed (if ?x then _ else _) => destruct x
      | |- framed (match ?x with _ => _ end) => destruct x
      | |- framed (log_err _) => unfold log_err
      | |- framed (let _ := _ in _) => cbv zeta
      end ].

Section Steps.
Context `{Crypto} `{Codec} (range : gmap string Z -> list (string * Z)).

Lemma sent_proposal p e : view (send (MsgProposal p) e) = view e.
Proof. unfold view, sent_votes. simpl. rewrite omap_app. simpl. by rewrite app_nil_r. Qed.

Lemma enterPropose_framed : framed enterPropose.
Proof.
  unfold enterPropose, buildProposal. go_framed. apply framed_modify. intros. apply sent_proposal.
Qed.

(** The row a vote leaves: the first vote of a voter stands. *)
Definition save_vote (v : Vote) (m : gmap (string * Z * Z * Z * string) Vote)
    : gmap (string * Z * Z * Z * string) Vote :=
  match m !! vote_key v with Some _ => m | None => <[vote_key v := v]> m end.

(** The vote [sendVote] makes in a state. *)
Definition own_vote (e : TendermintBackend) (ty : VoteType) (h : string) : Vote :=
  mkVote (t_Id (thread e)) (cs_Height (cs e)) (cs_Round (cs e)) ty h (id e)
    (hex_encode (ed25519_sign (key e)
       (voteSigData (t_Id (thread e)) (cs_Height (cs e)) (cs_Round (cs e)) ty h))).

Lemma SaveVote_spec v (w : world TendermintBackend) :
  exists c res, on_consensus (SaveVote v) w = (res, World (set_cdb c (db w)) (tail (faults w))) /\
    (c = cdb (db w) \/ votes c = save_vote v (votes (cdb (db w)))).
Proof.
  unfold on_consensus, zoom, SaveVote, exec, stmt. simpl.
  destruct (faults w) as [|[] fs]; simpl; eexists _, _; (split; [done|]); auto.
Qed.

Lemma sendVote_spec ty h w :
  exists c, sendVote ty h w
      = (Ok tt, World (send (MsgVote (own_vote (db w) ty h)) (set_cdb c (db w))) (tail (faults w))) /\
    (c = cdb (db w) \/ votes c = save_vote (own_vote (db w) ty h) (votes (cdb (db w)))).
Proof.
  unfold sendVote, get_state. unfold bind at 1. unfold bind, log_err, catch.
  destruct (SaveVote_spec (own_vote (db w) ty h) w) as (c & res & E & Hc). unfold own_vote in E at 1.
  rewrite E. exists c. split; [|done].
  assert (Hres : res <> Panic).
  { intros ->. unfold on_consensus, zoom, SaveVote, exec, stmt in E.
    destruct (faults w) as [|[] fs]; discriminate E. }
  by destruct res.
Qed.

Lemma tally_spec T h r vt (w : world TendermintBackend) :
  exists bc w', tally range T h r vt w = (Ok bc, w') /\ db w' = db w /\
    exists l, bc = majority range l /\ (l = select_votes T h r vt (cdb (db w)) \/ l = []).
Proof.
  unfold tally, catch, on_consensus, zoom, GetVotes, query, stmt. simpl.
  destruct (faults w) as [|[] fs]; simpl; eexists _, _; (split; [done|]);
    (split; [simpl; by destruct (db w)|]); eauto.
Qed.
End Steps.

(** The thread a row of the vote table is filed under. *)
Definition key_thread (k : string * Z * Z * Z * string) : string := fst (fst (fst (fst k))).

(** What the other users of the daemon's store may do to its consensus tables, as
    far as thread [T] is concerned: anything but file or change votes under it. *)
Definition leaves_votes (T : string) (c c' : ConsensusDB) : Prop :=
  forall k, key_thread k = T -> votes c' !! k = votes c !! k.

(** ** What backs a committed block *)

Section Sound.
Context `{CryptoLaws} `{Codec} (range : gmap string Z -> list (string * Z)).
Hypothesis Hrange : forall m, range m ≡ₚ map_to_list m.
Context (t : Thread) (did sk : string).

Definition valid_vote (v : Vote) : Prop := v_VoterDid v ∈ ReplicaDids t /\ verifyVoteSig v = Ok tt.

(** The rows filed under the thread are under their vote's key and signed by
    validators of the thread. *)
Definition votes_ok (m : gmap (string * Z * Z * Z * string) Vote) : Prop :=
  forall k v, m !! k = Some v -> key_thread k = t_Id t -> k = vote_key v /\ valid_vote v.

(** A quorum of distinct validators of the thread whose signed votes of type
    [vt] at (h, r) name [hash]. *)
Definition quorum_for (m : gmap (string * Z * Z * Z * string) Vote) (h r : Z) (vt : VoteType)
    (hash : string) : Prop :=
  exists S : gset string, quorum t <= Z.of_nat (size S) /\
    forall d, d ∈ S -> d ∈ ReplicaDids t /\
      exists v, m !! (t_Id t, h, r, vote_num vt, d) = Some v /\ v_BlockHash v = hash /\
        verifyVoteSig v = Ok tt.

(** A signed proposal of the designated proposer of its height and round. *)
Definition valid_proposal (h : Z) (p : Proposal) : Prop :=
  exists b, pr_Block p = Some b /\ pr_Height p = h /\ verifyProposalSig p b = Ok tt /\
    isValidProposer (ReplicaDids t) (pr_ProposerDid p) (pr_Height p) (pr_Round p) = Ok true.

(** The block of a valid proposal, its commit time aside, that a quorum
    precommitted. *)
Definition certified (m : gmap (string * Z * Z * Z * string) Vote) (b : ThreadBlock) : Prop :=
  exists h r p, quorum_for m h r PRECOMMIT (BlockHash b) /\ valid_proposal h p /\
    set_committed 0 <$> pr_Block p = Some (set_committed 0 b).

(** A lock is backed by a quorum of prevotes of its round. *)
Definition lock_ok (m : gmap (string * Z * Z * Z * string) Vote) (c : ConsensusState) : Prop :=
  0 <= cs_LockedRound c -> quorum_for m (cs_Height c) (cs_LockedRound c) PREVOTE (cs_LockedHash c).

Definition sound (e : TendermintBackend) : Prop :=
  thread e = t /\ id e = did /\ key e = sk /\
  votes_ok (votes (cdb e)) /\
  (forall r l v, futureVotes e !! r = Some l -> v ∈ l -> valid_vote v) /\
  (forall p, proposal e = Some p -> valid_proposal (cs_Height (cs e)) p) /\
  lock_ok (votes (cdb e)) (cs e) /\
  Forall (certified (votes (cdb e))) (commits e).

(** The replica signs with the key of a validator. *)
Hypothesis Hkey : slen (ed25519_public sk) = 32.
Hypothesis Hdid : did = DIDFromPubBytes (ed25519_public sk).
Hypothesis Hmember : did ∈ ReplicaDids t.

Lemma sound_view e e' : view e' = view e -> sound e -> sound e'.
Proof.
  unfold view, sound. intros [= Ev Et Ei Ek Ec Ep Eq Ef Es Eb].
  rewrite Ev, Et, Ei, Ek, Ec, Ep, Ef, Eb. done.
Qed.

Lemma own_vote_valid e ty h : sound e -> valid_vote (own_vote e ty h).
Proof.
  intros (Et & Ei & Ek & _). unfold valid_vote, own_vote, verifyVoteSig, verify_hex. simpl.
  rewrite Ei, Ek, hex_roundtrip. split; [done|]. subst did. rewrite did_roundtrip by done.
  unfold ed25519_Verify. rewrite Hkey. simpl. by rewrite ed25519_correct.
Qed.

Lemma save_vote_ok v m : (v_ThreadId v = t_Id t -> valid_vote v) -> votes_ok m -> votes_ok (save_vote v m).
Proof.
  intros Hv Hm. unfold save_vote. destruct (m !! vote_key v) eqn:E; [done|].
  intros k x. destruct (decide (k = vote_key v)) as [->|Hne].
  - rewrite lookup_insert_eq. intros [= <-] Hk. split; [done|]. by apply Hv.
  - rewrite lookup_insert_ne by done. apply Hm.
Qed.

Lemma save_vote_sub v m : m ⊆ save_vote v m.
Proof. unfold save_vote. destruct (m !! vote_key v) eqn:E; [done|]. by apply insert_subseteq. Qed.

(** Only the rows of the thread count for its quorums. *)
Lemma quorum_mono m m' h r vt hash :
  (forall k v, key_thread k = t_Id t -> m !! k = Some v -> m' !! k = Some v) ->
  quorum_for m h r vt hash -> quorum_for m' h r vt hash.
Proof.
  intros Hsub (S & Hq & HS). exists S. split; [done|]. intros d Hd. destruct (HS d Hd) as (Hr & v & Hv & Hx).
  split; [done|]. exists v. split; [|done]. by apply Hsub.
Qed.

Lemma certified_mono m m' b :
  (forall k v, key_thread k = t_Id t -> m !! k = Some v -> m' !! k = Some v) -> certified m b -> certified m' b.
Proof. intros Hs (h & r & p & Hq & Hp). exists h, r, p. split; [by eapply quorum_mono|done]. Qed.

(** What other threads do to the store does not concern the replica. *)
Lemma sound_foreign b c e : leaves_votes (t_Id t) (cdb e) c -> sound e -> sound (set_bdb b (set_cdb c e)).
Proof.
  intros Hl (Et & Ei & Ek & Hok & Hf & Hp & Hlock & Hcert).
  assert (Hs : forall k v, key_thread k = t_Id t -> votes (cdb e) !! k = Some v -> votes c !! k = Some v)
    by (intros k v Hk <-; by apply Hl).
  repeat (split; [done|]). split; [intros k v Hv Hk; apply Hok; [by rewrite <- Hl|done]|].
  do 2 (split; [done|]). simpl. split; [intros Hr; eapply quorum_mono; [exact Hs|by apply Hlock]|].
  eapply Forall_impl; [done|]. intros x. by apply certified_mono.
Qed.

(** A store whose votes grow by a vote keeps the invariant. *)
Lemma sound_votes c v e :
  (v_ThreadId v = t_Id t -> valid_vote v) ->
  c = cdb e \/ votes c = save_vote v (votes (cdb e)) -> sound e -> sound (set_cdb c e).
Proof.
  intros Hv Hc (Et & Ei & Ek & Hok & Hf & Hp & Hlock & Hcert).
  assert (Hvc : votes_ok (votes c) /\
    forall k x, key_thread k = t_Id t -> votes (cdb e) !! k = Some x -> votes c !! k = Some x).
  { destruct Hc as [->| ->]; [done|]. split; [by apply save_vote_ok|].
    intros k x _ Hx. exact (lookup_weaken _ _ _ _ Hx (save_vote_sub v _)). }
  destruct Hvc as [Hvc Hsub]. repeat (split; [done|]). simpl.
  split; [intros Hl; eapply quorum_mono; [exact Hsub|by apply Hlock]|].
  eapply Forall_impl; [done|]. intros b. by apply certified_mono.
Qed.

Lemma sound_send m e : sound e -> sound (send m e).
Proof. done. Qed.

Lemma SaveVote_sound v : (v_ThreadId v = t_Id t -> valid_vote v) -> preserves sound (on_consensus (SaveVote v)).
Proof.
  intros Hv w Hw. destruct (SaveVote_spec v w) as (c & res & -> & Hc). by apply (sound_votes c v).
Qed.

Lemma sendVote_sound ty h : preserves sound (sendVote ty h).
Proof.
  intros w Hw. destruct (sendVote_spec ty h w) as (c & -> & Hc). apply sound_send.
  eapply sound_votes; [|exact Hc|done]. intros _. by apply own_vote_valid.
Qed.

Lemma framed_sound {A} (m : M TendermintBackend A) : framed m -> preserves sound m.
Proof. intros Hm. apply framed_preserves; [done|]. apply sound_view. Qed.

(** A change of the consensus state that keeps the height. *)
Lemma set_cs_sound (f : TendermintBackend -> ConsensusState) :
  (forall e, cs_Height (f e) = cs_Height (cs e)) ->
  (forall e, cs_LockedRound (f e) < 0 \/
     cs_LockedRound (f e) = cs_LockedRound (cs e) /\ cs_LockedHash (f e) = cs_LockedHash (cs e)) ->
  preserves sound (modify (fun e => set_cs (f e) e)).
Proof.
  intros Hf Hl. apply preserves_modify. intros e (Et & Ei & Ek & Hok & Hfu & Hp & Hlock & Hc).
  repeat (split; [done|]). simpl. rewrite Hf. split; [done|]. split; [|done].
  unfold lock_ok. rewrite Hf. destruct (Hl e) as [Hneg|[-> ->]]; [lia|done].
Qed.

(** *** Quorums in the store *)

Lemma select_votes_voters c h r vt :
  votes_ok (votes c) -> NoDup (v_VoterDid <$> select_votes (t_Id t) h r vt c).
Proof.
  intros Hok. unfold select_votes. rewrite <- list_fmap_compose.
  assert (Hl : forall k v, (k, v) ∈ map_to_list (votes c) -> key_thread k = t_Id t -> k = vote_key v).
  { intros k v Hin%elem_of_map_to_list Hk. by apply (Hok k v). }
  pose proof (NoDup_fst_map_to_list (votes c)) as Hnd. revert Hl Hnd.
  induction (map_to_list (votes c)) as [|[k v] l IH]; intros Hl Hnd; [constructor|].
  apply NoDup_cons in Hnd as [Hk Hnd].
  rewrite filter_cons. case_decide as Hd; [|apply IH; [|done]; intros; apply Hl; [by right|done]].
  simpl. apply NoDup_cons. split; [|apply IH; [|done]; intros; apply Hl; [by right|done]].
  intros ([k' v'] & E & [Hd' Hin]%list_elem_of_filter)%list_elem_of_fmap. simpl in *.
  apply Hk. apply list_elem_of_fmap. exists (k', v'). split; [|done]. simpl.
  assert (Ek : k = vote_key v) by (apply Hl; [left|unfold key_thread; by rewrite Hd]).
  assert (Ek' : k' = vote_key v') by (apply Hl; [by right|unfold key_thread; by rewrite Hd']).
  subst k k'. unfold vote_key in *. simpl in *. rewrite Hd', E in *. congruence.
Qed.

Lemma select_votes_elem c h r vt v :
  votes_ok (votes c) -> v ∈ select_votes (t_Id t) h r vt c ->
  votes c !! (t_Id t, h, r, vote_num vt, v_VoterDid v) = Some v /\ valid_vote v.
Proof.
  intros Hok ([k x] & -> & [Hd Hin]%list_elem_of_filter)%list_elem_of_fmap. simpl in *.
  apply elem_of_map_to_list in Hin.
  destruct (Hok _ _ Hin ltac:(unfold key_thread; by rewrite Hd)) as [-> Hv]. split; [|done].
  unfold vote_key in *. simpl in *. by injection Hd as <- <- <- <-.
Qed.

Lemma tally_quorum c h r vt l hash n :
  votes_ok (votes c) -> majority range l = (hash, n) ->
  (l = select_votes (t_Id t) h r vt c \/ l = []) -> quorum t <= n ->
  quorum_for (votes c) h r vt hash.
Proof.
  intros Hok Hm Hl Hq. apply majority_count in Hm; [|done].
  exists (list_to_set (v_VoterDid <$> votes_for hash l)).
  assert (Hnd : NoDup (v_VoterDid <$> votes_for hash l)).
  { destruct Hl as [->| ->]; [|constructor].
    eapply sublist_NoDup; [by apply (select_votes_voters c h r vt)|].
    apply fmap_sublist, sublist_filter. }
  split.
  - rewrite size_list_to_set by done. rewrite length_fmap. unfold llen in Hm. lia.
  - intros d (v & -> & [Hh Hin]%list_elem_of_filter)%elem_of_list_to_set%list_elem_of_fmap.
    destruct Hl as [->| ->]; [|by apply not_elem_of_nil in Hin].
    destruct (select_votes_elem _ _ _ _ _ Hok Hin) as (Hk & Hr & Hs). eauto 8.
Qed.

(** *** Every step keeps the invariant *)

Lemma preserves_get {A} (I : TendermintBackend -> Prop) (k : TendermintBackend -> M TendermintBackend A) :
  (forall e, I e -> leads (fun s => s = e /\ I s) (k e) I) -> preserves I (bind get_state k).
Proof. intros Hk w Hw. by apply (Hk (db w) Hw w). Qed.

Lemma preserves_get_any {A} (I : TendermintBackend -> Prop) (k : TendermintBackend -> M TendermintBackend A) :
  (forall e, I e -> preserves I (k e)) -> preserves I (bind get_state k).
Proof. intros Hk w Hw. by apply (Hk (db w) Hw w). Qed.

(** Decomposes a [preserves sound] goal along the program. *)
Ltac go_sound :=
  repeat first
    [ progress intros
    | match goal with
      | |- preserves _ (sendVote _ _) => apply sendVote_sound
      | |- preserves _ enterPropose => apply framed_sound, enterPropose_framed
      | |- preserves _ save_cs => apply framed_sound, save_cs_framed
      | |- preserves _ (ret _) => apply preserves_ret
      | |- preserves _ panic => apply preserves_panic
      | |- preserves _ (modify _) => first [apply set_cs_sound; intros; simpl; first [done|lia|by right|by left]
                                           |apply framed_sound, framed_modify; intros; done]
      | |- preserves _ (lift _) => apply framed_sound, framed_lift
      | |- preserves _ (bind get_state _) => apply preserves_get_any
      | |- preserves _ (bind _ _) => apply preserves_bind
      | |- preserves _ (log_err _) => apply preserves_log_err
      | |- preserves _ (catch _ _) => apply preserves_catch
      | |- preserves _ (if ?x then _ else _) => destruct x
      | |- preserves _ (match ?x with _ => _ end) => destruct x
      | |- preserves _ (let _ := _ in _) => cbv zeta
      end ].

Lemma handleProposal_sound now prop : preserves sound (handleProposal now prop).
Proof.
  unfold handleProposal. intros w Hw. unfold bind at 1, get_state. cbv zeta.
  destruct (_ || _) eqn:Hhr; [done|]. apply orb_false_iff in Hhr as [Hh%negb_false_iff%Z.eqb_eq _].
  destruct (negb (String.eqb _ _)); [done|]. unfold bind at 1, lift.
  assert (Et : thread (db w) = t) by apply Hw. rewrite Et.
  destruct (isValidProposer _ _ _ _) as [[]|er|] eqn:Hvp; [|done..]. cbn [negb].
  destruct (pr_Block prop) as [block|] eqn:Hb; [|done].
  unfold catch. destruct (verifyProposalSig prop block) as [[]|er|] eqn:Hs; [|done..].
  assert (Hw' : sound (set_proposal (Some prop) (db w))).
  { destruct Hw as (? & ? & ? & ? & ? & ? & ? & ?). repeat (split; [done|]). split; [|done].
    simpl. intros p [= <-]. exists block. by rewrite Hh in *. }
  rewrite bind_modify.
  match goal with |- sound (db (snd (?m ?x))) => assert (Hm : preserves sound m); [|exact (Hm x Hw')] end.
  go_sound.
Qed.

Lemma valid_proposal_block h p b b' :
  pr_Block p = Some b -> BlockHash b' = BlockHash b -> valid_proposal h p -> valid_proposal h (set_block b' p).
Proof.
  intros Hb Hh (x & Hx & Hp & Hs & Hv). rewrite Hb in Hx. injection Hx as <-. exists b'.
  split; [done|]. split; [done|]. split; [|done]. unfold verifyProposalSig in *. simpl. by rewrite Hh.
Qed.

Lemma commitBlock_sound now b r p :
  leads (fun e => sound e /\ proposal e = Some p /\ pr_Block p = Some b /\
           quorum_for (votes (cdb e)) (cs_Height (cs e)) r PRECOMMIT (BlockHash b))
    (commitBlock now b) sound.
Proof.
  intros w (Hw & Hp & Hb & Hq). unfold commitBlock. set (b' := set_committed _ b).
  assert (Hcert : certified (votes (cdb (db w))) b').
  { exists (cs_Height (cs (db w))), r, p. split; [done|]. split; [by apply Hw|]. by rewrite Hb. }
  rewrite bind_modify. cbn [db faults]. rewrite Hp. simpl fmap.
  assert (Hw1 : sound (set_proposal (Some (set_block b' p)) (db w))).
  { destruct Hw as (? & ? & ? & ? & ? & Hpr & ? & ?). repeat (split; [done|]). split; [|done].
    simpl. intros x [= <-]. by apply (valid_proposal_block _ p b), Hpr. }
  unfold catch, on_blocks, zoom, SaveBlock, exec, stmt. simpl faults.
  assert (Hrest : forall e, sound e -> certified (votes (cdb e)) b' ->
    sound (set_future ∅ (set_proposal None (set_cs (mkCS (int64 (Height b' + 1)) 0 stepPropose (-1) "" (-1) "") e)))
    /\ certified (votes (cdb e)) b').
  { intros e (? & ? & ? & ? & ? & ? & ? & ?) Hc. split; [|done]. unfold sound, lock_ok. simpl.
    by split_and!. }
  assert (Hfin : preserves (fun e => sound e /\ certified (votes (cdb e)) b')
    (do! save_cs in do! modify (commit_cb b') in
     do! modify (fun e => set_proposeAt (after_ms now (epochMs e)) e) in enterPropose)).
  { assert (Hfr : forall A (m : M TendermintBackend A), framed m ->
      preserves (fun e => sound e /\ certified (votes (cdb e)) b') m).
    { intros A m Hm. apply framed_preserves; [done|]. intros e e' Ev [Hs Hc].
      split; [by eapply sound_view|]. unfold view in Ev. injection Ev as -> _. done. }
    apply preserves_bind; [apply Hfr, save_cs_framed|]. intros _.
    apply preserves_bind; [|intros _; apply Hfr, framed_bind;
      [by apply framed_modify|intros; apply enterPropose_framed]].
    apply preserves_modify. intros e [(? & ? & ? & ? & ? & ? & ? & ?) Hc]. split; [|done].
    repeat (split; [done|]). apply Forall_app. split; [done|]. by constructor. }
  destruct (faults w) as [|[] fs]; simpl; [|exact Hw1|];
    (destruct (slen (BlockHash b) <? 8); [exact Hw1|]);
    rewrite !bind_modify; cbn [db faults];
    match goal with |- sound (db (snd (_ ?x))) => refine (proj1 (Hfin x _)) end;
    exact (Hrest (set_bdb (replace_block b' (bdb (db w))) (set_proposal (Some (set_block b' p)) (db w)))
             Hw1 Hcert).
Qed.

Lemma buffer_sound v : valid_vote v -> preserves sound (modify (bufferFutureVote v)).
Proof.
  intros Hv. apply preserves_modify. intros e (? & ? & ? & ? & Hf & ? & ? & ?). unfold bufferFutureVote.
  destruct (existsb _ _); [done|]. unfold sound. simpl. split_and!; try done.
  intros r l x Hl Hx. destruct (decide (r = v_Round v)) as [->|Hne].
  - rewrite lookup_insert_eq in Hl. injection Hl as <-. apply elem_of_app in Hx as [Hx|Hx].
    + destruct (futureVotes e !! v_Round v) eqn:E; [by eapply Hf|]. by apply not_elem_of_nil in Hx.
    + apply list_elem_of_singleton in Hx. by subst.
  - rewrite lookup_insert_ne in Hl by done. by eapply Hf.
Qed.

Lemma delete_future_sound r : preserves sound (modify (fun e => set_future (delete r (futureVotes e)) e)).
Proof.
  apply preserves_modify. intros e (? & ? & ? & ? & Hf & ? & ? & ?). unfold sound. simpl. split_and!; try done.
  intros k l v [_ Hl]%lookup_delete_Some. by eapply Hf.
Qed.

Lemma checkFutureRoundSkip_sound now r : preserves sound (checkFutureRoundSkip now r).
Proof.
  unfold checkFutureRoundSkip. apply preserves_get_any. intros e He. cbv zeta.
  destruct (_ <? _); [apply preserves_ret|].
  assert (Hv : forall v, v ∈ default [] (futureVotes e !! r) -> valid_vote v).
  { destruct He as (_ & _ & _ & _ & Hf & _). destruct (futureVotes e !! r) eqn:E; [intros v Hv; by eapply Hf|].
    intros v Hv. by apply not_elem_of_nil in Hv. }
  apply preserves_bind; [go_sound|]. intros _.
  apply preserves_bind.
  { apply preserves_for_each_in. intros v Hin. apply preserves_log_err, SaveVote_sound. intros _. by apply Hv. }
  intros _. apply preserves_bind; [apply delete_future_sound|]. go_sound.
Qed.

Lemma tally_sound T h r vt : preserves sound (tally range T h r vt).
Proof. intros w Hw. destruct (tally_spec range T h r vt w) as (bc & w' & -> & E & _).
  cbn [snd]. by rewrite E.
Qed.

Lemma on_prevote_sound now v :
  leads (fun e => sound e /\ cs_Height (cs e) = v_Height v) (on_prevote range now v) sound.
Proof.
  unfold on_prevote. intros w [Hw Hh]. rewrite bind_get. destruct (negb _); [done|].
  assert (Et : thread (db w) = t) by apply Hw. rewrite Et.
  destruct (tally_spec range (t_Id t) (v_Height v) (v_Round v) PREVOTE w)
    as ([hash n] & w' & Etl & Edb & l & Hbc & Hl).
  unfold bind at 1. rewrite Etl. destruct (Z.ltb_spec n (quorum t)) as [|Hq]; [cbn; by rewrite Edb|].
  assert (Hok : votes_ok (votes (cdb (db w)))) by apply Hw.
  pose proof (tally_quorum _ _ _ _ _ _ _ Hok (eq_sym Hbc) Hl Hq) as Hquorum.
  rewrite bind_modify, Edb.
  assert (Hrest : forall m : M TendermintBackend unit,
    leads (fun e => sound e /\ cs_Height (cs e) = v_Height v /\ votes (cdb e) = votes (cdb (db w))) m sound ->
    sound (db (snd (bind m (fun _ => do! modify (fun e => set_cs (with_step stepPrecommit (cs e)) e) in
      do! save_cs in modify (set_precommitAt (after_ms now defaultTimeoutMs)))
      (World (set_prevoteAt None (db w)) (faults w')))))).
  { intros m Hm.
    match goal with |- sound (db (snd (bind m ?k ?x))) =>
      apply (leads_bind (fun e => sound e /\ cs_Height (cs e) = v_Height v /\
        votes (cdb e) = votes (cdb (db w))) sound m k) end; [exact Hm|go_sound|done]. }
  apply Hrest. destruct (String.eqb hash ""); [apply leads_preserves; [by intros ? []|go_sound]|].
  intros x (Hx & Hxh & Hxv). unfold bind at 1.
  match goal with |- context [match ?m x with _ => _ end] => destruct (m x) as [[[]|er|] x'] eqn:E end;
    assert (Ex : db x' = db x) by (destruct (proposal (db w)) as [p|]; [|by inversion E];
      unfold proposal_hash, bind in E; destruct (pr_Block p); by inversion E);
    cbn [fst snd]; [|rewrite <- Ex in Hx; by apply sendVote_sound|by rewrite Ex..].
  rewrite bind_modify. apply sendVote_sound. simpl. rewrite Ex.
  destruct Hx as (? & ? & ? & ? & ? & ? & ? & ?). unfold sound, lock_ok. simpl. split_and!; try done.
  intros _. by rewrite Hxh, Hxv.
Qed.

Lemma on_precommit_sound now v :
  leads (fun e => sound e /\ cs_Height (cs e) = v_Height v) (on_precommit range now v) sound.
Proof.
  unfold on_precommit. intros w [Hw Hh]. rewrite bind_get. destruct (negb _); [done|].
  assert (Et : thread (db w) = t) by apply Hw. rewrite Et.
  destruct (tally_spec range (t_Id t) (v_Height v) (v_Round v) PRECOMMIT w)
    as ([hash n] & w' & Etl & Edb & l & Hbc & Hl).
  unfold bind at 1. rewrite Etl. destruct (_ || _) eqn:Hq; [cbn; by rewrite Edb|].
  apply orb_false_iff in Hq as [Hq%Z.ltb_ge _].
  assert (Hok : votes_ok (votes (cdb (db w)))) by apply Hw.
  pose proof (tally_quorum _ _ _ _ _ _ _ Hok (eq_sym Hbc) Hl Hq) as Hquorum.
  rewrite bind_modify, Edb. destruct (proposal (db w)) as [p|] eqn:Hp; [|done].
  destruct (pr_Block p) as [b|] eqn:Hb; [|done].
  destruct (String.eqb_spec (BlockHash b) hash) as [<-|]; [|done].
  apply (commitBlock_sound now b (v_Round v) p). simpl. by rewrite Hh.
Qed.

Lemma handleVote_sound now v : preserves sound (handleVote range now v).
Proof.
  unfold handleVote. intros w Hw. rewrite bind_get. cbv zeta.
  destruct (Z.eqb_spec (v_Height v) (cs_Height (cs (db w)))) as [Hh|]; [|done]. cbn [negb].
  destruct (isKnownValidator _ _) eqn:Hk; [|done]. cbn [negb].
  unfold catch at 1, lift. destruct (verifyVoteSig v) as [[]|er|] eqn:Hs; [|done..].
  assert (Hv : valid_vote v).
  { split; [|done]. unfold isKnownValidator in Hk. replace (thread (db w)) with t in Hk by (symmetry; apply Hw).
    apply existsb_exists in Hk as (d & Hin & ->%String.eqb_eq). by apply list_elem_of_In. }
  destruct (_ <? _).
  { apply preserves_bind with (w := w); [by apply buffer_sound| |done].
    intros _. apply checkFutureRoundSkip_sound. }
  pose proof (SaveVote_sound v (fun _ => Hv)) as Hsave.
  destruct (_ <? _); [by apply (preserves_log_err sound)|].
  unfold catch. destruct (SaveVote_spec v w) as (c & res & Esv & Hc). specialize (Hsave w Hw).
  rewrite Esv in *. cbn [fst snd db] in *. destruct res as [u|er|]; [|done..].
  destruct (v_Type v); [done|by apply on_prevote_sound|by apply on_precommit_sound|done].
Qed.

Lemma StepInbound_sound now m : preserves sound (StepInbound range now m).
Proof.
  unfold StepInbound. apply preserves_get_any. intros e He. destruct (negb _); [apply preserves_ret|].
  destruct m; [apply handleProposal_sound|apply handleVote_sound|apply preserves_ret].
Qed.

Lemma set_inbound_sound q e : sound e -> sound (set_inbound q e).
Proof. done. Qed.

Lemma drain_sound n now : preserves sound (drain range n now).
Proof.
  induction n as [|n IH]; simpl; [apply preserves_ret|]. apply preserves_get_any. intros e He.
  destruct (inboundCh e); [apply preserves_ret|].
  apply preserves_bind; [by apply preserves_modify|]. intros _.
  apply preserves_bind; [apply StepInbound_sound|]. done.
Qed.

Lemma Pump_sound now : preserves sound (Pump range now).
Proof.
  unfold Pump. apply preserves_get_any. intros e He. apply preserves_bind; [go_sound|]. intros _.
  apply preserves_bind; [go_sound|]. intros _. apply drain_sound.
Qed.

Lemma Tick_sound now : preserves sound (Tick now).
Proof. unfold Tick, tick_propose, tick_prevote, tick_precommit. go_sound. Qed.

Lemma Deliver_sound m : preserves sound (Deliver m).
Proof. unfold Deliver. apply preserves_modify. intros e He. by destruct (_ <? _). Qed.

End Sound.

(** ** One vote per phase *)

(** [surely P m Q]: from [P], whatever fails, [m] returns a value in [Q]. *)
Definition surely {A} (P : TendermintBackend -> Prop) (m : M TendermintBackend A)
    (Q : TendermintBackend -> Prop) : Prop :=
  hoare P m (fun r s => is_ok r = true /\ Q s).

Lemma surely_leads {A} P (m : M TendermintBackend A) Q : surely P m Q -> leads P m Q.
Proof. intros Hm w Hw. by apply Hm. Qed.

Lemma surely_bind {A B} P R Q (m : M TendermintBackend A) (k : A -> M TendermintBackend B) :
  surely P m R -> (forall a, surely R (k a) Q) -> surely P (bind m k) Q.
Proof.
  intros Hm Hk w Hw. destruct (Hm w Hw) as [Ho HR]. unfold bind.
  destruct (m w) as [[a|er|] w1]; simpl in *; [|done|done]. by apply Hk.
Qed.

Lemma surely_modify (P Q : TendermintBackend -> Prop) f :
  (forall e, P e -> Q (f e)) -> surely P (modify f) Q.
Proof. intros Hf w Hw. split; [done|]. by apply Hf. Qed.

Lemma surely_ret {A} (P : TendermintBackend -> Prop) (a : A) : surely P (ret a) P.
Proof. by intros w. Qed.

Lemma surely_save_cs (I : TendermintBackend -> Prop) :
  (forall e e', view e' = view e -> I e -> I e') -> surely I save_cs I.
Proof.
  intros HI w Hw. split; [|eapply HI; [apply save_cs_framed|done]].
  unfold save_cs, bind, get_state, log_err, catch, on_consensus, zoom, SaveConsensusState, exec, stmt.
  simpl. by destruct (faults w) as [|[] ?].
Qed.

Definition phase (s : string) : Z :=
  if String.eqb s stepPropose then 0 else if String.eqb s stepPrevote then 1
  else if String.eqb s stepPrecommit then 2 else 3.

(** The vote lies at or before phase [ph] of round [r] of height [h]. *)
Definition at_most (v : Vote) (h r ph : Z) : Prop :=
  v_Height v < h \/ v_Height v = h /\ (v_Round v < r \/ v_Round v = r /\ vote_num (v_Type v) <= ph).

(** No two votes for one phase. *)
Definition votes_once (l : list Vote) : Prop :=
  forall v v', v ∈ l -> v' ∈ l -> v_Height v = v_Height v' -> v_Round v = v_Round v' ->
    vote_num (v_Type v) = vote_num (v_Type v') -> v = v'.

(** Messages whose proposals carry a block of their own height and whose votes
    are for a round up to [B]. *)
Definition wf_msg (B : Z) (m : ConsensusMsg) : Prop :=
  match m with
  | MsgProposal p => forall b, pr_Block p = Some b -> Height b = pr_Height p /\ 0 <= pr_Height p < 2 ^ 63 - 1
  | MsgVote v => v_Round v <= B
  | MsgOther => True
  end.

Section Once.
Context `{Crypto} `{Codec} (range : gmap string Z -> list (string * Z)) (B : Z).
Hypothesis HB : 0 <= B.

Definition steady_at (n ph : Z) (e : TendermintBackend) : Prop :=
  votes_once (sent_votes e) /\
  (forall v, v ∈ sent_votes e -> at_most v (cs_Height (cs e)) (cs_Round (cs e)) ph) /\
  0 <= cs_Round (cs e) <= B + n /\
  Forall (wf_msg B) (inboundCh e) /\
  (forall p, proposal e = Some p -> exists b, pr_Block p = Some b /\ Height b = cs_Height (cs e) /\
     0 <= Height b < 2 ^ 63 - 1).

Definition steady (n : Z) (e : TendermintBackend) : Prop := steady_at n (phase (cs_Step (cs e))) e.

Lemma steady_at_view n ph e e' : view e' = view e -> steady_at n ph e -> steady_at n ph e'.
Proof.
  unfold view, steady_at. intros [= Ev Et Ei Ek Ec Ep Eq Ef Es Eb]. by rewrite Ec, Ep, Eq, Es.
Qed.

Lemma steady_view n e e' : view e' = view e -> steady n e -> steady n e'.
Proof.
  intros E. unfold steady. replace (cs e') with (cs e) by (unfold view in E; congruence).
  by apply steady_at_view.
Qed.

Lemma at_most_mono v h r ph h' r' ph' :
  at_most v h r ph -> h < h' \/ h = h' /\ (r < r' \/ r = r' /\ ph <= ph') -> at_most v h' r' ph'.
Proof. unfold at_most. lia. Qed.

(** Sending the vote of a later phase. *)
Lemma sendVote_steady n ph ty h :
  ph < vote_num ty -> surely (steady_at n ph) (sendVote ty h) (steady_at n (vote_num ty)).
Proof.
  intros Hph w (Ho & Hm & Hr & Hq & Hp). destruct (sendVote_spec ty h w) as (c & -> & _).
  split; [done|]. cbn [snd db]. set (v := own_vote (db w) ty h).
  assert (Es : sent_votes (send (MsgVote v) (set_cdb c (db w))) = (sent_votes (db w) ++ [v])%list).
  { unfold sent_votes. simpl. by rewrite omap_app. }
  unfold steady_at. rewrite Es. simpl.
  assert (Hv : at_most v (cs_Height (cs (db w))) (cs_Round (cs (db w))) (vote_num ty)).
  { unfold at_most. simpl. lia. }
  assert (Hfresh : forall x, x ∈ sent_votes (db w) -> v_Height x = v_Height v ->
    v_Round x = v_Round v -> vote_num (v_Type x) = vote_num (v_Type v) -> False).
  { intros x Hx E1 E2 E3. specialize (Hm x Hx). unfold at_most in Hm. rewrite E1, E2, E3 in Hm. simpl in Hm. lia. }
  split; [|split; [|done]].
  - intros x y [Hx|Hx%list_elem_of_singleton]%elem_of_app [Hy|Hy%list_elem_of_singleton]%elem_of_app E1 E2 E3;
      subst; [by apply Ho|by destruct (Hfresh x Hx)|by destruct (Hfresh y Hy)|done].
  - intros x [Hx|Hx%list_elem_of_singleton]%elem_of_app; [|by subst].
    eapply at_most_mono; [by apply Hm|]. lia.
Qed.

(** What follows a vote: the step is set, saved and its timeout armed. *)
Lemma enter_step n ph s f :
  phase s = ph -> (forall e, view (f e) = view e) ->
  surely (steady_at n ph)
    (do! modify (fun e => set_cs (with_step s (cs e)) e) in do! save_cs in modify f) (steady n).
Proof.
  intros Hs Hf. apply (surely_bind _ (steady n)).
  - apply surely_modify. intros e He. unfold steady. simpl. by rewrite Hs.
  - intros _. apply (surely_bind _ (steady n)); [apply surely_save_cs, steady_view|].
    intros _. apply surely_modify. intros e. apply steady_view, Hf.
Qed.

Lemma SaveVote_steady n v : preserves (steady n) (on_consensus (SaveVote v)).
Proof. intros w Hw. by destruct (SaveVote_spec v w) as (c & res & -> & _). Qed.

Lemma framed_steady {A} n (m : M TendermintBackend A) : framed m -> preserves (steady n) m.
Proof. intros Hm. apply framed_preserves; [done|]. apply steady_view. Qed.

(** The last part of entering a round. *)
Lemma propose_steady n now :
  preserves (steady n)
    (do! save_cs in do! enterPropose in modify (fun e => set_proposeAt (after_ms now (epochMs e)) e)).
Proof.
  apply framed_steady, framed_bind; [apply save_cs_framed|]. intros _.
  apply framed_bind; [apply enterPropose_framed|]. intros _. by apply framed_modify.
Qed.

Lemma tick_propose_steady n now : preserves (steady n) (tick_propose now).
Proof.
  unfold tick_propose. intros w Hw. rewrite bind_get. destruct (negb _); [done|]. rewrite bind_modify.
  destruct (negb (String.eqb _ _)) eqn:Es; [done|]. apply negb_false_iff in Es.
  apply (surely_leads (steady_at n 0)).
  - apply (surely_bind _ (steady_at n 1)); [by apply (sendVote_steady n 0 PREVOTE)|].
    intros _. by apply enter_step.
  - unfold steady, phase in Hw. by rewrite Es in Hw.
Qed.

Lemma phase_prevote s : String.eqb s stepPrevote = true -> phase s = 1.
Proof. by intros ->%String.eqb_eq. Qed.

Lemma tick_prevote_steady n now : preserves (steady n) (tick_prevote now).
Proof.
  unfold tick_prevote. intros w Hw. rewrite bind_get. destruct (negb _); [done|]. rewrite bind_modify.
  destruct (negb (String.eqb _ _)) eqn:Es; [done|]. apply negb_false_iff in Es.
  apply (surely_leads (steady_at n 1)).
  - apply (surely_bind _ (steady_at n 2)); [by apply (sendVote_steady n 1 PRECOMMIT)|].
    intros _. by apply enter_step.
  - unfold steady in Hw. by rewrite (phase_prevote _ Es) in Hw.
Qed.
(** Entering round [r'] of the same height. *)
Lemma steady_round n n' r' e :
  steady n e -> cs_Round (cs e) < r' <= B + n' ->
  steady n' (set_cs (with_step stepPropose (with_round r' (cs e))) e).
Proof.
  intros (Ho & Hm & Hr & Hq & Hp) Hr'. split; [done|]. split; [|split; [simpl; lia|done]].
  intros v Hv. eapply at_most_mono; [by apply Hm|]. simpl. lia.
Qed.

Lemma steady_weaken n n' e : n <= n' -> steady n e -> steady n' e.
Proof. intros Hn (Ho & Hm & Hr & Hrest). split; [done|]. split; [done|]. split; [lia|done]. Qed.

Lemma tick_precommit_steady n now :
  B + n + 1 < 2 ^ 31 -> leads (steady n) (tick_precommit now) (steady (n + 1)).
Proof.
  intros Hn w Hw. assert (Hweak : steady (n + 1) (db w)) by (eapply steady_weaken; [|done]; lia).
  unfold tick_precommit. rewrite bind_get. destruct (negb _); [done|]. rewrite bind_modify.
  destruct (negb (String.eqb _ _)); [done|]. rewrite bind_modify. apply propose_steady. cbn [db].
  assert (Hr : 0 <= cs_Round (cs (db w)) <= B + n) by apply Hw.
  rewrite int32_small by (simpl; lia).
  apply (steady_round n (n + 1) _ (set_precommitAt None (db w))); [done|]. simpl. lia.
Qed.

Lemma Tick_steady n now : B + n + 1 < 2 ^ 31 -> leads (steady n) (Tick now) (steady (n + 1)).
Proof.
  intros Hn w Hw. assert (Hweak : forall e, steady n e -> steady (n + 1) e) by (intros; eapply steady_weaken; [|done]; lia).
  unfold Tick. rewrite bind_get. destruct (negb _); [by apply Hweak|].
  pose proof (tick_propose_steady n now w Hw) as H1. unfold bind.
  destruct (tick_propose now w) as [[u|er|] w1]; cbn [fst snd] in *; [|by apply Hweak..].
  pose proof (tick_prevote_steady n now w1 H1) as H2.
  destruct (tick_prevote now w1) as [[u'|er|] w2]; cbn [fst snd] in *; [|by apply Hweak..].
  by apply tick_precommit_steady.
Qed.

Lemma handleProposal_steady n now prop :
  wf_msg B (MsgProposal prop) -> preserves (steady n) (handleProposal now prop).
Proof.
  intros Hwf w Hw. unfold handleProposal. rewrite bind_get. cbv zeta.
  destruct (_ || _) eqn:Hhr; [done|]. apply orb_false_iff in Hhr as [Hh%negb_false_iff%Z.eqb_eq _].
  destruct (negb (String.eqb _ _)) eqn:Es; [done|]. apply negb_false_iff in Es.
  unfold bind at 1, lift. destruct (isValidProposer _ _ _ _) as [[]|er|]; [|done..]. cbn [negb].
  destruct (pr_Block prop) as [block|] eqn:Hb; [|done].
  unfold catch. destruct (verifyProposalSig prop block) as [[]|er|]; [|done..]. rewrite bind_modify.
  assert (Hw' : steady_at n 0 (set_proposal (Some prop) (db w))).
  { unfold steady, phase in Hw. rewrite Es in Hw. destruct Hw as (Ho & Hm & Hr & Hq & Hp).
    do 4 (split; [done|]). simpl. intros p [= <-]. exists block. destruct (Hwf block Hb) as [E1 E2].
    rewrite <- Hh, <- E1 in *. done. }
  match goal with |- steady n (db (snd (?m ?x))) => apply (surely_leads (steady_at n 0) m); [|exact Hw'] end.
  apply (surely_bind _ (steady_at n 1)); [|intros _; by apply enter_step].
  destruct (_ && negb _); [by apply (sendVote_steady n 0 PREVOTE)|].
  apply (surely_bind _ (steady_at n 0)); [|intros _; by apply (sendVote_steady n 0 PREVOTE)].
  destruct (_ && _); [|apply surely_ret]. by apply surely_modify.
Qed.

Lemma on_prevote_steady n now v : preserves (steady n) (on_prevote range now v).
Proof.
  unfold on_prevote. intros w Hw. rewrite bind_get.
  destruct (negb (String.eqb _ _)) eqn:Es; [done|]. apply negb_false_iff, phase_prevote in Es.
  destruct (tally_spec range (t_Id (thread (db w))) (v_Height v) (v_Round v) PREVOTE w)
    as ([hash c] & w' & Etl & Edb & _).
  unfold bind at 1. rewrite Etl. destruct (_ <? _); [cbn; by rewrite Edb|].
  rewrite bind_modify, Edb. set (e := db w) in *.
  assert (Hw' : steady_at n 1 (set_prevoteAt None e)) by (unfold steady in Hw; by rewrite Es in Hw).
  match goal with |- steady n (db (snd (?m ?x))) => apply (surely_leads (steady_at n 1) m); [|exact Hw'] end.
  apply (surely_bind _ (steady_at n 2)); [|intros _; by apply enter_step].
  destruct (String.eqb hash ""); [by apply (sendVote_steady n 1 PRECOMMIT)|].
  apply (surely_bind _ (steady_at n 1)).
  - destruct (proposal e) as [p|] eqn:Hp; [|apply surely_ret].
    destruct Hw as (_ & _ & _ & _ & Hpr). destruct (Hpr p Hp) as (b & Hb & _).
    unfold proposal_hash. rewrite Hb. by apply (surely_bind _ (steady_at n 1)); intros; apply surely_ret.
  - intros []; [|by apply (sendVote_steady n 1 PRECOMMIT)].
    apply (surely_bind _ (steady_at n 1)); [by apply surely_modify|].
    intros _. by apply (sendVote_steady n 1 PRECOMMIT).
Qed.

Lemma commitBlock_steady n now b p :
  0 <= n ->
  leads (fun e => steady n e /\ proposal e = Some p /\ pr_Block p = Some b) (commitBlock now b) (steady n).
Proof.
  intros Hn w (Hw & Hp & Hb). unfold commitBlock. set (b' := set_committed _ b).
  destruct Hw as (Ho & Hm & Hr & Hq & Hpr). destruct (Hpr p Hp) as (x & Hx & Hh & Hpos).
  rewrite Hb in Hx. injection Hx as <-.
  rewrite bind_modify. cbn [db faults]. rewrite Hp. simpl fmap.
  assert (Hw1 : steady n (set_proposal (Some (set_block b' p)) (db w))).
  { do 4 (split; [done|]). simpl. intros q [= <-]. by exists b'. }
  unfold catch, on_blocks, zoom, SaveBlock, exec, stmt. simpl faults.
  assert (Hfin : preserves (steady n)
    (do! save_cs in do! modify (commit_cb b') in
     do! modify (fun e => set_proposeAt (after_ms now (epochMs e)) e) in enterPropose)).
  { apply preserves_bind; [apply framed_steady, save_cs_framed|]. intros _.
    apply preserves_bind; [by apply preserves_modify|]. intros _.
    apply preserves_bind; [by apply preserves_modify|]. intros _. apply framed_steady, enterPropose_framed. }
  destruct (faults w) as [|[] fs]; simpl; [|exact Hw1|];
    (destruct (slen (BlockHash b) <? 8); [exact Hw1|]);
    rewrite !bind_modify; cbn [db faults];
    match goal with |- steady n (db (snd (_ ?x))) => apply (Hfin x) end; cbn [db];
    rewrite int64_small by lia; (split; [done|]); (split; [|split; [simpl; lia|done]]);
    intros v Hv; (eapply at_most_mono; [by apply Hm|]); simpl; lia.
Qed.

Lemma on_precommit_steady n now v : 0 <= n -> preserves (steady n) (on_precommit range now v).
Proof.
  intros Hn w Hw. unfold on_precommit. rewrite bind_get. destruct (negb _); [done|].
  destruct (tally_spec range (t_Id (thread (db w))) (v_Height v) (v_Round v) PRECOMMIT w)
    as ([hash c] & w' & Etl & Edb & _).
  unfold bind at 1. rewrite Etl. destruct (_ || _); [cbn; by rewrite Edb|].
  rewrite bind_modify, Edb. destruct (proposal (db w)) as [p|] eqn:Hp; [|done].
  destruct (pr_Block p) as [b|] eqn:Hb; [|done]. destruct (negb _); [done|].
  by apply (commitBlock_steady n now b p).
Qed.

Lemma checkFutureRoundSkip_steady n now r :
  0 <= n -> r <= B ->
  leads (fun e => steady n e /\ cs_Round (cs e) < r) (checkFutureRoundSkip now r) (steady n).
Proof.
  intros Hn Hr w [Hw Hlt]. unfold checkFutureRoundSkip. rewrite bind_get. cbv zeta.
  destruct (_ <? _); [done|]. rewrite bind_modify. unfold bind at 1.
  match goal with |- context [for_each ?l ?f ?x] =>
    assert (Hl : preserves (fun e => steady n e /\ cs_Round (cs e) < r) (for_each l f));
    [|assert (Hx : steady n (db x) /\ cs_Round (cs (db x)) < r) by done;
      specialize (Hl x Hx); destruct (for_each l f x) as [[u|er|] w1]] end; cbn [fst snd] in *;
    [|destruct Hl as [Hs1 Hr1]|by apply Hl..].
  - apply preserves_for_each. intros v. apply preserves_log_err. intros x Hx.
    by destruct (SaveVote_spec v x) as (c & res & -> & _).
  - rewrite !bind_modify. apply propose_steady. cbn [db].
    apply (steady_round n n r (set_future (delete r (futureVotes (db w1))) (db w1))); [done|]. simpl. lia.
Qed.

Lemma handleVote_steady n now v :
  0 <= n -> v_Round v <= B -> preserves (steady n) (handleVote range now v).
Proof.
  intros Hn Hv w Hw. unfold handleVote. rewrite bind_get. cbv zeta.
  destruct (negb _); [done|]. destruct (negb _); [done|].
  unfold catch at 1, lift. destruct (verifyVoteSig v) as [[]|er|]; [|done..].
  destruct (Z.ltb_spec (cs_Round (cs (db w))) (v_Round v)) as [Hlt|_].
  { rewrite bind_modify. apply (checkFutureRoundSkip_steady n now (v_Round v) Hn Hv). cbn [db].
    unfold bufferFutureVote. by destruct (existsb _ _). }
  destruct (_ <? _); [exact (preserves_log_err (steady n) _ (SaveVote_steady n v) w Hw)|].
  unfold catch. pose proof (SaveVote_steady n v w Hw) as Hs.
  destruct (on_consensus (SaveVote v) w) as [[u|er|] w1]; cbn [fst snd] in *; [|done..].
  destruct (v_Type v); [done|by apply on_prevote_steady|by apply on_precommit_steady|done].
Qed.

Lemma StepInbound_steady n now m : 0 <= n -> wf_msg B m -> preserves (steady n) (StepInbound range now m).
Proof.
  intros Hn Hm w Hw. unfold StepInbound. rewrite bind_get. destruct (negb _); [done|].
  destruct m; [by apply handleProposal_steady|by apply handleVote_steady|done].
Qed.

Lemma drain_steady n now k : 0 <= n -> preserves (steady n) (drain range k now).
Proof.
  intros Hn. induction k as [|k IH]; simpl; [apply preserves_ret|]. intros w Hw. rewrite bind_get.
  destruct (inboundCh (db w)) as [|m q] eqn:Eq; [done|]. rewrite bind_modify.
  assert (Hq : wf_msg B m /\ Forall (wf_msg B) q).
  { destruct Hw as (_ & _ & _ & Hq & _). rewrite Eq in Hq. by apply Forall_cons in Hq. }
  match goal with |- steady n (db (snd (?p ?x))) => assert (Hp : preserves (steady n) p); [|apply (Hp x)] end.
  - apply preserves_bind; [apply StepInbound_steady; [done|apply Hq]|intros _; exact IH].
  - destruct Hw as (Ho & Hm & Hr & _ & Hp'). exact (conj Ho (conj Hm (conj Hr (conj (proj2 Hq) Hp')))).
Qed.

Lemma Pump_steady n now : 0 <= n -> preserves (steady n) (Pump range now).
Proof.
  intros Hn w Hw. unfold Pump. rewrite bind_get, bind_modify.
  match goal with |- steady n (db (snd (?p ?x))) => assert (Hp : preserves (steady n) p); [|by apply (Hp x)] end.
  apply preserves_bind; [|intros; by apply drain_steady]. destruct (started _); [apply preserves_ret|].
  apply preserves_bind; [apply framed_steady, enterPropose_framed|]. intros _. by apply preserves_modify.
Qed.

Lemma Deliver_steady n m : wf_msg B m -> preserves (steady n) (Deliver m).
Proof.
  intros Hm. unfold Deliver. apply preserves_modify. intros e (Ho & Hv & Hr & Hq & Hp).
  destruct (_ <? _); [|done]. do 3 (split; [done|]). split; [|done]. simpl. apply Forall_app.
  split; [done|]. by constructor.
Qed.

End Once.

(** ** Runs of a replica *)

Inductive event : Type :=
| EvDeliver (m : ConsensusMsg)
| EvStep (now : Z) (m : ConsensusMsg)
| EvPump (now : Z)
| EvTick (now : Z)
| EvStop.

Definition event_msg (ev : event) : option ConsensusMsg :=
  match ev with EvDeliver m | EvStep _ m => Some m | _ => None end.

Section Runs.
Context `{Crypto} `{Codec} (range : gmap string Z -> list (string * Z)).

Definition apply_event (ev : event) : M TendermintBackend unit :=
  match ev with
  | EvDeliver m => Deliver m
  | EvStep now m => StepInbound range now m
  | EvPump now => Pump range now
  | EvTick now => Tick now
  | EvStop => Stop
  end.

(** [reach ok t did sk n e]: a replica of a thread that starts without votes and
    consensus state of that thread is in [e] after events that satisfy [ok], [n] of
    them ticks, whatever database statements failed.  In between the other users of
    the daemon's store may change its tables, but file no votes under this thread. *)
Inductive reach (ok : event -> Prop) (t : Thread) (did sk : string) : Z -> TendermintBackend -> Prop :=
| reach_new b c fs e fs' :
    (forall k v, votes c !! k = Some v -> key_thread k <> t_Id t) -> consensus_state c !! t_Id t = None ->
    newTendermintBackend t did sk b c fs = (Ok e, fs') -> reach ok t did sk 0 e
| reach_event n e ev fs :
    reach ok t did sk n e -> ok ev ->
    reach ok t did sk (n + match ev with EvTick _ => 1 | _ => 0 end)
      (db (snd (apply_event ev (World e fs))))
| reach_shared n e b c :
    reach ok t did sk n e -> leaves_votes (t_Id t) (cdb e) c -> reach ok t did sk n (set_bdb b (set_cdb c e)).

Lemma new_backend t did sk b c fs e fs' :
  consensus_state c !! t_Id t = None -> newTendermintBackend t did sk b c fs = (Ok e, fs') ->
  e = mkTM b c t did sk (mkCS 1 0 "propose" (-1) "" (-1) "") None [] None None None
        (if EpochMs t =? 0 then defaultEpochMs else EpochMs t) false false ∅ [] [].
Proof.
  intros Hc E. unfold newTendermintBackend, LoadConsensusState, query, stmt in E. simpl in E.
  rewrite Hc in E. by destruct fs as [|[] fs]; simplify_eq E.
Qed.
End Runs.

Lemma reach_sound `{CryptoLaws} `{Codec} range ok t did sk n e :
  (forall m, range m ≡ₚ map_to_list m) -> slen (ed25519_public sk) = 32 ->
  did = DIDFromPubBytes (ed25519_public sk) -> did ∈ ReplicaDids t ->
  reach range ok t did sk n e -> sound t did sk e.
Proof.
  intros Hrange Hk Hd Hm Hr. induction Hr as [b c fs e fs' Hv Hc He|n e ev fs Hr IH _|n e b c Hr IH Hl].
  - apply new_backend in He; [|done]. subst e. unfold sound, lock_ok, votes_ok. simpl. split_and!; try done.
    intros k v Hkv Hk'. by destruct (Hv k v Hkv).
  - assert (Hp : preserves (sound t did sk) (apply_event range ev)); [|by apply (Hp (World e fs))].
    destruct ev; simpl; [apply Deliver_sound|by apply StepInbound_sound|by apply Pump_sound
                        |by apply Tick_sound|by apply preserves_modify].
  - by apply sound_foreign.
Qed.

(** Events whose messages are well formed. *)
Definition wf_event (B : Z) (ev : event) : Prop :=
  match event_msg ev with Some m => wf_msg B m | None => True end.

Lemma reach_ticks `{Crypto} `{Codec} range ok t did sk n e : reach range ok t did sk n e -> 0 <= n.
Proof. induction 1 as [|n e ev fs _ IH _|]; [lia| |done]. destruct ev; lia. Qed.

Lemma reach_steady `{Crypto} `{Codec} range B t did sk n e :
  0 <= B -> B + n < 2 ^ 31 -> reach range (wf_event B) t did sk n e -> steady B n e.
Proof.
  intros HB Hn Hr. induction Hr as [b c fs e fs' Hv Hc He|n e ev fs Hr IH Hok|n e b c Hr IH _].
  - apply new_backend in He; [|done]. subst e. split; [by intros ???%not_elem_of_nil|].
    split; [by intros ??%not_elem_of_nil|]. split; [simpl; lia|]. by split.
  - pose proof (reach_ticks _ _ _ _ _ _ _ Hr) as H0n.
    destruct ev; simpl in *; rewrite ?Z.add_0_r in *; specialize (IH ltac:(lia)).
    + by apply (Deliver_steady B n m Hok (World e fs)).
    + by apply (StepInbound_steady range B HB n now m H0n Hok (World e fs)).
    + by apply (Pump_steady range B HB n now H0n (World e fs)).
    + apply (Tick_steady B n now); [lia|done].
    + exact IH.
  - exact (IH Hn).
Qed.

(** Two quorums of 3f+1 replicas, at most f of them faulty, share an honest one. *)
Lemma quorum_intersection (R S1 S2 Hn : gset string) (f : nat) :
  S1 ⊆ R -> S2 ⊆ R -> (size R <= 3 * f + 1)%nat -> (size (R ∖ Hn) <= f)%nat ->
  (2 * f + 1 <= size S1)%nat -> (2 * f + 1 <= size S2)%nat ->
  exists d, d ∈ S1 /\ d ∈ S2 /\ d ∈ Hn.
Proof.
  intros H1 H2 HR Hf Hs1 Hs2.
  assert (Hi : (f + 1 <= size (S1 ∩ S2))%nat).
  { pose proof (size_union_alt S1 S2) as Hu. pose proof (size_union_alt (S2 ∖ S1) (S1 ∩ S2)) as Hd.
    assert (Hsub : (size (S1 ∪ S2) <= size R)%nat) by (apply subseteq_size; set_solver).
    replace ((S2 ∖ S1) ∪ (S1 ∩ S2)) with S2 in Hd by (apply leibniz_equiv; set_unfold; intros x;
      destruct (decide (x ∈ S1)); tauto).
    assert (size ((S1 ∩ S2) ∖ (S2 ∖ S1)) <= size (S1 ∩ S2))%nat by (apply subseteq_size; set_solver). lia. }
  destruct (decide ((S1 ∩ S2) ∖ (R ∖ Hn) ≡ ∅)) as [He|He].
  - assert (size (S1 ∩ S2) <= size (R ∖ Hn))%nat; [|lia]. apply subseteq_size. intros x Hx.
    destruct (decide (x ∈ R ∖ Hn)); [done|]. set_solver.
  - apply set_choose in He as [d Hd]. exists d.
    destruct (decide (d ∈ Hn)) as [Hin|Hin]; set_solver.
Qed.

(** C5: Every block a replica hands to the commit callback is backed by a
    certificate in its vote table, and so is its lock: for a replica that started
    without votes and state of the thread and was not restarted, in a database that it
    shares with other threads, however events are ordered, whatever database statements
    fail and whatever the other users of the database change except the votes filed
    under this thread, there are 2f+1 distinct validators of the thread whose signed
    precommits of one height and round name the block's hash, the block is the one of
    a proposal signed by the designated proposer of that height, and a lock held at
    round r comes with 2f+1 signed prevotes of round r for the locked hash.  That no
    other thread files votes under this one is a condition: [handleVote] does not see
    to it ([tendermint_foreign_vote]). *)
Theorem tendermint_commit_certified `{CryptoLaws} `{Codec} range t did sk n e :
  (forall m, range m ≡ₚ map_to_list m) -> slen (ed25519_public sk) = 32 ->
  did = DIDFromPubBytes (ed25519_public sk) -> did ∈ ReplicaDids t ->
  reach range (fun _ => True) t did sk n e ->
  Forall (certified t (votes (cdb e))) (commits e) /\ lock_ok t (votes (cdb e)) (cs e).
Proof.
  intros Hrange Hk Hd Hm Hr. apply reach_sound in Hr as (_ & _ & _ & _ & _ & _ & Hl & Hc); done.
Qed.

(** C6: A running replica votes at most once per phase: over any sequence of
    deliveries, steps, pumps and ticks, whatever database statements fail, the
    prevotes and precommits it broadcasts never include two for the same height,
    round and type.  The proposals it is given must carry a block of their own
    height, and rounds must stay below the int32 limit. *)
Theorem tendermint_votes_once `{Crypto} `{Codec} range B t did sk n e :
  0 <= B -> B + n < 2 ^ 31 -> reach range (wf_event B) t did sk n e -> votes_once (sent_votes e).
Proof. intros HB Hn Hr. apply (reach_steady range B) in Hr; [|done..]. apply Hr. Qed.

(** C4: Agreement within a round: of 3f+1 validators let at most f be faulty and
    the others run this code since they started without votes and state of the thread,
    with rounds below the int32 limit; let every proposal handed to an honest replica,
    also one of a faulty proposer, carry a block of its own height (which the code does
    not check, [tendermint_height_rewind]); and let no vote of an honest validator sit in
    an honest vote table that the validator did not send (signatures are not forged).
    Then the quorums any two honest replicas hold for one height, round and vote type
    name the same hash; a certificate of a committed block is such a quorum. *)
Theorem tendermint_round_agreement `{CryptoLaws} `{Codec} range B t (f : nat)
    (honest : gset string) (sk : string -> string) (n : string -> Z) (st : string -> TendermintBackend)
    d1 d2 h r vt x1 x2 :
  (forall m, range m ≡ₚ map_to_list m) -> 0 <= B ->
  t_F t = Z.of_nat f -> length (ReplicaDids t) = (3 * f + 1)%nat ->
  (size (list_to_set (ReplicaDids t) ∖ honest) <= f)%nat ->
  (forall d, d ∈ honest -> d ∈ ReplicaDids t /\ slen (ed25519_public (sk d)) = 32 /\
     d = DIDFromPubBytes (ed25519_public (sk d)) /\ B + n d < 2 ^ 31 /\
     reach range (wf_event B) t d (sk d) (n d) (st d)) ->
  (forall d k v, d ∈ honest -> votes (cdb (st d)) !! k = Some v -> v_ThreadId v = t_Id t ->
     v_VoterDid v ∈ honest -> v ∈ sent_votes (st (v_VoterDid v))) ->
  d1 ∈ honest -> d2 ∈ honest ->
  quorum_for t (votes (cdb (st d1))) h r vt x1 -> quorum_for t (votes (cdb (st d2))) h r vt x2 ->
  x1 = x2.
Proof.
  intros Hrange HB HF HR Hf Hhon Hunf Hd1 Hd2 (S1 & Hq1 & HS1) (S2 & Hq2 & HS2).
  unfold quorum in *. rewrite HF in *.
  destruct (quorum_intersection (list_to_set (ReplicaDids t)) S1 S2 honest f) as (d & Hm1 & Hm2 & Hd); try lia.
  - intros x Hx. apply elem_of_list_to_set. by apply HS1.
  - intros x Hx. apply elem_of_list_to_set. by apply HS2.
  - rewrite <- HR. clear. induction (ReplicaDids t) as [|a l IH]; [done|]. cbn [list_to_set length].
    rewrite size_union_alt, size_singleton.
    assert (size ((list_to_set l : gset string) ∖ {[a]}) <= size (list_to_set l : gset string))%nat
      by (apply subseteq_size; set_solver). lia.
  - destruct (HS1 d Hm1) as (_ & v1 & Hv1 & <- & _). destruct (HS2 d Hm2) as (_ & v2 & Hv2 & <- & _).
    assert (Hkeys : forall d0 v, d0 ∈ honest ->
      votes (cdb (st d0)) !! (t_Id t, h, r, vote_num vt, d) = Some v ->
      v ∈ sent_votes (st d) /\ v_Height v = h /\ v_Round v = r /\ vote_num (v_Type v) = vote_num vt).
    { intros d0 v Hd0 Hv. destruct (Hhon d0 Hd0) as (Hr0 & Hk0 & Hdid0 & _ & Hreach).
      apply reach_sound in Hreach as (_ & _ & _ & Hok & _); [|done..].
      destruct (Hok _ _ Hv eq_refl) as [Ek _]. unfold vote_key in Ek. injection Ek as E1 E2 E3 E4 E5.
      split; [|done]. rewrite E5 in Hd |- *. by apply (Hunf d0 _ v Hd0 Hv). }
    apply Hkeys in Hv1 as (Hs1 & E1 & E2 & E3), Hv2 as (Hs2 & E1' & E2' & E3'); [|done..].
    destruct (Hhon d Hd) as (_ & _ & _ & Hn & Hreach). apply reach_steady in Hreach as (Ho & _); [|done..].
    f_equal. apply Ho; congruence.
Qed.

(** ** A concrete run: four replicas, one of them silent *)

Definition toy_range (m : gmap string Z) : list (string * Z) := map_to_list m.
Definition key_of (c : string) : string := "0123456789abcdef0123456789abcde" +:+ c.
Definition did_of (c : string) : string := DIDFromPubBytes (key_of c).
Definition toy_replicas : list string := did_of <$> ["a"; "b"; "c"; "d"].
Definition toy_thread : Thread := mkThread "T" (did_of "a") toy_replicas 4 1 1000 0 ∅.

(** The block of a proposer without entries, and the proposal that carries it
    at a height. *)
Definition toy_block (c : string) (h : Z) (parent : string) : ThreadBlock :=
  let b := mkBlock "T" h 0 parent [] (did_of c) "" "" 0 in
  mkBlock "T" h 0 parent [] (did_of c) "" (computeBlockHash b) 0.

Definition toy_proposal (c : string) (h : Z) (b : ThreadBlock) : Proposal :=
  mkProposal "T" h 0 (-1) (Some b) (did_of c)
    (hex_encode (ed25519_sign (key_of c) (proposalSigData "T" h 0 (BlockHash b)))).

Definition toy_vote (T c : string) (h : Z) (ty : VoteType) (hash : string) : Vote :=
  mkVote T h 0 ty hash (did_of c) (hex_encode (ed25519_sign (key_of c) (voteSigData T h 0 ty hash))).

(** A round at height [h]: the proposal of [p] and the votes of three replicas. *)
Definition toy_round (p : string) (h : Z) (b : ThreadBlock) : list event :=
  EvStep 0 (MsgProposal (toy_proposal p h b)) ::
  ((fun c => EvStep 0 (MsgVote (toy_vote "T" c h PREVOTE (BlockHash b)))) <$> ["a"; "b"; "c"]) ++
  ((fun c => EvStep 0 (MsgVote (toy_vote "T" c h PRECOMMIT (BlockHash b)))) <$> ["a"; "b"; "c"]).

Definition toy_start (c : string) : TendermintBackend :=
  mkTM empty_db empty_cdb toy_thread (did_of c) (key_of c) (mkCS 1 0 "propose" (-1) "" (-1) "") None []
    None None None 1000 false false ∅ [] [].

Definition run_events (e : TendermintBackend) (l : list event) : TendermintBackend :=
  foldl (fun e ev => db (snd (apply_event toy_range ev (World e [])))) e l.

Definition toy_events : list event := EvPump 0 :: toy_round "b" 1 (toy_block "b" 1 "").

Definition toy_state (c : string) : TendermintBackend := run_events (toy_start c) toy_events.

(** The ticks of a list of events, and the state such a list leads to. *)
Definition ticks (l : list event) : Z :=
  foldr (fun ev n => (match ev with EvTick _ => 1 | _ => 0 end) + n) 0 l.

Lemma run_events_reach (ok : event -> Prop) c l :
  Forall ok l -> reach toy_range ok toy_thread (did_of c) (key_of c) (ticks l) (run_events (toy_start c) l).
Proof.
  intros Hok.
  assert (H0 : reach toy_range ok toy_thread (did_of c) (key_of c) 0 (toy_start c))
    by (apply (reach_new toy_range ok _ _ _ empty_db empty_cdb [] _ []); done).
  rewrite <- (Z.add_0_l (ticks l)). revert H0. generalize 0, (toy_start c).
  induction Hok as [|ev l Hev _ IH]; intros n e He; cbn [ticks foldr run_events foldl];
    [by rewrite Z.add_0_r|].
  rewrite Z.add_assoc. apply IH. by apply reach_event.
Qed.

Lemma toy_reach (ok : event -> Prop) c :
  Forall ok toy_events -> reach toy_range ok toy_thread (did_of c) (key_of c) 0 (toy_state c).
Proof. apply run_events_reach. Qed.

Lemma toy_events_wf : Forall (wf_event 0) toy_events.
Proof.
  unfold toy_events, toy_round. simpl. apply Forall_cons. split; [done|]. apply Forall_cons. split.
  - unfold wf_event. simpl. intros b [= <-]. simpl. lia.
  - repeat (apply Forall_cons; split; [unfold wf_event; simpl; lia|]). apply Forall_nil. done.
Qed.

(** The run commits the block. *)
Example toy_commits : BlockHash <$> commits (toy_state "a") = [BlockHash (toy_block "b" 1 "")].
Proof. vm_compute. reflexivity. Qed.

Lemma tendermint_commit_certified_witness :
  Forall (certified toy_thread (votes (cdb (toy_state "a")))) (commits (toy_state "a")) /\
  lock_ok toy_thread (votes (cdb (toy_state "a"))) (cs (toy_state "a")).
Proof.
  apply (tendermint_commit_certified toy_range toy_thread (did_of "a") (key_of "a") 0).
  - done.
  - reflexivity.
  - reflexivity.
  - left.
  - apply toy_reach. by apply Forall_true.
Defined.

Lemma tendermint_votes_once_witness : votes_once (sent_votes (toy_state "a")).
Proof.
  apply (tendermint_votes_once toy_range 0 toy_thread (did_of "a") (key_of "a") 0); [lia|lia|].
  apply toy_reach, toy_events_wf.
Defined.

(** The key and the state of a replica by its DID. *)
Definition toy_name (d : string) : string :=
  if String.eqb d (did_of "a") then "a" else if String.eqb d (did_of "b") then "b" else "c".
Definition toy_honest : gset string := list_to_set (did_of <$> ["a"; "b"; "c"]).

(** The table of [c] holds a signed precommit of [d] for the block. *)
Definition toy_backed (c d : string) : bool :=
  bool_decide (d ∈ toy_replicas) &&
  match votes (cdb (toy_state c)) !! ("T", 1, 0, 2, d) with
  | Some v => String.eqb (v_BlockHash v) (BlockHash (toy_block "b" 1 "")) &&
              bool_decide (verifyVoteSig v = Ok tt)
  | None => false
  end.

Lemma toy_all_backed :
  forallb (fun c => forallb (toy_backed c) (did_of <$> ["a"; "b"; "c"])) ["a"; "b"; "c"] = true.
Proof. vm_compute. reflexivity. Qed.

Lemma toy_quorum c : c ∈ ["a"; "b"; "c"] ->
  quorum_for toy_thread (votes (cdb (toy_state c))) 1 0 PRECOMMIT (BlockHash (toy_block "b" 1 "")).
Proof.
  intros Hc%list_elem_of_In. exists toy_honest. split; [by vm_compute|].
  intros d Hd%elem_of_list_to_set%list_elem_of_In.
  pose proof (proj1 (forallb_forall _ _) toy_all_backed c Hc) as Hall.
  pose proof (proj1 (forallb_forall _ _) Hall d Hd) as Hb. unfold toy_backed in Hb.
  apply andb_true_iff in Hb as [Hr%bool_decide_eq_true Hv]. split; [done|].
  change (t_Id toy_thread) with "T". change (vote_num PRECOMMIT) with 2.
  destruct (votes _ !! _) as [v|]; [|done].
  apply andb_true_iff in Hv as [Hh%String.eqb_eq Hs%bool_decide_eq_true]. eauto.
Qed.

(** Every vote in a table of an honest replica was sent by its voter, or the
    voter is not honest. *)
Lemma toy_all_sent :
  forallb (fun c => forallb (fun kv =>
      negb (bool_decide (v_VoterDid (snd kv) ∈ toy_honest)) ||
      bool_decide (snd kv ∈ sent_votes (toy_state (toy_name (v_VoterDid (snd kv))))))
    (map_to_list (votes (cdb (toy_state c))))) ["a"; "b"; "c"] = true.
Proof. vm_compute. reflexivity. Qed.

Lemma toy_honest_names d : d ∈ toy_honest -> toy_name d ∈ ["a"; "b"; "c"] /\ d = did_of (toy_name d) /\
  d ∈ ReplicaDids toy_thread.
Proof.
  intros Hd%elem_of_list_to_set%list_elem_of_In.
  assert (Hall : forallb (fun d => bool_decide (toy_name d ∈ ["a"; "b"; "c"]) &&
    String.eqb d (did_of (toy_name d)) && bool_decide (d ∈ ReplicaDids toy_thread))
    (did_of <$> ["a"; "b"; "c"]) = true) by (vm_compute; reflexivity).
  pose proof (proj1 (forallb_forall _ _) Hall d Hd) as Hb.
  apply andb_true_iff in Hb as [[H1%bool_decide_eq_true H2%String.eqb_eq]%andb_true_iff H3%bool_decide_eq_true].
  done.
Qed.

Lemma tendermint_round_agreement_witness :
  BlockHash (toy_block "b" 1 "") = BlockHash (toy_block "b" 1 "").
Proof.
  apply (tendermint_round_agreement toy_range 0 toy_thread 1 toy_honest (fun d => key_of (toy_name d))
    (fun _ => 0) (fun d => toy_state (toy_name d)) (did_of "a") (did_of "c") 1 0 PRECOMMIT).
  - done.
  - lia.
  - reflexivity.
  - reflexivity.
  - vm_compute. lia.
  - intros d Hd. destruct (toy_honest_names d Hd) as (Hn & Hd' & Hr).
    split; [done|]. split; [|split; [done|split; [lia|rewrite Hd' at 1; apply toy_reach, toy_events_wf]]].
    apply list_elem_of_In in Hn. destruct Hn as [<-|[<-|[<-|[]]]]; reflexivity.
  - intros d k v Hd Hv _ Hvd. destruct (toy_honest_names d Hd) as (Hn%list_elem_of_In & _).
    pose proof (proj1 (forallb_forall _ _) toy_all_sent _ Hn) as Hall.
    apply elem_of_map_to_list, list_elem_of_In in Hv.
    pose proof (proj1 (forallb_forall _ _) Hall (k, v) Hv) as Hb. cbn [snd] in Hb.
    rewrite bool_decide_true in Hb by done. by apply bool_decide_eq_true in Hb.
  - apply elem_of_list_to_set. left.
  - apply elem_of_list_to_set. right. right. left.
  - apply toy_quorum. left.
  - apply toy_quorum. right. right. left.
Defined.

(** ** Where a single validator gets around the checks *)

(** A proposal at height 2, where [c] is the proposer, whose block says it is
    the block of height 1. *)
Definition rewind_block : ThreadBlock := toy_block "c" 1 "".
Definition rewound : TendermintBackend := run_events (toy_state "a") (toy_round "c" 2 rewind_block).

(** One Byzantine proposer rewrites committed history: the height inside a
    proposed block is never compared with the height of the proposal, and a
    committed block is stored with INSERT OR REPLACE under its own height.  In a
    run where replica a has committed a block at height 1, proposer c of height
    2 proposes a block that names height 1; with the votes of a, b and c (those
    of a are the ones it sends itself) replica a replaces its stored block 1 by
    another one, reports a second commit for height 1, and is back at height 2. *)
Theorem tendermint_height_rewind :
  b_hash <$> blocks (bdb (toy_state "a")) !! ("T", 1) = Some (BlockHash (toy_block "b" 1 "")) /\
  b_hash <$> blocks (bdb rewound) !! ("T", 1) = Some (BlockHash rewind_block) /\
  BlockHash rewind_block <> BlockHash (toy_block "b" 1 "") /\
  Height <$> commits rewound = [1; 1] /\ cs_Height (cs rewound) = 2 /\
  toy_vote "T" "a" 2 PREVOTE (BlockHash rewind_block) ∈ sent_votes rewound /\
  toy_vote "T" "a" 2 PRECOMMIT (BlockHash rewind_block) ∈ sent_votes rewound.
Proof.
  split_and!; try (vm_compute; reflexivity); [vm_compute; discriminate|..];
    apply (bool_decide_unpack _); vm_compute; exact I.
Qed.

(** A backend files votes under any thread the voter names: a validator of
    one thread that signs a vote carrying the id of another thread has it
    stored in that other thread's tally, which the other thread's backend counts
    without asking whether the voter is one of its validators. *)
Theorem tendermint_foreign_vote `{Crypto} `{Codec} range now v e :
  ready e = true -> v_Height v = cs_Height (cs e) -> v_Round v < cs_Round (cs e) ->
  isKnownValidator (thread e) (v_VoterDid v) = true -> verifyVoteSig v = Ok tt ->
  v_ThreadId v <> t_Id (thread e) -> votes (cdb e) !! vote_key v = None ->
  v ∈ select_votes (v_ThreadId v) (v_Height v) (v_Round v) (v_Type v)
        (cdb (snd (run (StepInbound range now (MsgVote v)) e))).
Proof.
  intros Hrd Hh Hr Hk Hs _ Hfresh. unfold run, StepInbound, handleVote. rewrite bind_get. cbn [db].
  rewrite Hrd. cbn [negb]. rewrite bind_get. cbv zeta. cbn [db]. rewrite Hh, Z.eqb_refl, Hk. cbn [negb].
  unfold catch at 1, lift. rewrite Hs.
  destruct (Z.ltb_spec (cs_Round (cs e)) (v_Round v)) as [|_]; [lia|].
  destruct (Z.ltb_spec (v_Round v) (cs_Round (cs e))) as [_|]; [|lia].
  unfold log_err, catch, on_consensus, zoom, SaveVote, exec, stmt. simpl. unfold select_votes. simpl.
  rewrite Hfresh. apply list_elem_of_fmap. exists (vote_key v, v). split; [done|].
  apply list_elem_of_filter. split; [unfold vote_key; simpl; by rewrite Hh|].
  apply elem_of_map_to_list. by rewrite lookup_insert_eq.
Qed.

Definition toy_later : TendermintBackend :=
  set_running true true (set_cs (mkCS 1 1 "propose" (-1) "" (-1) "") (toy_start "a")).

Lemma tendermint_foreign_vote_witness :
  toy_vote "U" "b" 1 PRECOMMIT "hash" ∈ select_votes "U" 1 0 PRECOMMIT
    (cdb (snd (run (StepInbound toy_range 0 (MsgVote (toy_vote "U" "b" 1 PRECOMMIT "hash"))) toy_later))).
Proof.
  apply (tendermint_foreign_vote toy_range 0 (toy_vote "U" "b" 1 PRECOMMIT "hash") toy_later);
    [reflexivity|reflexivity|reflexivity|vm_compute; reflexivity|vm_compute; reflexivity
    |discriminate|reflexivity].
Defined.
