(* ===== verification/TendermintFork.v ===== *)
(** * Disagreement across rounds ([daemon/thread/tendermint.go])

    Within a round the replicas agree ([TendermintFacts]).  Across rounds a replica is
    meant to stay with the block it locked unless a later round had a quorum of prevotes
    for another one; [handleProposal] takes the proposer's word for that.  This file runs
    three honest replicas of four on a schedule in which the fourth uses it. *)

From stdpp Require Import base gmap strings list pretty.
From Stdlib Require Import ZArith Lia.
From S2P Require Import Prelude GoStd Identity ThreadStore ConsensusStore Chain Instances Tendermint TendermintFacts.

Import Identity ThreadStore ConsensusStore Chain Tendermint.

Local Open Scope string_scope.
Local Open Scope Z_scope.

(** A vote at height 1. *)
Definition vote_in (round : Z) (c : string) (ty : VoteType) (hash : string) : Vote :=
  mkVote "T" 1 round ty hash (did_of c) (hex_encode (ed25519_sign (key_of c) (voteSigData "T" 1 round ty hash))).

(** What b proposes in round 0, as the replica itself builds it. *)
Definition first_proposal : Proposal :=
  match sent (run_events (toy_start "b") [EvPump 0]) with
  | [MsgProposal p] => p
  | _ => toy_proposal "b" 1 (toy_block "b" 1 "")
  end.
Definition first_hash : string := match pr_Block first_proposal with Some b => BlockHash b | None => "" end.

(** The block of c in round 1, and its proposal with the claim that round 7 had a
    quorum of prevotes for it. *)
Definition second_block : ThreadBlock :=
  let b := mkBlock "T" 1 1 "" [] (did_of "c") "" "" 0 in
  mkBlock "T" 1 1 "" [] (did_of "c") "" (computeBlockHash b) 0.
Definition second_hash : string := BlockHash second_block.
Definition second_proposal : Proposal :=
  mkProposal "T" 1 1 7 (Some second_block) (did_of "c")
    (hex_encode (ed25519_sign (key_of "c") (proposalSigData "T" 1 1 second_hash))).

Definition late : Z := 1000000000000.

(** Replica a sees round 0 to its end. *)
Definition fork_a : list event :=
  [EvPump 0; EvStep 0 (MsgProposal first_proposal)]
  ++ ((fun c => EvStep 0 (MsgVote (vote_in 0 c PREVOTE first_hash))) <$> ["b"; "d"])
  ++ ((fun c => EvStep 0 (MsgVote (vote_in 0 c PRECOMMIT first_hash))) <$> ["b"; "d"]).

(** Replicas b and d see the prevotes of round 0, lock and precommit, but the precommits
    of the others reach them only after their timeout; [other] is d for b and b for d. *)
Definition fork_b (other : string) : list event :=
  [EvPump 0; EvStep 0 (MsgProposal first_proposal)]
  ++ ((fun c => EvStep 0 (MsgVote (vote_in 0 c PREVOTE first_hash))) <$> ["a"; other])
  ++ [EvTick late; EvStep late (MsgProposal second_proposal)]
  ++ ((fun c => EvStep late (MsgVote (vote_in 1 c PREVOTE second_hash))) <$> ["c"; other])
  ++ ((fun c => EvStep late (MsgVote (vote_in 1 c PRECOMMIT second_hash))) <$> ["c"; other]).

Definition events_of (c : string) : list event :=
  if String.eqb c "a" then fork_a else fork_b (if String.eqb c "b" then "d" else "b").
Definition end_of (c : string) : TendermintBackend := run_events (toy_start c) (events_of c).

Definition fork_honest : list string := ["a"; "b"; "d"].

(** An event as [wf_event 1] wants it. *)
Definition event_wfb (ev : event) : bool :=
  match event_msg ev with
  | Some (MsgProposal p) =>
      match pr_Block p with
      | Some b => (Height b =? pr_Height p) && (0 <=? pr_Height p) && (pr_Height p <? 2 ^ 63 - 1)
      | None => true
      end
  | Some (MsgVote v) => v_Round v <=? 1
  | _ => true
  end.

Lemma event_wfb_spec ev : event_wfb ev = true -> wf_event 1 ev.
Proof.
  unfold event_wfb, wf_event. destruct (event_msg ev) as [[p|v|]|]; simpl; [|lia|done..].
  destruct (pr_Block p) as [b|]; [|done]. intros E b' [= <-]. lia.
Qed.

#[local] Instance proposal_eq_dec : EqDecision Proposal.
Proof. solve_decision. Defined.
#[local] Instance msg_eq_dec : EqDecision ConsensusMsg.
Proof. solve_decision. Defined.

Definition author (m : ConsensusMsg) : option string :=
  match m with MsgProposal p => Some (pr_ProposerDid p) | MsgVote v => Some (v_VoterDid v) | MsgOther => None end.

(** The messages under an honest name that reach [c] are messages that replica sent. *)
Definition genuine (c : string) : bool :=
  forallb (fun ev => match event_msg ev with
    | Some m => forallb (fun d => negb (bool_decide (author m = Some (did_of d))) ||
                                  bool_decide (m ∈ sent (end_of d))) fork_honest
    | None => true
    end) (events_of c).

Lemma fork_schedule c : c ∈ fork_honest -> forallb event_wfb (events_of c) = true /\ genuine c = true.
Proof.
  intros Hc%list_elem_of_In. destruct Hc as [<-|[<-|[<-|[]]]]; split; vm_compute; reflexivity.
Qed.

Definition committed (c : string) : list (Z * string) :=
  (fun b => (Height b, BlockHash b)) <$> commits (end_of c).

Lemma fork_commits_a : committed "a" = [(1, first_hash)].
Proof. vm_compute. reflexivity. Qed.

Lemma fork_commits_b c : c ∈ ["b"; "d"] -> committed c = [(1, second_hash)].
Proof. intros Hc%list_elem_of_In. destruct Hc as [<-|[<-|[]]]; vm_compute; reflexivity. Qed.

Lemma fork_hashes : first_hash <> second_hash.
Proof. vm_compute. discriminate. Qed.

(** Across rounds the replicas can disagree.  Replicas a, b and d of a thread of four run
    the code, from an empty state, on well formed messages of which every one under an
    honest name was sent by that replica, and time out at most once; a commits one block
    at height 1, b and d commit another one.  The fourth replica, the proposer of round 1,
    only has to claim in [PolRound] a quorum of prevotes of round 7: [handleProposal]
    drops the lock of b and d on its word. *)
Theorem tendermint_fork :
  (forall c, c ∈ fork_honest -> exists n, n <= 1 /\
     reach toy_range (wf_event 1) toy_thread (did_of c) (key_of c) n (end_of c)) /\
  (forall c ev m d, c ∈ fork_honest -> ev ∈ events_of c -> event_msg ev = Some m ->
     d ∈ fork_honest -> author m = Some (did_of d) -> m ∈ sent (end_of d)) /\
  committed "a" = [(1, first_hash)] /\
  (forall c, c ∈ ["b"; "d"] -> committed c = [(1, second_hash)]) /\
  first_hash <> second_hash.
Proof.
  split; [|split; [|exact (conj fork_commits_a (conj fork_commits_b fork_hashes))]].
  - intros c Hin. exists (ticks (events_of c)). split.
    + apply list_elem_of_In in Hin. destruct Hin as [<-|[<-|[<-|[]]]]; vm_compute; discriminate.
    + apply run_events_reach, Forall_forall. intros ev Hev%list_elem_of_In. apply event_wfb_spec.
      destruct (fork_schedule c Hin) as [Hw _]. exact (proj1 (forallb_forall _ _) Hw ev Hev).
  - intros c ev m d Hin Hev%list_elem_of_In Em Hd%list_elem_of_In Ea.
    destruct (fork_schedule c Hin) as [_ Hg].
    pose proof (proj1 (forallb_forall _ _) Hg ev Hev) as Hall. cbv beta in Hall. rewrite Em in Hall.
    pose proof (proj1 (forallb_forall _ _) Hall d Hd) as Hm. cbv beta in Hm.
    rewrite bool_decide_true in Hm by assumption. exact (proj1 (bool_decide_eq_true _) Hm).
Qed.
