(* ===== verification/Tasks.v ===== *)
(** * The task store ([daemon/tasks/tasks.go])

    The SQLite tables [tasks], [task_events] and [task_deliveries], and every
    store operation on them: creation (idempotent and remote), the status
    state machine, the worker leases (claim, renew, finish), the delivery
    cursor with the re-queueing of expired leases, and the event log.  The
    clock, the UUID and the lease token that the code draws are arguments. *)

From stdpp Require Import base gmap strings list sorting.
From Stdlib Require Import ZArith Lia.
From S2P Require Import Prelude.

Local Open Scope Z_scope.
Local Open Scope go_scope.

Module Tasks.

(** ** Data *)

(** [pb.TaskStatus]: a protobuf enum is an int32, so values outside the
    declared ones reach the code from the wire. *)
Inductive TaskStatus : Type :=
| UNSPECIFIED
| SUBMITTED
| WORKING
| COMPLETED
| FAILED
| CANCELLED
| UNRECOGNIZED (n : Z).

#[export] Instance TaskStatus_eq_dec : EqDecision TaskStatus.
Proof. solve_decision. Defined.

Record Artifact : Type := mkArtifact {
  a_cid : string; a_mime_type : string; a_size : Z;
  a_inline : string; a_uri : string; a_name : string }.

#[export] Instance Artifact_eq_dec : EqDecision Artifact.
Proof. solve_decision. Defined.

(** [pb.Task]. *)
Record Task : Type := mkTask {
  Id : string; Initiator : string; Assignee : string; ThreadId : string;
  Skill : string; Status : TaskStatus;
  InputArtifacts : list Artifact; OutputArtifacts : list Artifact;
  CreatedAt : Z; UpdatedAt : Z; Error : string; Metadata : gmap string string }.

(** [pb.TaskLease]. *)
Record TaskLease : Type := mkLease {
  L_TaskId : string; L_Token : string; L_ExpiresAt : Z; L_Attempt : Z }.

(** [pb.TaskEvent]; [Kind] is the event kind's number. *)
Record TaskEvent : Type := mkEvent {
  E_TaskId : string; E_Status : TaskStatus; E_Kind : Z; E_Data : string;
  E_Seq : Z; E_EmittedAt : Z }.

(** A row of table [tasks]; a nullable column is an option.  The JSON columns
    hold the slice or map they encode. *)
Record task_row : Type := mkRow {
  r_id : string; r_initiator : string; r_assignee : string; r_thread_id : string;
  r_skill : string; r_status : TaskStatus;
  r_input : list Artifact; r_output : option (list Artifact);
  r_metadata : gmap string string;
  r_created_at : Z; r_updated_at : Z; r_error : option string;
  r_key : string; r_max_attempts : Z; r_deadline : option Z;
  r_token : option string; r_owner : option string; r_expires : option Z;
  r_attempt : Z }.

Record delivery : Type := mkDelivery {
  d_sequence : Z; d_task_id : string; d_available_at : Z }.

(** The database: [delivery_seq] is SQLite's AUTOINCREMENT counter. *)
Record TasksDB : Type := mkDB {
  tasks : gmap string task_row;
  events : gmap (string * Z) TaskEvent;
  deliveries : list delivery;
  delivery_seq : Z }.

Definition empty_db : TasksDB := mkDB ∅ ∅ [] 0.

(** ** The status state machine *)

Definition knownStatuses (s : TaskStatus) : bool :=
  match s with
  | SUBMITTED | WORKING | COMPLETED | FAILED | CANCELLED => true
  | UNSPECIFIED | UNRECOGNIZED _ => false
  end.

Definition validTransitions (from to : TaskStatus) : bool :=
  match from, to with
  | SUBMITTED, (WORKING | CANCELLED | FAILED) => true
  | WORKING, (COMPLETED | FAILED | CANCELLED) => true
  | _, _ => false
  end.

(** Panics on a status the state machine does not know. *)
Definition canTransition (from to : TaskStatus) : M TasksDB bool :=
  do! assert_That (knownStatuses from) in
  do! assert_That (knownStatuses to) in
  ret (validTransitions from to).

Definition terminal (s : TaskStatus) : bool :=
  match s with COMPLETED | FAILED | CANCELLED => true | _ => false end.

(** ** Rows and statements *)

(** [scanTask]: a row as the [pb.Task] it decodes to. *)
Definition row_task (r : task_row) : Task :=
  mkTask (r_id r) (r_initiator r) (r_assignee r) (r_thread_id r) (r_skill r) (r_status r)
    (r_input r) (default [] (r_output r)) (r_created_at r) (r_updated_at r)
    (default EmptyString (r_error r)) (r_metadata r).

Definition scanTask (r : task_row) : M TasksDB Task :=
  do! assert_That (knownStatuses (r_status r)) in ret (row_task r).

Definition set_status (st : TaskStatus) (err : option string) (out : option (list Artifact))
    (now : Z) (r : task_row) : task_row :=
  mkRow (r_id r) (r_initiator r) (r_assignee r) (r_thread_id r) (r_skill r) st
    (r_input r) out (r_metadata r) (r_created_at r) now err (r_key r) (r_max_attempts r)
    (r_deadline r) (r_token r) (r_owner r) (r_expires r) (r_attempt r).

Definition set_lease (tok own : option string) (exp : option Z) (attempt : Z)
    (r : task_row) : task_row :=
  mkRow (r_id r) (r_initiator r) (r_assignee r) (r_thread_id r) (r_skill r) (r_status r)
    (r_input r) (r_output r) (r_metadata r) (r_created_at r) (r_updated_at r) (r_error r)
    (r_key r) (r_max_attempts r) (r_deadline r) tok own exp attempt.

Definition set_budget (max : Z) (deadline : option Z) (r : task_row) : task_row :=
  mkRow (r_id r) (r_initiator r) (r_assignee r) (r_thread_id r) (r_skill r) (r_status r)
    (r_input r) (r_output r) (r_metadata r) (r_created_at r) (r_updated_at r) (r_error r)
    (r_key r) max deadline (r_token r) (r_owner r) (r_expires r) (r_attempt r).

Definition with_tasks (f : gmap string task_row -> gmap string task_row) (s : TasksDB) : TasksDB :=
  mkDB (f (tasks s)) (events s) (deliveries s) (delivery_seq s).

(** [UPDATE tasks SET ... WHERE id = ?]. *)
Definition update_row (id : string) (f : task_row -> task_row) (s : TasksDB) : TasksDB :=
  with_tasks (alter f id) s.

(** [UPDATE ... WHERE id = ? AND cond], with the number of affected rows. *)
Definition update_where (id : string) (cond : task_row -> bool) (f : task_row -> task_row)
    (s : TasksDB) : outcome Z * TasksDB :=
  match tasks s !! id with
  | Some r => if cond r then (Ok 1, update_row id f s) else (Ok 0, s)
  | None => (Ok 0, s)
  end.

(** [SELECT ... FROM tasks WHERE id = ?]. *)
Definition select_row (id : string) (s : TasksDB) : outcome task_row :=
  match tasks s !! id with Some r => Ok r | None => Err ErrNoRows end.

(** [SELECT id FROM tasks WHERE initiator=? AND idempotency_key=?]. *)
Definition find_key (initiator key : string) (s : TasksDB) : option string :=
  fst <$> head (filter (fun p => r_initiator (snd p) = initiator /\ r_key (snd p) = key)
                 (map_to_list (tasks s))).

Definition select_key (initiator key : string) (s : TasksDB) : outcome string :=
  match find_key initiator key s with Some id => Ok id | None => Err ErrNoRows end.

(** [INSERT INTO tasks]: the primary key and the partial unique index on
    (initiator, idempotency_key). *)
Definition insert_task (r : task_row) (s : TasksDB) : outcome unit * TasksDB :=
  if decide (is_Some (tasks s !! r_id r)) then (Err ErrUnique, s)
  else if bool_decide (r_key r ≠ EmptyString)
          && bool_decide (is_Some (find_key (r_initiator r) (r_key r) s)) then (Err ErrUnique, s)
  else (Ok tt, with_tasks (<[r_id r := r]>) s).

(** [INSERT INTO task_deliveries (task_id, available_at)]. *)
Definition insert_delivery (id : string) (now : Z) (s : TasksDB) : TasksDB :=
  mkDB (tasks s) (events s)
    (deliveries s ++ [mkDelivery (delivery_seq s + 1) id now]) (delivery_seq s + 1).

(** ** Operations *)

Definition get (id : string) : M TasksDB Task :=
  let! r := query (select_row id) in scanTask r.

Definition Get (id : string) : M TasksDB Task := get id.

Definition create (uuid : string) (now : Z) (id initiator assignee threadID skill : string)
    (inputArtifacts : list Artifact) (meta : gmap string string) (key : string)
    : M TasksDB Task :=
  if bool_decide (skill = EmptyString) then throw ErrInvalidTask else
  if bool_decide (initiator ≠ EmptyString) && bool_decide (initiator = assignee)
  then throw ErrInvalidTask else
  let id := if bool_decide (id = EmptyString) then uuid else id in
  let row := mkRow id initiator assignee threadID skill SUBMITTED inputArtifacts None meta
               now now None key 3 None None None None 0 in
  catch (stmt (insert_task row)) (fun res =>
    match res with
    | Ok _ =>
        do! exec (insert_delivery id now) in
        let! task := get id in
        do! assert_That (bool_decide (Id task = id)) in
        do! assert_That (bool_decide (Status task = SUBMITTED)) in
        do! assert_That (bool_decide (Assignee task = assignee)) in
        ret task
    | Err e =>
        if bool_decide (key ≠ EmptyString) then
          catch (query (select_key initiator key)) (fun look =>
            match look with
            | Ok existing => get existing
            | _ => throw e
            end)
        else throw e
    | Panic => panic
    end).

Definition createDispatched := create.

Definition CreateIdempotent (uuid : string) (now : Z) (initiator assignee threadID skill : string)
    (inputArtifacts : list Artifact) (meta : gmap string string) (key : string)
    : M TasksDB Task :=
  if bool_decide (key ≠ EmptyString) then
    catch (query (select_key initiator key)) (fun look =>
      match look with
      | Ok id => Get id
      | Err ErrNoRows =>
          createDispatched uuid now EmptyString initiator assignee threadID skill
            inputArtifacts meta key
      | Err e => throw e
      | Panic => panic
      end)
  else createDispatched uuid now EmptyString initiator assignee threadID skill
         inputArtifacts meta key.

Definition Create (uuid : string) (now : Z) (initiator assignee threadID skill : string)
    (inputArtifacts : list Artifact) (meta : gmap string string) : M TasksDB Task :=
  CreateIdempotent uuid now initiator assignee threadID skill inputArtifacts meta EmptyString.

Definition CreateFromRemote (uuid : string) (now : Z) (id initiator assignee threadID skill : string)
    (inputArtifacts : list Artifact) (meta : gmap string string) : M TasksDB Task :=
  if bool_decide (id = EmptyString) then throw ErrInvalidTask else
  catch (Get id) (fun existing =>
    match existing with
    | Ok t => ret t
    | _ => createDispatched uuid now id initiator assignee threadID skill inputArtifacts meta
             EmptyString
    end).

Definition updateStatus (now : Z) (id : string) (status : TaskStatus) (errMsg : string)
    (outputArtifacts : list Artifact) : M TasksDB Task :=
  do! tx (let! r := query (select_row id) in
          let! ok := canTransition (r_status r) status in
          guard! ok else ErrInvalidTransition in
          exec (update_row id (set_status status (Some errMsg) (Some outputArtifacts) now))) in
  let! task := get id in
  do! assert_That (bool_decide (Status task = status)) in
  do! assert_That (now <=? UpdatedAt task) in
  ret task.

Definition UpdateStatus := updateStatus.

Definition StartWork (now : Z) (id : string) : M TasksDB Task :=
  let! task := UpdateStatus now id WORKING EmptyString [] in
  do! assert_That (bool_decide (Status task = WORKING)) in ret task.

Definition Complete (now : Z) (id : string) (outputArtifacts : list Artifact) : M TasksDB Task :=
  let! task := UpdateStatus now id COMPLETED EmptyString outputArtifacts in
  do! assert_That (bool_decide (Status task = COMPLETED)) in ret task.

Definition Fail (now : Z) (id errMsg : string) : M TasksDB Task :=
  let! task := UpdateStatus now id FAILED errMsg [] in
  do! assert_That (bool_decide (Status task = FAILED)) in
  do! assert_That (bool_decide (Error task = errMsg)) in ret task.

Definition Cancel (now : Z) (id : string) : M TasksDB Task :=
  let! task := UpdateStatus now id CANCELLED EmptyString [] in
  do! assert_That (bool_decide (Status task = CANCELLED)) in ret task.

(** Durations are nanoseconds, as in package time. *)
Definition Second : Z := 1000000000.
Definition Milliseconds (d : Z) : Z := Z.quot d 1000000.
Definition lease_or_default (lease : Z) : Z := if lease <=? 0 then 30 * Second else lease.

Definition is_live (now : Z) (e : option Z) : bool :=
  match e with Some t => now <? t | None => false end.
Definition is_expired (now : Z) (e : option Z) : bool :=
  match e with Some t => t <=? now | None => false end.

(** [deadline.Valid && deadline.Int64 > 0 && now >= deadline.Int64]. *)
Definition past_deadline (now : Z) (r : task_row) : bool :=
  match r_deadline r with Some d => (0 <? d) && (d <=? now) | None => false end.

Definition budget_spent (r : task_row) : bool :=
  (0 <? r_max_attempts r) && (r_max_attempts r <=? r_attempt r).

Definition cleared : option string := Some EmptyString.

Definition Claim (now : Z) (leaseToken id worker : string) (lease : Z) : M TasksDB TaskLease :=
  let lease := lease_or_default lease in
  let! res := tx (
    let! r := query (select_row id) in
    guard! bool_decide (r_assignee r = worker) else ErrLeaseConflict in
    if past_deadline now r then
      do! exec (fun s => snd (update_where id
                 (fun r => bool_decide (r_status r = SUBMITTED) || bool_decide (r_status r = WORKING))
                 (fun r => set_status FAILED (Some "task deadline exceeded"%string) (r_output r) now r) s)) in
      ret (inr ErrAttemptsExhausted)
    else if bool_decide (r_status r = WORKING)
            && bool_decide (default EmptyString (r_owner r) = worker)
            && is_live now (r_expires r) then
      ret (inl (mkLease id (default EmptyString (r_token r)) (default 0 (r_expires r))
                  (uint32 (r_attempt r))))
    else
      guard! bool_decide (r_status r = SUBMITTED)
             || (bool_decide (r_status r = WORKING) && is_expired now (r_expires r))
        else ErrLeaseConflict in
      if budget_spent r then
        do! exec (update_row id (fun r =>
              set_lease cleared cleared (Some 0) (r_attempt r)
                (set_status FAILED (Some "maximum task attempts exhausted"%string)
                   (r_output r) now r))) in
        ret (inr ErrAttemptsExhausted)
      else
        let until := now + Milliseconds lease in
        do! exec (update_row id (fun r =>
              set_lease (Some leaseToken) (Some worker) (Some until) (r_attempt r + 1)
                (set_status WORKING (r_error r) (r_output r) now r))) in
        ret (inl (mkLease id leaseToken until (uint32 (r_attempt r + 1))))) in
  match res with
  | inl l => ret l
  | inr e => throw e
  end.

Definition SetMaxAttempts (id : string) (max : Z) : M TasksDB unit :=
  if max =? 0 then ret tt else
  guard! 1 <=? max else Errorf "max attempts must be positive" in
  exec (update_row id (fun r => set_budget max (r_deadline r) r)).

(** [Time.UnixMilli] of a time given in nanoseconds since the epoch. *)
Definition UnixMilli (nanos : Z) : Z := nanos `div` 1000000.

Definition SetTimeout (nowNanos : Z) (id : string) (timeout : Z) : M TasksDB unit :=
  if timeout <=? 0 then ret tt else
  exec (update_row id (fun r =>
    set_budget (r_max_attempts r) (Some (UnixMilli (nowNanos + timeout))) r)).

(** The guard of RenewLease and FinishLease: the caller holds the live lease. *)
Definition holds_lease (now : Z) (worker token : string) (r : task_row) : bool :=
  bool_decide (r_status r = WORKING) && bool_decide (r_owner r = Some worker)
  && bool_decide (r_token r = Some token) && is_live now (r_expires r).

Definition RenewLease (now : Z) (id worker leaseToken : string) (lease : Z) : M TasksDB TaskLease :=
  let lease := lease_or_default lease in
  let until := now + Milliseconds lease in
  let! n := stmt (update_where id (holds_lease now worker leaseToken)
              (fun r => set_lease (r_token r) (r_owner r) (Some until) (r_attempt r)
                          (set_status (r_status r) (r_error r) (r_output r) now r))) in
  if n =? 0 then throw ErrLeaseExpired else
  catch (query (fun s => match tasks s !! id with Some r => Ok (r_attempt r) | None => Err ErrNoRows end))
    (fun att => ret (mkLease id leaseToken until
                       (uint32 (match att with Ok a => a | _ => 0 end)))).

Definition FinishLease (now : Z) (id worker leaseToken : string) (status : TaskStatus)
    (errMsg : string) (outputs : list Artifact) : M TasksDB Task :=
  guard! bool_decide (status = COMPLETED) || bool_decide (status = FAILED)
    else ErrInvalidTransition in
  let! n := stmt (update_where id (holds_lease now worker leaseToken)
              (fun r => set_lease cleared cleared (Some 0) (r_attempt r)
                          (set_status status (Some errMsg) (Some outputs) now r))) in
  if n =? 0 then throw ErrLeaseExpired else get id.

(** [SELECT id ... WHERE status=WORKING AND lease_expires_at>0 AND lease_expires_at<=now]. *)
Definition lease_expired (now : Z) (r : task_row) : bool :=
  bool_decide (r_status r = WORKING)
  && match r_expires r with Some t => (0 <? t) && (t <=? now) | None => false end.

Definition expired_rows (now : Z) (s : TasksDB) : list (string * task_row) :=
  filter (fun p => lease_expired now (snd p) = true) (map_to_list (tasks s)).

(** The body of the loop of [requeueExpired] on one selected row. *)
Definition requeue_row (now : Z) (p : string * task_row) : M TasksDB unit :=
  let id := fst p in let r := snd p in
  if past_deadline now r || budget_spent r then
    exec (update_row id (fun r =>
      set_lease cleared cleared (Some 0) (r_attempt r)
        (set_status FAILED (Some "task lease expired after retry budget"%string)
           (r_output r) now r)))
  else
    do! exec (update_row id (fun r =>
          set_lease cleared cleared (Some 0) (r_attempt r)
            (set_status SUBMITTED (r_error r) (r_output r) now r))) in
    exec (insert_delivery id now).

Definition requeueExpired (now : Z) : M TasksDB unit :=
  tx (let! rows := query (fun s => Ok (expired_rows now s)) in
      for_each rows (requeue_row now)).

(** [d.sequence = (SELECT MAX(sequence) ... WHERE task_id = t.id)]. *)
Definition latest_sequence (s : TasksDB) (id : string) : Z :=
  foldr Z.max 0 (d_sequence <$> filter (fun d => d_task_id d = id) (deliveries s)).

Definition delivery_le (x y : Z * task_row) : Prop := fst x <= fst y.
#[export] Instance delivery_le_dec : RelDecision delivery_le.
Proof. intros x y. unfold delivery_le. apply _. Defined.

Definition available (worker : string) (skills : list string) (after : Z) (s : TasksDB)
    (d : delivery) : option (Z * task_row) :=
  match tasks s !! d_task_id d with
  | Some r =>
      if bool_decide (r_assignee r = worker) && bool_decide (r_status r = SUBMITTED)
         && (after <? d_sequence d) && (d_sequence d =? latest_sequence s (d_task_id d))
         && (bool_decide (skills = []) || bool_decide (r_skill r ∈ skills))
      then Some (d_sequence d, r) else None
  | None => None
  end.

Definition limited {A} (limit : Z) (l : list A) : list A :=
  if 0 <? limit then take (Z.to_nat limit) l else l.

(** [scanTaskWithSequence]: unlike [scanTask], an unknown status is an error. *)
Definition scanTaskWithSequence (p : Z * task_row) : outcome (Z * Task) :=
  if knownStatuses (r_status (snd p)) then Ok (fst p, row_task (snd p))
  else Err (Errorf "task has unrecognized status in storage").

Fixpoint scan_all (l : list (Z * task_row)) : outcome (list (Z * Task)) :=
  match l with
  | [] => Ok []
  | p :: l' =>
      match scanTaskWithSequence p with
      | Ok t => match scan_all l' with Ok ts => Ok (t :: ts) | Err e => Err e | Panic => Panic end
      | Err e => Err e
      | Panic => Panic
      end
  end.

Definition ListDeliveries (now : Z) (worker : string) (skills : list string) (after limit : Z)
    : M TasksDB (list (Z * Task)) :=
  guard! bool_decide (worker ≠ EmptyString) else ErrLeaseConflict in
  do! requeueExpired now in
  query (fun s =>
    scan_all (limited limit (merge_sort delivery_le
                               (omap (available worker skills after s) (deliveries s))))).

Definition SaveEvent (event : option TaskEvent) : M TasksDB unit :=
  match event with
  | None => throw (Errorf "task event requires task_id")
  | Some e =>
      guard! bool_decide (E_TaskId e ≠ EmptyString) else Errorf "task event requires task_id" in
      exec (fun s =>
        match events s !! (E_TaskId e, E_Seq e) with
        | Some _ => s
        | None => mkDB (tasks s) (<[(E_TaskId e, E_Seq e) := e]> (events s))
                    (deliveries s) (delivery_seq s)
        end)
  end.

Definition event_le (x y : (string * Z) * TaskEvent) : Prop := snd (fst x) <= snd (fst y).
#[export] Instance event_le_dec : RelDecision event_le.
Proof. intros x y. unfold event_le. apply _. Defined.

Definition ListEvents (taskID : string) (afterSeq : Z) : M TasksDB (list TaskEvent) :=
  query (fun s => Ok (snd <$> merge_sort event_le
    (filter (fun p => fst (fst p) = taskID /\ afterSeq < snd (fst p)) (map_to_list (events s))))).

Definition newest_first (x y : string * task_row) : Prop :=
  r_created_at (snd y) <= r_created_at (snd x).
#[export] Instance newest_first_dec : RelDecision newest_first.
Proof. intros x y. unfold newest_first. apply _. Defined.

Fixpoint scan_tasks (l : list (string * task_row)) : M TasksDB (list Task) :=
  match l with
  | [] => ret []
  | p :: l' => let! t := scanTask (snd p) in let! ts := scan_tasks l' in ret (t :: ts)
  end.

Definition List (did : string) (limit : Z) : M TasksDB (list Task) :=
  let! rows := query (fun s => Ok (limited limit (merge_sort newest_first
    (filter (fun p => r_initiator (snd p) = did \/ r_assignee (snd p) = did)
       (map_to_list (tasks s)))))) in
  scan_tasks rows.

End Tasks.
