(* ===== verification/TasksFacts.v ===== *)
(** * Properties of the task store

    Lemmas on [Tasks]: the effect of every operation on a row under any
    schedule of database failures, the store invariant, and the theorems on
    the lifecycle, the leases, the retry budget, re-queueing and idempotent
    creation. *)

From stdpp Require Import base gmap strings list sorting.
From Stdlib Require Import ZArith Lia.
From S2P Require Import Prelude Tasks.

Local Open Scope Z_scope.
Local Open Scope go_scope.


Import Tasks.

(** ** Every operation as one step *)

(** The store's operations with their arguments (clock readings, UUIDs and
    tokens included). *)
Inductive op : Type :=
| OpCreateIdempotent (uuid : string) (now : Z) (initiator assignee threadID skill : string)
    (inputs : list Artifact) (meta : gmap string string) (key : string)
| OpCreateFromRemote (uuid : string) (now : Z) (id initiator assignee threadID skill : string)
    (inputs : list Artifact) (meta : gmap string string)
| OpUpdateStatus (now : Z) (id : string) (status : TaskStatus) (err : string) (out : list Artifact)
| OpClaim (now : Z) (token id worker : string) (lease : Z)
| OpSetMaxAttempts (id : string) (max : Z)
| OpSetTimeout (now : Z) (id : string) (timeout : Z)
| OpRenewLease (now : Z) (id worker token : string) (lease : Z)
| OpFinishLease (now : Z) (id worker token : string) (status : TaskStatus) (err : string)
    (out : list Artifact)
| OpListDeliveries (now : Z) (worker : string) (skills : list string) (after limit : Z)
| OpSaveEvent (e : option TaskEvent).

Definition void {A} (m : M TasksDB A) : M TasksDB unit := bind m (fun _ => ret tt).

Definition run_op (o : op) : M TasksDB unit :=
  match o with
  | OpCreateIdempotent u n i a t s inp m k => void (CreateIdempotent u n i a t s inp m k)
  | OpCreateFromRemote u n id i a t s inp m => void (CreateFromRemote u n id i a t s inp m)
  | OpUpdateStatus n id st e out => void (UpdateStatus n id st e out)
  | OpClaim n tok id w l => void (Claim n tok id w l)
  | OpSetMaxAttempts id m => SetMaxAttempts id m
  | OpSetTimeout n id t => SetTimeout n id t
  | OpRenewLease n id w tok l => void (RenewLease n id w tok l)
  | OpFinishLease n id w tok st e out => void (FinishLease n id w tok st e out)
  | OpListDeliveries n w sk af l => void (ListDeliveries n w sk af l)
  | OpSaveEvent e => SaveEvent e
  end.

(** A sequence of calls; a call that fails or panics does not stop the next. *)
Fixpoint run_ops (l : list op) (w : world TasksDB) : world TasksDB :=
  match l with
  | [] => w
  | o :: l' => run_ops l' (snd (run_op o w))
  end.

(** The lifecycle one call may take a task through. *)
Definition status_step (a b : TaskStatus) : Prop :=
  a = b \/
  (a = SUBMITTED /\ (b = WORKING \/ b = FAILED \/ b = CANCELLED)) \/
  (a = WORKING /\ (b = SUBMITTED \/ b = COMPLETED \/ b = FAILED \/ b = CANCELLED)).

Definition identity_of (r : task_row) :=
  (r_id r, r_initiator r, r_assignee r, r_thread_id r, r_skill r, r_input r, r_created_at r, r_key r).

(** What one call may do to an existing row. *)
Record row_step (r r' : task_row) : Prop := {
  rs_identity : identity_of r' = identity_of r;
  rs_status : status_step (r_status r) (r_status r');
  rs_terminal : terminal (r_status r) = true -> exists m d, r' = set_budget m d r }.

(** The row of [id] is one step away from [r]. *)
Definition near (id : string) (r : task_row) (s : TasksDB) : Prop :=
  exists r', tasks s !! id = Some r' /\ row_step r r'.

Lemma set_budget_self r : set_budget (r_max_attempts r) (r_deadline r) r = r.
Proof. by destruct r. Qed.

Lemma row_step_refl r : row_step r r.
Proof.
  split; [done|by left|]. intros _. exists (r_max_attempts r), (r_deadline r).
  by rewrite set_budget_self.
Qed.

Lemma near_refl id r s : tasks s !! id = Some r -> near id r s.
Proof. intros H. exists r. split; [done|apply row_step_refl]. Qed.

(** An update of another row, or of this row along [row_step]. *)
Lemma near_update id id' f r s :
  tasks s !! id = Some r -> (id = id' -> row_step r (f r)) -> near id r (update_row id' f s).
Proof.
  intros Hr Hf. unfold near, update_row, with_tasks; simpl.
  destruct (decide (id = id')) as [<-|Hne].
  - exists (f r). rewrite lookup_alter_eq, Hr. auto.
  - exists r. rewrite lookup_alter_ne by done. split; [done|apply row_step_refl].
Qed.

Lemma near_insert id r r' s :
  tasks s !! id = Some r -> near id r (snd (insert_task r' s)).
Proof.
  intros Hr. unfold insert_task. case_decide as Hid; [by apply near_refl|].
  destruct (_ && _); [by apply near_refl|]. apply near_refl. simpl.
  rewrite lookup_insert_ne; [done|]. intros E. apply Hid. rewrite E. eauto.
Qed.

Lemma near_where id id' c f r s :
  tasks s !! id = Some r -> (id = id' -> c r = true -> row_step r (f r)) ->
  near id r (snd (update_where id' c f s)).
Proof.
  intros Hr Hf. unfold update_where.
  destruct (tasks s !! id') as [r'|] eqn:E; [|by apply near_refl].
  destruct (c r') eqn:Ec; [|by apply near_refl]. simpl. apply near_update; [done|].
  intros ->. simplify_map_eq. auto.
Qed.

Lemma near_delivery id r id' now s : near id r s -> near id r (insert_delivery id' now s).
Proof. done. Qed.

Lemma preserves_near_get id r id' : preserves (near id r) (get id').
Proof. unfold get, scanTask. go_preserves. Qed.

Lemma get_readonly id' w : db (snd (get id' w)) = db w.
Proof.
  unfold get, bind. pose proof (query_db (select_row id') w) as Hq.
  destruct (query _ w) as [[x|e|] w1]; simpl in *; [|done..].
  unfold scanTask, assert_That, bind. by destruct (knownStatuses _).
Qed.

(** Steps that leave the status alone or move it forward on a live row. *)
Lemma row_step_live r r' :
  identity_of r' = identity_of r -> terminal (r_status r) = false ->
  status_step (r_status r) (r_status r') -> row_step r r'.
Proof. intros ? Ht ?. split; [done..|]. by rewrite Ht. Qed.

Lemma row_step_budget r m d : row_step r (set_budget m d r).
Proof. split; [done|by left|eauto]. Qed.

Ltac near_solve :=
  intros; repeat match goal with H : _ /\ _ |- _ => destruct H end;
  simplify_eq/=; eauto using near_refl; done.

Section RowStep.
Variables (id : string) (r : task_row).
Notation here := (fun s => tasks s !! id = Some r).

Lemma create_near uuid now id' i a t sk inp m k :
  leads here (create uuid now id' i a t sk inp m k) (near id r).
Proof.
  unfold create. do 2 (case_match; [apply leads_throw; near_solve|]).
  apply leads_catch.
  - apply leads_stmt; [near_solve|]. intros. by apply near_insert.
  - intros res. destruct res; go_preserves; try by apply preserves_near_get.
    all: by apply near_delivery.
Qed.

Lemma updateStatus_near now id' st e out :
  leads here (updateStatus now id' st e out) (near id r).
Proof.
  unfold updateStatus. apply leads_bind.
  2: go_preserves.
  apply leads_tx; [near_solve|]. apply leads_query_bind; [near_solve|].
  intros r0. unfold canTransition, assert_That.
  destruct (knownStatuses (r_status r0)) eqn:K1; [|apply leads_panic; near_solve].
  destruct (knownStatuses st) eqn:K2; [|apply leads_panic; near_solve].
  destruct (validTransitions (r_status r0) st) eqn:V.
  - apply leads_exec; [near_solve|].
    intros s [Hs Hsel]. apply near_update; [done|]. intros <-.
    unfold select_row in Hsel. rewrite Hs in Hsel. simplify_eq.
    destruct (r_status r0) eqn:E; destruct st; try discriminate V;
      apply row_step_live; rewrite ?E; try done; unfold status_step; naive_solver.
  - apply leads_throw. near_solve.
Qed.

Lemma Claim_near now tok id' w l : leads here (Claim now tok id' w l) (near id r).
Proof.
  unfold Claim. cbv zeta. apply leads_bind; [|go_preserves].
  apply leads_tx; [near_solve|]. apply leads_query_bind; [near_solve|]. intros r0.
  assert (Hsame : forall s, here s /\ select_row id' s = Ok r0 -> id = id' -> r = r0).
  { intros s [H1 H2] <-. unfold select_row in H2. rewrite H1 in H2. by simplify_eq. }
  case_bool_decide; [|apply leads_throw; near_solve].
  destruct (past_deadline now r0).
  - apply leads_bind; [|go_preserves]. apply leads_exec; [near_solve|].
    intros s Hs. apply near_where; [apply Hs|]. intros -> Hc.
    apply row_step_live; [done|..]; destruct (r_status r) eqn:E; try discriminate Hc;
      try done; unfold status_step; naive_solver.
  - case_match; [apply leads_ret; near_solve|].
    destruct (bool_decide (r_status r0 = SUBMITTED) || _) eqn:Hg; [|apply leads_throw; near_solve].
    assert (Hlive : r_status r0 = SUBMITTED \/ r_status r0 = WORKING).
    { apply orb_true_iff in Hg as [?%bool_decide_eq_true|[?%bool_decide_eq_true ?]%andb_true_iff];
        auto. }
    destruct (budget_spent r0); (apply leads_bind; [|go_preserves]);
      (apply leads_exec; [near_solve|]); intros s Hs;
      (apply near_update; [apply Hs|]); intros E; rewrite (Hsame s Hs E);
      (apply row_step_live; [done|..]); destruct Hlive as [->| ->]; try done;
      unfold status_step; naive_solver.
Qed.

Lemma holds_lease_working now w tok r0 : holds_lease now w tok r0 = true -> r_status r0 = WORKING.
Proof.
  unfold holds_lease. rewrite !andb_true_iff. intros [[[H _] _] _].
  by apply bool_decide_eq_true in H.
Qed.

Lemma RenewLease_near now id' w tok l : leads here (RenewLease now id' w tok l) (near id r).
Proof.
  unfold RenewLease. cbv zeta. apply leads_bind; [|go_preserves].
  apply leads_stmt; [near_solve|]. intros s Hs. apply near_where; [done|].
  intros _ H%holds_lease_working. apply row_step_live; [done|by rewrite H|by left].
Qed.

Lemma FinishLease_near now id' w tok st e out :
  leads here (FinishLease now id' w tok st e out) (near id r).
Proof.
  unfold FinishLease. destruct (bool_decide (st = COMPLETED) || _) eqn:Hst;
    [|apply leads_throw; near_solve].
  apply leads_bind; [|go_preserves].
  apply leads_stmt; [near_solve|]. intros s Hs. apply near_where; [done|].
  intros _ H%holds_lease_working. apply row_step_live; [done|by rewrite H|].
  unfold status_step. simpl. rewrite H.
  apply orb_true_iff in Hst as [?%bool_decide_eq_true|?%bool_decide_eq_true]; subst; auto 10.
Qed.

Lemma SetMaxAttempts_near id' m : leads here (SetMaxAttempts id' m) (near id r).
Proof.
  unfold SetMaxAttempts. go_leads; try near_solve.
  apply near_update; [done|]. intros _. apply row_step_budget.
Qed.

Lemma SetTimeout_near now id' t : leads here (SetTimeout now id' t) (near id r).
Proof.
  unfold SetTimeout. go_leads; try near_solve.
  apply near_update; [done|]. intros _. apply row_step_budget.
Qed.

Lemma SaveEvent_near e : leads here (SaveEvent e) (near id r).
Proof.
  unfold SaveEvent. go_leads; try near_solve. apply near_refl. by destruct (events _ !! _).
Qed.

(** Re-queueing touches only the row it is given. *)
Lemma requeue_row_other (I : task_row -> Prop) now p :
  fst p <> id ->
  preserves (fun s => exists r', tasks s !! id = Some r' /\ I r') (requeue_row now p).
Proof.
  intros Hne. unfold requeue_row. cbv zeta. go_preserves; try done;
    destruct H as (r' & Hr & HI); exists r'; simpl; rewrite lookup_alter_ne; done.
Qed.

Lemma requeue_row_near now p :
  fst p = id -> r_status r = WORKING -> leads here (requeue_row now p) (near id r).
Proof.
  intros Hid Hw. unfold requeue_row. cbv zeta. rewrite Hid.
  case_match; [|apply leads_bind; [|go_preserves; by apply near_delivery]];
    (apply leads_exec; [near_solve|]); intros s Hs; (apply near_update; [done|]);
    intros _; (apply row_step_live; [done|by rewrite Hw|]);
    unfold status_step; rewrite Hw; simpl; auto 10.
Qed.

Lemma requeue_loop_near now l :
  NoDup (fst <$> l) -> (forall p, p ∈ l -> fst p = id -> r_status r = WORKING) ->
  leads here (for_each l (requeue_row now)) (near id r).
Proof.
  induction l as [|p l IH]; simpl; intros Hnd Hw; [apply leads_ret; near_solve|].
  apply NoDup_cons in Hnd as [Hnin Hnd].
  destruct (decide (fst p = id)) as [Hid|Hne].
  - apply leads_bind; [apply requeue_row_near; [done|]; apply (Hw p); [by constructor|done]|].
    intros _. apply preserves_for_each_in. intros q Hq. apply requeue_row_other.
    intros Hqid. apply Hnin. rewrite Hid, <- Hqid. by apply list_elem_of_fmap_2.
  - intros w Hs. unfold bind.
    destruct (requeue_row_other (eq r) now p Hne w) as (r' & Hr' & <-); [eauto|].
    destruct (requeue_row now p w) as [[u|e|] w1]; simpl in *; [|by apply near_refl..].
    apply IH; [done| |done]. intros q Hq. apply Hw. by constructor.
Qed.

Lemma expired_rows_spec now s p :
  p ∈ expired_rows now s ->
  tasks s !! fst p = Some (snd p) /\ lease_expired now (snd p) = true.
Proof.
  unfold expired_rows. intros [H1 H2]%list_elem_of_filter. destruct p.
  by apply elem_of_map_to_list in H2.
Qed.

Lemma expired_rows_nodup now s : NoDup (fst <$> expired_rows now s).
Proof.
  unfold expired_rows. eapply sublist_NoDup; [apply (NoDup_fst_map_to_list (tasks s))|].
  apply fmap_sublist, sublist_filter.
Qed.

Lemma requeueExpired_near now : leads here (requeueExpired now) (near id r).
Proof.
  unfold requeueExpired. apply leads_tx; [near_solve|]. intros w Hs.
  apply (leads_query_bind here (near id r)); [near_solve| |done].
  intros l w' [Hs' [= <-]]. apply requeue_loop_near; [apply expired_rows_nodup| |done].
  intros p [Hp He]%expired_rows_spec Hid. rewrite Hid in Hp. simplify_map_eq.
  unfold lease_expired in He. apply andb_true_iff in He as [He _].
  by apply bool_decide_eq_true in He.
Qed.

Lemma ListDeliveries_near now w sk af l : leads here (ListDeliveries now w sk af l) (near id r).
Proof.
  unfold ListDeliveries. case_match; [|apply leads_throw; near_solve].
  apply leads_bind; [apply requeueExpired_near|go_preserves].
Qed.

Lemma CreateIdempotent_near u n i a t sk inp m k :
  leads here (CreateIdempotent u n i a t sk inp m k) (near id r).
Proof.
  unfold CreateIdempotent, createDispatched, Get.
  case_match; [|apply create_near].
  intros w Hs. apply (leads_query_catch here (near id r)); [near_solve|..|done].
  - apply leads_throw. near_solve.
  - intros [x|e|] w' [Hs' _].
    + apply leads_preserves with (P := here); [near_solve|apply preserves_near_get|done].
    + destruct e; try (by apply near_refl). by apply create_near.
    + by apply near_refl.
Qed.

Lemma CreateFromRemote_near u n id' i a t sk inp m :
  leads here (CreateFromRemote u n id' i a t sk inp m) (near id r).
Proof.
  unfold CreateFromRemote, createDispatched, Get.
  case_match; [apply leads_throw; near_solve|].
  intros w Hs. unfold catch. pose proof (get_readonly id' w) as Hro.
  destruct (get id' w) as [[x|e|] w1]; simpl in *; rewrite <- Hro in Hs;
    [by apply near_refl| |by apply near_refl]. by apply create_near.
Qed.

Lemma void_leads {A} (P Q : TasksDB -> Prop) (m : M TasksDB A) :
  leads P m Q -> leads P (void m) Q.
Proof. intros H. apply leads_bind; [done|]. intros a. apply preserves_ret. Qed.

(** The effect of any call on an existing row. *)
Lemma op_row_step o : leads here (run_op o) (near id r).
Proof.
  destruct o; simpl; try apply void_leads;
    eauto using CreateIdempotent_near, CreateFromRemote_near, updateStatus_near, Claim_near,
      RenewLease_near, FinishLease_near, ListDeliveries_near, SetMaxAttempts_near,
      SetTimeout_near, SaveEvent_near.
Qed.
End RowStep.

(** ** Store well-formedness *)

Definition row_wf (id : string) (r : task_row) : Prop :=
  r_id r = id /\ knownStatuses (r_status r) = true /\ 1 <= r_max_attempts r /\ 0 <= r_attempt r.

(** The store invariant: rows filed under their id with a status the code
    knows and a positive retry budget, idempotency keys unique per initiator,
    delivery sequences distinct and bounded by the AUTOINCREMENT counter. *)
Record store_wf (s : TasksDB) : Prop := {
  wf_rows : map_Forall row_wf (tasks s);
  wf_keys : forall id1 id2 r1 r2, tasks s !! id1 = Some r1 -> tasks s !! id2 = Some r2 ->
    r_key r1 <> EmptyString -> r_initiator r1 = r_initiator r2 -> r_key r1 = r_key r2 -> id1 = id2;
  wf_seqs : Forall (fun d => d_sequence d <= delivery_seq s) (deliveries s);
  wf_nonneg : 0 <= delivery_seq s }.

Lemma empty_db_wf : store_wf empty_db.
Proof. split; [apply map_Forall_empty| |constructor|done]. intros * H. done. Qed.

Lemma find_key_some i k s id :
  find_key i k s = Some id ->
  exists r, tasks s !! id = Some r /\ r_initiator r = i /\ r_key r = k.
Proof.
  unfold find_key. destruct (filter _ _) as [|[x r] l] eqn:E; [done|]. intros [= <-].
  assert ((x, r) ∈ filter (fun p : string * task_row => r_initiator p.2 = i /\ r_key p.2 = k)
            (map_to_list (tasks s))) as Hin by (rewrite E; constructor).
  apply list_elem_of_filter in Hin as [[? ?] Hin]. apply elem_of_map_to_list in Hin. eauto.
Qed.

Lemma find_key_none i k s id r :
  find_key i k s = None -> tasks s !! id = Some r -> r_initiator r = i -> r_key r = k -> False.
Proof.
  unfold find_key. destruct (filter _ _) as [|[x r0] l] eqn:E; [|done]. intros _ Hr Hi Hk.
  assert ((id, r) ∈ filter (fun p : string * task_row => r_initiator p.2 = i /\ r_key p.2 = k)
            (map_to_list (tasks s))) as Hin.
  { apply list_elem_of_filter. split; [done|]. by apply elem_of_map_to_list. }
  rewrite E in Hin. by apply elem_of_nil in Hin.
Qed.

(** In a well-formed store the key lookup finds the one row with that key. *)
Lemma find_key_unique i k s id r :
  store_wf s -> k <> EmptyString -> tasks s !! id = Some r -> r_initiator r = i -> r_key r = k ->
  find_key i k s = Some id.
Proof.
  intros Hwf Hk Hr Hi Hrk. destruct (find_key i k s) as [id'|] eqn:E.
  - apply find_key_some in E as (r' & Hr' & Hi' & Hk'). f_equal.
    eapply (wf_keys s Hwf id' id r' r); congruence.
  - exfalso. by eapply find_key_none.
Qed.

Lemma store_wf_update id f s :
  store_wf s ->
  (forall r, tasks s !! id = Some r -> row_wf id r -> row_wf id (f r) /\ identity_of (f r) = identity_of r) ->
  store_wf (update_row id f s).
Proof.
  intros [Hrows Hkeys Hseqs Hnn] Hf. split; simpl; [| |done|done].
  - intros id' r'. destruct (decide (id = id')) as [<-|Hne].
    + rewrite lookup_alter_eq. destruct (tasks s !! id) as [r|] eqn:E; [|done].
      intros [= <-]. apply Hf; [done|]. by apply Hrows.
    + rewrite lookup_alter_ne by done. apply Hrows.
  - assert (Hid : forall id' r', alter f id (tasks s) !! id' = Some r' ->
      exists r, tasks s !! id' = Some r /\ identity_of r' = identity_of r).
    { intros id' r'. destruct (decide (id = id')) as [<-|Hne].
      - rewrite lookup_alter_eq. destruct (tasks s !! id) as [r|] eqn:E; [|done].
        intros [= <-]. exists r. split; [done|]. apply Hf; [done|]. by apply Hrows.
      - rewrite lookup_alter_ne by done. eauto. }
    intros id1 id2 r1 r2 (q1 & H1 & E1)%Hid (q2 & H2 & E2)%Hid.
    unfold identity_of in E1, E2. injection E1 as ? ? ? ? ? ? ? ?.
    injection E2 as ? ? ? ? ? ? ? ?. intros. eapply (Hkeys id1 id2 q1 q2); congruence.
Qed.

Lemma store_wf_where id c f s :
  store_wf s ->
  (forall r, c r = true -> row_wf id r -> row_wf id (f r) /\ identity_of (f r) = identity_of r) ->
  store_wf (snd (update_where id c f s)).
Proof.
  intros Hwf Hf. unfold update_where. destruct (tasks s !! id) as [r|] eqn:E; [|done].
  destruct (c r) eqn:Ec; [|done]. apply store_wf_update; [done|]. intros r' ? ?.
  simplify_eq. auto.
Qed.

Lemma store_wf_delivery id now s : store_wf s -> store_wf (insert_delivery id now s).
Proof.
  intros [H1 H2 H3 H4]. split; simpl; [done|done| |lia].
  apply Forall_app. split; [|repeat constructor; simpl; lia].
  eapply Forall_impl; [exact H3|]. simpl. lia.
Qed.

Lemma store_wf_insert r s :
  store_wf s -> row_wf (r_id r) r -> store_wf (snd (insert_task r s)).
Proof.
  intros Hwf Hr. unfold insert_task. case_decide as Hid; [done|].
  destruct (_ && _) eqn:Hb; [done|].
  assert (Hfresh : r_key r = EmptyString \/ find_key (r_initiator r) (r_key r) s = None).
  { apply andb_false_iff in Hb as [Hk|Hf]; [left|right].
    - apply bool_decide_eq_false in Hk. by apply dec_stable in Hk.
    - apply bool_decide_eq_false in Hf. by apply eq_None_not_Some. }
  destruct Hwf as [H1 H2 H3 H4]; split; simpl; [by apply map_Forall_insert_2| |done|done].
  intros id1 id2 r1 r2. rewrite !lookup_insert_Some.
  intros [[<- <-]|[? ?]] [[<- <-]|[? ?]] ? Hi Ek; eauto; exfalso;
    destruct Hfresh; try congruence; eapply find_key_none; eauto.
Qed.

(** Statements that set the status and the lease keep a row well formed. *)
Ltac row_wf_solve :=
  intros; match goal with |- row_wf _ _ /\ _ => idtac | |- row_wf _ _ => idtac end;
  repeat match goal with H : row_wf _ _ |- _ => destruct H as (? & ? & ? & ?) end;
  unfold row_wf; simpl; repeat split; try done; try lia.

Lemma create_wf uuid now id i a t sk inp m k :
  preserves store_wf (create uuid now id i a t sk inp m k).
Proof.
  unfold create, get, scanTask. cbv zeta. go_preserves; try by auto using store_wf_delivery.
  apply store_wf_insert; [done|]. by row_wf_solve.
Qed.

Lemma get_wf id : preserves store_wf (get id).
Proof. unfold get, scanTask. go_preserves. Qed.

Lemma updateStatus_wf now id st e out : preserves store_wf (updateStatus now id st e out).
Proof.
  unfold updateStatus. apply preserves_bind; [|go_preserves; apply get_wf].
  apply preserves_tx, preserves_bind; [apply preserves_query|]. intros r.
  unfold canTransition, assert_That.
  destruct (knownStatuses (r_status r)); [|intros w Hw; exact Hw].
  destruct (knownStatuses st) eqn:K; [|intros w Hw; exact Hw].
  destruct (validTransitions _ _); [|apply preserves_throw].
  apply preserves_exec. intros s Hs. apply store_wf_update; [done|]. row_wf_solve.
Qed.

Lemma Claim_wf now tok id w l : preserves store_wf (Claim now tok id w l).
Proof.
  unfold Claim. cbv zeta. go_preserves;
    [apply store_wf_where|apply store_wf_update..]; try done; row_wf_solve.
Qed.

Lemma requeueExpired_wf now : preserves store_wf (requeueExpired now).
Proof.
  unfold requeueExpired, requeue_row. cbv zeta.
  go_preserves; try (by auto using store_wf_delivery); (apply store_wf_update; [done|]);
    row_wf_solve.
Qed.

#[export] Hint Resolve create_wf get_wf updateStatus_wf Claim_wf requeueExpired_wf : molt_ops.

Lemma run_op_wf o : preserves store_wf (run_op o).
Proof.
  destruct o; simpl; unfold void, CreateIdempotent, CreateFromRemote, createDispatched, Get,
    UpdateStatus, SetMaxAttempts, SetTimeout, RenewLease, FinishLease, ListDeliveries, SaveEvent;
    go_preserves;
    try (apply store_wf_update; [done|]); try (apply store_wf_where; [done|]); try row_wf_solve.
  - apply orb_true_iff in Heqb as [?%bool_decide_eq_true|?%bool_decide_eq_true]; by subst.
  - destruct (events _ !! _); [done|]. by destruct H.
Qed.

(** ** Sequences of calls *)

Lemma run_ops_preserves (I : TasksDB -> Prop) l w :
  (forall o, o ∈ l -> preserves I (run_op o)) -> I (db w) -> I (db (run_ops l w)).
Proof.
  revert w. induction l as [|o l IH]; intros w Hp Hw; [done|]. simpl. apply IH.
  - intros o' Ho'. apply Hp. by constructor.
  - apply (Hp o); [constructor|done].
Qed.

(** Once terminal, a row is changed by no call but in its retry budget. *)
Lemma run_ops_terminal ops w id r :
  tasks (db w) !! id = Some r -> terminal (r_status r) = true ->
  exists m d, tasks (db (run_ops ops w)) !! id = Some (set_budget m d r).
Proof.
  revert w r. induction ops as [|o ops IH]; intros w r Hr Ht; simpl.
  - exists (r_max_attempts r), (r_deadline r). by rewrite set_budget_self.
  - destruct (op_row_step id r o w Hr) as (r1 & H1 & Hstep).
    destruct (rs_terminal _ _ Hstep Ht) as (m1 & d1 & ->).
    destruct (IH _ _ H1 Ht) as (m & d & Hmd). exists m, d. by rewrite Hmd.
Qed.

(** ** What a successful claim does *)

Definition lease_row (now : Z) (token worker : string) (lease : Z) (r : task_row) : task_row :=
  set_lease (Some token) (Some worker) (Some (now + Milliseconds (lease_or_default lease)))
    (r_attempt r + 1) (set_status WORKING (r_error r) (r_output r) now r).

Inductive claim_result (now : Z) (token id worker : string) (lease : Z) (r : task_row)
    (l : TaskLease) (s s' : TasksDB) : Prop :=
| claim_same :
    r_status r = WORKING -> default EmptyString (r_owner r) = worker ->
    is_live now (r_expires r) = true ->
    l = mkLease id (default EmptyString (r_token r)) (default 0 (r_expires r)) (uint32 (r_attempt r)) ->
    s' = s -> claim_result now token id worker lease r l s s'
| claim_new :
    r_status r = SUBMITTED \/ (r_status r = WORKING /\ is_expired now (r_expires r) = true) ->
    budget_spent r = false ->
    l = mkLease id token (now + Milliseconds (lease_or_default lease)) (uint32 (r_attempt r + 1)) ->
    s' = update_row id (lease_row now token worker lease) s ->
    claim_result now token id worker lease r l s s'.

Lemma select_row_ok id s r : select_row id s = Ok r -> tasks s !! id = Some r.
Proof. unfold select_row. destruct (tasks s !! id); congruence. Qed.

Lemma Claim_ok now token id worker lease w l w' :
  Claim now token id worker lease w = (Ok l, w') ->
  exists r, tasks (db w) !! id = Some r /\ r_assignee r = worker /\
    past_deadline now r = false /\
    claim_result now token id worker lease r l (db w) (db w').
Proof.
  unfold Claim. cbv zeta. intros H. apply bind_ok in H as (res & w1 & H1 & H2).
  assert (w1 = w' /\ res = inl l) as [-> ->].
  { destruct res; [by inversion H2|discriminate]. }
  apply tx_ok in H1 as (wa & wb & Ea & Hb & Eb). rewrite Eb, <- Ea. clear Ea Eb H2 w w'.
  apply bind_ok in Hb as (r & wc & [Hsel Hc]%query_ok & Hb).
  apply select_row_ok in Hsel. rewrite <- Hc in *. clear Hc wa. exists r.
  case_bool_decide as Ha; [|discriminate].
  destruct (past_deadline now r); [by go_inv|].
  split; [done|]. split; [done|]. split; [done|].
  destruct (bool_decide (r_status r = WORKING) && _ && _) eqn:Hlive.
  - rewrite !andb_true_iff, !bool_decide_eq_true in Hlive. destruct Hlive as [[? ?] ?].
    go_inv. by apply claim_same.
  - destruct (bool_decide (r_status r = SUBMITTED) || _) eqn:Hg; [|discriminate].
    destruct (budget_spent r) eqn:Hbud; [by go_inv|]. go_inv.
    apply claim_new; [|done..].
    rewrite orb_true_iff, andb_true_iff, !bool_decide_eq_true in Hg. done.
Qed.

(** ** The row of one task under any call *)

(** The row of [id] exists and satisfies [I]. *)
Definition holds (id : string) (I : task_row -> Prop) (s : TasksDB) : Prop :=
  exists r, tasks s !! id = Some r /\ I r.

Lemma holds_update id I id' f s :
  holds id I s -> (id = id' -> forall r, tasks s !! id = Some r -> I r -> I (f r)) ->
  holds id I (update_row id' f s).
Proof.
  intros (r & Hr & HI) Hf. unfold holds, update_row, with_tasks; simpl.
  destruct (decide (id = id')) as [<-|Hne].
  - exists (f r). rewrite lookup_alter_eq, Hr. eauto.
  - exists r. by rewrite lookup_alter_ne.
Qed.

Lemma holds_where id I id' c f s :
  holds id I s -> (id = id' -> forall r, c r = true -> I r -> I (f r)) ->
  holds id I (snd (update_where id' c f s)).
Proof.
  intros Hh Hf. unfold update_where. destruct (tasks s !! id') as [r'|] eqn:E; [|done].
  destruct (c r') eqn:Ec; [|done]. apply holds_update; [done|]. intros -> r Hr. simplify_eq. eauto.
Qed.

Lemma holds_insert id I r' s : holds id I s -> holds id I (snd (insert_task r' s)).
Proof.
  intros (r & Hr & HI). unfold insert_task. case_decide as Hid; [by exists r|].
  destruct (_ && _); [by exists r|]. exists r. simpl.
  rewrite lookup_insert_ne; [done|]. intros E. apply Hid. rewrite E. eauto.
Qed.

Lemma create_holds id I uuid now id' i a t sk inp m k :
  preserves (holds id I) (create uuid now id' i a t sk inp m k).
Proof.
  unfold create, get, scanTask. cbv zeta. go_preserves; try done. by apply holds_insert.
Qed.

Lemma get_holds id I id' : preserves (holds id I) (get id').
Proof. unfold get, scanTask. go_preserves. Qed.

#[export] Hint Resolve create_holds get_holds : molt_ops.

(** ** Exclusion *)

(** The lease [tok] until [exp] is held by [w], or the task is over. *)
Definition held (w tok : string) (exp : Z) (r : task_row) : Prop :=
  terminal (r_status r) = true \/
  (r_status r = WORKING /\ default EmptyString (r_owner r) = w /\
   default EmptyString (r_token r) = tok /\ r_expires r = Some exp).

(** Calls that cannot end the lease of [id] that runs until [exp]: claims and
    delivery polls whose clock reads before [exp]; no renewal of that task. *)
Definition before (id : string) (exp : Z) (o : op) : Prop :=
  match o with
  | OpClaim now _ _ _ _ => now < exp
  | OpListDeliveries now _ _ _ _ => now < exp
  | OpRenewLease _ id' _ _ _ => id' <> id
  | _ => True
  end.

Section Held.
Variables (id w tok : string) (exp : Z).
Notation Hd := (holds id (held w tok exp)).

Lemma held_live now r :
  held w tok exp r -> now < exp ->
  (r_status r = SUBMITTED \/ (r_status r = WORKING /\ is_expired now (r_expires r) = true)) ->
  False.
Proof.
  intros [Ht|(Hs & _ & _ & He)] Hlt [E|[E Hexp]]; rewrite E in *; try discriminate.
  rewrite He in Hexp. simpl in Hexp. lia.
Qed.

Lemma updateStatus_held now id' st e out : preserves Hd (updateStatus now id' st e out).
Proof.
  unfold updateStatus. apply preserves_bind; [|go_preserves].
  apply preserves_tx. apply (leads_query_bind Hd Hd); [done|]. intros r0.
  unfold canTransition, assert_That.
  destruct (knownStatuses (r_status r0)); [|by intros wo [? _]].
  destruct (knownStatuses st); [|by intros wo [? _]].
  destruct (validTransitions (r_status r0) st) eqn:V; [|by intros wo [? _]].
  apply leads_exec; [by intros ? []|]. intros s [Hs Hsel%select_row_ok].
  apply holds_update; [done|]. intros <- r Hr Hh. rewrite Hr in Hsel. injection Hsel as <-. left. simpl.
  destruct Hh as [Ht|(E & _)]; [by destruct (r_status r)|].
  rewrite E in V. by destruct st.
Qed.

Lemma Claim_held now token id' w' l :
  now < exp -> preserves Hd (Claim now token id' w' l).
Proof.
  intros Hlt. unfold Claim. cbv zeta. apply preserves_bind; [|go_preserves].
  apply preserves_tx. apply (leads_query_bind Hd Hd); [done|]. intros r0.
  case_bool_decide; [|by intros wo [? _]].
  destruct (past_deadline now r0).
  - apply leads_bind; [|go_preserves]. apply leads_exec; [by intros ? []|].
    intros s [Hs _]. apply holds_where; [done|]. intros; by left.
  - case_match; [by intros wo [? _]|].
    destruct (bool_decide (r_status r0 = SUBMITTED) || _) eqn:Hg; [|by intros wo [? _]].
    rewrite orb_true_iff, andb_true_iff, !bool_decide_eq_true in Hg.
    case_match; (apply leads_bind; [|go_preserves]); (apply leads_exec; [by intros ? []|]);
      intros s [Hs Hsel%select_row_ok]; (apply holds_update; [done|]);
      intros <- r Hr Hh; rewrite Hr in Hsel; injection Hsel as <-;
      by destruct (held_live now r Hh Hlt Hg).
Qed.

Lemma FinishLease_held now id' w' token st e out :
  preserves Hd (FinishLease now id' w' token st e out).
Proof.
  unfold FinishLease. destruct (bool_decide (st = COMPLETED) || _) eqn:Hst; [|by intros wo].
  apply preserves_bind; [|go_preserves].
  apply preserves_stmt. intros s Hs. apply holds_where; [done|]. intros _ r _ _. left.
  by apply orb_true_iff in Hst as [?%bool_decide_eq_true|?%bool_decide_eq_true]; subst.
Qed.

Lemma requeueExpired_held now : now < exp -> preserves Hd (requeueExpired now).
Proof.
  intros Hlt. unfold requeueExpired. apply preserves_tx. intros wo Hs.
  apply (leads_query_bind Hd Hd); [done| |done].
  intros l wo' [Hs' [= <-]]. apply preserves_for_each_in; [|done].
  intros p [Hp He]%expired_rows_spec. apply requeue_row_other.
  intros Hid. destruct Hs' as (r & Hr & Hh). rewrite Hid in Hp. simplify_eq.
  apply (held_live now (snd p) Hh Hlt). right. unfold lease_expired in He.
  apply andb_true_iff in He as [Hw He]. apply bool_decide_eq_true in Hw. split; [done|].
  destruct (r_expires (snd p)); [|done]. simpl. by apply andb_true_iff in He as [_ ?].
Qed.

Lemma run_op_held o : before id exp o -> preserves Hd (run_op o).
Proof.
  pose proof updateStatus_held. pose proof FinishLease_held.
  pose proof Claim_held. pose proof requeueExpired_held.
  destruct o; simpl; intros Hb; unfold void, CreateIdempotent, CreateFromRemote,
    createDispatched, Get, UpdateStatus, SetMaxAttempts, SetTimeout, RenewLease, ListDeliveries,
    SaveEvent; go_preserves;
    try (apply holds_update; [done|]; by intros _ r _ Hh).
  - apply holds_where; [done|]. intros <-. done.
  - by destruct (events _ !! _).
Qed.
End Held.

(** ** The retry budget *)

Definition rows (I : task_row -> Prop) (s : TasksDB) : Prop := map_Forall (fun _ r => I r) (tasks s).

Lemma rows_update I id f s :
  rows I s -> (forall r, tasks s !! id = Some r -> I r -> I (f r)) -> rows I (update_row id f s).
Proof.
  intros Hs Hf id' r'. simpl. destruct (decide (id = id')) as [<-|Hne].
  - rewrite lookup_alter_eq. destruct (tasks s !! id) as [r|] eqn:E; [|done].
    intros [= <-]. apply Hf; [done|]. by eapply Hs.
  - rewrite lookup_alter_ne by done. apply Hs.
Qed.

Lemma rows_where I id c f s :
  rows I s -> (forall r, I r -> I (f r)) -> rows I (snd (update_where id c f s)).
Proof.
  intros Hs Hf. unfold update_where. destruct (tasks s !! id); [|done].
  destruct (c t); [|done]. apply rows_update; auto.
Qed.

Lemma rows_insert (I : task_row -> Prop) r s : rows I s -> I r -> rows I (snd (insert_task r s)).
Proof.
  intros Hs Hr. unfold insert_task. case_decide; [done|]. destruct (_ && _); [done|].
  by apply map_Forall_insert_2.
Qed.

Section Budget.
Variable B : Z.
Hypothesis HB : 3 <= B.

Definition in_budget (r : task_row) : Prop := 1 <= r_max_attempts r <= B /\ r_attempt r <= B.
Definition budget_le (o : op) : Prop := match o with OpSetMaxAttempts _ m => m <= B | _ => True end.
Notation In := (rows in_budget).

Lemma create_budget uuid now id i a t sk inp m k :
  preserves In (create uuid now id i a t sk inp m k).
Proof.
  unfold create, get, scanTask. cbv zeta. go_preserves; try done.
  apply rows_insert; [done|]. unfold in_budget; simpl; lia.
Qed.

Lemma Claim_budget now token id w l : preserves In (Claim now token id w l).
Proof.
  unfold Claim. cbv zeta. apply preserves_bind; [|go_preserves].
  apply preserves_tx. apply (leads_query_bind In In); [done|]. intros r0.
  case_bool_decide; [|by intros wo [? _]].
  destruct (past_deadline now r0).
  { apply leads_bind; [|go_preserves]. apply leads_exec; [by intros ? []|].
    intros s [Hs _]. by apply rows_where. }
  case_match; [by intros wo [? _]|]. case_match; [|by intros wo [? _]].
  destruct (budget_spent r0) eqn:Hb; (apply leads_bind; [|go_preserves]);
    (apply leads_exec; [by intros ? []|]); intros s [Hs Hsel%select_row_ok];
    (apply rows_update; [done|]); intros r Hr; [done|]. rewrite Hr in Hsel. injection Hsel as <-.
  unfold in_budget, budget_spent in *. simpl. lia.
Qed.

Lemma updateStatus_budget now id st e out : preserves In (updateStatus now id st e out).
Proof.
  unfold updateStatus, get, scanTask, canTransition. go_preserves. by apply rows_update.
Qed.

Lemma requeueExpired_budget now : preserves In (requeueExpired now).
Proof.
  unfold requeueExpired, requeue_row. cbv zeta. go_preserves; try done; by apply rows_update.
Qed.

Lemma run_op_budget o : budget_le o -> preserves In (run_op o).
Proof.
  pose proof create_budget. pose proof Claim_budget. pose proof updateStatus_budget.
  pose proof requeueExpired_budget.
  destruct o; simpl; intros Hb; unfold void, CreateIdempotent, CreateFromRemote,
    createDispatched, Get, get, scanTask, UpdateStatus, SetMaxAttempts, SetTimeout, RenewLease,
    FinishLease, ListDeliveries, SaveEvent; go_preserves;
    try (by apply rows_where); try (by apply rows_update).
  - apply rows_update; [done|]. intros r _. unfold in_budget; simpl. lia.
  - by destruct (events _ !! _).
Qed.
End Budget.

(** ** The leases granted *)

(** The leases the claims of task [id] were answered with, in a run of calls. *)
Fixpoint granted (id : string) (l : list op) (w : world TasksDB) : list TaskLease :=
  match l with
  | [] => []
  | o :: l' =>
      (match o with
       | OpClaim now tok id' worker lease =>
           if String.eqb id' id
           then match fst (Claim now tok id' worker lease w) with Ok lease => [lease] | _ => [] end
           else []
       | _ => []
       end ++ granted id l' (snd (run_op o w)))%list
  end.

(** The tokens of these leases: a worker that claims again what it holds is
    answered with the lease it has. *)
Definition tokens (l : list TaskLease) : gset string := list_to_set (L_Token <$> l).

Lemma tokens_app l1 l2 : tokens (l1 ++ l2) = tokens l1 ∪ tokens l2.
Proof. unfold tokens. by rewrite fmap_app, list_to_set_app_L. Qed.

Section Granted.
Variable id : string.

(** The row counts the tokens [T] handed out, and its lease is one of them. *)
Definition counted (T : gset string) (r : task_row) : Prop :=
  Z.of_nat (size T) <= r_attempt r /\
  (default EmptyString (r_owner r) <> EmptyString -> default EmptyString (r_token r) ∈ T).

Definition counts (T : gset string) (s : TasksDB) : Prop :=
  match tasks s !! id with Some r => counted T r | None => T = ∅ end.

Variable T : gset string.
Notation K := (counts T).

Lemma counts_update id' f s :
  K s -> (forall r, tasks s !! id = Some r -> id = id' -> counted T r -> counted T (f r)) ->
  K (update_row id' f s).
Proof.
  unfold counts, update_row, with_tasks. simpl. intros Hs Hf.
  destruct (decide (id = id')) as [<-|Hne]; [|by rewrite lookup_alter_ne].
  rewrite lookup_alter_eq. destruct (tasks s !! id); simpl; auto.
Qed.

Lemma counts_where id' c f s :
  K s -> (forall r, c r = true -> counted T r -> counted T (f r)) -> K (snd (update_where id' c f s)).
Proof.
  intros Hs Hf. unfold update_where. destruct (tasks s !! id') as [r'|] eqn:E; [|done].
  destruct (c r') eqn:Hc; [|done]. simpl. apply counts_update; [done|].
  intros r Hr <-. simplify_map_eq. auto.
Qed.

Lemma counts_insert r s : K s -> counted ∅ r -> K (snd (insert_task r s)).
Proof.
  unfold counts, insert_task. intros Hs Hr. case_decide as Hid; [done|]. destruct (_ && _); [done|].
  simpl. destruct (decide (r_id r = id)) as [Heq|Hne]; [|by rewrite lookup_insert_ne].
  rewrite Heq, lookup_insert_eq. rewrite Heq in Hid. apply eq_None_not_Some in Hid.
  rewrite Hid in Hs. by subst.
Qed.

(** A cleared lease names no owner. *)
Lemma counted_cleared e r : counted T r -> counted T (set_lease cleared cleared e (r_attempt r) r).
Proof. intros [? _]. split; [done|]. by intros []. Qed.

Lemma counted_status st e out now r : counted T r -> counted T (set_status st e out now r).
Proof. done. Qed.

Lemma create_counts uuid now id' i a t sk inp m k :
  preserves K (create uuid now id' i a t sk inp m k).
Proof.
  unfold create, get, scanTask. cbv zeta. go_preserves; try done.
  apply counts_insert; [done|]. by split.
Qed.

Lemma updateStatus_counts now id' st e out : preserves K (updateStatus now id' st e out).
Proof. unfold updateStatus, get, scanTask, canTransition. go_preserves. by apply counts_update. Qed.

Lemma requeueExpired_counts now : preserves K (requeueExpired now).
Proof.
  unfold requeueExpired, requeue_row. cbv zeta.
  go_preserves; try done; (apply counts_update; [done|]); intros r _ _ Hr;
    by apply (counted_cleared _ (set_status _ _ _ _ r)).
Qed.

(** A claim of another task hands out nothing. *)
Lemma Claim_counts_other now tok id' worker lease :
  id' <> id -> preserves K (Claim now tok id' worker lease).
Proof.
  intros Hne. unfold Claim. cbv zeta.
  go_preserves; try (by apply counts_update); by apply counts_where.
Qed.

Lemma run_op_counts o :
  match o with OpClaim _ _ id' _ _ => id' <> id | _ => True end -> preserves K (run_op o).
Proof.
  pose proof create_counts. pose proof Claim_counts_other. pose proof updateStatus_counts.
  pose proof requeueExpired_counts.
  destruct o; simpl; intros Hb; unfold void, CreateIdempotent, CreateFromRemote,
    createDispatched, Get, get, scanTask, UpdateStatus, SetMaxAttempts, SetTimeout, RenewLease,
    FinishLease, ListDeliveries, SaveEvent; go_preserves;
    try (by apply counts_update); try (by apply counts_where).
  - apply counts_where; [done|]. intros r _ Hr. by apply (counted_cleared _ (set_status _ _ _ _ r)).
  - by destruct (events _ !! _).
Qed.

(** A claim that is refused hands out nothing. *)
Lemma Claim_refused now tok worker lease w :
  is_ok (fst (Claim now tok id worker lease w)) = false -> K (db w) ->
  K (db (snd (Claim now tok id worker lease w))).
Proof.
  unfold Claim. cbv zeta. intros Hno Hw. unfold bind at 1 in Hno. unfold bind at 1.
  destruct (tx _ w) as [[[l|e]|e|] w1] eqn:Htx; simpl in *; try discriminate.
  2,3: apply tx_rollback in Htx as ->; [done|reflexivity].
  clear Hno. apply tx_ok in Htx as (wa & wb & Ea & Hb & ->). rewrite <- Ea in Hw. clear Ea.
  apply bind_ok in Hb as (r & wc & [_ Hc]%query_ok & Hb). rewrite <- Hc in Hw. clear Hc.
  destruct (bool_decide (r_assignee r = worker)); [|discriminate].
  destruct (past_deadline now r).
  { go_inv. rewrite Hm. apply counts_where; [done|]. intros r0 _. apply counted_status. }
  destruct (_ && _); [discriminate|]. destruct (_ || _); [|discriminate].
  destruct (budget_spent r); [|by go_inv]. go_inv. rewrite Hm. apply counts_update; [done|].
  intros r0 _ _ Hr. by apply (counted_cleared _ (set_status _ _ _ _ r0)).
Qed.

(** A claim answered with a lease hands out its token, which counts as one more
    attempt unless it was handed out before. *)
Lemma Claim_granted now tok worker lease w l w' :
  worker <> EmptyString -> Claim now tok id worker lease w = (Ok l, w') -> K (db w) ->
  counts ({[L_Token l]} ∪ T) (db w').
Proof.
  intros Hne (r & Hr & _ & _ & Hc)%Claim_ok. unfold counts at 1. rewrite Hr. intros (Hsz & Htok).
  destruct Hc as [_ Ho _ -> ->|_ _ -> ->]; simpl.
  - rewrite (subseteq_union_1_L {[_]} T) by (rewrite Ho in Htok; set_solver).
    unfold counts. by rewrite Hr.
  - unfold counts. simpl. rewrite lookup_alter_eq, Hr. split; simpl; [|set_solver].
    pose proof (size_union_alt ({[tok]} : gset string) T) as Hs.
    assert (T ∖ {[tok]} ⊆ T) as Hsub%subseteq_size by set_solver.
    rewrite size_singleton in Hs. lia.
Qed.
End Granted.

(** Claims are made by agents, which have a DID. *)
Definition named (o : op) : Prop :=
  match o with OpClaim _ _ _ worker _ => worker <> EmptyString | _ => True end.

(** The rows count the tokens handed out in every run. *)
Lemma granted_counts id ops w T :
  Forall named ops -> counts id T (db w) ->
  counts id (tokens (granted id ops w) ∪ T) (db (run_ops ops w)).
Proof.
  intros Hn. revert w T. induction Hn as [|o ops Ho _ IH]; intros w T HT; simpl.
  { change (tokens []) with (∅ : gset string). by rewrite union_empty_l_L. }
  rewrite tokens_app, (union_comm_L (tokens _)), <- union_assoc_L. apply IH.
  assert (Hother : match o with OpClaim _ _ id' _ _ => id' <> id | _ => True end ->
    counts id (tokens [] ∪ T) (db (snd (run_op o w)))).
  { intros Hd. change (tokens []) with (∅ : gset string). rewrite union_empty_l_L. by apply run_op_counts. }
  destruct o; try by apply Hother. destruct (String.eqb_spec id0 id) as [->|Hd]; [|by apply Hother].
  clear Hother. simpl. unfold void, bind. simpl in Ho.
  pose proof (fun l w' E => Claim_granted id T now token worker lease w l w' Ho E HT) as Hg.
  pose proof (fun E => Claim_refused id T now token worker lease w E HT) as Hr.
  destruct (Claim now token id worker lease w) as [[l|e|] w'] eqn:E; simpl in *.
  - unfold tokens. simpl. rewrite union_empty_r_L. by apply Hg.
  - change (tokens []) with (∅ : gset string). rewrite union_empty_l_L. by apply Hr.
  - change (tokens []) with (∅ : gset string). rewrite union_empty_l_L. by apply Hr.
Qed.

(** ** Re-queueing as a pure function *)

(** [requeue_row] on a driver that does not fail. *)
Definition requeued (now : Z) (s : TasksDB) (p : string * task_row) : TasksDB :=
  snd (run (requeue_row now p) s).

Lemma requeue_row_run now p s :
  requeue_row now p (World s []) = (Ok tt, World (requeued now s p) []).
Proof.
  unfold requeued, run, requeue_row. cbv zeta. destruct (_ || _); [done|].
  unfold bind, exec, stmt. done.
Qed.

Lemma requeue_loop_run now l s :
  for_each l (requeue_row now) (World s []) = (Ok tt, World (foldl (requeued now) s l) []).
Proof.
  revert s. induction l as [|p l IH]; intros s; [done|]. simpl. unfold bind.
  rewrite requeue_row_run. apply IH.
Qed.

Lemma requeueExpired_run now s :
  requeueExpired now (World s []) =
    (Ok tt, World (foldl (requeued now) s (expired_rows now s)) []).
Proof.
  unfold requeueExpired.
  rewrite (tx_nofault _ _ (Ok tt) (World (foldl (requeued now) s (expired_rows now s)) []));
    [done| |done].
  unfold bind. simpl. by rewrite requeue_loop_run.
Qed.

(** The row [id] is SUBMITTED again, filed under the delivery [q], the latest. *)
Record redelivered (id : string) (r : task_row) (q : delivery) (s : TasksDB) : Prop := {
  rd_row : exists r', tasks s !! id = Some r' /\ r_status r' = SUBMITTED /\
             r_id r' = r_id r /\ r_assignee r' = r_assignee r /\ r_skill r' = r_skill r;
  rd_task : d_task_id q = id;
  rd_in : q ∈ deliveries s;
  rd_latest : Forall (fun d => d_task_id d = id -> d_sequence d <= d_sequence q) (deliveries s) }.

Lemma requeued_here now p s :
  store_wf s -> tasks s !! fst p = Some (snd p) ->
  past_deadline now (snd p) = false -> budget_spent (snd p) = false ->
  redelivered (fst p) (snd p) (mkDelivery (delivery_seq s + 1) (fst p) now) (requeued now s p).
Proof.
  intros Hwf Hp Hd Hb. unfold requeued, run, requeue_row. cbv zeta. rewrite Hd, Hb. simpl.
  split; simpl; [|done|apply elem_of_app; right; by constructor|].
  - eexists. rewrite lookup_alter_eq, Hp. by split.
  - apply Forall_app. split; [|by repeat constructor].
    eapply Forall_impl; [apply (wf_seqs s Hwf)|]. simpl. lia.
Qed.

Lemma requeued_other now p s id r q :
  redelivered id r q s -> fst p <> id -> redelivered id r q (requeued now s p).
Proof.
  intros [(r' & Hr & Hs) Ht Hin Hl] Hne. unfold requeued, run, requeue_row. cbv zeta.
  destruct (_ || _); split; simpl; try done.
  - exists r'. by rewrite lookup_alter_ne.
  - exists r'. by rewrite lookup_alter_ne.
  - apply elem_of_app. by left.
  - apply Forall_app. split; [done|]. by repeat constructor.
Qed.

Lemma requeued_same now p s id : fst p <> id -> tasks (requeued now s p) !! id = tasks s !! id.
Proof.
  intros Hne. unfold requeued, run, requeue_row. cbv zeta.
  destruct (_ || _); simpl; by rewrite lookup_alter_ne.
Qed.

Lemma requeued_wf now p s : store_wf s -> store_wf (requeued now s p).
Proof.
  intros Hs. unfold requeued, run, requeue_row. cbv zeta.
  destruct (_ || _); simpl; [|apply store_wf_delivery]; (apply store_wf_update; [done|]); row_wf_solve.
Qed.

Lemma requeued_seq now p s : delivery_seq s <= delivery_seq (requeued now s p).
Proof. unfold requeued, run, requeue_row. cbv zeta. destruct (_ || _); simpl; lia. Qed.

Lemma requeue_fold now id r l s :
  store_wf s -> NoDup (fst <$> l) -> (id, r) ∈ l -> tasks s !! id = Some r ->
  past_deadline now r = false -> budget_spent r = false ->
  exists q, redelivered id r q (foldl (requeued now) s l) /\ delivery_seq s < d_sequence q.
Proof.
  intros Hwf Hnd Hin Hr Hd Hb. revert s Hwf Hr. induction l as [|p l IH]; intros s Hwf Hr.
  { by apply elem_of_nil in Hin. }
  simpl in *. apply NoDup_cons in Hnd as [Hnin Hnd].
  apply elem_of_cons in Hin as [<-|Hin].
  - exists (mkDelivery (delivery_seq s + 1) id now). split; [|simpl; lia].
    pose proof (requeued_here now (id, r) s Hwf Hr Hd Hb) as H0. simpl in H0.
    revert H0. generalize (requeued now s (id, r)). clear - Hnin.
    induction l as [|p l IH]; intros s0 H0; [done|]. simpl in *.
    apply not_elem_of_cons in Hnin as [Hne Hnin]. apply IH; [done|]. by apply requeued_other.
  - assert (fst p <> id) as Hne.
    { intros <-. apply Hnin. by apply (list_elem_of_fmap_2 fst l (p.1, r)). }
    destruct (IH Hnd Hin (requeued now s p)) as (q & Hq & Hlt).
    + by apply requeued_wf.
    + by rewrite requeued_same.
    + exists q. split; [done|]. pose proof (requeued_seq now p s). lia.
Qed.

(** ** The delivery query *)

Lemma scan_all_submitted l :
  Forall (fun p => r_status (snd p) = SUBMITTED) l ->
  scan_all l = Ok ((fun p => (fst p, row_task (snd p))) <$> l).
Proof.
  induction 1 as [|p l Hp Hl IH]; [done|]. simpl. unfold scanTaskWithSequence.
  by rewrite Hp, IH.
Qed.

Lemma available_spec worker skills after s d x :
  available worker skills after s d = Some x -> r_status (snd x) = SUBMITTED.
Proof.
  unfold available. destruct (tasks s !! _); [|done]. destruct (_ && _) eqn:E; [|done].
  intros [= <-]. simpl. rewrite !andb_true_iff in E.
  by destruct E as [[[[_ ?%bool_decide_eq_true] _] _] _].
Qed.

Lemma latest_sequence_max s id q :
  d_task_id q = id -> q ∈ deliveries s -> 0 <= d_sequence q ->
  Forall (fun d => d_task_id d = id -> d_sequence d <= d_sequence q) (deliveries s) ->
  latest_sequence s id = d_sequence q.
Proof.
  unfold latest_sequence. intros Hq Hin H0 Hall.
  apply Z.le_antisymm.
  - clear Hin. induction Hall as [|d l Hd Hl IH]; [done|]. rewrite filter_cons.
    case_decide; simpl; [|done]. apply Z.max_lub; auto.
  - clear Hall. induction (deliveries s) as [|d l IH]; [by apply elem_of_nil in Hin|].
    rewrite filter_cons. apply elem_of_cons in Hin as [<-|Hin].
    + rewrite decide_True by done. simpl. lia.
    + case_decide; simpl; [|auto]. etransitivity; [by apply IH|apply Z.le_max_r].
Qed.

(** ** Properties *)

(** A store with one submitted task, used by the witnesses. *)
Definition example_create : op :=
  OpCreateIdempotent "t1" 1000 "did:a" "did:b" "" "translate" [] ∅ "key-1".
Definition example_db : TasksDB := db (run_ops [example_create] (World empty_db [])).
Definition example_working : TasksDB :=
  db (run_ops [example_create; OpClaim 1000 "tok" "t1" "did:b" 0] (World empty_db [])).
Definition example_row (s : TasksDB) : task_row :=
  default (mkRow "" "" "" "" "" SUBMITTED [] None ∅ 0 0 None "" 0 None None None None 0)
    (tasks s !! "t1"%string).



(** Terminal statuses are absorbing: after any sequence of calls under any
    schedule of database failures a completed, failed or cancelled task has the
    same status, error, outputs and lease; only its attempt budget and deadline
    may have been rewritten. *)
Theorem terminal_absorbing ops w id r :
  tasks (db w) !! id = Some r -> terminal (r_status r) = true ->
  exists m d, tasks (db (run_ops ops w)) !! id = Some (set_budget m d r).
Proof. apply run_ops_terminal. Qed.

Definition example_cancelled : TasksDB :=
  db (run_ops [example_create; OpUpdateStatus 2000 "t1" CANCELLED "" []] (World empty_db [])).

Lemma terminal_absorbing_witness :
  exists m d, tasks (db (run_ops [OpClaim 5 "tok" "t1" "did:b" 0; OpSetMaxAttempts "t1" 9]
                 (World example_cancelled [false; true]))) !! "t1"%string
              = Some (set_budget m d (example_row example_cancelled)).
Proof.
  apply (terminal_absorbing _ (World example_cancelled [false; true])); vm_compute; reflexivity.
Defined.

(** C1: Every store reached from the empty one by any sequence of calls, under
    any schedule of database failures, is well formed: rows are filed under
    their ids with known statuses and a positive retry budget, an initiator's
    idempotency keys are unique, and no delivery has a sequence beyond the
    AUTOINCREMENT counter. *)
Theorem store_reachable_wf ops fs : store_wf (db (run_ops ops (World empty_db fs))).
Proof. apply run_ops_preserves; [intros o _; apply run_op_wf|apply empty_db_wf]. Qed.

(** C2: Leases exclude each other: once a claim returned a lease, any later
    claim made before that lease expires either fails or returns the same
    lease to the same worker, whatever calls and failures come in between
    (other workers' claims, delivery polls, status updates), as long as the
    lease itself was not renewed. *)
Theorem lease_exclusive t1 tok1 id w1 d1 w l1 wA ops t2 tok2 w2 d2 l2 wB :
  Claim t1 tok1 id w1 d1 w = (Ok l1, wA) ->
  Forall (before id (L_ExpiresAt l1)) ops ->
  t2 < L_ExpiresAt l1 ->
  Claim t2 tok2 id w2 d2 (run_ops ops wA) = (Ok l2, wB) ->
  w2 = w1 /\ L_Token l2 = L_Token l1 /\ L_ExpiresAt l2 = L_ExpiresAt l1.
Proof.
  intros (r & Hr & Ha & Hd & Hres)%Claim_ok Hbef Hlt (r2 & Hr2 & Ha2 & Hd2 & Hres2)%Claim_ok.
  assert (Hh : holds id (held w1 (L_Token l1) (L_ExpiresAt l1)) (db (run_ops ops wA))).
  { apply run_ops_preserves.
    { intros o Ho. apply run_op_held. by eapply Forall_forall. }
    destruct Hres as [Hs Ho Hl -> Hdb|_ _ -> Hdb]; rewrite Hdb; clear Hdb.
    - exists r. split; [done|]. right. unfold is_live in Hl. simpl.
      destruct (r_expires r); [done|discriminate].
    - exists (lease_row t1 tok1 w1 d1 r). split; [simpl; by rewrite lookup_alter_eq, Hr|].
      right. done. }
  destruct Hh as (r' & Hr' & Hh). rewrite Hr' in Hr2. injection Hr2 as <-.
  destruct Hres2 as [Hs Ho Hl -> _|Hg _ _ _].
  - destruct Hh as [Ht|(_ & E1 & E2 & E3)]; [by rewrite Hs in Ht|].
    simpl. rewrite E3. simpl. by rewrite <- Ho.
  - by destruct (held_live w1 (L_Token l1) _ t2 r' Hh Hlt).
Qed.

Lemma lease_exclusive_witness :
  let c1 := Claim 1000 "tok" "t1" "did:b" 0 (World example_db []) in
  let ops := [OpListDeliveries 2000 "did:b" [] 0 0; OpSetMaxAttempts "t1" 1] in
  let c2 := Claim 3000 "tok2" "t1" "did:b" 0 (run_ops ops (snd c1)) in
  exists l1 l2, fst c1 = Ok l1 /\ fst c2 = Ok l2 /\
    "did:b"%string = "did:b"%string /\ L_Token l2 = L_Token l1 /\ L_ExpiresAt l2 = L_ExpiresAt l1.
Proof.
  intros c1 ops c2. exists (mkLease "t1" "tok" 31000 1), (mkLease "t1" "tok" 31000 1).
  split; [vm_compute; reflexivity|]. split; [vm_compute; reflexivity|].
  apply (lease_exclusive 1000 "tok" "t1" "did:b" 0 (World example_db []) _ (snd c1) ops
           3000 "tok2" "did:b" 0 _ (snd c2)).
  - vm_compute. reflexivity.
  - repeat constructor.
  - simpl. lia.
  - vm_compute. reflexivity.
Defined.

(** C29: The retry budget bounds the leases ever granted: if no call ever sets a
    budget above [B] (and [B] is at least the default 3) and claims are made by
    agents with a DID, then under any sequence of calls and failures the claims
    of a task are answered with at most [B] different leases (a worker that
    claims again what it holds is given the same one), and the attempt number of
    its row lies between the two. *)
Theorem attempts_bounded B ops fs id :
  3 <= B -> Forall (budget_le B) ops -> Forall named ops ->
  let leases := tokens (granted id ops (World empty_db fs)) in
  Z.of_nat (size leases) <= B /\
  forall r, tasks (db (run_ops ops (World empty_db fs))) !! id = Some r ->
    Z.of_nat (size leases) <= r_attempt r <= B.
Proof.
  intros HB Hops Hn leases.
  assert (rows (in_budget B) (db (run_ops ops (World empty_db fs)))) as Hin.
  { apply run_ops_preserves; [|apply map_Forall_empty].
    intros o Ho. apply run_op_budget; [done|]. by eapply Forall_forall. }
  pose proof (granted_counts id ops (World empty_db fs) ∅ Hn eq_refl) as Hc.
  rewrite union_empty_r_L in Hc. fold leases in Hc. unfold counts in Hc.
  destruct (tasks _ !! id) as [r|] eqn:Hr.
  - destruct Hc as [Hc _]. destruct (Hin id r Hr) as [_ Hb]. split; [lia|]. intros r' [= <-]. lia.
  - rewrite Hc, size_empty. split; [lia|done].
Qed.

Lemma attempts_bounded_witness :
  let leases := tokens (granted "t1" [example_create; OpClaim 1000 "tok" "t1" "did:b" 0]
                          (World empty_db [])) in
  Z.of_nat (size leases) <= 3 /\
  forall r, tasks example_working !! "t1" = Some r -> Z.of_nat (size leases) <= r_attempt r <= 3.
Proof.
  apply (attempts_bounded 3 [example_create; OpClaim 1000 "tok" "t1" "did:b" 0] [] "t1");
    [lia|repeat constructor|repeat constructor; discriminate].
Defined.

(** A successful FinishLease leaves the row in the terminal status asked for. *)
Lemma FinishLease_ok now id worker token st e out w t w' :
  FinishLease now id worker token st e out w = (Ok t, w') ->
  (st = COMPLETED \/ st = FAILED) /\
  exists r, tasks (db w) !! id = Some r /\ holds_lease now worker token r = true /\
    tasks (db w') !! id = Some (set_lease cleared cleared (Some 0) (r_attempt r)
                                  (set_status st (Some e) (Some out) now r)) /\
    Status t = st /\ OutputArtifacts t = out.
Proof.
  unfold FinishLease. destruct (bool_decide (st = COMPLETED) || _) eqn:Hst; [|discriminate].
  rewrite orb_true_iff, !bool_decide_eq_true in Hst. intros H. split; [done|].
  apply bind_ok in H as (n & w1 & H1%stmt_ok & H). unfold update_where in H1.
  destruct (tasks (db w) !! id) as [r|] eqn:Hr; [|injection H1 as <- _; discriminate H].
  destruct (holds_lease now worker token r) eqn:Hl; [|injection H1 as <- _; discriminate H].
  injection H1 as <- Hdb. simpl in H. exists r. split; [done|]. split; [done|].
  pose proof (get_readonly id w1) as Hro. rewrite H in Hro. simpl in Hro.
  rewrite Hro, <- Hdb. simpl. rewrite lookup_alter_eq, Hr. split; [done|].
  unfold get in H. apply bind_ok in H as (r' & w2 & [Hsel _]%query_ok & H).
  apply select_row_ok in Hsel. rewrite <- Hdb in Hsel. simpl in Hsel.
  rewrite lookup_alter_eq, Hr in Hsel. injection Hsel as <-.
  unfold scanTask in H. apply bind_ok in H as (u & w3 & _ & H). by injection H as <- _.
Qed.

Lemma holds_lease_terminal now worker token m d r :
  terminal (r_status r) = true -> holds_lease now worker token (set_budget m d r) = false.
Proof.
  intros Ht. unfold holds_lease. simpl. by destruct (r_status r).
Qed.

(** A leased task is finished at most once: after FinishLease succeeded
    (which records the status and outputs asked for), whatever calls and
    failures follow, no worker with any token can finish the task again; the
    attempt is answered by ErrLeaseExpired, ErrInvalidTransition for a status
    that is not final, or the driver's own failure. *)
Theorem finish_once t1 id w1 tok1 st1 e1 out1 w t wA ops t2 w2 tok2 st2 e2 out2 :
  FinishLease t1 id w1 tok1 st1 e1 out1 w = (Ok t, wA) ->
  Status t = st1 /\ OutputArtifacts t = out1 /\
  fst (FinishLease t2 id w2 tok2 st2 e2 out2 (run_ops ops wA))
    ∈ [Err ErrLeaseExpired; Err ErrInvalidTransition; Err ErrIO].
Proof.
  intros (Hst & r & Hr & Hl & Hr' & -> & ->)%FinishLease_ok. split; [done|]. split; [done|].
  set (r1 := set_lease _ _ _ _ _) in Hr'.
  assert (terminal (r_status r1) = true) as Ht by (by destruct Hst as [-> | ->]).
  destruct (run_ops_terminal ops wA id r1 Hr' Ht) as (m & d & Hmd).
  unfold FinishLease. destruct (_ || _); [|by repeat constructor].
  unfold bind, stmt, update_where. rewrite Hmd, holds_lease_terminal by done.
  destruct (faults _) as [|[] ?]; simpl; by repeat constructor.
Qed.

Lemma finish_once_witness :
  exists t wA, FinishLease 2000 "t1" "did:b" "tok" COMPLETED "" [] (World example_working []) = (Ok t, wA) /\
  Status t = COMPLETED /\ OutputArtifacts t = [] /\
  fst (FinishLease 2001 "t1" "did:b" "tok" FAILED "late" []
         (run_ops [OpListDeliveries 9000 "did:b" [] 0 0] wA))
    ∈ [Err ErrLeaseExpired; Err ErrInvalidTransition; Err ErrIO].
Proof.
  eexists _, _. split; [vm_compute; reflexivity|].
  apply (finish_once 2000 "t1" "did:b" "tok" COMPLETED "" [] (World example_working [])).
  vm_compute. reflexivity.
Defined.

(** An expired lease is not lost work: in any well-formed store, a task
    whose lease ran out within its deadline and budget is offered again by the
    next delivery poll of its assignee, as SUBMITTED, under a delivery sequence
    larger than every earlier one, so that a cursor that had already passed the
    task's previous delivery sees it again. *)
Theorem expired_lease_recovered now worker skills after s id r :
  store_wf s -> tasks s !! id = Some r ->
  lease_expired now r = true -> past_deadline now r = false -> budget_spent r = false ->
  r_assignee r = worker -> worker <> EmptyString -> (skills = [] \/ r_skill r ∈ skills) ->
  after <= delivery_seq s ->
  exists ds s' seq t, run (ListDeliveries now worker skills after 0) s = (Ok ds, s') /\
    (seq, t) ∈ ds /\ Id t = id /\ Status t = SUBMITTED /\ delivery_seq s < seq.
Proof.
  intros Hwf Hr He Hd Hb Ha Hw Hsk Haf.
  destruct (requeue_fold now id r (expired_rows now s) s Hwf (expired_rows_nodup now s))
    as (q & [Hrow Ht Hin Hl] & Hlt); [|done..|].
  { unfold expired_rows. apply list_elem_of_filter. split; [done|]. by apply elem_of_map_to_list. }
  set (s' := foldl _ _ _) in *. destruct Hrow as (r' & Hr' & Hs' & Hid & Ha' & Hsk').
  unfold run, ListDeliveries. rewrite bool_decide_true by done.
  unfold bind. rewrite requeueExpired_run. fold s'. unfold query. rewrite stmt_nofault. simpl.
  rewrite scan_all_submitted.
  2: { apply Forall_forall. intros x Hx. unfold limited in Hx. simpl in Hx.
       rewrite merge_sort_Permutation in Hx. apply list_elem_of_omap in Hx as (d & _ & Hd').
       by eapply available_spec. }
  eexists _, _, (d_sequence q), (row_task r'). split; [done|].
  split; [|by rewrite <- (proj1 (wf_rows s Hwf id r Hr)), <- Hid; repeat split].
  apply (list_elem_of_fmap_2' _ _ (d_sequence q, r')); [|done].
  unfold limited. simpl. rewrite merge_sort_Permutation. apply list_elem_of_omap.
  exists q. split; [done|]. unfold available. rewrite Ht, Hr'.
  rewrite (latest_sequence_max s' id q) by (try done; pose proof (wf_nonneg s Hwf); lia).
  rewrite Ha', Ha, Hs', Hsk', Z.eqb_refl, !bool_decide_true by done.
  replace (after <? d_sequence q) with true by (symmetry; apply Z.ltb_lt; lia). simpl.
  replace (bool_decide (skills = []) || bool_decide (r_skill r ∈ skills)) with true; [done|].
  symmetry. rewrite orb_true_iff, !bool_decide_eq_true. done.
Qed.

Lemma expired_lease_recovered_witness :
  exists ds s' seq t, run (ListDeliveries 40000 "did:b" ["translate"%string] 1 0) example_working
      = (Ok ds, s') /\
    (seq, t) ∈ ds /\ Id t = "t1"%string /\ Status t = SUBMITTED /\ delivery_seq example_working < seq.
Proof.
  apply (expired_lease_recovered 40000 "did:b" _ 1 example_working "t1" (example_row example_working));
    try (vm_compute; congruence).
  - apply (run_ops_preserves store_wf [example_create; OpClaim 1000 "tok" "t1" "did:b" 0]);
      [intros o _; apply run_op_wf|apply empty_db_wf].
  - right. left.
Defined.

Lemma get_ok id w t w' :
  get id w = (Ok t, w') ->
  db w' = db w /\ exists r, tasks (db w) !! id = Some r /\ t = row_task r.
Proof.
  intros H. pose proof (get_readonly id w) as Hro. rewrite H in Hro. split; [done|].
  unfold get in H. apply bind_ok in H as (r & w1 & [Hsel%select_row_ok _]%query_ok & H).
  exists r. split; [done|]. unfold scanTask in H.
  apply bind_ok in H as (u & w2 & _ & H). by injection H as <- _.
Qed.

Lemma get_run id s r :
  tasks s !! id = Some r -> knownStatuses (r_status r) = true ->
  get id (World s []) = (Ok (row_task r), World s []).
Proof.
  intros Hr Hk. unfold get, bind, query, stmt, select_row. simpl. rewrite Hr.
  unfold scanTask. by rewrite Hk.
Qed.

Lemma run_ops_identity ops w id r :
  tasks (db w) !! id = Some r ->
  exists r', tasks (db (run_ops ops w)) !! id = Some r' /\ identity_of r' = identity_of r.
Proof.
  revert w r. induction ops as [|o ops IH]; intros w r Hr; simpl; [eauto|].
  destruct (op_row_step id r o w Hr) as (r1 & H1 & Hstep).
  destruct (IH _ _ H1) as (r' & Hr' & E). exists r'. split; [done|].
  by rewrite E, (rs_identity _ _ Hstep).
Qed.

Lemma insert_task_ok r s u s' :
  insert_task r s = (Ok u, s') -> tasks s !! r_id r = None /\ s' = with_tasks (<[r_id r := r]>) s.
Proof.
  unfold insert_task. case_decide as Hid; [done|]. destruct (_ && _); [done|].
  intros [= _ <-]. split; [by apply eq_None_not_Some|done].
Qed.

Lemma select_key_ok i key id s r :
  select_key i key s = Ok id -> tasks s !! id = Some r -> r_initiator r = i /\ r_key r = key.
Proof.
  unfold select_key. destruct (find_key i key s) eqn:E; [|done]. intros [= <-] Hr.
  apply find_key_some in E as (r' & ? & ? & ?). by simplify_eq.
Qed.

(** The row a successful creation answers with has the initiator and key. *)
Lemma create_ok u n id0 i a th sk inp m key w t w' :
  create u n id0 i a th sk inp m key w = (Ok t, w') ->
  exists id r, tasks (db w') !! id = Some r /\ t = row_task r /\ r_initiator r = i /\ r_key r = key.
Proof.
  unfold create. intros H. do 2 (case_match; [discriminate H|]). cbv zeta in H.
  unfold catch in H. destruct (stmt _ w) as [[v|e|] w2] eqn:Hins; [| |discriminate].
  - apply bind_ok in H as (v1 & w3 & Hdel%exec_ok & H).
    apply bind_ok in H as (t0 & w4 & Hget & H). apply get_ok in Hget as (E & r & Hr & ->).
    assert (t = row_task r /\ w4 = w') as [-> <-] by (by go_inv).
    eexists _, r. rewrite E. split; [exact Hr|]. split; [done|].
    rewrite Hdel in Hr. simpl in Hr. apply stmt_ok in Hins.
    apply insert_task_ok in Hins as [_ Hins]. rewrite Hins in Hr. simpl in Hr.
    rewrite lookup_insert_eq in Hr. by injection Hr as <-.
  - case_bool_decide; [|discriminate].
    destruct (query _ w2) as [[id|e'|] w3] eqn:Hq; [|discriminate..].
    apply query_ok in Hq as [Hq Hdb]. apply get_ok in H as (E & r & Hr & ->).
    rewrite Hdb in Hr. destruct (select_key_ok _ _ _ _ _ Hq Hr).
    exists id, r. rewrite E, Hdb. done.
Qed.

Lemma CreateIdempotent_ok u n i a th sk inp m key w t w' :
  CreateIdempotent u n i a th sk inp m key w = (Ok t, w') ->
  exists id r, tasks (db w') !! id = Some r /\ t = row_task r /\ r_initiator r = i /\ r_key r = key.
Proof.
  intros H. unfold CreateIdempotent in H. case_bool_decide; [|by apply create_ok in H].
  unfold catch in H. destruct (query _ w) as [[id|e|] w1] eqn:Hq; [| |discriminate].
  - apply query_ok in Hq as [Hq Hdb]. apply get_ok in H as (E & r & Hr & ->).
    rewrite Hdb in Hr. destruct (select_key_ok _ _ _ _ _ Hq Hr).
    exists id, r. rewrite E, Hdb. done.
  - destruct e; try discriminate H. by apply create_ok in H.
Qed.

(** C30: Creation is idempotent per initiator and key: once a create with a key
    was answered with a task, then after any further calls and failures a
    retry with the same initiator and key (even with other arguments) is
    answered with the task of the same id, and changes nothing in the store. *)
Theorem create_idempotent u1 n1 i a1 th1 sk1 inp1 m1 key w t1 wA ops u2 n2 a2 th2 sk2 inp2 m2 :
  store_wf (db w) -> key <> EmptyString ->
  CreateIdempotent u1 n1 i a1 th1 sk1 inp1 m1 key w = (Ok t1, wA) ->
  let s := db (run_ops ops wA) in
  exists t2, run (CreateIdempotent u2 n2 i a2 th2 sk2 inp2 m2 key) s = (Ok t2, s) /\ Id t2 = Id t1.
Proof.
  intros Hwf Hk H s.
  assert (store_wf s) as Hs.
  { apply run_ops_preserves; [intros o _; apply run_op_wf|].
    pose proof (run_op_wf (OpCreateIdempotent u1 n1 i a1 th1 sk1 inp1 m1 key) w Hwf) as Hp.
    simpl in Hp. unfold void, bind in Hp. rewrite H in Hp. exact Hp. }
  destruct (CreateIdempotent_ok _ _ _ _ _ _ _ _ _ _ _ _ H) as (id & r & Hr & -> & Hi & Hkey).
  destruct (run_ops_identity ops wA id r Hr) as (r' & Hr' & E). unfold identity_of in E.
  injection E as Eid Ein _ _ _ _ _ Ekey.
  destruct (wf_rows s Hs id r' Hr') as (Hid & Hkn & _).
  unfold run, CreateIdempotent. rewrite bool_decide_true by done.
  unfold catch, query. rewrite stmt_nofault. simpl. unfold select_key.
  rewrite (find_key_unique i key s id r') by (first [done|congruence]). simpl.
  unfold Get. rewrite (get_run id s r') by done. eexists. split; [done|]. done.
Qed.

Lemma create_idempotent_witness :
  exists t1 wA, CreateIdempotent "t1" 1000 "did:a" "did:b" "" "translate" [] ∅ "key-1"
      (World empty_db []) = (Ok t1, wA) /\
  exists t2, run (CreateIdempotent "t2" 9000 "did:a" "did:c" "th" "sum" [] ∅ "key-1")
      (db (run_ops [OpClaim 2000 "tok" "t1" "did:b" 0] wA))
    = (Ok t2, db (run_ops [OpClaim 2000 "tok" "t1" "did:b" 0] wA)) /\ Id t2 = Id t1.
Proof.
  eexists _, _. split; [vm_compute; reflexivity|].
  apply (create_idempotent "t1" 1000 "did:a" "did:b" "" "translate" [] ∅ "key-1" (World empty_db []));
    [apply empty_db_wf|discriminate|vm_compute; reflexivity].
Defined.

(** A status outside the five known ones makes UpdateStatus panic. *)
Lemma updateStatus_unknown now id st e out s r :
  tasks s !! id = Some r -> knownStatuses (r_status r) = true -> knownStatuses st = false ->
  UpdateStatus now id st e out (World s []) = (Panic, World s []).
Proof.
  intros Hr Hk Hst.
  unfold UpdateStatus, updateStatus, bind at 1.
  rewrite (tx_nofault _ s Panic (World s [])); [done| |done].
  unfold bind, query, stmt, select_row. simpl. rewrite Hr.
  unfold canTransition, assert_That. by rewrite Hk, Hst.
Qed.

(** What a successful status update did. *)
Lemma updateStatus_ok now id st e out w t w' :
  updateStatus now id st e out w = (Ok t, w') ->
  exists r, tasks (db w) !! id = Some r /\ validTransitions (r_status r) st = true /\
    tasks (db w') !! id = Some (set_status st (Some e) (Some out) now r) /\
    t = row_task (set_status st (Some e) (Some out) now r).
Proof.
  unfold updateStatus. intros H. apply bind_ok in H as (u & w1 & Htx & H).
  apply tx_ok in Htx as (wa & wb & Ea & Hb & Eb).
  apply bind_ok in Hb as (r & wc & [Hsel Hc]%query_ok & Hb). apply select_row_ok in Hsel.
  apply bind_ok in H as (t0 & w2 & Hg & H). apply get_ok in Hg as (E & r1 & Hr1 & ->).
  unfold canTransition in Hb. go_inv.
  assert (tasks (db w1) !! id = Some (set_status st (Some e) (Some out) now r)) as Hup.
  { rewrite Eb, Hb, Hc. simpl. by rewrite lookup_alter_eq, Hsel. }
  rewrite Hup in Hr1. injection Hr1 as <-. exists r. rewrite <- Ea, E. auto.
Qed.

Lemma updateStatus_run now id st e out s r :
  tasks s !! id = Some r -> knownStatuses (r_status r) = true -> knownStatuses st = true ->
  validTransitions (r_status r) st = true ->
  UpdateStatus now id st e out (World s []) =
    (Ok (row_task (set_status st (Some e) (Some out) now r)),
     World (update_row id (set_status st (Some e) (Some out) now) s) []).
Proof.
  intros Hr Hk Hst Hv. unfold UpdateStatus, updateStatus, bind at 1.
  rewrite (tx_nofault _ s (Ok tt)
    (World (update_row id (set_status st (Some e) (Some out) now) s) [])); [| |reflexivity].
  2: { unfold bind, query, stmt, select_row. simpl. rewrite Hr. unfold canTransition, assert_That.
       rewrite Hk, Hst. cbn. rewrite Hv. reflexivity. }
  unfold bind. erewrite get_run; [|simpl; by rewrite lookup_alter_eq, Hr|done].
  unfold assert_That. cbn. rewrite bool_decide_true by done. by rewrite Z.leb_refl.
Qed.

Lemma StartWork_run now id s r :
  tasks s !! id = Some r -> r_status r = SUBMITTED ->
  StartWork now id (World s []) =
    (Ok (row_task (set_status WORKING (Some EmptyString) (Some []) now r)),
     World (update_row id (set_status WORKING (Some EmptyString) (Some []) now) s) []).
Proof.
  intros Hr Hs. unfold StartWork, bind at 1.
  rewrite (updateStatus_run now id WORKING EmptyString [] s r); [|by rewrite ?Hs..]. done.
Qed.

(** *** Runs on a driver that does not fail *)

Definition fresh_row (id : string) (now : Z) (initiator assignee threadID skill : string)
    (inputs : list Artifact) (meta : gmap string string) (key : string) : task_row :=
  mkRow id initiator assignee threadID skill SUBMITTED inputs None meta now now None key 3 None
    None None None 0.

Definition with_fresh (r : task_row) (now : Z) (s : TasksDB) : TasksDB :=
  insert_delivery (r_id r) now (with_tasks (<[r_id r := r]>) s).

Lemma create_fresh u now id0 i a th sk inp m key s :
  let id := if bool_decide (id0 = EmptyString) then u else id0 in
  let r := fresh_row id now i a th sk inp m key in
  sk <> EmptyString -> i <> a -> tasks s !! id = None ->
  key = EmptyString \/ find_key i key s = None ->
  create u now id0 i a th sk inp m key (World s []) = (Ok (row_task r), World (with_fresh r now s) []).
Proof.
  intros id r Hsk Hia Hid Hkey. unfold create. rewrite bool_decide_false by done.
  rewrite (bool_decide_false (i = a)), andb_false_r by done. fold id. cbv zeta.
  unfold catch. rewrite stmt_nofault. unfold insert_task. simpl. rewrite decide_False.
  2: { rewrite Hid. by intros [? ?]. }
  assert (bool_decide (key <> EmptyString) && bool_decide (is_Some (find_key i key s)) = false) as ->.
  { destruct Hkey as [->|Hk]; [done|]. rewrite Hk. by rewrite andb_false_r. }
  simpl. unfold bind at 1, exec. rewrite stmt_nofault. simpl. unfold bind at 1.
  rewrite (get_run id _ r); [|simpl; by rewrite lookup_insert_eq|done].
  unfold assert_That, bind, ret. simpl. by rewrite !bool_decide_true.
Qed.

Lemma CreateIdempotent_fresh u now i a th sk inp m key s :
  let r := fresh_row u now i a th sk inp m key in
  sk <> EmptyString -> i <> a -> tasks s !! u = None ->
  key = EmptyString \/ find_key i key s = None ->
  CreateIdempotent u now i a th sk inp m key (World s []) =
    (Ok (row_task r), World (with_fresh r now s) []).
Proof.
  intros r Hsk Hia Hid Hkey. unfold CreateIdempotent, createDispatched.
  case_bool_decide as Hk; [|by apply create_fresh].
  destruct Hkey as [->|Hkey]; [done|]. unfold catch, query. rewrite stmt_nofault. simpl.
  unfold select_key. rewrite Hkey. apply create_fresh; auto.
Qed.

Lemma CreateFromRemote_fresh u now id i a th sk inp m s :
  let r := fresh_row id now i a th sk inp m EmptyString in
  id <> EmptyString -> sk <> EmptyString -> i <> a -> tasks s !! id = None ->
  CreateFromRemote u now id i a th sk inp m (World s []) =
    (Ok (row_task r), World (with_fresh r now s) []).
Proof.
  intros r Hid Hsk Hia Hn. unfold CreateFromRemote, createDispatched.
  rewrite bool_decide_false by done. unfold catch, Get, get, bind at 1, query.
  rewrite stmt_nofault. simpl. unfold select_row. rewrite Hn.
  pose proof (create_fresh u now id i a th sk inp m EmptyString s) as Hc. cbv zeta in Hc.
  rewrite bool_decide_false in Hc by done. auto.
Qed.

Lemma Claim_run now token id worker lease s r :
  tasks s !! id = Some r -> r_assignee r = worker -> r_status r = SUBMITTED ->
  past_deadline now r = false -> budget_spent r = false ->
  Claim now token id worker lease (World s []) =
    (Ok (mkLease id token (now + Milliseconds (lease_or_default lease)) (uint32 (r_attempt r + 1))),
     World (update_row id (lease_row now token worker lease) s) []).
Proof.
  intros Hr Ha Hs Hd Hb. unfold Claim. cbv zeta. unfold bind at 1.
  erewrite (tx_nofault _ s (Ok (inl _)) (World _ [])); [reflexivity| |done].
  unfold bind, query. rewrite stmt_nofault. simpl. unfold select_row. rewrite Hr.
  rewrite bool_decide_true by done. rewrite Hd, Hs. simpl. rewrite Hb.
  unfold exec. rewrite stmt_nofault. reflexivity.
Qed.

Definition finished_row (now : Z) (st : TaskStatus) (e : string) (out : list Artifact)
    (r : task_row) : task_row :=
  set_lease cleared cleared (Some 0) (r_attempt r) (set_status st (Some e) (Some out) now r).

Lemma FinishLease_run now id worker token st e out s r :
  tasks s !! id = Some r -> holds_lease now worker token r = true -> st = COMPLETED \/ st = FAILED ->
  FinishLease now id worker token st e out (World s []) =
    (Ok (row_task (finished_row now st e out r)),
     World (update_row id (finished_row now st e out) s) []).
Proof.
  intros Hr Hl Hst. unfold FinishLease.
  replace (bool_decide (st = COMPLETED) || bool_decide (st = FAILED)) with true
    by (by destruct Hst as [->| ->]).
  unfold bind at 1. rewrite stmt_nofault. unfold update_where. rewrite Hr, Hl. simpl.
  apply get_run; [simpl; by rewrite lookup_alter_eq, Hr|by destruct Hst as [->| ->]].
Qed.

(** Setting the budget keeps what does not speak of it. *)
Lemma SetMaxAttempts_run id m I :
  0 <= m -> (forall r m d, I r -> I (set_budget m d r)) ->
  succeeds (holds id I) (SetMaxAttempts id m) (fun _ => holds id I).
Proof.
  intros Hm HI. unfold SetMaxAttempts. destruct (m =? 0) eqn:E; [by apply succeeds_ret|].
  replace (1 <=? m) with true by lia. apply succeeds_exec. intros s Hs.
  apply holds_update; auto.
Qed.

Lemma SetTimeout_run now id t I :
  (forall r m d, I r -> I (set_budget m d r)) ->
  succeeds (holds id I) (SetTimeout now id t) (fun _ => holds id I).
Proof.
  intros HI. unfold SetTimeout. destruct (t <=? 0); [by apply succeeds_ret|].
  apply succeeds_exec. intros s Hs. apply holds_update; auto.
Qed.

(** Creation is not atomic: the INSERT of the task and the INSERT of its
    delivery are separate statements, so a failure of the second leaves a task
    that the retry with the same key reports as created, and that no delivery
    poll of its assignee ever offers. *)
Theorem create_not_atomic :
  exists fs w1 w2 w3 t,
    let create k w := CreateIdempotent "t1" 1000 "did:a" "did:b" "" "translate" [] ∅ k w in
    create "key-1" (World empty_db fs) = (Err ErrIO, w1) /\
    create "key-1" w1 = (Ok t, w2) /\ Status t = SUBMITTED /\
    ListDeliveries 2000 "did:b" [] 0 0 w2 = (Ok [], w3).
Proof.
  exists [false; false; true]. eexists _, _, _, _. repeat split; vm_compute; reflexivity.
Qed.
