(* ===== verification/Rpc.v ===== *)
(** * The RPC server ([daemon/rpc/server.go], [server_tasks.go], [server_messaging.go],
    [server_session.go]) and the publishing side of [daemon/gossip/gossip.go]

    The handlers that compose the session manager, the task store, the queues
    and the thread store: who is calling, what the caller may do to a task, how
    a task travels to the assignee's daemon and its result back.  A handler runs
    on the state of the whole server; the schedule of failures covers the
    statements of every database and the publications.  [clk] gives the
    successive clock readings of a call in nanoseconds, [uid] the UUIDs and
    tokens it draws; [ctx] is the request's [authorization] metadata. *)

From stdpp Require Import base gmap strings list.
From Stdlib Require Import ZArith Lia Ascii.
From S2P Require Import Prelude GoStd Identity Session Mail ThreadStore Tasks.

Local Open Scope string_scope.
Local Open Scope Z_scope.
Local Open Scope go_scope.

Import Tasks.

(** ** Messages of the task protocol *)

(** [pb.TaskRequest] and [pb.TaskResult]. *)
Record TaskRequest : Type := mkTaskRequest {
  q_Skill : string; q_ThreadId : string; q_InputArtifacts : list Artifact;
  q_Metadata : gmap string string }.

Record TaskResult : Type := mkTaskResult {
  u_TaskId : string; u_Status : TaskStatus; u_OutputArtifacts : list Artifact;
  u_Error : string; u_Data : string }.

#[export] Instance TaskRequest_eq_dec : EqDecision TaskRequest.
Proof. solve_decision. Defined.
#[export] Instance TaskResult_eq_dec : EqDecision TaskResult.
Proof. solve_decision. Defined.

(** [proto.Marshal], which fails on strings that are not UTF-8, and
    [proto.Unmarshal]. *)
Class TaskCodec : Type := {
  marshal_request : TaskRequest -> option string;
  unmarshal_request : string -> option TaskRequest;
  marshal_result : TaskResult -> option string;
  unmarshal_result : string -> option TaskResult;
  marshal_event : TaskEvent -> option string;
  marshal_task : Task -> option string }.

Class TaskCodecLaws `{TaskCodec} : Prop := {
  request_roundtrip x b : marshal_request x = Some b -> unmarshal_request b = Some x;
  result_roundtrip x b : marshal_result x = Some b -> unmarshal_result b = Some x }.

(** The part of the Go interface [rpc.ThreadManager] the task handlers use. *)
Class ThreadManager : Type := {
  AppendEntry : Z -> string -> ThreadStore.ThreadEntry -> M ThreadStore.BlocksDB unit }.

(** [thread.Manager] implements it by the store's queue of pending entries
    ([ActorManager]'s is [Manager.AppendEntry] of the file Manager). *)
#[export] Instance Manager_threads : ThreadManager := {
  AppendEntry now threadID entry := ThreadStore.EnqueueEntry now threadID entry }.

(** What the end-to-end theorem assumes of appending: it succeeds when the database does.
    [thread.Manager] is such ([Manager_laws]); the [ActorManager] that the daemon runs
    also activates the thread, so for it this says that the thread exists and its actor
    starts and takes the message. *)
Class ThreadManagerLaws `{ThreadManager} : Prop := {
  append_succeeds now threadID entry :
    succeeds (fun _ => True) (AppendEntry now threadID entry) (fun _ _ => True) }.

#[export] Instance Manager_laws : ThreadManagerLaws.
Proof. split. intros. by apply succeeds_exec. Qed.

(** ** Streams *)

(** The messages sent before [stream.Send] fails, and whether all were. *)
Fixpoint stream_all {A} (send : A -> bool) (l : list A) : list A * bool :=
  match l with
  | [] => ([], true)
  | a :: rest => if send a then let '(sent, ok) := stream_all send rest in (a :: sent, ok) else ([], false)
  end.

Lemma stream_all_ok {A} (send : A -> bool) l : Forall (fun a => send a = true) l -> stream_all send l = (l, true).
Proof. induction 1 as [|a l Ha _ IH]; simpl; [done|]. by rewrite Ha, IH. Qed.

Lemma stream_all_incl {A} (send : A -> bool) l : List.incl (fst (stream_all send l)) l.
Proof.
  induction l as [|a l IH]; simpl; [by intros x []|]. destruct (send a); [|by intros x []].
  destruct (stream_all send l) as [s ok]. simpl in *. intros x [<-|Hx]; [by left|]. right. by apply IH.
Qed.

Module Rpc.
Section Rpc.
Context `{Crypto} `{TaskCodec} `{ThreadManager}.
(** [err.Error()]. *)
Context (error_text : error -> string).

(** ** The server *)

(** Publications, by topic. *)
Record publication : Type := mkPub { pub_topic : string; pub_data : string }.

(** [hasThreads], [hasGossip]: whether the fields [threads] and [gossip] are set. *)
Record Server : Type := mkServer {
  did : string; hasThreads : bool; hasGossip : bool;
  tasks_db : TasksDB; outbox : Outbox.state; inbox : Inbox.state;
  sessions : Session.Manager; threads : ThreadStore.BlocksDB;
  published : list publication }.

Definition with_tasks (t : TasksDB) (s : Server) : Server :=
  mkServer (did s) (hasThreads s) (hasGossip s) t (outbox s) (inbox s) (sessions s) (threads s)
    (published s).
Definition with_outbox (o : Outbox.state) (s : Server) : Server :=
  mkServer (did s) (hasThreads s) (hasGossip s) (tasks_db s) o (inbox s) (sessions s) (threads s)
    (published s).
Definition with_inbox (i : Inbox.state) (s : Server) : Server :=
  mkServer (did s) (hasThreads s) (hasGossip s) (tasks_db s) (outbox s) i (sessions s) (threads s)
    (published s).
Definition with_sessions (m : Session.Manager) (s : Server) : Server :=
  mkServer (did s) (hasThreads s) (hasGossip s) (tasks_db s) (outbox s) (inbox s) m (threads s)
    (published s).
Definition with_threads (b : ThreadStore.BlocksDB) (s : Server) : Server :=
  mkServer (did s) (hasThreads s) (hasGossip s) (tasks_db s) (outbox s) (inbox s) (sessions s) b
    (published s).
Definition with_published (l : list publication) (s : Server) : Server :=
  mkServer (did s) (hasThreads s) (hasGossip s) (tasks_db s) (outbox s) (inbox s) (sessions s)
    (threads s) l.

(** Calls into the components. *)
Definition on_tasks {A} (m : M TasksDB A) : M Server A := zoom tasks_db with_tasks m.
Definition on_outbox {A} (m : M Outbox.state A) : M Server A := zoom outbox with_outbox m.
Definition on_inbox {A} (m : M Inbox.state A) : M Server A := zoom inbox with_inbox m.
Definition on_threads {A} (m : M ThreadStore.BlocksDB A) : M Server A := zoom threads with_threads m.
Definition on_sessions {A} (f : Session.Manager -> outcome A * Session.Manager) : M Server A := fun w =>
  let '(r, m) := f (sessions (db w)) in (r, World (with_sessions m (db w)) (faults w)).

Definition self : M Server Server := fun w => (Ok (db w), w).

(** ** The caller ([server.go]) *)

(** The values of the [authorization] header, [None] without metadata. *)
Definition ctx : Type := option (list string).

Definition bearer_prefix : string := "Bearer ".

Fixpoint first_bearer (values : list string) : string :=
  match values with
  | [] => ""
  | value :: rest =>
      if (7 <? slen value) && String.prefix bearer_prefix value
      then String.substring 7 (String.length value - 7) value
      else first_bearer rest
  end.

Definition bearerToken (c : ctx) : string :=
  match c with None => "" | Some values => first_bearer values end.

Definition agentDID (now : Z) (c : ctx) : M Server string :=
  on_sessions (Session.Authenticate now (bearerToken c)).

Definition scopedOwner (now : Z) (c : ctx) : M Server string :=
  if String.eqb (bearerToken c) "" then
    let! many := on_sessions (fun m => let '(b, m') := Session.MultipleAgents now m in (Ok b, m')) in
    if many : bool
    then throw (Errorf "unscoped RPC is not allowed while multiple SDK agents are connected")
    else ret ""
  else agentDID now c.

Definition authorizeTask (now : Z) (c : ctx) (task : Task) (mutate : bool) : M Server unit :=
  let! owner := scopedOwner now c in
  if String.eqb owner "" then ret tt else
  if negb (String.eqb owner (Initiator task))
     && (mutate || negb (String.eqb owner (Assignee task)))
  then throw (Errorf "task is not owned by authenticated agent")
  else ret tt.

(** ** Gossip ([gossip.go]) *)

Definition maxTopicLength : Z := 256.
Definition maxPayloadSize : Z := 1048576.

Fixpoint contains_any (bad : list ascii) (s : string) : bool :=
  match s with
  | EmptyString => false
  | String a s' => bool_decide (a ∈ bad) || contains_any bad s'
  end.

Definition validateTopicAndPayload (topic data : string) : option error :=
  if String.eqb topic "" || (maxTopicLength <? slen topic)
     || contains_any ["000"; "013"; "010"]%char topic
  then Some (Errorf "invalid topic")
  else if maxPayloadSize <? slen data then Some (Errorf "pubsub payload exceeds bytes")
  else None.

(** [t.Publish]; a nil manager panics. *)
Definition publish (topic data : string) : M Server unit :=
  let! s := self in
  if negb (hasGossip s) then panic else
  match validateTopicAndPayload topic data with
  | Some e => throw e
  | None => stmt (fun s => (Ok tt, with_published (published s ++ [mkPub topic data])%list s))
  end.

Definition TaskEventsTopic (taskID : string) : string := "a2a/tasks/" +:+ taskID +:+ "/events".
Definition TaskDoneTopic (taskID : string) : string := "a2a/tasks/" +:+ taskID +:+ "/done".

Definition gossip_PublishTaskEvent (event : TaskEvent) : M Server unit :=
  if String.eqb (E_TaskId event) "" then throw (Errorf "task event requires task_id") else
  match marshal_event event with
  | None => throw (Errorf "proto: invalid UTF-8")
  | Some data => publish (TaskEventsTopic (E_TaskId event)) data
  end.

Definition gossip_PublishTaskDone (task : Task) : M Server unit :=
  if String.eqb (Id task) "" then throw (Errorf "task requires id") else
  match marshal_task task with
  | None => throw (Errorf "proto: invalid UTF-8")
  | Some data => publish (TaskDoneTopic (Id task)) data
  end.

(** ** Sessions ([server_session.go]) *)

Definition BeginAgentSession (clk : nat -> Z) (nonce : option string) (uuid : string)
    (req : option (option Session.AgentIdentity)) : M Server Session.AgentChallenge :=
  match req with
  | None => throw (Errorf "agent identity is required")
  | Some identity => on_sessions (Session.Begin (clk 0%nat) nonce uuid identity)
  end.

Definition CompleteAgentSession (clk : nat -> Z) (tokenBytes : option string)
    (req : option Session.CompleteRequest) : M Server Session.AgentSession :=
  on_sessions (Session.Complete (clk 0%nat) tokenBytes req).

Definition CloseAgentSession (c : ctx) : M Server unit :=
  on_sessions (fun m => (Ok tt, Session.Close (bearerToken c) m)).

Definition GetAgentIdentity (clk : nat -> Z) (c : ctx) : M Server Session.AgentIdentity :=
  on_sessions (Session.IdentityOf (clk 0%nat) (bearerToken c)).

(** ** Messaging ([server_messaging.go]) *)

Definition set_sender (id from : string) (msg : Message) : Message :=
  mkMessage id from (m_ToDid msg) (m_ThreadId msg) (m_TaskId msg) (m_Kind msg) (m_Payload msg)
    (m_SentAt msg) (m_Signature msg).

(** Answers the message id ([Queued] is always true). *)
Definition SendMessage (c : ctx) (clk : nat -> Z) (uuid : string) (msg : Message)
    : M Server string :=
  let! owner := scopedOwner (clk 0%nat) c in
  let! s := self in
  let id := if String.eqb (m_Id msg) "" then uuid else m_Id msg in
  let from := if String.eqb owner "" then did s else owner in
  let msg := set_sender id from msg in
  do! on_outbox (Outbox.EnqueueForOwner (clk 1%nat) (clk 2%nat) owner msg) in
  ret id.

(** The messages streamed to the caller. *)
Definition GetInbox (c : ctx) (clk : nat -> Z) (threadID taskID : string) (unreadOnly : bool)
    (limit since : Z) : M Server (list Message) :=
  let! owner := scopedOwner (clk 0%nat) c in
  on_inbox (Inbox.get owner threadID taskID unreadOnly limit since).

Definition AckMessage (c : ctx) (clk : nat -> Z) (messageID : string) : M Server unit :=
  let! owner := scopedOwner (clk 0%nat) c in
  on_inbox (Inbox.ack (UnixMilli (clk 1%nat)) owner messageID).

(** ** Tasks ([server_tasks.go]) *)

Definition ClaimTask (c : ctx) (clk : nat -> Z) (token taskID : string) (leaseSeconds : Z)
    : M Server TaskLease :=
  let! worker := agentDID (clk 0%nat) c in
  on_tasks (Claim (UnixMilli (clk 1%nat)) token taskID worker (leaseSeconds * Second)).

Definition RenewTaskLease (c : ctx) (clk : nat -> Z) (taskID leaseToken : string) (leaseSeconds : Z)
    : M Server TaskLease :=
  let! worker := agentDID (clk 0%nat) c in
  on_tasks (RenewLease (UnixMilli (clk 1%nat)) taskID worker leaseToken (leaseSeconds * Second)).

Definition result_message (uuid fromDID : string) (task : Task) (payload : string) (sentAt : Z)
    : Message :=
  mkMessage uuid fromDID (Initiator task) (ThreadId task) (Id task) KIND_TASK_RESULT payload sentAt "".

(** Errors are logged: the caller's task is finished either way. *)
Definition notifyRemoteInitiator (clk : nat -> Z) (uuid fromDID : string) (task : Task)
    (errMsg : string) : M Server unit :=
  let! s := self in
  if String.eqb (Initiator task) "" || String.eqb (Initiator task) (did s) then ret tt else
  match marshal_result (mkTaskResult (Id task) (Status task) (OutputArtifacts task) errMsg "") with
  | None => ret tt
  | Some payload =>
      log_err (on_outbox (Outbox.EnqueueForOwner (clk 3%nat) (clk 4%nat) fromDID
        (result_message uuid fromDID task payload (UnixMilli (clk 2%nat)))))
  end.

Definition CompleteTask (c : ctx) (clk : nat -> Z) (uuid taskID leaseToken : string)
    (outputs : list Artifact) : M Server Task :=
  let! worker := agentDID (clk 0%nat) c in
  let! task := on_tasks (FinishLease (UnixMilli (clk 1%nat)) taskID worker leaseToken COMPLETED ""
                           outputs) in
  do! notifyRemoteInitiator clk uuid worker task "" in
  ret task.

Definition FailTask (c : ctx) (clk : nat -> Z) (uuid taskID leaseToken err : string)
    : M Server Task :=
  let! worker := agentDID (clk 0%nat) c in
  let! task := on_tasks (FinishLease (UnixMilli (clk 1%nat)) taskID worker leaseToken FAILED err []) in
  do! notifyRemoteInitiator clk uuid worker task err in
  ret task.

(** The loop of SubscribeTasks for an authenticated worker, whose stream is done
    after [rounds] ticks: the deliveries sent and how the stream ended.  [send]
    tells which deliveries [stream.Send] gets through, [clk i] is the time of
    the query of round [i]. *)
Fixpoint SubscribeTasks_loop (send : Z * Task -> bool) (clk : nat -> Z) (worker : string)
    (skills : list string) (after : Z) (rounds : nat) : M Server (list (Z * Task) * error) :=
  catch (on_tasks (ListDeliveries (UnixMilli (clk 0%nat)) worker skills after 100)) (fun res =>
  match res with
  | Err e => ret ([], e)
  | Panic => panic
  | Ok deliveries =>
      let '(sent, ok) := stream_all send deliveries in
      if negb ok then ret (sent, Errorf "stream send") else
      match rounds with
      | O => ret (sent, Errorf "context canceled")
      | S rounds =>
          let! rest := SubscribeTasks_loop send (fun i => clk (S i)) worker skills
                         (foldl (fun _ d => fst d) after sent) rounds in
          ret ((sent ++ fst rest)%list, snd rest)
      end
  end).

(** The worker is authenticated once, when the stream opens. *)
Definition SubscribeTasks (send : Z * Task -> bool) (c : ctx) (clk : nat -> Z) (skills : list string)
    (after : Z) (rounds : nat) : M Server (list (Z * Task) * error) :=
  let! worker := agentDID (clk 0%nat) c in
  SubscribeTasks_loop send (fun i => clk (S i)) worker skills after rounds.

(** [pb.CreateTaskRequest]. *)
Record CreateTaskRequest : Type := mkCreateTask {
  ct_ToDid : string; ct_Task : option TaskRequest; ct_IdempotencyKey : string;
  ct_TimeoutMs : Z; ct_MaxAttempts : Z }.

Definition request_message (uuid initiator toDid : string) (task : Task) (payload : string)
    (sentAt : Z) : Message :=
  mkMessage uuid initiator toDid (ThreadId task) (Id task) KIND_TASK_REQUEST payload sentAt "".

(** When the request cannot be queued the task is failed and the error
    returned (the code returns the task beside the error). *)
Definition CreateTask (c : ctx) (clk : nat -> Z) (uid : nat -> string) (req : CreateTaskRequest)
    : M Server Task :=
  match ct_Task req with
  | None => throw (Errorf "create task: task is required")
  | Some t =>
      let! owner := scopedOwner (clk 0%nat) c in
      let! s := self in
      let initiator := if String.eqb owner "" then did s else owner in
      let! task := on_tasks (CreateIdempotent (uid 0%nat) (UnixMilli (clk 1%nat)) initiator
                               (ct_ToDid req) (q_ThreadId t) (q_Skill t) (q_InputArtifacts t)
                               (q_Metadata t) (ct_IdempotencyKey req)) in
      do! on_tasks (SetMaxAttempts (Id task) (ct_MaxAttempts req)) in
      do! on_tasks (SetTimeout (clk 2%nat) (Id task) (int64 (ct_TimeoutMs req * 1000000))) in
      match marshal_request t with
      | None => throw (Errorf "create task: encode request")
      | Some payload =>
          catch (on_outbox (Outbox.EnqueueForOwner (clk 4%nat) (clk 5%nat) initiator
                   (request_message (uid 1%nat) initiator (ct_ToDid req) task payload
                      (UnixMilli (clk 3%nat)))))
            (fun res =>
               match res with
               | Err e =>
                   do! log_err (on_tasks (Fail (UnixMilli (clk 6%nat)) (Id task)
                                  ("failed to notify assignee: " +:+ error_text e))) in
                   throw e
               | _ => ret task
               end)
      end
  end.

Definition GetTask (c : ctx) (clk : nat -> Z) (id : string) : M Server Task :=
  let! task := on_tasks (Get id) in
  do! authorizeTask (clk 0%nat) c task false in
  ret task.

Definition STATUS_UPDATE : Z := 4.
Definition DONE : Z := 6.
Definition ERROR : Z := 7.

Definition UpdateTask (c : ctx) (clk : nat -> Z) (taskID : string) (status : TaskStatus)
    (err : string) (outputs : list Artifact) : M Server Task :=
  let! current := on_tasks (Get taskID) in
  do! authorizeTask (clk 0%nat) c current true in
  let! task := on_tasks (UpdateStatus (UnixMilli (clk 1%nat)) taskID status err outputs) in
  do! log_err (gossip_PublishTaskEvent
                 (mkEvent (Id task) (Status task) STATUS_UPDATE "" 0 0)) in
  do! (if bool_decide (Status task = COMPLETED) || bool_decide (Status task = FAILED)
       then log_err (gossip_PublishTaskDone task) else ret tt) in
  ret task.

Definition CancelTask (c : ctx) (clk : nat -> Z) (id : string) : M Server Task :=
  let! task := on_tasks (Get id) in
  do! authorizeTask (clk 0%nat) c task true in
  on_tasks (Cancel (UnixMilli (clk 1%nat)) id).

Definition PublishTaskEvent (c : ctx) (clk : nat -> Z) (event : TaskEvent) : M Server unit :=
  let! task := on_tasks (Get (E_TaskId event)) in
  do! authorizeTask (clk 0%nat) c task false in
  let emitted := if E_EmittedAt event =? 0 then UnixMilli (clk 1%nat) else E_EmittedAt event in
  let seq := if E_Seq event =? 0 then clk 2%nat else E_Seq event in
  let event := mkEvent (E_TaskId event) (E_Status event) (E_Kind event) (E_Data event) seq emitted in
  do! on_tasks (SaveEvent (Some event)) in
  gossip_PublishTaskEvent event.

(** [pb.SendTaskResultRequest]; answers the message id. *)
Definition SendTaskResult (c : ctx) (clk : nat -> Z) (uuid toDid threadID : string)
    (result : option TaskResult) : M Server string :=
  match result with
  | None => throw (Errorf "task result requires to_did and task_id")
  | Some result =>
      if String.eqb (u_TaskId result) "" || String.eqb toDid ""
      then throw (Errorf "task result requires to_did and task_id") else
      guard! bool_decide (u_Status result = COMPLETED) || bool_decide (u_Status result = FAILED)
        else Errorf "task result status must be completed or failed" in
      match marshal_result result with
      | None => throw (Errorf "proto: invalid UTF-8")
      | Some payload =>
          let! owner := scopedOwner (clk 0%nat) c in
          let! s := self in
          let fromDID := if String.eqb owner "" then did s else owner in
          do! on_outbox (Outbox.EnqueueForOwner (clk 2%nat) (clk 3%nat) fromDID
                (mkMessage uuid fromDID toDid threadID (u_TaskId result) KIND_TASK_RESULT payload
                   (UnixMilli (clk 1%nat)) "")) in
          ret uuid
      end
  end.

(** ** Incoming messages *)

Definition handleTaskRequest (clk : nat -> Z) (uuid : string) (msg : Message) : M Server unit :=
  match unmarshal_request (m_Payload msg) with
  | None => throw (Errorf "decode task request")
  | Some t =>
      do! on_tasks (CreateFromRemote uuid (UnixMilli (clk 0%nat)) (m_TaskId msg) (m_FromDid msg)
                      (m_ToDid msg) (m_ThreadId msg) (q_Skill t) (q_InputArtifacts t)
                      (q_Metadata t)) in
      ret tt
  end.

Definition terminalTaskStatus (status : TaskStatus) : bool :=
  bool_decide (status = COMPLETED) || bool_decide (status = FAILED)
  || bool_decide (status = CANCELLED).

Definition correlated (msg : Message) (task : Task) : bool :=
  String.eqb (Initiator task) (m_ToDid msg) && String.eqb (Assignee task) (m_FromDid msg)
  && String.eqb (m_TaskId msg) (Id task) && String.eqb (m_ThreadId msg) (ThreadId task).

Definition result_event (clk : nat -> Z) (task : Task) (status : TaskStatus) (result : TaskResult)
    : TaskEvent :=
  mkEvent (Id task) status (if bool_decide (u_Status result = FAILED) then ERROR else DONE)
    (u_Data result) (clk 2%nat) (UnixMilli (clk 3%nat)).

Definition result_entry (clk : nat -> Z) (author data : string) : ThreadStore.ThreadEntry :=
  ThreadStore.mkEntry author data "task_result" "" (UnixMilli (clk 4%nat)) 0 0 "" 0 0 "" "".

Definition handleTaskResult (clk : nat -> Z) (msg : Message) : M Server unit :=
  match unmarshal_result (m_Payload msg) with
  | None => throw (Errorf "decode task result")
  | Some result =>
      let! task := on_tasks (Get (u_TaskId result)) in
      guard! correlated msg task else Errorf "task result sender or correlation mismatch" in
      if bool_decide (Status task = u_Status result) && terminalTaskStatus (Status task)
      then ret tt else
      do! (if bool_decide (Status task = SUBMITTED)
           then (do! on_tasks (StartWork (UnixMilli (clk 0%nat)) (Id task)) in ret tt)
           else ret tt) in
      let! updated := on_tasks (UpdateStatus (UnixMilli (clk 1%nat)) (Id task) (u_Status result)
                                  (u_Error result) (u_OutputArtifacts result)) in
      let event := result_event clk task (Status updated) result in
      do! on_tasks (SaveEvent (Some event)) in
      let! s := self in
      do! (if negb (String.eqb (ThreadId task) "") && hasThreads s then
             match marshal_event event with
             | None => throw (Errorf "proto: invalid UTF-8")
             | Some data =>
                 on_threads (AppendEntry (UnixMilli (clk 5%nat)) (ThreadId task)
                               (result_entry clk (m_FromDid msg) data))
             end
           else ret tt) in
      if hasGossip s then log_err (gossip_PublishTaskEvent event) else ret tt
  end.

Definition HandleIncoming (clk : nat -> Z) (uuid : string) (msg : Message) : M Server unit :=
  match m_Kind msg with
  | KIND_TASK_REQUEST => handleTaskRequest clk uuid msg
  | KIND_TASK_RESULT => handleTaskResult clk msg
  | _ => ret tt
  end.

End Rpc.
End Rpc.
