(* ===== verification/RpcFacts.v ===== *)
(** * Properties of the RPC server

    Isolation of agents that share a daemon, what a peer's message may change,
    the round trip of a delegated task between two daemons, redelivered results,
    and the failure cases of the result path. *)

From stdpp Require Import base gmap strings list sorting.
From Stdlib Require Import ZArith Lia Ascii.
From S2P Require Import Prelude GoStd Identity Session SessionFacts Mail MailFacts ThreadStore.
From S2P Require Import Tasks TasksFacts Instances Rpc.

Local Open Scope string_scope.
Local Open Scope Z_scope.
Local Open Scope go_scope.

Import Tasks Rpc.

(** ** What a call on the task store leaves alone *)

Lemma SaveEvent_holds id I e : preserves (holds id I) (SaveEvent e).
Proof. unfold SaveEvent. go_preserves. by destruct (events _ !! _). Qed.

(** The row of [id] is [r]. *)
Definition kept (id : string) (r : task_row) : TasksDB -> Prop := holds id (eq r).

Section Kept.
Variables (id : string) (r : task_row).
Notation here := (kept id r).

Lemma update_kept id' f s : here s -> id' <> id -> here (update_row id' f s).
Proof. intros Hs Hne. apply holds_update; [done|]. congruence. Qed.

Lemma where_kept id' c f s :
  here s -> (id' = id -> c r = false) -> here (snd (update_where id' c f s)).
Proof.
  intros Hs Hc. apply holds_where; [done|]. intros E r0 Hr <-. rewrite Hc in Hr; [done|by symmetry].
Qed.

Lemma updateStatus_kept now id' st e out :
  id' <> id -> preserves here (updateStatus now id' st e out).
Proof.
  intros Hne. unfold updateStatus, canTransition, get, scanTask. go_preserves.
  by apply update_kept.
Qed.

Lemma Claim_kept now tok id' worker lease :
  (id' = id -> r_assignee r <> worker) -> preserves here (Claim now tok id' worker lease).
Proof.
  intros Hw. unfold Claim. cbv zeta. destruct (decide (id' = id)) as [->|Hne].
  - apply preserves_bind; [|go_preserves]. apply preserves_tx.
    apply (leads_query_bind here here); [done|]. intros r0.
    case_bool_decide as Ha; [|by apply leads_throw; intros s []].
    apply leads_absurd. intros s [(r1 & Hr1 & <-) Hsel%select_row_ok]. simplify_eq. by apply Hw.
  - go_preserves; try by apply update_kept. by apply where_kept.
Qed.

Lemma holds_lease_owner now worker token r0 :
  holds_lease now worker token r0 = true -> r_owner r0 = Some worker.
Proof. unfold holds_lease. rewrite !andb_true_iff, !bool_decide_eq_true. tauto. Qed.

Lemma lease_refused now id' worker token :
  (id' = id -> r_owner r <> Some worker) -> id' = id -> holds_lease now worker token r = false.
Proof.
  intros Hw E. destruct (holds_lease _ _ _ _) eqn:Hl; [|done].
  apply holds_lease_owner in Hl. by destruct (Hw E).
Qed.

Lemma RenewLease_kept now id' worker token lease :
  (id' = id -> r_owner r <> Some worker) -> preserves here (RenewLease now id' worker token lease).
Proof.
  intros Hw. unfold RenewLease. cbv zeta. go_preserves.
  apply where_kept; [done|]. by apply lease_refused.
Qed.

Lemma FinishLease_kept now id' worker token st e out :
  (id' = id -> r_owner r <> Some worker) ->
  preserves here (FinishLease now id' worker token st e out).
Proof.
  intros Hw. unfold FinishLease, get, scanTask. go_preserves.
  apply where_kept; [done|]. by apply lease_refused.
Qed.

Lemma SetMaxAttempts_kept id' m : id' <> id -> preserves here (SetMaxAttempts id' m).
Proof. intros. unfold SetMaxAttempts. go_preserves. by apply update_kept. Qed.

Lemma SetTimeout_kept now id' t : id' <> id -> preserves here (SetTimeout now id' t).
Proof. intros. unfold SetTimeout. go_preserves. by apply update_kept. Qed.

Lemma Fail_kept now id' e : id' <> id -> preserves here (Fail now id' e).
Proof. intros. unfold Fail. apply preserves_bind; [by apply updateStatus_kept|go_preserves]. Qed.

Lemma Cancel_kept now id' : id' <> id -> preserves here (Cancel now id').
Proof. intros. unfold Cancel. apply preserves_bind; [by apply updateStatus_kept|go_preserves]. Qed.

Lemma StartWork_kept now id' : id' <> id -> preserves here (StartWork now id').
Proof. intros. unfold StartWork. apply preserves_bind; [by apply updateStatus_kept|go_preserves]. Qed.

Lemma SaveEvent_kept e : preserves here (SaveEvent e).
Proof. apply SaveEvent_holds. Qed.

Lemma CreateIdempotent_kept u n i a th sk inp m key :
  preserves here (CreateIdempotent u n i a th sk inp m key).
Proof. unfold CreateIdempotent, createDispatched, Get, kept. go_preserves. Qed.

Lemma CreateFromRemote_kept u n id' i a th sk inp m :
  preserves here (CreateFromRemote u n id' i a th sk inp m).
Proof. unfold CreateFromRemote, createDispatched, Get, kept. go_preserves. Qed.
End Kept.

(** *** The sweep of expired leases *)

(** What the sweep makes of a row whose lease has run out. *)
Definition requeued (now : Z) (r : task_row) : task_row :=
  set_lease cleared cleared (Some 0) (r_attempt r)
    (if past_deadline now r || budget_spent r
     then set_status FAILED (Some "task lease expired after retry budget") (r_output r) now r
     else set_status SUBMITTED (r_error r) (r_output r) now r).

(** The row is as it was, or its lease had expired at one of the times [T] and
    the sweep took it back. *)
Definition swept (T : Z -> Prop) (id : string) (r : task_row) (s : TasksDB) : Prop :=
  exists r', tasks s !! id = Some r' /\
    (r' = r \/ exists now, T now /\ lease_expired now r = true /\ r' = requeued now r).

Lemma swept_refl T id r s : kept id r s -> swept T id r s.
Proof. intros (r' & Hr & <-). exists r. auto. Qed.

Lemma requeued_settled now now' r : lease_expired now' (requeued now r) = false.
Proof. unfold requeued. by destruct (_ || _). Qed.

Section Sweep.
Variables (T : Z -> Prop) (id : string) (r : task_row) (now : Z).
Hypothesis HT : T now.

Lemma requeue_row_swept p :
  fst p = id -> snd p = r -> lease_expired now r = true ->
  leads (kept id r) (requeue_row now p) (swept T id r).
Proof.
  intros Hid Hr He. unfold requeue_row. cbv zeta. rewrite Hid, Hr.
  destruct (past_deadline now r || budget_spent r) eqn:Hb;
    [|apply leads_bind; [|intros ?; by apply preserves_exec]];
    (apply leads_exec; [apply swept_refl|]); intros s (r' & Hs & <-);
    (exists (requeued now r); split; [|right; by eexists]);
    unfold update_row; simpl; rewrite lookup_alter_eq, Hs; unfold requeued; by rewrite Hb.
Qed.

Lemma requeue_loop_swept l :
  NoDup (fst <$> l) -> (forall p, p ∈ l -> fst p = id -> snd p = r /\ lease_expired now r = true) ->
  leads (kept id r) (for_each l (requeue_row now)) (swept T id r).
Proof.
  induction l as [|p l IH]; simpl; intros Hnd Hw; [apply leads_ret, swept_refl|].
  apply NoDup_cons in Hnd as [Hnin Hnd]. destruct (decide (fst p = id)) as [Hid|Hne].
  - destruct (Hw p) as [Hr He]; [by left|done|].
    apply leads_bind; [by apply requeue_row_swept|]. intros _.
    apply preserves_for_each_in. intros q Hq. apply requeue_row_other.
    intros Hqid. apply Hnin. rewrite Hid, <- Hqid. by apply list_elem_of_fmap_2.
  - intros w Hs. unfold bind. pose proof (requeue_row_other id (eq r) now p Hne w Hs) as Hs'.
    destruct (requeue_row now p w) as [[u|e|] w1]; simpl in *; [|by apply swept_refl..].
    apply IH; [done| |done]. intros q Hq. apply Hw. by right.
Qed.

Lemma requeueExpired_kept_swept : leads (kept id r) (requeueExpired now) (swept T id r).
Proof.
  unfold requeueExpired. apply leads_tx; [apply swept_refl|]. intros w Hs.
  apply (leads_query_bind (kept id r) (swept T id r)); [apply swept_refl| |done].
  intros l w' [Hs' [= <-]]. apply requeue_loop_swept; [apply expired_rows_nodup| |done].
  intros p [Hp He]%expired_rows_spec Hid. rewrite Hid in Hp.
  destruct Hs' as (r' & Hr' & <-). by simplify_map_eq.
Qed.
End Sweep.

(** A row that is not under an expired lease is left alone. *)
Lemma requeueExpired_unexpired id r now :
  lease_expired now r = false -> preserves (kept id r) (requeueExpired now).
Proof.
  intros He w Hs. destruct (requeueExpired_kept_swept (eq now) id r now eq_refl w Hs)
    as (r' & Hr' & [->|(? & <- & He' & _)]); [by exists r|congruence].
Qed.

Lemma requeueExpired_swept (T : Z -> Prop) id r now :
  T now -> preserves (swept T id r) (requeueExpired now).
Proof.
  intros HT w (r' & Hr' & [->|(t & Ht & He & ->)]).
  - apply requeueExpired_kept_swept; [done|by exists r].
  - destruct (requeueExpired_unexpired id (requeued t r) now (requeued_settled _ _ _) w)
      as (r' & Hr & <-); [by eexists|]. exists (requeued t r). split; [done|]. right. by exists t.
Qed.

Lemma ListDeliveries_swept (T : Z -> Prop) id r now worker sk after limit :
  T now -> preserves (swept T id r) (ListDeliveries now worker sk after limit).
Proof.
  intros HT. pose proof (requeueExpired_swept T id r now HT). unfold ListDeliveries. go_preserves.
Qed.

(** *** The deliveries listed *)

Lemma scan_all_in l ts x : scan_all l = Ok ts -> x ∈ ts ->
  exists r, (fst x, r) ∈ l /\ snd x = row_task r.
Proof.
  revert ts. induction l as [|[n r] l IH]; simpl; intros ts; [intros [= <-]; by intros ?%not_elem_of_nil|].
  unfold scanTaskWithSequence. simpl. destruct (knownStatuses _); [|done].
  destruct (scan_all l) as [ts'| |]; [|done..]. intros [= <-] [->|Hin]%elem_of_cons.
  - exists r. split; [by left|done].
  - destruct (IH _ eq_refl Hin) as (r' & ? & ?). exists r'. split; [by right|done].
Qed.

(** A worker is shown only tasks assigned to it. *)
Lemma ListDeliveries_assigned now worker sk after limit w ts w' x :
  ListDeliveries now worker sk after limit w = (Ok ts, w') -> x ∈ ts -> Assignee (snd x) = worker.
Proof.
  unfold ListDeliveries. case_bool_decide; [|discriminate]. intros H1 Hx.
  apply bind_ok in H1 as (u & w1 & _ & [Hs _]%query_ok).
  destruct (scan_all_in _ _ _ Hs Hx) as (r & Hr & ->).
  assert ((fst x, r) ∈ omap (available worker sk after (db w1)) (deliveries (db w1))) as Ho.
  { rewrite <- (merge_sort_Permutation delivery_le). unfold limited in Hr.
    destruct (0 <? limit); [|done]. by apply elem_of_take in Hr as (? & ? & _); eapply list_elem_of_lookup_2. }
  apply list_elem_of_omap in Ho as (d & _ & Ha). unfold available in Ha.
  destruct (tasks _ !! _) as [r0|]; [|done]. destruct (_ && _) eqn:E; [|done].
  injection Ha as _ <-. rewrite !andb_true_iff, !bool_decide_eq_true in E. simpl. tauto.
Qed.

(** ** Calls on the server *)

(** An assertion on the task store, of the server. *)
Definition at_tasks (I : TasksDB -> Prop) (s : Server) : Prop := I (tasks_db s).

Section Server.
Context `{Crypto} `{TaskCodec} `{ThreadManager} (error_text : error -> string).

Section Frame.
Variable I : TasksDB -> Prop.

Lemma on_tasks_at {A} (m : M TasksDB A) : preserves I m -> preserves (at_tasks I) (on_tasks m).
Proof. intros Hm. by apply preserves_zoom. Qed.

Lemma on_outbox_at {A} (m : M Outbox.state A) : preserves (at_tasks I) (on_outbox m).
Proof. apply preserves_zoom; [|done]. by intros t Ht w. Qed.

Lemma on_inbox_at {A} (m : M Inbox.state A) : preserves (at_tasks I) (on_inbox m).
Proof. apply preserves_zoom; [|done]. by intros t Ht w. Qed.

Lemma on_threads_at {A} (m : M ThreadStore.BlocksDB A) : preserves (at_tasks I) (on_threads m).
Proof. apply preserves_zoom; [|done]. by intros t Ht w. Qed.

Lemma on_sessions_at {A} (f : Session.Manager -> outcome A * Session.Manager) :
  preserves (at_tasks I) (on_sessions f).
Proof. intros w Hw. unfold on_sessions. by destruct (f _). Qed.

Lemma self_at : preserves (at_tasks I) self.
Proof. by intros w. Qed.
End Frame.

#[local] Hint Resolve on_outbox_at on_inbox_at on_threads_at on_sessions_at self_at : molt_ops.

Lemma scopedOwner_at I now c : preserves (at_tasks I) (scopedOwner now c).
Proof. unfold scopedOwner, agentDID. go_preserves. Qed.
#[local] Hint Resolve scopedOwner_at : molt_ops.

Lemma authorizeTask_at I now c t b : preserves (at_tasks I) (authorizeTask now c t b).
Proof. unfold authorizeTask. go_preserves. Qed.

Lemma publish_at I topic data : preserves (at_tasks I) (publish topic data).
Proof. unfold publish. go_preserves. Qed.
#[local] Hint Resolve authorizeTask_at publish_at : molt_ops.

Lemma PublishEvent_at I e : preserves (at_tasks I) (gossip_PublishTaskEvent e).
Proof. unfold gossip_PublishTaskEvent. go_preserves. Qed.

Lemma PublishDone_at I t : preserves (at_tasks I) (gossip_PublishTaskDone t).
Proof. unfold gossip_PublishTaskDone. go_preserves. Qed.

Lemma notify_at I clk uuid from t e : preserves (at_tasks I) (notifyRemoteInitiator clk uuid from t e).
Proof. unfold notifyRemoteInitiator. go_preserves. Qed.
#[local] Hint Resolve PublishEvent_at PublishDone_at notify_at : molt_ops.

(** ** The authenticated caller *)

(** Whom a request's token authenticates. *)
Definition caller (now : Z) (c : ctx) (s : Server) : outcome string :=
  fst (Session.Authenticate now (bearerToken c) (sessions s)).

(** The session manager is in a state some interleaving of callers reaches. *)
Definition live_sessions (s : Server) : Prop :=
  exists node sy, rtc Session.sstep (Session.initial node) sy /\ Session.mgr sy = sessions s.

(** A session's agent has a DID. *)
Lemma caller_nonempty now c s d : live_sessions s -> caller now c s = Ok d -> d <> "".
Proof.
  intros (node & sy & Hr%reachable_inv & Hm). unfold caller, Session.Authenticate, Session.get.
  rewrite <- Hm. destruct (String.eqb (bearerToken c) ""); [done|]. cbv zeta.
  destruct (_ !! _) as [x|] eqn:Hx; [|done].
  destruct (now <? Session.s_expires x); [|done]. intros [= <-].
  apply map_lookup_filter_Some_1_1 in Hx.
  destruct (si_sessions _ _ Hr _ _ Hx) as (tok & t & Hin & _ & _ & -> & _).
  destruct (proj1 (Forall_forall _ _) (si_minted _ _ Hr) _ Hin) as (Hval & _ & _).
  unfold valid_identity, Session.validateIdentity in Hval.
  destruct (String.eqb (Session.Did _) "") eqn:E; [done|]. by apply String.eqb_neq in E.
Qed.

Lemma agentDID_run now c w :
  agentDID now c w =
    (caller now c (db w),
     World (with_sessions (snd (Session.Authenticate now (bearerToken c) (sessions (db w)))) (db w))
       (faults w)).
Proof. unfold agentDID, on_sessions, caller. by destruct (Session.Authenticate _ _ _). Qed.

Lemma scopedOwner_scoped now c : bearerToken c <> "" -> scopedOwner now c = agentDID now c.
Proof. intros Hb. unfold scopedOwner. by rewrite (proj2 (String.eqb_neq _ _) Hb). Qed.

(** After authentication, either the store ends in [I] or the caller is one of
    those [E] lets through. *)
Lemma agent_then {A} (P I : TasksDB -> Prop) (E : string -> Prop) `{!forall d, Decision (E d)}
    now c (k : string -> M Server A) w :
  (forall s, P s -> I s) ->
  (forall d, d <> "" -> ~ E d -> leads (at_tasks P) (k d) (at_tasks I)) ->
  live_sessions (db w) -> at_tasks P (db w) ->
  at_tasks I (db (snd (bind (agentDID now c) k w))) \/
  exists d, caller now c (db w) = Ok d /\ E d.
Proof.
  intros HPI Hk Hl Hw. unfold bind. rewrite agentDID_run.
  destruct (caller now c (db w)) as [d|e|] eqn:Hc; [|by left; apply HPI..].
  destruct (decide (E d)) as [HE|HE]; [right; eauto|]. left.
  apply (Hk d); [by eapply caller_nonempty|done..].
Qed.

(** The handlers that read the task and let only its initiator go on. *)
Lemma initiator_then {A} id r id' now c (k : Task -> M Server A) w :
  bearerToken c <> "" -> live_sessions (db w) ->
  (id' <> id -> forall t, preserves (at_tasks (kept id r)) (k t)) ->
  at_tasks (kept id r) (db w) ->
  at_tasks (kept id r) (db (snd (bind (on_tasks (Get id')) (fun t =>
    bind (authorizeTask now c t true) (fun _ => k t)) w))) \/
  exists d, caller now c (db w) = Ok d /\ id' = id /\ r_initiator r = d.
Proof.
  intros Hb Hlive Hk Hw. destruct (decide (id' = id)) as [->|Hne].
  2: { left. clear Hlive. revert w Hw.
       apply preserves_bind; [apply on_tasks_at, get_holds|]. intros t.
       apply preserves_bind; [apply authorizeTask_at|]. intros _. by apply Hk. }
  unfold bind at 1. unfold on_tasks, zoom. destruct (Get id _) as [[t|e|] w1] eqn:Hg.
  2,3: left; pose proof (get_readonly id (World (tasks_db (db w)) (faults w))) as Hro;
       unfold Get in Hg; rewrite Hg in Hro; unfold at_tasks; simpl in *; by rewrite Hro.
  apply get_ok in Hg as (Hdb & r0 & Hr0 & ->). simpl in Hdb, Hr0.
  destruct Hw as (r1 & Hr1 & <-). simplify_eq.
  unfold authorizeTask at 1. rewrite scopedOwner_scoped by done. unfold bind.
  rewrite agentDID_run. unfold caller at 1. simpl.
  fold (caller now c (db w)). destruct (caller now c (db w)) as [d|e|] eqn:Hc.
  2,3: left; unfold at_tasks, kept, holds; simpl; rewrite Hdb; eauto.
  pose proof (caller_nonempty _ _ _ _ Hlive Hc) as Hd.
  rewrite (proj2 (String.eqb_neq _ _) Hd).
  destruct (String.eqb d (r_initiator r)) eqn:Hi; simpl.
  - right. exists d. apply String.eqb_eq in Hi. auto.
  - left. unfold at_tasks, kept, holds; simpl; rewrite Hdb; eauto.
Qed.
(** ** Creation *)

Lemma CreateIdempotent_wf u n i a th sk inp m key :
  preserves store_wf (CreateIdempotent u n i a th sk inp m key).
Proof.
  intros w Hw. pose proof (run_op_wf (OpCreateIdempotent u n i a th sk inp m key) w Hw) as Hp.
  simpl in Hp. unfold void, bind in Hp. by destruct (CreateIdempotent _ _ _ _ _ _ _ _ _ w) as [[]].
Qed.

(** The task a creation answers with is not one of another initiator. *)
Lemma CreateIdempotent_own id r u n i a th sk inp m key :
  r_initiator r <> i ->
  hoare (fun s => kept id r s /\ store_wf s) (CreateIdempotent u n i a th sk inp m key)
    (fun res s => kept id r s /\ match res with Ok t => Id t <> id | _ => True end).
Proof.
  intros Hi w [Hk Hwf].
  pose proof (CreateIdempotent_kept id r u n i a th sk inp m key w Hk) as Hk'.
  pose proof (CreateIdempotent_wf u n i a th sk inp m key w Hwf) as Hwf'.
  destruct (CreateIdempotent _ _ _ _ _ _ _ _ _ w) as [res w'] eqn:E. simpl in *.
  split; [done|]. destruct res as [t|e|]; [|done..].
  apply CreateIdempotent_ok in E as (id0 & r0 & Hr0 & -> & Hi0 & _). simpl.
  rewrite (proj1 (wf_rows _ Hwf' id0 r0 Hr0)). intros ->.
  destruct Hk' as (r1 & Hr1 & <-). simplify_eq.
Qed.

Lemma leads_self {B} (P Q : Server -> Prop) (k : Server -> M Server B) :
  (forall s, leads P (k s) Q) -> leads P (bind self k) Q.
Proof. intros Hk w Hw. by apply (Hk (db w)). Qed.

(** A call on the task store followed by code that depends on its answer. *)
Lemma on_tasks_bind {A B} (P I : TasksDB -> Prop) (R : A -> Prop) (m : M TasksDB A)
    (k : A -> M Server B) :
  hoare P m (fun res s => I s /\ match res with Ok a => R a | _ => True end) ->
  (forall a, R a -> preserves (at_tasks I) (k a)) ->
  leads (at_tasks P) (bind (on_tasks m) k) (at_tasks I).
Proof.
  intros Hm Hk w Hw. unfold bind, on_tasks, zoom.
  specialize (Hm (World (tasks_db (db w)) (faults w)) Hw).
  destruct (m _) as [[a|e|] w1]; simpl in *; destruct Hm; [by apply Hk|done..].
Qed.

Lemma CreateTask_isolated id r c clk uid req w :
  bearerToken c <> "" -> live_sessions (db w) -> store_wf (tasks_db (db w)) ->
  at_tasks (kept id r) (db w) ->
  at_tasks (kept id r) (db (snd (CreateTask error_text c clk uid req w))) \/
  exists d, caller (clk 0%nat) c (db w) = Ok d /\ r_initiator r = d.
Proof.
  intros Hb Hlive Hwf Hw. unfold CreateTask. destruct (ct_Task req) as [t|]; [|by left].
  rewrite scopedOwner_scoped by done.
  apply (agent_then (fun s => kept id r s /\ store_wf s) _ (fun d => r_initiator r = d));
    [by intros ? []| |done|done]. intros d Hd HE. apply leads_self. intros s.
  rewrite (proj2 (String.eqb_neq d "") Hd).
  eapply on_tasks_bind; [by apply CreateIdempotent_own|cbv beta].
  intros t' Hne. simpl in Hne.
  go_preserves; apply on_tasks_at;
    auto using SetMaxAttempts_kept, SetTimeout_kept, Fail_kept.
Qed.

(** ** Requests *)

(** The requests that reach the task store, with the values each call draws. *)
Inductive call : Type :=
| CallClaim (token taskID : string) (leaseSeconds : Z)
| CallRenew (taskID leaseToken : string) (leaseSeconds : Z)
| CallComplete (uuid taskID leaseToken : string) (outputs : list Artifact)
| CallFail (uuid taskID leaseToken err : string)
| CallCreate (uid : nat -> string) (req : CreateTaskRequest)
| CallGet (taskID : string)
| CallUpdate (taskID : string) (status : TaskStatus) (err : string) (outputs : list Artifact)
| CallCancel (taskID : string)
| CallSubscribe (send : Z * Task -> bool) (skills : list string) (after : Z) (rounds : nat)
| CallPublish (event : TaskEvent)
| CallSendResult (uuid toDid threadID : string) (result : option TaskResult)
| CallSend (uuid : string) (msg : Message).

Definition yields {A} (f : A -> list Task) (m : M Server A) : M Server (list Task) :=
  bind m (fun a => ret (f a)).
Definition nothing {A} (_ : A) : list Task := [].
Definition just (t : Task) : list Task := [t].

(** A request, and the tasks its answer shows. *)
Definition serve (c : ctx) (clk : nat -> Z) (q : call) : M Server (list Task) :=
  match q with
  | CallClaim tok id secs => yields nothing (ClaimTask c clk tok id secs)
  | CallRenew id tok secs => yields nothing (RenewTaskLease c clk id tok secs)
  | CallComplete u id tok out => yields just (CompleteTask c clk u id tok out)
  | CallFail u id tok e => yields just (FailTask c clk u id tok e)
  | CallCreate uid req => yields just (CreateTask error_text c clk uid req)
  | CallGet id => yields just (GetTask c clk id)
  | CallUpdate id st e out => yields just (UpdateTask c clk id st e out)
  | CallCancel id => yields just (CancelTask c clk id)
  | CallSubscribe send sk after rounds =>
      yields (fun r => snd <$> fst r) (SubscribeTasks send c clk sk after rounds)
  | CallPublish e => yields nothing (PublishTaskEvent c clk e)
  | CallSendResult u to th res => yields nothing (SendTaskResult c clk u to th res)
  | CallSend u msg => yields nothing (SendMessage c clk u msg)
  end.

(** Who may change the row [r] of task [id] by a request: its assignee may claim
    it, the holder of its lease renew or finish it, its initiator update or
    cancel it, or ask again for its creation. *)
Definition entitled (q : call) (id : string) (r : task_row) (d : string) : Prop :=
  match q with
  | CallClaim _ id' _ => id' = id /\ r_assignee r = d
  | CallRenew id' _ _ | CallComplete _ id' _ _ | CallFail _ id' _ _ =>
      id' = id /\ r_owner r = Some d
  | CallCreate _ _ => r_initiator r = d
  | CallUpdate id' _ _ _ | CallCancel id' => id' = id /\ r_initiator r = d
  | _ => False
  end.

(** The times at which a subscription sweeps the expired leases of the whole
    store: one for every round of its loop. *)
Definition sweep_time (clk : nat -> Z) (q : call) (now : Z) : Prop :=
  match q with
  | CallSubscribe _ _ _ rounds => exists i, (i <= rounds)%nat /\ now = UnixMilli (clk (S i))
  | _ => False
  end.

(** Whom a request's answer shows the task [t]: of the parties the one the
    request is for, or the holder of the lease it finishes. *)
Definition shown_to (q : call) (s : TasksDB) (t : Task) (d : string) : Prop :=
  match q with
  | CallComplete _ _ _ _ | CallFail _ _ _ _ => holds (Id t) (fun r => r_owner r = Some d) s
  | CallCreate _ _ | CallUpdate _ _ _ _ | CallCancel _ => d = Initiator t
  | CallSubscribe _ _ _ _ => d = Assignee t
  | _ => d = Initiator t \/ d = Assignee t
  end.

#[local] Instance entitled_dec q id r d : Decision (entitled q id r d).
Proof. destruct q; simpl; apply _. Defined.

Lemma yields_db {A} f (m : M Server A) w : db (snd (yields f m w)) = db (snd (m w)).
Proof. unfold yields, bind. by destruct (m w) as [[] ?]. Qed.

Lemma yields_ok {A} f (m : M Server A) w ts w' :
  yields f m w = (Ok ts, w') -> exists a, m w = (Ok a, w') /\ ts = f a.
Proof. intros (a & w1 & Hm & Hr)%bind_ok. injection Hr as <- <-. by exists a. Qed.

Lemma leased_isolated {A} (E : string -> Prop) `{!forall d, Decision (E d)} id r now c
    (k : string -> M Server A) w :
  (forall d, ~ E d -> preserves (at_tasks (kept id r)) (k d)) ->
  live_sessions (db w) -> at_tasks (kept id r) (db w) ->
  at_tasks (kept id r) (db (snd (bind (agentDID now c) k w))) \/
  exists d, caller now c (db w) = Ok d /\ E d.
Proof.
  intros Hk Hl Hw. apply (agent_then (kept id r) (kept id r) E); [done| |done..]. intros d _. apply Hk.
Qed.

(** The requests that leave every row alone. *)
Lemma reading_kept id r c clk q :
  match q with CallGet _ | CallPublish _ | CallSendResult _ _ _ _ | CallSend _ _ => True
             | _ => False end ->
  preserves (at_tasks (kept id r)) (serve c clk q).
Proof.
  destruct q; try done; intros _; simpl; unfold yields, GetTask, PublishTaskEvent, SendTaskResult,
    SendMessage; go_preserves; apply on_tasks_at; first [apply get_holds|apply SaveEvent_kept].
Qed.

Lemma SubscribeTasks_loop_swept (T : Z -> Prop) id r send clk worker sk after rounds :
  (forall i, (i <= rounds)%nat -> T (UnixMilli (clk i))) ->
  preserves (at_tasks (swept T id r)) (SubscribeTasks_loop send clk worker sk after rounds).
Proof.
  revert clk after. induction rounds as [|n IH]; intros clk after HT; simpl;
    (apply preserves_catch; [apply on_tasks_at, ListDeliveries_swept, HT; lia|]); intros res;
    go_preserves.
  apply IH. intros i Hi. apply (HT (S i)). lia.
Qed.

Lemma SubscribeTasks_isolated id r c clk q send sk after rounds w :
  q = CallSubscribe send sk after rounds -> at_tasks (kept id r) (db w) ->
  at_tasks (kept id r) (db (snd (SubscribeTasks send c clk sk after rounds w))) \/
  exists d, caller (clk 0%nat) c (db w) = Ok d /\
    at_tasks (swept (sweep_time clk q) id r) (db (snd (SubscribeTasks send c clk sk after rounds w))).
Proof.
  intros -> Hw. unfold SubscribeTasks, bind. rewrite agentDID_run.
  destruct (caller (clk 0%nat) c (db w)) as [d|e|]; [right|by left..].
  exists d. split; [done|]. apply SubscribeTasks_loop_swept; [|by apply swept_refl].
  intros i Hi. simpl. eauto.
Qed.

(** A request changes a row for a caller entitled to, or a subscription found its
    lease expired. *)
Lemma serve_isolated c clk q w id r :
  bearerToken c <> "" -> live_sessions (db w) -> store_wf (tasks_db (db w)) ->
  at_tasks (kept id r) (db w) ->
  at_tasks (kept id r) (db (snd (serve c clk q w))) \/
  exists d, caller (clk 0%nat) c (db w) = Ok d /\
    (entitled q id r d \/ at_tasks (swept (sweep_time clk q) id r) (db (snd (serve c clk q w)))).
Proof.
  intros Hb Hl Hwf Hw.
  assert (Hother : forall P, at_tasks (kept id r) (db (snd (serve c clk q w))) \/
      (exists d, caller (clk 0%nat) c (db w) = Ok d /\ entitled q id r d) ->
    at_tasks (kept id r) (db (snd (serve c clk q w))) \/
    exists d, caller (clk 0%nat) c (db w) = Ok d /\ (entitled q id r d \/ P))
    by (intros P [?|(d & ? & ?)]; eauto 6).
  destruct q;
    try (left; apply reading_kept; done); simpl serve in *; rewrite yields_db in *;
    lazymatch goal with
    | |- _ \/ exists d, _ /\ (entitled (CallSubscribe _ _ _ _) _ _ _ \/ _) =>
        edestruct (SubscribeTasks_isolated id r c clk) as [?|(d & Hd & ?)];
          [reflexivity|exact Hw|by left|right; exists d; split; [exact Hd|by right]]
    | |- _ => apply Hother; clear Hother
    end;
    lazymatch goal with
    | |- _ \/ exists d, _ /\ entitled (CallCreate _ _) _ _ _ => by apply CreateTask_isolated
    | |- _ \/ exists d, _ /\ entitled (CallUpdate _ _ _ _) _ _ _ => apply initiator_then
    | |- _ \/ exists d, _ /\ entitled (CallCancel _) _ _ _ => apply initiator_then
    | |- _ \/ exists d, _ /\ entitled ?q _ _ _ => apply (leased_isolated (entitled q id r))
    end; try done.
  - intros d Hd. apply on_tasks_at, Claim_kept. simpl in Hd. tauto.
  - intros d Hd. apply on_tasks_at, RenewLease_kept. simpl in Hd. tauto.
  - intros d Hd. go_preserves. apply on_tasks_at, FinishLease_kept. simpl in Hd. tauto.
  - intros d Hd. go_preserves. apply on_tasks_at, FinishLease_kept. simpl in Hd. tauto.
  - intros Hne t. go_preserves. by apply on_tasks_at, updateStatus_kept.
  - intros Hne t. by apply on_tasks_at, Cancel_kept.
Qed.

(** ** Incoming messages *)

(** A result message names the task [r] of [id] and its parties. *)
Definition result_for (msg : Message) (id : string) (r : task_row) : Prop :=
  m_Kind msg = KIND_TASK_RESULT /\ m_TaskId msg = id /\ m_FromDid msg = r_assignee r /\
  m_ToDid msg = r_initiator r /\ m_ThreadId msg = r_thread_id r.

#[local] Instance result_for_dec msg id r : Decision (result_for msg id r).
Proof. unfold result_for. apply _. Defined.

Lemma correlated_spec msg t :
  correlated msg t = true <->
  Initiator t = m_ToDid msg /\ Assignee t = m_FromDid msg /\ m_TaskId msg = Id t /\
  m_ThreadId msg = ThreadId t.
Proof. unfold correlated. rewrite !andb_true_iff, !String.eqb_eq. tauto. Qed.

Lemma Get_other id r msg id' :
  m_Kind msg = KIND_TASK_RESULT -> ~ result_for msg id r ->
  hoare (fun s => kept id r s /\ store_wf s) (Get id')
    (fun res s => kept id r s /\
       match res with Ok t => correlated msg t = true -> Id t <> id | _ => True end).
Proof.
  intros Hk Hn w [Hr Hwf]. pose proof (get_readonly id' w) as Hro. unfold Get in *.
  destruct (get id' w) as [res w'] eqn:E. simpl in *. rewrite Hro. split; [done|].
  destruct res as [t|e|]; [|done..]. apply get_ok in E as (_ & r0 & Hr0 & ->). simpl.
  rewrite (proj1 (wf_rows _ Hwf id' r0 Hr0)). intros Hc%correlated_spec ->.
  destruct Hr as (r1 & Hr1 & <-). simplify_eq. apply Hn. simpl in Hc.
  rewrite (proj1 (wf_rows _ Hwf id r Hr1)) in Hc. unfold result_for.
  destruct Hc as (? & ? & ? & ?). auto.
Qed.

Lemma handleTaskResult_kept id r clk msg :
  m_Kind msg = KIND_TASK_RESULT -> ~ result_for msg id r ->
  leads (at_tasks (fun s => kept id r s /\ store_wf s)) (handleTaskResult clk msg)
    (at_tasks (kept id r)).
Proof.
  intros Hk Hn. unfold handleTaskResult.
  destruct (unmarshal_result (m_Payload msg)) as [result|]; [|by apply leads_throw; intros s []].
  eapply on_tasks_bind; [by apply Get_other|]. intros t Hc. cbv beta in Hc.
  destruct (correlated msg t); [|apply preserves_throw]. specialize (Hc eq_refl).
  go_preserves; try (apply on_tasks_at; auto using StartWork_kept, updateStatus_kept, SaveEvent_kept).
Qed.

Lemma HandleIncoming_isolated id r clk uuid msg w :
  store_wf (tasks_db (db w)) -> at_tasks (kept id r) (db w) ->
  at_tasks (kept id r) (db (snd (HandleIncoming clk uuid msg w))) \/ result_for msg id r.
Proof.
  intros Hwf Hw. destruct (decide (result_for msg id r)) as [|Hn]; [by right|]. left.
  unfold HandleIncoming. destruct (m_Kind msg) eqn:Hk; try done.
  - clear Hwf. revert w Hw. change (preserves (at_tasks (kept id r)) (handleTaskRequest clk uuid msg)).
    unfold handleTaskRequest. go_preserves. apply on_tasks_at, CreateFromRemote_kept.
  - by apply handleTaskResult_kept.
Qed.

(** ** Runs of the task store inside the server *)

Lemma on_tasks_ok {A} (m : M TasksDB A) w a w' :
  on_tasks m w = (Ok a, w') ->
  m (World (tasks_db (db w)) (faults w)) = (Ok a, World (tasks_db (db w')) (faults w')).
Proof.
  unfold on_tasks, zoom. destruct (m _) as [res w1]. intros [= -> <-]. by destruct w1.
Qed.

Lemma on_tasks_run {A} (m : M TasksDB A) s res t :
  m (World (tasks_db s) []) = (res, World t []) ->
  on_tasks m (World s []) = (res, World (with_tasks t s) []).
Proof. intros E. unfold on_tasks, zoom. simpl. by rewrite E. Qed.

Lemma with_tasks_self s : with_tasks (tasks_db s) s = s.
Proof. by destruct s. Qed.

(** *** What an answer shows *)

Lemma on_tasks_sessions {A} (m : M TasksDB A) w res w' :
  on_tasks m w = (res, w') -> sessions (db w') = sessions (db w).
Proof. unfold on_tasks, zoom. destruct (m _). by intros [= _ <-]. Qed.

Lemma agentDID_caller now c w d w' :
  agentDID now c w = (Ok d, w') -> caller now c (db w) = Ok d /\ tasks_db (db w') = tasks_db (db w).
Proof. rewrite agentDID_run. by intros [= ? <-]. Qed.

(** A request that passed the check of a task is from one of its parties, and
    from its initiator if it is to change it. *)
Lemma authorizeTask_ok now c t mutate w u w' :
  bearerToken c <> "" -> live_sessions (db w) -> authorizeTask now c t mutate w = (Ok u, w') ->
  tasks_db (db w') = tasks_db (db w) /\
  exists d, caller now c (db w) = Ok d /\ (d = Initiator t \/ mutate = false /\ d = Assignee t).
Proof.
  intros Hb Hl Ha. unfold authorizeTask in Ha. rewrite scopedOwner_scoped in Ha by done.
  apply bind_ok in Ha as (d & w1 & [Hd Ht]%agentDID_caller & Ha).
  rewrite (proj2 (String.eqb_neq d "") (caller_nonempty _ _ _ _ Hl Hd)) in Ha.
  destruct (String.eqb_spec d (Initiator t)) as [E1|_]; [injection Ha as _ <-; eauto 6|].
  destruct mutate; [discriminate Ha|].
  destruct (String.eqb_spec d (Assignee t)) as [E2|_]; [injection Ha as _ <-; eauto 7|discriminate Ha].
Qed.

(** The handlers that read a task and check the caller before going on. *)
Lemma read_then {A} c now id mutate (k : Task -> M Server A) w a w' :
  bearerToken c <> "" -> live_sessions (db w) ->
  (let! t := on_tasks (Get id) in do! authorizeTask now c t mutate in k t) w = (Ok a, w') ->
  exists r d w1, caller now c (db w) = Ok d /\
    (d = r_initiator r \/ mutate = false /\ d = r_assignee r) /\
    tasks (tasks_db (db w1)) !! id = Some r /\ k (row_task r) w1 = (Ok a, w').
Proof.
  intros Hb Hl (t & w1 & Hg & Hk)%bind_ok. pose proof (on_tasks_sessions _ _ _ _ Hg) as Hs.
  apply on_tasks_ok, get_ok in Hg as (Hdb & r & Hr & ->). simpl in Hdb, Hr. rewrite <- Hdb in Hr.
  apply bind_ok in Hk as (u & w2 & Ha & Hk).
  apply authorizeTask_ok in Ha as (Ht & d & Hd & Hp);
    [|done|destruct Hl as (n & sy & ? & E); exists n, sy; by rewrite Hs].
  unfold caller in Hd. rewrite Hs in Hd. exists r, d, w2. by rewrite Ht.
Qed.

Lemma FinishLease_shows now id worker token st e out w t w' :
  store_wf (db w) -> FinishLease now id worker token st e out w = (Ok t, w') ->
  holds (Id t) (fun r => r_owner r = Some worker) (db w).
Proof.
  intros Hwf Hf. pose proof Hf as (_ & r & Hr & Hl & Hr' & _)%FinishLease_ok.
  unfold FinishLease in Hf. destruct (_ || _); [|discriminate].
  apply bind_ok in Hf as (n & w1 & _ & Hg). destruct (n =? 0); [discriminate|].
  apply get_ok in Hg as (E & r1 & Hr1 & ->). rewrite <- E, Hr' in Hr1. injection Hr1 as <-.
  exists r. simpl. rewrite (proj1 (wf_rows _ Hwf _ r Hr)). split; [done|].
  by eapply holds_lease_owner.
Qed.

Lemma finish_shown c now (fin : string -> M TasksDB Task) (after : string -> Task -> M Server unit) w t w' :
  (forall d w t w', store_wf (db w) -> fin d w = (Ok t, w') ->
     holds (Id t) (fun r => r_owner r = Some d) (db w)) ->
  store_wf (tasks_db (db w)) ->
  (let! d := agentDID now c in let! t := on_tasks (fin d) in do! after d t in ret t) w = (Ok t, w') ->
  exists d, caller now c (db w) = Ok d /\ holds (Id t) (fun r => r_owner r = Some d) (tasks_db (db w)).
Proof.
  intros Hf Hwf (d & w1 & [Hd Ht]%agentDID_caller & Hg)%bind_ok. exists d. split; [done|].
  apply bind_ok in Hg as (t0 & w2 & Hg%on_tasks_ok & Hk).
  apply bind_ok in Hk as (u & w3 & _ & Hk). injection Hk as <- _.
  rewrite <- Ht in Hwf |- *. by eapply (Hf d (World _ _)).
Qed.

Lemma updateStatus_shows now id st e out w r t w' :
  tasks (db w) !! id = Some r -> UpdateStatus now id st e out w = (Ok t, w') ->
  Initiator t = r_initiator r.
Proof. intros Hr (r1 & Hr1 & _ & _ & ->)%updateStatus_ok. by simplify_map_eq. Qed.

Lemma SubscribeTasks_loop_shows send clk worker sk after rounds w res w' t :
  SubscribeTasks_loop send clk worker sk after rounds w = (Ok res, w') -> t ∈ snd <$> fst res ->
  Assignee t = worker.
Proof.
  revert clk after w res w'.
  induction rounds as [|n IH]; intros clk after w res w' Hs Ht; simpl in Hs; unfold catch in Hs;
    destruct (on_tasks _ w) as [[ds|e|] w1] eqn:Hl; try discriminate Hs;
    try (injection Hs as <- _; by apply not_elem_of_nil in Ht);
    apply on_tasks_ok in Hl;
    assert (Hds : forall t, t ∈ snd <$> fst (stream_all send ds) -> Assignee t = worker)
      by (intros t' (x & -> & Hx)%list_elem_of_fmap; eapply ListDeliveries_assigned; [exact Hl|];
          eapply list_elem_of_In, stream_all_incl, list_elem_of_In, Hx);
    destruct (stream_all send ds) as [sent ok]; simpl in Hds, Hs;
    (destruct ok; [|injection Hs as <- _; by apply Hds]).
  - injection Hs as <- _. by apply Hds.
  - apply bind_ok in Hs as (rest & w2 & Hr & Hs). injection Hs as <- _. simpl in Ht.
    rewrite fmap_app, elem_of_app in Ht. destruct Ht as [Ht|Ht]; [by apply Hds|by eapply IH].
Qed.

(** A task is shown only to its parties. *)
Lemma serve_shows c clk q w ts w' t :
  bearerToken c <> "" -> live_sessions (db w) -> store_wf (tasks_db (db w)) ->
  serve c clk q w = (Ok ts, w') -> t ∈ ts ->
  exists d, caller (clk 0%nat) c (db w) = Ok d /\ shown_to q (tasks_db (db w)) t d.
Proof.
  intros Hb Hl Hwf Hs Ht. destruct q; simpl in Hs; apply yields_ok in Hs as (a & Hs & ->);
    simpl in Ht; try (by apply not_elem_of_nil in Ht); try apply list_elem_of_singleton in Ht as ->;
    simpl shown_to.
  - revert Hs. apply finish_shown; [|done]. intros d w0 t0 w0'. apply FinishLease_shows.
  - revert Hs. apply finish_shown; [|done]. intros d w0 t0 w0'. apply FinishLease_shows.
  - unfold CreateTask in Hs. destruct (ct_Task req) as [tr|]; [|discriminate].
    rewrite scopedOwner_scoped in Hs by done.
    apply bind_ok in Hs as (d & w1 & [Hd _]%agentDID_caller & Hs). exists d. split; [done|].
    apply bind_ok in Hs as (s & w2 & Hw & Hs).
    rewrite (proj2 (String.eqb_neq d "") (caller_nonempty _ _ _ _ Hl Hd)) in Hs.
    apply bind_ok in Hs as (t & w3 & Hc%on_tasks_ok & Hs).
    apply CreateIdempotent_ok in Hc as (id & r & _ & -> & Hi & _).
    apply bind_ok in Hs as (u1 & w4 & _ & Hs). apply bind_ok in Hs as (u2 & w5 & _ & Hs).
    destruct (marshal_request tr); [|discriminate]. unfold catch in Hs.
    destruct (on_outbox _ w5) as [[[]|e|] w6]; [by injection Hs as <- _| |discriminate].
    apply bind_ok in Hs as (? & ? & _ & Hs). discriminate.
  - apply read_then in Hs as (r & d & w1 & Hd & Hp & Hr & Hk); [|done..].
    injection Hk as <- _. exists d. split; [done|]. simpl. tauto.
  - apply read_then in Hs as (r & d & w1 & Hd & Hp & Hr & Hk); [|done..].
    apply bind_ok in Hk as (t & w2 & Hu%on_tasks_ok & Hk).
    apply bind_ok in Hk as (? & ? & _ & Hk). apply bind_ok in Hk as (? & ? & _ & Hk).
    injection Hk as <- _. exists d. split; [done|].
    rewrite (updateStatus_shows _ _ _ _ _ (World _ _) r _ _ Hr Hu). naive_solver.
  - apply read_then in Hs as (r & d & w1 & Hd & Hp & Hr & Hk); [|done..].
    apply on_tasks_ok, bind_ok in Hk as (t & w2 & Hu & Hk).
    apply bind_ok in Hk as (? & ? & _ & Hk). injection Hk as <- _. exists d. split; [done|].
    rewrite (updateStatus_shows _ _ _ _ _ (World _ _) r _ _ Hr Hu). naive_solver.
  - unfold SubscribeTasks in Hs. apply bind_ok in Hs as (d & w1 & [Hd _]%agentDID_caller & Hs).
    exists d. split; [done|]. symmetry. by eapply SubscribeTasks_loop_shows.
Qed.

(** *** Results *)

(** The row of a result that was accepted: it has the result's final status
    and the message's parties. *)
Definition settled (msg : Message) (result : TaskResult) (r : task_row) : Prop :=
  r_status r = u_Status result /\ terminal (r_status r) = true /\ correlated msg (row_task r) = true.

Lemma valid_from_working st :
  validTransitions WORKING st = true -> terminal st = true.
Proof. by destruct st. Qed.

Lemma terminalTaskStatus_eq st : terminalTaskStatus st = terminal st.
Proof. by destruct st. Qed.

(** The status changes of handleTaskResult: through WORKING to the result's. *)
Lemma settle_ok clk msg result r w w1 w2 u t :
  store_wf (tasks_db (db w)) -> tasks (tasks_db (db w)) !! u_TaskId result = Some r ->
  correlated msg (row_task r) = true ->
  (if bool_decide (r_status r = SUBMITTED)
   then (do! on_tasks (StartWork (UnixMilli (clk 0%nat)) (Id (row_task r))) in ret tt)
   else ret tt) w = (Ok u, w1) ->
  on_tasks (UpdateStatus (UnixMilli (clk 1%nat)) (Id (row_task r)) (u_Status result)
              (u_Error result) (u_OutputArtifacts result)) w1 = (Ok t, w2) ->
  holds (u_TaskId result) (settled msg result) (tasks_db (db w2)).
Proof.
  intros Hwf Hr Hc Hs Hu. simpl in Hu, Hs.
  rewrite (proj1 (wf_rows _ Hwf _ r Hr)) in Hu, Hs.
  apply on_tasks_ok, updateStatus_ok in Hu as (r1 & Hr1 & Hv & Hr2 & _). simpl in Hr1, Hr2.
  eexists. split; [exact Hr2|]. unfold settled. simpl.
  enough (r_status r1 = WORKING /\ identity_of r1 = identity_of r) as [Hw Hid].
  { rewrite Hw in Hv. split; [done|]. split; [by apply valid_from_working|].
    injection Hid as E1 E2 E3 E4 _. unfold correlated in *. simpl in *. congruence. }
  destruct (bool_decide (r_status r = SUBMITTED)) eqn:Hsub.
  - apply bind_ok in Hs as (t0 & w3 & Hs%on_tasks_ok & Hret). injection Hret as _ <-.
    unfold StartWork in Hs. apply bind_ok in Hs as (t1 & w4 & Hs & Ha).
    apply updateStatus_ok in Hs as (r3 & Hr3 & _ & Hr4 & _). simpl in Hr3. simplify_eq.
    apply bind_ok in Ha as (? & ? & [_ ->]%assert_ok & Ha). injection Ha as _ Hw4.
    rewrite Hw4 in Hr4. simpl in Hr4. by simplify_eq.
  - injection Hs as _ <-. simplify_eq. apply bool_decide_eq_false in Hsub.
    by destruct (r_status r); destruct (u_Status result).
Qed.

(** A result that was handled is settled. *)
Lemma handleTaskResult_settled clk msg w w' :
  store_wf (tasks_db (db w)) -> handleTaskResult clk msg w = (Ok tt, w') ->
  exists result, unmarshal_result (m_Payload msg) = Some result /\
    holds (u_TaskId result) (settled msg result) (tasks_db (db w')).
Proof.
  intros Hwf Hh. unfold handleTaskResult in Hh.
  destruct (unmarshal_result (m_Payload msg)) as [result|] eqn:Hu; [|done].
  exists result. split; [done|]. apply bind_ok in Hh as (t & w1 & Hg%on_tasks_ok & Hh).
  apply get_ok in Hg as (Hdb & r & Hr & ->). simpl in Hdb, Hr. rewrite <- Hdb in Hr, Hwf.
  destruct (correlated msg (row_task r)) eqn:Hc; [|done].
  destruct (bool_decide (Status (row_task r) = u_Status result) && _) eqn:Hskip.
  { rewrite terminalTaskStatus_eq, andb_true_iff, bool_decide_eq_true in Hskip.
    injection Hh as <-. exists r. unfold settled. tauto. }
  apply bind_ok in Hh as (u & w2 & Hs & Hh). apply bind_ok in Hh as (t2 & w3 & Hup & Hh).
  pose proof (settle_ok clk msg result r w1 w2 w3 u t2 Hwf Hr Hc Hs Hup) as Hset.
  revert Hh Hset. apply (preserves_use (at_tasks (holds (u_TaskId result) (settled msg result)))).
  go_preserves. apply on_tasks_at, SaveEvent_holds.
Qed.

(** A settled result is accepted again without effect. *)
Lemma handleTaskResult_again clk msg result w r :
  unmarshal_result (m_Payload msg) = Some result -> faults w = [] ->
  tasks (tasks_db (db w)) !! u_TaskId result = Some r -> settled msg result r ->
  handleTaskResult clk msg w = (Ok tt, w).
Proof.
  intros Hu Hf Hr (Hst & Ht & Hc). destruct w as [s fs]. simpl in *. subst fs.
  unfold handleTaskResult. rewrite Hu. unfold bind at 1.
  rewrite (on_tasks_run _ s (Ok (row_task r)) (tasks_db s)).
  2: { apply get_run; [done|]. by destruct (r_status r). }
  rewrite with_tasks_self, Hc, terminalTaskStatus_eq. simpl.
  by rewrite bool_decide_true, Ht by done.
Qed.

Lemma settled_budget msg result m d r :
  settled msg result r -> settled msg result (set_budget m d r).
Proof. done. Qed.

(** ** A delegated task, on drivers that do not fail *)

Lemma caller_scoped now c s d : caller now c s = Ok d -> bearerToken c <> "".
Proof. intros E Hb. unfold caller in E. by rewrite Hb in E. Qed.

(** [msg] waits in the outbox to be delivered, for as long as it takes. *)
Definition queued (msg : Message) (s : Server) : Prop :=
  exists o, o ∈ Outbox.rows (outbox s) /\ Outbox.o_payload o = Some msg /\
    Outbox.o_status o = Outbox.pending /\ Outbox.o_durable o = true.

Definition unused (uuid : string) (s : Server) : Prop :=
  uuid ∉ Outbox.o_id <$> Outbox.rows (outbox s).

Lemma enqueue_run t1 t2 owner msg s :
  unused (m_Id msg) s -> Outbox.durableKind (m_Kind msg) = true ->
  exists s', on_outbox (Outbox.EnqueueForOwner t1 t2 owner msg) (World s []) = (Ok tt, World s' []) /\
    queued msg s' /\ tasks_db s' = tasks_db s.
Proof.
  intros Hu Hd. unfold on_outbox, zoom, Outbox.EnqueueForOwner, Outbox.enqueue. simpl.
  eexists. split; [reflexivity|]. split; [|done]. unfold queued, Outbox.insert_or_ignore. simpl.
  rewrite bool_decide_false by done. eexists. split; [apply elem_of_app; right; by left|].
  by rewrite Hd.
Qed.

(** The initiator's row while the task is away. *)
Definition asked (id initiator assignee threadID : string) (r : task_row) : Prop :=
  r_id r = id /\ r_initiator r = initiator /\ r_assignee r = assignee /\
  r_thread_id r = threadID /\ r_status r = SUBMITTED.

Lemma CreateTask_queue clk uid req i payload (task : Task) I :
  0 <= ct_MaxAttempts req ->
  (forall r m d, I r -> I (set_budget m d r)) ->
  let msg := request_message (uid 1%nat) i (ct_ToDid req) task payload (UnixMilli (clk 3%nat)) in
  succeeds (fun s => holds (Id task) I (tasks_db s) /\ unused (uid 1%nat) s)
    (do! on_tasks (SetMaxAttempts (Id task) (ct_MaxAttempts req)) in
     do! on_tasks (SetTimeout (clk 2%nat) (Id task) (int64 (ct_TimeoutMs req * 1000000))) in
     catch (on_outbox (Outbox.EnqueueForOwner (clk 4%nat) (clk 5%nat) i msg)) (fun res =>
       match res with
       | Err e =>
           do! log_err (on_tasks (Fail (UnixMilli (clk 6%nat)) (Id task)
                          ("failed to notify assignee: " +:+ error_text e))) in throw e
       | _ => ret task
       end))
    (fun a s => a = task /\ holds (Id task) I (tasks_db s) /\ queued msg s).
Proof.
  intros Hm HI msg.
  assert (Hstep : forall m : M TasksDB unit, succeeds (holds (Id task) I) m (fun _ => holds (Id task) I) ->
    succeeds (fun s => holds (Id task) I (tasks_db s) /\ unused (uid 1%nat) s) (on_tasks m)
      (fun _ s => holds (Id task) I (tasks_db s) /\ unused (uid 1%nat) s)).
  { intros m Hs. apply succeeds_zoom. intros s [Hh Hu]. eapply succeeds_conseq; [|exact Hs|].
    - by intros ? ->.
    - done. }
  eapply succeeds_bind; [by apply Hstep, SetMaxAttempts_run|]. intros ?.
  eapply succeeds_bind; [by apply Hstep, SetTimeout_run|]. intros ?.
  eapply (succeeds_catch _ (fun _ s => holds (Id task) I (tasks_db s) /\ queued msg s)).
  - intros s [Hh Hu]. destruct (enqueue_run (clk 4%nat) (clk 5%nat) i msg s Hu eq_refl)
      as (s' & E & Hq & Ht). exists tt, s'. by rewrite Ht.
  - intros []. apply succeeds_ret. tauto.
Qed.

Lemma CreateTask_run c clk uid req t i payload s :
  caller (clk 0%nat) c s = Ok i -> i <> "" -> ct_Task req = Some t -> q_Skill t <> "" ->
  i <> ct_ToDid req -> tasks (tasks_db s) !! uid 0%nat = None ->
  ct_IdempotencyKey req = "" \/ find_key i (ct_IdempotencyKey req) (tasks_db s) = None ->
  0 <= ct_MaxAttempts req -> marshal_request t = Some payload -> unused (uid 1%nat) s ->
  let task := row_task (fresh_row (uid 0%nat) (UnixMilli (clk 1%nat)) i (ct_ToDid req)
                (q_ThreadId t) (q_Skill t) (q_InputArtifacts t) (q_Metadata t)
                (ct_IdempotencyKey req)) in
  exists s', CreateTask error_text c clk uid req (World s []) = (Ok task, World s' []) /\
    holds (uid 0%nat) (asked (uid 0%nat) i (ct_ToDid req) (q_ThreadId t)) (tasks_db s') /\
    queued (request_message (uid 1%nat) i (ct_ToDid req) task payload (UnixMilli (clk 3%nat))) s'.
Proof.
  intros Hc Hi Ht Hsk Hia Hid Hkey Hm Hp Hu task. unfold CreateTask. rewrite Ht.
  rewrite scopedOwner_scoped by (by eapply caller_scoped). unfold bind at 1.
  rewrite agentDID_run. simpl. rewrite Hc. unfold bind at 1, self. simpl.
  rewrite (proj2 (String.eqb_neq i "") Hi). unfold bind at 1.
  erewrite on_tasks_run by (by apply CreateIdempotent_fresh). fold task. rewrite Hp.
  match goal with |- context [World (with_tasks ?t ?s0) []] => set (s1 := with_tasks t s0) end.
  destruct (CreateTask_queue clk uid req i payload task
    (asked (uid 0%nat) i (ct_ToDid req) (q_ThreadId t)) Hm) with (s := s1)
    as (a & s' & E & -> & Hh & Hq); [by intros r m d| |by exists s'].
  split; [|exact Hu]. eexists. split; [apply lookup_insert_eq|done].
Qed.

Lemma handleTaskRequest_run clk uuid u i a task payload t sentAt s :
  unmarshal_request payload = Some t -> Id task <> "" -> q_Skill t <> "" -> i <> a ->
  tasks (tasks_db s) !! Id task = None ->
  let now := UnixMilli (clk 0%nat) in
  let r := fresh_row (Id task) now i a (ThreadId task) (q_Skill t) (q_InputArtifacts t)
             (q_Metadata t) "" in
  HandleIncoming clk uuid (request_message u i a task payload sentAt) (World s []) =
    (Ok tt, World (with_tasks (with_fresh r now (tasks_db s)) s) []).
Proof.
  intros Hu Hid Hsk Hia Hn now r. unfold HandleIncoming. simpl. unfold handleTaskRequest. simpl.
  rewrite Hu. unfold bind. by erewrite on_tasks_run by (by apply CreateFromRemote_fresh).
Qed.

Lemma ClaimTask_run c clk token id secs s r :
  caller (clk 0%nat) c s = Ok (r_assignee r) -> tasks (tasks_db s) !! id = Some r ->
  r_status r = SUBMITTED -> past_deadline (UnixMilli (clk 1%nat)) r = false ->
  budget_spent r = false ->
  let now := UnixMilli (clk 1%nat) in
  exists s', ClaimTask c clk token id secs (World s []) =
      (Ok (mkLease id token (now + Milliseconds (lease_or_default (secs * Second)))
             (uint32 (r_attempt r + 1))), World s' []) /\
    tasks (tasks_db s') !! id = Some (lease_row now token (r_assignee r) (secs * Second) r) /\
    did s' = did s.
Proof.
  intros Hc Hr Hs Hd Hb now. unfold ClaimTask, bind. rewrite agentDID_run. simpl. rewrite Hc.
  erewrite on_tasks_run by (by apply (Claim_run _ _ _ _ _ _ r)). eexists. split; [reflexivity|].
  simpl. by rewrite lookup_alter_eq, Hr.
Qed.

Lemma CompleteTask_run c clk uuid id token outs worker payload s r :
  let now := UnixMilli (clk 1%nat) in
  let task := row_task (finished_row now COMPLETED "" outs r) in
  caller (clk 0%nat) c s = Ok worker -> tasks (tasks_db s) !! id = Some r ->
  holds_lease now worker token r = true -> r_initiator r <> "" -> r_initiator r <> did s ->
  marshal_result (mkTaskResult (r_id r) COMPLETED outs "" "") = Some payload -> unused uuid s ->
  exists s', CompleteTask c clk uuid id token outs (World s []) = (Ok task, World s' []) /\
    queued (result_message uuid worker task payload (UnixMilli (clk 2%nat))) s' /\
    tasks (tasks_db s') !! id = Some (finished_row now COMPLETED "" outs r).
Proof.
  intros now task Hc Hr Hl Hi Hd Hp Hu. unfold CompleteTask, bind at 1. rewrite agentDID_run. simpl.
  rewrite Hc. unfold bind at 1. erewrite on_tasks_run by (apply FinishLease_run; [done..|by left]).
  fold now task. unfold bind at 1, notifyRemoteInitiator, bind at 1, self. simpl.
  rewrite (proj2 (String.eqb_neq _ _) Hi), (proj2 (String.eqb_neq _ _) Hd). simpl. rewrite Hp.
  match goal with |- context [World (with_tasks ?t ?s0) []] => set (s1 := with_tasks t s0) end.
  destruct (enqueue_run (clk 3%nat) (clk 4%nat) worker
    (result_message uuid worker task payload (UnixMilli (clk 2%nat))) s1 Hu eq_refl)
    as (s' & E & Hq & Ht).
  exists s'. unfold log_err, catch. rewrite E. split; [done|]. split; [done|].
  rewrite Ht. simpl. by rewrite lookup_alter_eq, Hr.
Qed.

(** The initiator's row after the result came back. *)
Definition answered (result : TaskResult) (r : task_row) : Prop :=
  r_status r = u_Status result /\ r_output r = Some (u_OutputArtifacts result) /\
  r_error r = Some (u_Error result).

Lemma log_publish_run id I e :
  succeeds (fun s => hasGossip s = true /\ holds id I (tasks_db s))
    (log_err (gossip_PublishTaskEvent e)) (fun _ s => holds id I (tasks_db s)).
Proof.
  intros s [Hg Hh]. unfold log_err, catch, gossip_PublishTaskEvent.
  destruct (String.eqb _ ""); [by exists tt, s|]. destruct (marshal_event e) as [data|]; [|by exists tt, s].
  unfold publish, bind, self. simpl. rewrite Hg. simpl.
  destruct (validateTopicAndPayload _ _); [by exists tt, s|]. eexists tt, _. split; [reflexivity|done].
Qed.

Lemma handleTaskResult_record clk msg r result updated I :
  ThreadManagerLaws -> r_id r <> "" ->
  (forall e, E_TaskId e = r_id r -> is_Some (marshal_event e)) ->
  let event := result_event clk (row_task r) updated result in
  succeeds (fun s => holds (r_id r) I (tasks_db s))
    (do! on_tasks (SaveEvent (Some event)) in
     let! s := self in
     do! (if negb (String.eqb (ThreadId (row_task r)) "") && hasThreads s then
            match marshal_event event with
            | None => throw (Errorf "proto: invalid UTF-8")
            | Some data =>
                on_threads (AppendEntry (UnixMilli (clk 5%nat)) (ThreadId (row_task r))
                              (result_entry clk (m_FromDid msg) data))
            end
          else ret tt) in
     if hasGossip s then log_err (gossip_PublishTaskEvent event) else ret tt)
    (fun _ s => holds (r_id r) I (tasks_db s)).
Proof.
  intros Hlaws Hid Hme event.
  apply (succeeds_bind _ (fun _ s => holds (r_id r) I (tasks_db s))).
  { apply succeeds_zoom. intros s Hs. unfold SaveEvent. simpl. rewrite bool_decide_true by done.
    apply succeeds_exec. intros ? ->. by destruct (events _ !! _). }
  intros _ s Hs. unfold bind at 1, self. simpl. revert Hs.
  destruct (Hme event eq_refl) as [data Hdata]. rewrite Hdata. intros Hs.
  eapply (succeeds_bind (fun s0 => s0 = s)
    (fun _ s' => hasGossip s' = hasGossip s /\ holds (r_id r) I (tasks_db s'))); [| |done].
  - destruct (_ && _); [|by apply succeeds_ret; intros ? ->]. apply succeeds_zoom. intros ? ->.
    eapply succeeds_conseq; [|apply append_succeeds|]; done.
  - intros _. destruct (hasGossip s) eqn:Hg.
    + apply log_publish_run.
    + apply succeeds_ret. by intros s' [_ ?].
Qed.

Lemma handleTaskResult_run clk uuid msg result s r :
  ThreadManagerLaws -> r_id r <> "" ->
  (forall e, E_TaskId e = r_id r -> is_Some (marshal_event e)) ->
  m_Kind msg = KIND_TASK_RESULT -> unmarshal_result (m_Payload msg) = Some result ->
  u_TaskId result = r_id r -> u_Status result = COMPLETED \/ u_Status result = FAILED ->
  tasks (tasks_db s) !! r_id r = Some r -> r_status r = SUBMITTED ->
  correlated msg (row_task r) = true ->
  exists s', HandleIncoming clk uuid msg (World s []) = (Ok tt, World s' []) /\
    holds (r_id r) (answered result) (tasks_db s').
Proof.
  intros Hlaws Hid Hme Hk Hu Hti Hst Hr Hsub Hc. unfold HandleIncoming. rewrite Hk.
  unfold handleTaskResult. rewrite Hu, Hti. unfold bind at 1.
  rewrite (on_tasks_run _ s (Ok (row_task r)) (tasks_db s)) by (apply get_run; by rewrite ?Hsub).
  rewrite with_tasks_self, Hc. simpl Status.
  rewrite (bool_decide_false (r_status r = u_Status result)) by (destruct Hst; congruence).
  rewrite andb_false_l, (bool_decide_true (r_status r = SUBMITTED)) by done.
  unfold bind at 1 2. cbv beta iota. change (Id (row_task r)) with (r_id r).
  erewrite on_tasks_run by (by apply StartWork_run). unfold ret at 1. unfold bind at 1.
  erewrite on_tasks_run.
  2: { apply updateStatus_run; [simpl; by rewrite lookup_alter_eq, Hr|done|..];
         destruct Hst as [->| ->]; done. }
  match goal with |- context [World (with_tasks ?t ?s0) []] => set (s1 := with_tasks t s0) end.
  destruct (handleTaskResult_record clk msg r result (u_Status result) (answered result) Hlaws Hid Hme s1)
    as ([] & s' & E & Hh); [|by exists s'].
  eexists. split; [simpl; by rewrite lookup_alter_eq, lookup_alter_eq, Hr|done].
Qed.


(** Both rows of a completed task. *)
Definition completed_with (outs : list Artifact) (r : task_row) : Prop :=
  r_status r = COMPLETED /\ r_output r = Some outs.

(** What is left of the round trip once the request [msg] for [task] waits in
    the initiator's outbox: delivered to any daemon that does not know the task
    and is not itself the initiator, the request is taken over; the assignee can
    claim the task there; completed under the lease before it expires, its
    result is queued; and delivered to the initiator's daemon, in whatever state
    it is as long as its row still waits, the result completes that row too. *)
Definition completes_remotely (i w threadID : string) (task : Task) (msg : Message) : Prop :=
  forall clkB uB B, tasks (tasks_db B) !! Id task = None -> did B <> i ->
  exists B1, HandleIncoming clkB uB msg (World B []) = (Ok tt, World B1 []) /\
  forall c1 clk1 token secs, caller (clk1 0%nat) c1 B1 = Ok w ->
  exists lease B2,
    ClaimTask c1 clk1 token (Id task) secs (World B1 []) = (Ok lease, World B2 []) /\
  forall c2 clk2 uuid outs payload,
    caller (clk2 0%nat) c2 B2 = Ok w -> UnixMilli (clk2 1%nat) < L_ExpiresAt lease ->
    unused uuid B2 -> marshal_result (mkTaskResult (Id task) COMPLETED outs "" "") = Some payload ->
  exists fin B3 answer,
    CompleteTask c2 clk2 uuid (Id task) (L_Token lease) outs (World B2 []) = (Ok fin, World B3 []) /\
    queued answer B3 /\ holds (Id task) (completed_with outs) (tasks_db B3) /\
  forall clkA uA A, holds (Id task) (asked (Id task) i w threadID) (tasks_db A) ->
  exists A2, HandleIncoming clkA uA answer (World A []) = (Ok tt, World A2 []) /\
    holds (Id task) (completed_with outs) (tasks_db A2).

Lemma answer_run `{!TaskCodecLaws} `{!ThreadManagerLaws} clk uuid u i w threadID fin payload sentAt
    outs A :
  Initiator fin = i -> ThreadId fin = threadID -> Id fin <> "" ->
  (forall e, E_TaskId e = Id fin -> is_Some (marshal_event e)) ->
  marshal_result (mkTaskResult (Id fin) COMPLETED outs "" "") = Some payload ->
  holds (Id fin) (asked (Id fin) i w threadID) (tasks_db A) ->
  exists A2, HandleIncoming clk uuid (result_message u w fin payload sentAt) (World A []) =
      (Ok tt, World A2 []) /\ holds (Id fin) (completed_with outs) (tasks_db A2).
Proof.
  intros Hi Ht Hid Hme Hp (r & Hr & Hrid & Hri & Hra & Hrt & Hrs).
  apply result_roundtrip in Hp. rewrite <- Hrid in Hr, Hid, Hme |- *.
  edestruct (handleTaskResult_run clk uuid (result_message u w fin payload sentAt))
    as (A2 & E & Hh); [done|exact Hid|exact Hme|done|exact Hp|by symmetry|by left|exact Hr|done| |].
  { apply correlated_spec. simpl. rewrite Hri, Hra, Hrid, Hrt. by rewrite Hi, Ht. }
  exists A2. split; [exact E|]. destruct Hh as (r' & Hr' & Hs & Ho & _). by exists r'.
Qed.

Lemma remote_completion `{!TaskCodecLaws} `{!ThreadManagerLaws} u i w task t payload sentAt :
  marshal_request t = Some payload -> Id task <> "" -> q_Skill t <> "" -> i <> "" -> i <> w ->
  (forall e, E_TaskId e = Id task -> is_Some (marshal_event e)) ->
  completes_remotely i w (ThreadId task) task (request_message u i w task payload sentAt).
Proof.
  intros Hp Hid Hsk Hi Hiw Hme clkB uB B Hn Hdid. apply request_roundtrip in Hp.
  eexists. split; [by apply handleTaskRequest_run|].
  set (row := fresh_row _ _ _ _ _ _ _ _ _). intros c1 clk1 token secs Hc1.
  match type of Hc1 with caller _ _ ?b = _ => set (B1 := b) in * end.
  assert (Hrow : tasks (tasks_db B1) !! Id task = Some row) by apply lookup_insert_eq.
  destruct (ClaimTask_run c1 clk1 token (Id task) secs B1 row Hc1 Hrow eq_refl eq_refl eq_refl)
    as (B2 & E2 & Hr2 & Hd2). do 2 eexists. split; [exact E2|].
  intros c2 clk2 uuid outs payload2 Hc2 Hexp Hu Hpr. simpl in Hexp.
  match type of Hr2 with _ = Some ?r => set (r2 := r) in * end.
  destruct (CompleteTask_run c2 clk2 uuid (Id task) token outs w payload2 B2 r2)
    as (B3 & E3 & Hq & Hr3); try done.
  { unfold holds_lease, is_live, r2. simpl. rewrite !bool_decide_true by done. simpl. lia. }
  { rewrite Hd2. simpl. congruence. }
  do 3 eexists. split; [exact E3|]. split; [exact Hq|]. split; [by eexists|].
  intros clkA uA A HA.
  by apply (answer_run clkA uA uuid i w (ThreadId task)
    (row_task (finished_row (UnixMilli (clk2 1%nat)) COMPLETED "" outs r2)) payload2 _ outs A).
Qed.

(** ** Properties *)

(** C11: Delegating a task works end to end on drivers that do not fail: CreateTask
    by an authenticated initiator answers with a SUBMITTED task and leaves its
    request queued as a durable message; delivered to another daemon, claimed
    there by the assignee and completed under the lease, the task's result comes
    back in a durable message that completes the initiator's row with the same
    outputs ([completes_remotely]). *)
Theorem delegation_round_trip `{!TaskCodecLaws} `{!ThreadManagerLaws} c clk uid req t i payload A :
  caller (clk 0%nat) c A = Ok i -> i <> "" -> ct_Task req = Some t -> q_Skill t <> "" ->
  i <> ct_ToDid req -> uid 0%nat <> "" -> tasks (tasks_db A) !! uid 0%nat = None ->
  ct_IdempotencyKey req = "" \/ find_key i (ct_IdempotencyKey req) (tasks_db A) = None ->
  0 <= ct_MaxAttempts req -> marshal_request t = Some payload -> unused (uid 1%nat) A ->
  (forall e, E_TaskId e = uid 0%nat -> is_Some (marshal_event e)) ->
  exists task A1 msg,
    CreateTask error_text c clk uid req (World A []) = (Ok task, World A1 []) /\
    Status task = SUBMITTED /\ queued msg A1 /\
    holds (Id task) (asked (Id task) i (ct_ToDid req) (q_ThreadId t)) (tasks_db A1) /\
    completes_remotely i (ct_ToDid req) (q_ThreadId t) task msg.
Proof.
  intros Hc Hi Ht Hsk Hia Hu0 Hid Hkey Hm Hp Hu Hme.
  destruct (CreateTask_run c clk uid req t i payload A Hc Hi Ht Hsk Hia Hid Hkey Hm Hp Hu)
    as (A1 & E & Hh & Hq). do 3 eexists. split; [exact E|]. split; [done|]. split; [exact Hq|].
  split; [exact Hh|].
  match goal with |- completes_remotely _ _ _ ?task _ =>
    exact (remote_completion (uid 1%nat) i (ct_ToDid req) task t payload _ Hp Hu0 Hsk Hi Hia Hme) end.
Qed.

(** C10: Agents sharing a daemon are isolated: under any failures a request of
    the task service with a token changes the row of a task only if the token
    authenticates an agent entitled to that change, the assignee for a claim,
    the holder of the lease for its renewal and completion, the initiator
    otherwise; the one exception is SubscribeTasks, whose sweep takes back any
    task of the store whose lease expired by the time of one of its rounds, and
    leaves it exactly as requeued.  And every task an answer or a delivery
    shows is shown to a party of it: the initiator for a creation, an update and
    a cancellation, the assignee for a delivery, either for a read, the holder
    of the lease for a completion. *)
Theorem rpc_isolation c clk q w id r :
  bearerToken c <> "" -> live_sessions (db w) -> store_wf (tasks_db (db w)) ->
  tasks (tasks_db (db w)) !! id = Some r ->
  (tasks (tasks_db (db (snd (serve c clk q w)))) !! id <> Some r ->
   exists d, caller (clk 0%nat) c (db w) = Ok d /\
     (entitled q id r d \/
      exists now, sweep_time clk q now /\ lease_expired now r = true /\
        tasks (tasks_db (db (snd (serve c clk q w)))) !! id = Some (requeued now r))) /\
  (forall ts t, fst (serve c clk q w) = Ok ts -> t ∈ ts ->
   exists d, caller (clk 0%nat) c (db w) = Ok d /\ shown_to q (tasks_db (db w)) t d).
Proof.
  intros Hb Hl Hwf Hr. split.
  - intros Hch. destruct (serve_isolated c clk q w id r Hb Hl Hwf)
      as [(r' & Hr' & <-)|(d & Hd & [He|(r' & Hr' & [->|(now & HT & He & ->)])])];
      [by exists r|done|..]; [exists d; split; [done|]; by left|done|].
    exists d. split; [done|]. right. by exists now.
  - intros ts t Hs Ht. destruct (serve c clk q w) as [res w'] eqn:E. simpl in Hs. subst res.
    by eapply serve_shows.
Qed.

(** A peer's message changes an existing task only as the result of its
    assignee: under any failures handling an incoming message leaves the row of
    a task alone unless the message is a TASK_RESULT for that task, on its
    thread, from its assignee to its initiator. *)
Theorem incoming_isolation clk uuid msg w id r :
  store_wf (tasks_db (db w)) -> tasks (tasks_db (db w)) !! id = Some r ->
  tasks (tasks_db (db (snd (HandleIncoming clk uuid msg w)))) !! id <> Some r ->
  result_for msg id r.
Proof.
  intros Hwf Hr Hch. destruct (HandleIncoming_isolated id r clk uuid msg w Hwf) as [(r' & Hr' & <-)|?];
    [by exists r|done..].
Qed.

(** A result message may be delivered again: once handleTaskResult accepted it
    under some pattern of failures, then after any further calls on the task
    store handling the same message again succeeds and changes nothing at all,
    in whatever state the rest of the server is. *)
Theorem result_redelivery clk clk' msg w w1 ops fs w2 :
  store_wf (tasks_db (db w)) -> handleTaskResult clk msg w = (Ok tt, w1) ->
  tasks_db (db w2) = db (run_ops ops (World (tasks_db (db w1)) fs)) -> faults w2 = [] ->
  handleTaskResult clk' msg w2 = (Ok tt, w2).
Proof.
  intros Hwf Hh E Hf. apply handleTaskResult_settled in Hh as (result & Hu & r & Hr & Hset); [|done].
  destruct (run_ops_terminal ops (World (tasks_db (db w1)) fs) _ r Hr) as (m & d & Hmd);
    [apply Hset|]. rewrite <- E in Hmd.
  eapply handleTaskResult_again; [done..|]. by apply settled_budget.
Qed.

(** A peer can make the daemon panic: a TASK_RESULT from the assignee of an
    open task that carries a status outside the declared ones is not rejected
    but reaches the assertion of the task store's state machine. *)
Theorem remote_result_panics clk uuid msg result s r :
  store_wf (tasks_db s) -> m_Kind msg = KIND_TASK_RESULT ->
  unmarshal_result (m_Payload msg) = Some result ->
  tasks (tasks_db s) !! u_TaskId result = Some r -> correlated msg (row_task r) = true ->
  knownStatuses (u_Status result) = false ->
  fst (HandleIncoming clk uuid msg (World s [])) = Panic.
Proof.
  intros Hwf Hk Hu Hr Hc Hst. destruct (wf_rows _ Hwf _ r Hr) as (Hid & Hkn & _).
  unfold HandleIncoming. rewrite Hk. unfold handleTaskResult. rewrite Hu. unfold bind at 1.
  rewrite (on_tasks_run _ s (Ok (row_task r)) (tasks_db s)) by (by apply get_run).
  rewrite with_tasks_self, Hc, bool_decide_false by (simpl; congruence). simpl. rewrite Hid.
  case_bool_decide as Hsub; unfold bind.
  - erewrite on_tasks_run by (by apply StartWork_run). simpl.
    erewrite (on_tasks_run _ _ Panic); [reflexivity|]. eapply updateStatus_unknown;
      [simpl; rewrite lookup_alter_eq, Hr; reflexivity|done..].
  - simpl. erewrite (on_tasks_run _ _ Panic); [reflexivity|]. by eapply updateStatus_unknown.
Qed.
End Server.

(** ** A concrete server *)

(** A daemon with one agent's session, and messages with known encodings. *)
Definition toy_task_request : TaskRequest := mkTaskRequest "sum" "th" [] ∅.
Definition toy_result (st : TaskStatus) : TaskResult := mkTaskResult "t1" st [] "" "".

#[local] Instance toy_task_codec : TaskCodec := {|
  marshal_request x := if decide (x = toy_task_request) then Some "request" else None;
  unmarshal_request b := if String.eqb b "request" then Some toy_task_request else None;
  marshal_result x := if decide (x = toy_result COMPLETED) then Some "result" else None;
  unmarshal_result b :=
    if String.eqb b "result" then Some (toy_result COMPLETED)
    else if String.eqb b "unknown" then Some (toy_result (UNRECOGNIZED 9)) else None;
  marshal_event _ := Some "event";
  marshal_task _ := Some "task" |}.

#[local] Instance toy_task_codec_laws : TaskCodecLaws.
Proof. split; intros x b; simpl; case_decide; by intros [= <-]; subst. Qed.

#[local] Existing Instance sized_crypto.

Definition toy_ctx : ctx := Some ["Basic x"; "Bearer " +:+ b64_encode "token"].
Definition toy_clk (n : nat) : Z := (1000 + Z.of_nat n) * 1000000.
Definition toy_uid (n : nat) : string := match n with O => "t1" | S _ => "m1" end.
Definition toy_text (e : error) : string := "error".

Definition toy_server (t : TasksDB) : Server :=
  mkServer "did:node" true true t (Outbox.mkState [] false) Inbox.empty toy_minted
    ThreadStore.empty_db [].

Lemma toy_live t : live_sessions (toy_server t).
Proof. exists "node", toy_sys. split; [apply toy_reachable|done]. Qed.

(** A task of the agent, assigned to a peer. *)
Definition toy_tasks : TasksDB :=
  db (run_ops [OpCreateIdempotent "t1" 1000 toy_did "did:w" "th" "sum" [] ∅ ""] (World empty_db [])).

Lemma toy_tasks_wf : store_wf toy_tasks.
Proof. unfold toy_tasks. apply run_ops_preserves; [intros o _; apply run_op_wf|apply empty_db_wf]. Qed.

Definition toy_row : task_row := fresh_row "t1" 1000 toy_did "did:w" "th" "sum" [] ∅ "".

Definition toy_answer (payload : string) : Message :=
  mkMessage "m9" "did:w" toy_did "th" "t1" KIND_TASK_RESULT payload 5 "".

Lemma delegation_round_trip_witness :
  exists task A1 msg,
    CreateTask toy_text toy_ctx toy_clk toy_uid
      (mkCreateTask "did:w" (Some toy_task_request) "" 0 0) (World (toy_server empty_db) []) =
      (Ok task, World A1 []) /\
    Status task = SUBMITTED /\ queued msg A1 /\
    holds (Id task) (asked (Id task) toy_did "did:w" "th") (tasks_db A1) /\
    completes_remotely toy_did "did:w" "th" task msg.
Proof.
  apply (delegation_round_trip toy_text toy_ctx toy_clk toy_uid
    (mkCreateTask "did:w" (Some toy_task_request) "" 0 0) toy_task_request toy_did "request");
    try done; try (by vm_compute); [by left|apply not_elem_of_nil].
Defined.

Lemma rpc_isolation_witness :
  exists d, caller (toy_clk 0%nat) toy_ctx (toy_server toy_tasks) = Ok d /\
    (entitled (CallCancel "t1") "t1" toy_row d \/
     exists now, sweep_time toy_clk (CallCancel "t1") now /\ lease_expired now toy_row = true /\
       tasks (tasks_db (db (snd (serve toy_text toy_ctx toy_clk (CallCancel "t1")
         (World (toy_server toy_tasks) []))))) !! "t1" = Some (requeued now toy_row)).
Proof.
  apply (rpc_isolation toy_text toy_ctx toy_clk (CallCancel "t1") (World (toy_server toy_tasks) [])
    "t1" toy_row); [by vm_compute|apply toy_live|apply toy_tasks_wf|by vm_compute|by vm_compute].
Defined.

Lemma incoming_isolation_witness : result_for (toy_answer "result") "t1" toy_row.
Proof.
  apply (incoming_isolation toy_clk "u" (toy_answer "result") (World (toy_server toy_tasks) []));
    [apply toy_tasks_wf|by vm_compute|by vm_compute].
Defined.

Lemma result_redelivery_witness :
  exists w1, handleTaskResult toy_clk (toy_answer "result") (World (toy_server toy_tasks) []) =
      (Ok tt, w1) /\
    handleTaskResult toy_clk (toy_answer "result") w1 = (Ok tt, w1).
Proof.
  eexists. split; [vm_compute; reflexivity|].
  eapply (result_redelivery toy_clk toy_clk (toy_answer "result") (World (toy_server toy_tasks) [])
    _ [] []); [apply toy_tasks_wf|vm_compute; reflexivity|reflexivity|reflexivity].
Defined.

Lemma remote_result_panics_witness :
  fst (HandleIncoming toy_clk "u" (toy_answer "unknown") (World (toy_server toy_tasks) [])) = Panic.
Proof.
  apply (remote_result_panics toy_clk "u" (toy_answer "unknown") (toy_result (UNRECOGNIZED 9))
    (toy_server toy_tasks) toy_row); [apply toy_tasks_wf|by vm_compute..].
Defined.

(** A failure after the status update loses the rest of a result: the handler
    reports the error, so the peer delivers the result again, and the second
    delivery is taken for a duplicate: neither the event nor the entry for the
    task's thread is ever recorded. *)
Theorem result_entry_lost :
  exists fs w1 w2,
    handleTaskResult toy_clk (toy_answer "result") (World (toy_server toy_tasks) fs) = (Err ErrIO, w1) /\
    handleTaskResult toy_clk (toy_answer "result") w1 = (Ok tt, w2) /\
    holds "t1" (completed_with []) (tasks_db (db w2)) /\
    events (tasks_db (db w2)) = ∅ /\ ThreadStore.pending (threads (db w2)) = [].
Proof.
  exists (replicate 11 false ++ [true])%list. eexists _, _.
  split; [vm_compute; reflexivity|]. split; [vm_compute; reflexivity|].
  split; [|split; vm_compute; reflexivity].
  eexists. split; [vm_compute; reflexivity|]. split; reflexivity.
Qed.

(** A task the agent claimed for a remote initiator. *)
Definition toy_claimed : TasksDB :=
  db (run_ops [OpCreateFromRemote "u" 1000 "t1" "did:i" toy_did "th" "sum" [] ∅;
               OpClaim 1000 "tok" "t1" toy_did 0] (World empty_db [])).

(** A result that cannot be queued is lost: CompleteTask reports success, no
    message to the initiator exists, and completing again is refused. *)
Theorem complete_result_lost :
  exists fs t w1 w2,
    CompleteTask toy_ctx toy_clk "m1" "t1" "tok" [] (World (toy_server toy_claimed) fs) = (Ok t, w1) /\
    Status t = COMPLETED /\ Outbox.rows (outbox (db w1)) = [] /\
    CompleteTask toy_ctx toy_clk "m2" "t1" "tok" [] w1 = (Err ErrLeaseExpired, w2).
Proof.
  exists [false; false; true]. eexists _, _, _.
  split; [vm_compute; reflexivity|]. repeat split; vm_compute; reflexivity.
Qed.
