(* ===== verification/ThreadCrypto.v ===== *)
(** * Encrypted thread entries and recovery handles ([pkg/threadcrypto])

    The canonical header, the authenticated envelope of an entry, the wrapping of
    epoch keys for a recipient, recovery commitments and recovery handles.
    XChaCha20-Poly1305, X25519 and HKDF are the class [Cipher]; randomness is an
    argument.  The end of the file proves that envelopes and keys survive the
    round trip, that a header cannot be altered under a ciphertext, and which
    recovery handles parse back. *)

From stdpp Require Import base strings list pretty.
From Stdlib Require Import ZArith Lia Ascii.
From S2P Require Import Prelude GoStd Identity.

Local Open Scope string_scope.
Local Open Scope Z_scope.
#[local] Arguments String.append : simpl nomatch.

(** [aead_Seal key nonce plaintext aad], [aead_Open key nonce ciphertext aad];
    [ECDH sk pub] fails on a low-order point, [NewPublicKey] on bytes that are no
    key; [hkdf_key shared info] is the first 32 bytes of HKDF-SHA-256. *)
Class Cipher : Type := {
  aead_Seal : string -> string -> string -> string -> string;
  aead_Open : string -> string -> string -> string -> option string;
  x25519_public : string -> string;
  NewPublicKey : string -> option string;
  ECDH : string -> string -> option string;
  hkdf_key : string -> string -> string }.

(** Opening inverts sealing, a ciphertext that opens is the sealing of what it
    opens to, and under one key a ciphertext authenticates one associated data.
    A generated public key parses, and both sides derive the same secret. *)
Class CipherLaws `{Cipher} : Prop := {
  open_seal : forall k n p a, aead_Open k n (aead_Seal k n p a) a = Some p;
  seal_open : forall k n c a p, aead_Open k n c a = Some p -> c = aead_Seal k n p a;
  seal_binds_aad : forall k n n' p p' a a', aead_Seal k n p a = aead_Seal k n' p' a' -> a = a';
  public_parses : forall sk, NewPublicKey (x25519_public sk) = Some (x25519_public sk);
  ECDH_comm : forall a b, ECDH a (x25519_public b) = ECDH b (x25519_public a) }.

Module ThreadCrypto.

Definition KeySize : Z := 32.
Definition NonceSizeX : Z := 24.
Definition PrivateKeySize : Z := 64.
Definition PublicKeySize : Z := 32.

(** ** envelope.go *)

Record Header : Type := mkHeader {
  h_ThreadID : string;
  h_Sequence : Z;
  h_PreviousBlockHash : string;
  h_AuthorDID : string;
  h_Kind : string;
  h_MembershipEpoch : Z;
  h_EncryptionEpoch : Z;
  h_Nonce : string }.

Definition set_nonce (n : string) (h : Header) : Header :=
  mkHeader (h_ThreadID h) (h_Sequence h) (h_PreviousBlockHash h) (h_AuthorDID h) (h_Kind h)
    (h_MembershipEpoch h) (h_EncryptionEpoch h) n.

(** The closure [put]: the length as a uint32, then the bytes. *)
Definition put (v : string) : string := be_bytes 4 (uint32 (slen v)) ++ v.

Definition Canonical (h : Header) : outcome string :=
  if negb (slen (h_Nonce h) =? NonceSizeX) then Err (Errorf "thread nonce must be 24 bytes") else
  Ok (put (h_ThreadID h) ++ be_bytes 8 (h_Sequence h) ++ put (h_PreviousBlockHash h)
      ++ put (h_AuthorDID h) ++ put (h_Kind h) ++ be_bytes 8 (h_MembershipEpoch h)
      ++ be_bytes 8 (h_EncryptionEpoch h) ++ put (h_Nonce h)).

Section ThreadCrypto.
Context `{Crypto} `{Cipher}.

(** Go's 64-byte private key is the seed followed by the public key; the
    primitive takes it whole. *)
Definition Sign (private : string) (h : Header) (ciphertext : string) : outcome string :=
  if negb (slen private =? PrivateKeySize) then Err (Errorf "invalid Ed25519 private key") else
  match Canonical h with
  | Ok aad => Ok (ed25519_sign private (aad ++ ciphertext))
  | Err e => Err e
  | Panic => Panic
  end.

Definition Verify (public : string) (h : Header) (ciphertext signature : string) : outcome bool :=
  if negb (slen public =? PublicKeySize) then Err (Errorf "invalid Ed25519 public key") else
  match Canonical h with
  | Ok aad => Ok (ed25519_check public (aad ++ ciphertext) signature)
  | Err e => Err e
  | Panic => Panic
  end.

(** [rnd]: the 24 random bytes, or the failure of [rand.Read]. *)
Definition Encrypt (rnd : outcome string) (key : string) (h : Header) (plaintext : string)
    : outcome (string * Header) :=
  if negb (slen key =? KeySize) then Err (Errorf "thread key must be 32 bytes") else
  match (if slen (h_Nonce h) =? 0
         then match rnd with Ok n => Ok (set_nonce n h) | Err e => Err e | Panic => Panic end
         else Ok h) with
  | Ok h' =>
      match Canonical h' with
      | Ok aad => Ok (aead_Seal key (h_Nonce h') plaintext aad, h')
      | Err e => Err e
      | Panic => Panic
      end
  | Err e => Err e
  | Panic => Panic
  end.

Definition Decrypt (key : string) (h : Header) (ciphertext : string) : outcome string :=
  if negb (slen key =? KeySize) then Err (Errorf "thread key must be 32 bytes") else
  match Canonical h with
  | Ok aad =>
      match aead_Open key (h_Nonce h) ciphertext aad with
      | Some p => Ok p
      | None => Err (Errorf "chacha20poly1305: message authentication failed")
      end
  | Err e => Err e
  | Panic => Panic
  end.

(** ** envelope_keys.go *)

(** [eph]: the generated private key; [rnd]: the nonce. *)
Definition WrapEpochKey (eph rnd : outcome string) (recipient : option string) (key context : string)
    : outcome (string * string * string) :=
  match recipient with
  | None => Err (Errorf "invalid recipient or epoch key")
  | Some pub =>
      if negb (slen key =? KeySize) then Err (Errorf "invalid recipient or epoch key") else
      match eph with
      | Err e => Err e
      | Panic => Panic
      | Ok eph =>
          match ECDH eph pub with
          | None => Err (Errorf "crypto/ecdh: bad X25519 remote ECDH input: low order point")
          | Some shared =>
              match rnd with
              | Err e => Err e
              | Panic => Panic
              | Ok nonce =>
                  Ok (x25519_public eph, nonce,
                      aead_Seal (hkdf_key shared context) nonce key context)
              end
          end
      end
  end.

Definition UnwrapEpochKey (recipient : option string) (ephemeral nonce ciphertext context : string)
    : outcome string :=
  match recipient with
  | None => Err (Errorf "invalid key envelope")
  | Some sk =>
      if negb (slen nonce =? NonceSizeX) then Err (Errorf "invalid key envelope") else
      match NewPublicKey ephemeral with
      | None => Err (Errorf "crypto/ecdh: invalid public key")
      | Some pub =>
          match ECDH sk pub with
          | None => Err (Errorf "crypto/ecdh: bad X25519 remote ECDH input: low order point")
          | Some shared =>
              match aead_Open (hkdf_key shared context) nonce ciphertext context with
              | Some key => Ok key
              | None => Err (Errorf "chacha20poly1305: message authentication failed")
              end
          end
      end
  end.

(** ** recovery.go *)

Definition RecoveryCommitmentMetadataKey : string := "recovery_capability_sha256".

Definition RecoveryCommitment (secret : string) : outcome string :=
  if negb (slen secret =? 32) then Err (Errorf "recovery secret must be 32 bytes")
  else Ok (hex_encode (Sum256 secret)).

(** [subtle.ConstantTimeCompare] is 1 exactly on equal slices. *)
Definition MatchesRecoveryCommitment (secret commitment : string) : bool :=
  match RecoveryCommitment secret with
  | Ok actual => if negb (slen commitment =? 64) then false else String.eqb actual commitment
  | _ => false
  end.

Record RecoveryHandle : Type := mkHandle { ThreadID : string; Secret : string; Version : Z }.

Definition recoveryPrefix : string := "moltmesh-recovery-v1".

(** [rnd]: 32 random bytes. *)
Definition NewRecoveryHandle (rnd : outcome string) (threadID : string) : outcome RecoveryHandle :=
  if String.eqb threadID "" then Err (Errorf "recovery handle requires thread ID") else
  match rnd with
  | Ok secret => Ok (mkHandle threadID secret 1)
  | Err e => Err e
  | Panic => Panic
  end.

(** Slicing [sum[:4]] is within the 32 bytes of the digest. *)
Definition String_ (h : RecoveryHandle) : outcome string :=
  if negb (Version h =? 1) || String.eqb (ThreadID h) "" || negb (slen (Secret h) =? 32)
  then Err (Errorf "invalid recovery handle") else
  let body := recoveryPrefix ++ ":" ++ ThreadID h ++ ":" ++ b64_encode (Secret h) in
  let sum := Sum256 body in
  Ok (body ++ ":" ++ b64_encode (take_str 4 sum)).

Definition ParseRecoveryHandle (encoded : string) : outcome RecoveryHandle :=
  match Split ":" encoded with
  | [p0; p1; p2; p3] =>
      if negb (String.eqb p0 recoveryPrefix) || String.eqb p1 ""
      then Err (Errorf "invalid recovery handle format") else
      let body := Join [p0; p1; p2] ":" in
      match b64_decode p3 with
      | None => Err (Errorf "invalid recovery handle checksum")
      | Some checksum =>
          if negb (slen checksum =? 4) then Err (Errorf "invalid recovery handle checksum") else
          let sum := Sum256 body in
          if negb (String.eqb checksum (take_str 4 sum))
          then Err (Errorf "recovery handle checksum mismatch") else
          match b64_decode p2 with
          | None => Err (Errorf "invalid recovery handle secret")
          | Some secret =>
              if negb (slen secret =? 32) then Err (Errorf "invalid recovery handle secret")
              else Ok (mkHandle p1 secret 1)
          end
      end
  | _ => Err (Errorf "invalid recovery handle format")
  end.

End ThreadCrypto.
End ThreadCrypto.

Import ThreadCrypto.

(** ** The canonical encoding *)

(** The lengths and numbers Go's types allow in a header (a slice longer than
    4 GiB would have its length truncated). *)
Definition header_fits (h : Header) : Prop :=
  slen (h_ThreadID h) < 2 ^ 32 /\ slen (h_PreviousBlockHash h) < 2 ^ 32 /\
  slen (h_AuthorDID h) < 2 ^ 32 /\ slen (h_Kind h) < 2 ^ 32 /\
  0 <= h_Sequence h < 2 ^ 64 /\ 0 <= h_MembershipEpoch h < 2 ^ 64 /\
  0 <= h_EncryptionEpoch h < 2 ^ 64.

Lemma put_inj v v' t t' :
  slen v < 2 ^ 32 -> slen v' < 2 ^ 32 -> put v ++ t = put v' ++ t' -> v = v' /\ t = t'.
Proof.
  intros Hv Hv' E. unfold put in E. rewrite <- !append_assoc_str in E.
  apply app_inj_length in E as [El E]; [|by rewrite !be_bytes_length].
  pose proof (slen_nonneg v). pose proof (slen_nonneg v').
  apply be_bytes_inj in El; [|apply Z.mod_pos_bound; lia..].
  unfold uint32 in El. rewrite !Z.mod_small in El by lia.
  apply app_inj_length in E; [done|]. unfold slen in El. lia.
Qed.

Lemma u64_inj a b t t' :
  0 <= a < 2 ^ 64 -> 0 <= b < 2 ^ 64 -> be_bytes 8 a ++ t = be_bytes 8 b ++ t' -> a = b /\ t = t'.
Proof.
  intros Ha Hb E. apply app_inj_length in E as [E ->]; [|by rewrite !be_bytes_length].
  split; [|done]. by apply (be_bytes_inj 8).
Qed.

(** One reading: a header followed by a ciphertext. *)
Lemma Canonical_inj h h' a a' c c' :
  header_fits h -> header_fits h' -> Canonical h = Ok a -> Canonical h' = Ok a' ->
  a ++ c = a' ++ c' -> h = h' /\ c = c'.
Proof.
  intros (H1 & H2 & H3 & H4 & H5 & H6 & H7) (K1 & K2 & K3 & K4 & K5 & K6 & K7) Ea Ea' E.
  unfold Canonical in *. destruct (slen (h_Nonce h) =? NonceSizeX) eqn:En; [|done].
  destruct (slen (h_Nonce h') =? NonceSizeX) eqn:En'; [|done]. apply (inj Ok) in Ea as <-, Ea' as <-.
  rewrite <- !append_assoc_str in E. unfold NonceSizeX in *.
  apply put_inj in E as [E1 E]; [|done..]. apply u64_inj in E as [E2 E]; [|done..].
  apply put_inj in E as [E3 E]; [|done..]. apply put_inj in E as [E4 E]; [|done..].
  apply put_inj in E as [E5 E]; [|done..]. apply u64_inj in E as [E6 E]; [|done..].
  apply u64_inj in E as [E7 E]; [|done..]. apply put_inj in E as [E8 E]; [|lia..].
  split; [|done]. destruct h, h'; simpl in *. congruence.
Qed.

Lemma Encrypt_ok `{Crypto} `{Cipher} rnd key h p c h' :
  Encrypt rnd key h p = Ok (c, h') ->
  slen key = KeySize /\ (h' = h \/ exists n, rnd = Ok n /\ h' = set_nonce n h) /\
  exists aad, Canonical h' = Ok aad /\ c = aead_Seal key (h_Nonce h') p aad.
Proof.
  unfold Encrypt. destruct (slen key =? KeySize) eqn:Ek; [|done]. simpl negb. cbv iota.
  destruct (slen (h_Nonce h) =? 0).
  - destruct rnd as [n| |]; [|done..]. destruct (Canonical (set_nonce n h)) eqn:Ec; [|done..].
    intros [= <- <-]. split; [lia|]. split; eauto.
  - destruct (Canonical h) eqn:Ec; [|done..]. intros [= <- <-]. split; [lia|]. split; eauto.
Qed.

(** ** A concrete cipher *)

(** The ciphertext is the encoded associated data, a colon and the plaintext. *)
#[export] Instance toy_cipher : Cipher := {|
  aead_Seal k n p a := b64_encode a ++ String ":"%char p;
  aead_Open k n c a :=
    match cut ":" c with
    | (x, Some p) => if String.eqb x (b64_encode a) then Some p else None
    | _ => None
    end;
  x25519_public sk := sk;
  NewPublicKey b := Some b;
  ECDH a b := Some (pretty (be_value a * be_value b));
  hkdf_key shared info := shared ++ info |}.

#[export] Instance toy_cipher_laws : CipherLaws.
Proof.
  split; simpl.
  - intros k n p a. rewrite cut_app by apply b64_encode_nocolon. by rewrite String.eqb_refl.
  - intros k n c a p. destruct (cut ":" c) as [x [q|]] eqn:Ec; [|done].
    destruct (String.eqb_spec x (b64_encode a)) as [->|]; [|done]. intros [= ->].
    by apply cut_some in Ec as [-> _].
  - intros k n n' p p' a a' E. apply sep_inj in E as [E _]; [|apply b64_encode_nocolon..].
    by apply b64_encode_inj.
  - done.
  - intros a b. by rewrite Z.mul_comm.
Qed.

(** A hash of 32 bytes: the first 32 of the padded input. *)
Definition sized_hash : Crypto := {|
  base58_Encode := @base58_Encode toy_crypto;
  base58_Decode := @base58_Decode toy_crypto;
  ed25519_check := @ed25519_check toy_crypto;
  ed25519_sign := @ed25519_sign toy_crypto;
  ed25519_public := @ed25519_public toy_crypto;
  Sum256 b := take_str 32 (b ++ toy_key) |}.

(** ** Envelopes *)

(** C36: An entry encrypted under a 32-byte key comes back: Encrypt returns a
    ciphertext and a header (with a fresh nonce if it had none), Decrypt under the
    returned header yields the plaintext, and under no other header, whatever
    field differs, does the ciphertext decrypt.  A signature made over both is
    accepted. *)
Theorem envelope_roundtrip `{CryptoLaws} `{CipherLaws} rnd key h p :
  slen key = KeySize -> header_fits h ->
  slen (h_Nonce h) = NonceSizeX \/ (h_Nonce h = "" /\ exists n, rnd = Ok n /\ slen n = NonceSizeX) ->
  exists c h', Encrypt rnd key h p = Ok (c, h') /\ Decrypt key h' c = Ok p /\
    (forall h'' q, header_fits h'' -> Decrypt key h'' c = Ok q -> h'' = h' /\ q = p) /\
    (forall sk sig, slen (ed25519_public sk) = PublicKeySize -> Sign sk h' c = Ok sig ->
       Verify (ed25519_public sk) h' c sig = Ok true).
Proof.
  intros Hk Hf Hn. assert (HE : exists c h', Encrypt rnd key h p = Ok (c, h')).
  { unfold Encrypt, Canonical. rewrite Hk. simpl negb. cbv iota.
    destruct Hn as [Hn|[Hn (n & -> & Hn')]].
    - rewrite Hn. simpl. rewrite Hn. simpl. eauto.
    - rewrite Hn. simpl. rewrite Hn'. simpl. eauto. }
  destruct HE as (c & h' & HE). exists c, h'. split; [done|].
  apply Encrypt_ok in HE as (_ & Hh & aad & Ea & ->).
  assert (Hf' : header_fits h') by (destruct Hh as [->|(n & _ & ->)]; exact Hf).
  unfold Decrypt. rewrite Hk, Ea, open_seal. simpl negb. cbv iota. split; [done|]. split.
  - intros h'' q Hf'' Ed. destruct (Canonical h'') as [aad'| |] eqn:Ea'; [|done..].
    destruct (aead_Open _ _ _ _) as [q'|] eqn:Eo; [|done]. injection Ed as ->.
    pose proof Eo as Es. apply seal_open, seal_binds_aad in Es as ->.
    destruct (Canonical_inj h'' h' aad' aad' "" "") as [-> _]; [done..|].
    by rewrite open_seal in Eo; injection Eo.
  - intros sk sig Hs. unfold Sign, Verify. rewrite Ea, Hs.
    destruct (slen sk =? PrivateKeySize); [|done]. intros [= <-]. simpl.
    by rewrite ed25519_correct.
Qed.

Definition toy_header : Header := mkHeader "T" 3 "parent" "did:key:za" "note" 1 2 "".

Lemma envelope_roundtrip_witness :
  exists c h', Encrypt (Ok "0123456789abcdef01234567") toy_key toy_header "secret" = Ok (c, h') /\
    Decrypt toy_key h' c = Ok "secret" /\
    (forall h'' q, header_fits h'' -> Decrypt toy_key h'' c = Ok q -> h'' = h' /\ q = "secret") /\
    (forall sk sig, slen (ed25519_public sk) = PublicKeySize -> Sign sk h' c = Ok sig ->
       Verify (ed25519_public sk) h' c sig = Ok true).
Proof.
  apply (envelope_roundtrip (Ok "0123456789abcdef01234567") toy_key toy_header "secret");
    [reflexivity|repeat split; vm_compute; congruence|].
  right. split; [reflexivity|]. exists "0123456789abcdef01234567". split; reflexivity.
Defined.

(** An epoch key wrapped for a recipient's public key is recovered with the
    private key in the same context. *)
Theorem epoch_key_roundtrip `{Crypto} `{CipherLaws} eph nonce sk key context e n c :
  slen nonce = NonceSizeX ->
  WrapEpochKey (Ok eph) (Ok nonce) (Some (x25519_public sk)) key context = Ok (e, n, c) ->
  UnwrapEpochKey (Some sk) e n c context = Ok key.
Proof.
  intros Hn. unfold WrapEpochKey. destruct (slen key =? KeySize); [|done]. simpl negb. cbv iota.
  destruct (ECDH eph (x25519_public sk)) as [shared|] eqn:Es; [|done]. intros [= <- <- <-].
  unfold UnwrapEpochKey. rewrite Hn, public_parses, ECDH_comm, Es. simpl. by rewrite open_seal.
Qed.

Lemma epoch_key_roundtrip_witness :
  UnwrapEpochKey (Some "sk") "eph" "0123456789abcdef01234567" (b64_encode "ctx" ++ ":" ++ toy_key) "ctx" = Ok toy_key.
Proof. by apply (epoch_key_roundtrip "eph" "0123456789abcdef01234567" "sk" toy_key "ctx"). Defined.

(** ** Recovery handles *)

Lemma take_str_len n s : (n <= String.length s)%nat -> String.length (take_str n s) = n.
Proof.
  revert s. induction n as [|n IH]; intros [|c s]; simpl; intros Hs; try lia. by rewrite IH by lia.
Qed.

Lemma no_char_recoveryPrefix : no_char ":" recoveryPrefix = true.
Proof. reflexivity. Qed.

Lemma ParseRecoveryHandle_ok `{Crypto} s h :
  ParseRecoveryHandle s = Ok h ->
  Version h = 1 /\ ThreadID h <> "" /\ slen (Secret h) = 32 /\ no_char ":" (ThreadID h) = true.
Proof.
  unfold ParseRecoveryHandle. pose proof (Split_free ":" s) as Hf.
  destruct (Split ":" s) as [|p0 [|p1 [|p2 [|p3 [|]]]]]; try done.
  destruct (String.eqb p0 recoveryPrefix); [|done]. destruct (String.eqb_spec p1 ""); [done|].
  simpl negb. cbn [orb]. cbv iota zeta.
  destruct (b64_decode p3) as [ck|]; [|done]. destruct (slen ck =? 4); [|done]. simpl negb. cbv iota.
  destruct (String.eqb ck _); [|done]. simpl negb. cbv iota.
  destruct (b64_decode p2) as [secret|]; [|done]. destruct (slen secret =? 32) eqn:Hs; [|done].
  intros [= <-]. simpl. repeat split; try done; [lia|]. by apply Forall_cons in Hf as [_ [? _]%Forall_cons].
Qed.

(** The parse of a printed handle, by the number of colons in the thread ID. *)
Lemma Parse_String_ok `{Crypto} h s :
  (forall b, slen (Sum256 b) = 32) -> String_ h = Ok s -> no_char ":" (ThreadID h) = true ->
  ParseRecoveryHandle s = Ok h.
Proof.
  intros Hsum. unfold String_. destruct h as [tid secret ver]. cbn [ThreadID Secret Version].
  destruct (Z.eqb_spec ver 1) as [->|]; [|done]. destruct (String.eqb_spec tid ""); [done|].
  destruct (Z.eqb_spec (slen secret) 32) as [Hs|]; [|done]. cbn [negb orb]. cbv iota zeta.
  intros E%(inj Ok) Htid. subst s. set (body := recoveryPrefix ++ _) at 2.
  unfold ParseRecoveryHandle.
  assert (Hsplit : Split ":" ((recoveryPrefix ++ ":" ++ tid ++ ":" ++ b64_encode secret)
      ++ ":" ++ b64_encode (take_str 4 (Sum256 body)))
    = [recoveryPrefix; tid; b64_encode secret; b64_encode (take_str 4 (Sum256 body))]).
  { rewrite <- (Split_Join_id ":" [recoveryPrefix; _; _; _]);
      [|done|repeat constructor; try done; apply b64_encode_nocolon].
    f_equal. cbn [Join]. by rewrite <- !append_assoc_str. }
  rewrite Hsplit. rewrite (String.eqb_refl recoveryPrefix). destruct (String.eqb_spec tid ""); [done|]. cbn [negb orb]. cbv iota zeta.
  rewrite !b64_roundtrip, Hs.
  replace (slen (take_str 4 (Sum256 body))) with 4.
  2: { unfold slen. rewrite take_str_len; [done|]. specialize (Hsum body). unfold slen in Hsum. lia. }
  cbn [Join]. fold body. by rewrite String.eqb_refl.
Qed.

Lemma Split_length_colon sep s : no_char sep s = false -> (2 <= length (Split sep s))%nat.
Proof.
  induction s as [|c s IH]; [done|]. rewrite no_char_cons. simpl.
  assert (length (Split sep s) <> 0)%nat by (intros E%nil_length_inv; by apply Split_nonempty in E).
  destruct (Ascii.eqb sep c); simpl; [lia|]. intros Hs%IH.
  by destruct (Split sep s).
Qed.

Lemma Parse_String_colon `{Crypto} h s :
  String_ h = Ok s -> no_char ":" (ThreadID h) = false ->
  ParseRecoveryHandle s = Err (Errorf "invalid recovery handle format").
Proof.
  unfold String_. destruct (_ || _); [done|]. cbv zeta.
  intros E%(inj Ok) Ht%Split_length_colon. subst s.
  unfold ParseRecoveryHandle. set (l := Split ":" _).
  assert (Hl : (5 <= length l)%nat).
  { unfold l. rewrite !Split_length_app, !(Split_none ":" (b64_encode _)) by apply b64_encode_nocolon.
    rewrite (Split_none ":" recoveryPrefix) by done. simpl. lia. }
  clearbody l. by destruct l as [|p0 [|p1 [|p2 [|p3 [|]]]]]; simpl in Hl; try lia.
Qed.

(** Which recovery handles can be used again: a handle that prints parses
    back to itself exactly when its thread ID holds no colon; otherwise the parser
    rejects it.  Whatever the parser accepts is a well-formed handle that prints
    and parses back. *)
Theorem recovery_handle_roundtrip `{Crypto} :
  (forall b, slen (Sum256 b) = 32) ->
  (forall h s, String_ h = Ok s ->
     if no_char ":" (ThreadID h) then ParseRecoveryHandle s = Ok h
     else ParseRecoveryHandle s = Err (Errorf "invalid recovery handle format")) /\
  (forall s h, ParseRecoveryHandle s = Ok h ->
     exists s', String_ h = Ok s' /\ ParseRecoveryHandle s' = Ok h).
Proof.
  intros Hsum. split.
  - intros h s Hs. destruct (no_char ":" (ThreadID h)) eqn:Ht; [by apply Parse_String_ok|].
    by apply (Parse_String_colon h).
  - intros s h Hp. destruct (ParseRecoveryHandle_ok s h Hp) as (Hv & Ht & Hs & Hc).
    assert (Hp' : exists s', String_ h = Ok s').
    { unfold String_. rewrite Hv, Hs. apply String.eqb_neq in Ht. rewrite Ht. eexists. reflexivity. }
    destruct Hp' as [s' Hs']. exists s'. split; [done|]. by apply Parse_String_ok.
Qed.

Lemma recovery_handle_roundtrip_witness :
  (exists s, @String_ sized_hash (mkHandle "T" toy_key 1) = Ok s /\
     @ParseRecoveryHandle sized_hash s = Ok (mkHandle "T" toy_key 1)) /\
  (exists s, @String_ sized_hash (mkHandle "a:b" toy_key 1) = Ok s /\
     @ParseRecoveryHandle sized_hash s = Err (Errorf "invalid recovery handle format")).
Proof.
  assert (Hsum : forall b, slen (@Sum256 sized_hash b) = 32).
  { intros b. change (@Sum256 sized_hash b) with (take_str 32 (b ++ toy_key)). unfold slen. rewrite take_str_len; [done|].
    pose proof (slen_app b toy_key) as Ha. unfold slen in Ha. simpl in Ha. lia. }
  destruct (@recovery_handle_roundtrip sized_hash Hsum) as [H _].
  split; eexists; (split; [reflexivity|]).
  - exact (H (mkHandle "T" toy_key 1) _ eq_refl).
  - exact (H (mkHandle "a:b" toy_key 1) _ eq_refl).
Defined.
