(* ===== verification/Regex.v ===== *)
(** * Regular expressions

    The anchored regular expressions of the sources as data, their language as an
    inductive relation, and an executable matcher by derivatives, proved to decide
    the language.  [regexp.MatchString] on an expression of the form [^r$] is
    [re_match r]: without flags [$] matches only at the end of the text. *)

From stdpp Require Import base strings list.
From Stdlib Require Import Ascii.
From S2P Require Import Prelude GoStd.

Local Open Scope string_scope.
#[local] Arguments String.append : simpl nomatch.

Inductive re : Type :=
| Void
| Eps
| Cls (p : ascii -> bool)
| Seq (r s : re)
| Alt (r s : re)
| Star (r : re).

(** [r+] *)
Definition Plus (r : re) : re := Seq r (Star r).

Inductive lang : re -> string -> Prop :=
| lang_eps : lang Eps ""
| lang_cls p c : p c = true -> lang (Cls p) (String c "")
| lang_seq r s x y : lang r x -> lang s y -> lang (Seq r s) (x ++ y)
| lang_alt_l r s x : lang r x -> lang (Alt r s) x
| lang_alt_r r s x : lang s x -> lang (Alt r s) x
| lang_star_nil r : lang (Star r) ""
| lang_star_cons r x y : lang r x -> lang (Star r) y -> lang (Star r) (x ++ y).

Lemma lang_seq_inv r s w : lang (Seq r s) w -> exists x y, w = x ++ y /\ lang r x /\ lang s y.
Proof. inversion 1; subst. eauto. Qed.

Lemma lang_cls_inv p w : lang (Cls p) w -> exists c, w = String c "" /\ p c = true.
Proof. inversion 1; subst. eauto. Qed.

Fixpoint nullable (r : re) : bool :=
  match r with
  | Void | Cls _ => false
  | Eps | Star _ => true
  | Seq r s => nullable r && nullable s
  | Alt r s => nullable r || nullable s
  end.

(** The derivative of [r] by a character. *)
Fixpoint deriv (c : ascii) (r : re) : re :=
  match r with
  | Void | Eps => Void
  | Cls p => if p c then Eps else Void
  | Seq r s => if nullable r then Alt (Seq (deriv c r) s) (deriv c s) else Seq (deriv c r) s
  | Alt r s => Alt (deriv c r) (deriv c s)
  | Star r => Seq (deriv c r) (Star r)
  end.

Fixpoint re_match (r : re) (s : string) : bool :=
  match s with
  | "" => nullable r
  | String c s' => re_match (deriv c r) s'
  end.

Lemma nullable_spec r : nullable r = true <-> lang r "".
Proof.
  split.
  - induction r as [| |p|r IHr s IHs|r IHr s IHs|r IHr]; simpl; try done; intros Hn.
    + constructor.
    + apply andb_true_iff in Hn as [Hr Hs]. apply (lang_seq r s "" ""); auto.
    + apply orb_true_iff in Hn as [Hr|Hs]; [by apply lang_alt_l, IHr|by apply lang_alt_r, IHs].
    + constructor.
  - intros Hl. remember "" as e eqn:He. induction Hl; simpl; subst; try done.
    + destruct x; [|done]. destruct y; [|done]. by rewrite IHHl1, IHHl2.
    + by rewrite IHHl.
    + rewrite IHHl by done. by destruct (nullable r).
Qed.

Lemma deriv_sound c r s : lang (deriv c r) s -> lang r (String c s).
Proof.
  revert s. induction r as [| |p|r IHr t IHt|r IHr t IHt|r IHr]; simpl; intros s Hl.
  - inversion Hl.
  - inversion Hl.
  - destruct (p c) eqn:Hp; inversion Hl; subst. by constructor.
  - assert (Hseq : lang (Seq (deriv c r) t) s -> lang (Seq r t) (String c s)).
    { intros (x & y & -> & Hx & Hy)%lang_seq_inv.
      apply (lang_seq r t (String c x) y); [by apply IHr|done]. }
    destruct (nullable r) eqn:Hn; [|by apply Hseq].
    inversion Hl; subst; [by apply Hseq|].
    apply (lang_seq r t "" (String c s)); [by apply nullable_spec|by apply IHt].
  - inversion Hl; subst; [by apply lang_alt_l, IHr|by apply lang_alt_r, IHt].
  - apply lang_seq_inv in Hl as (x & y & -> & Hx & Hy).
    apply (lang_star_cons r (String c x) y); [by apply IHr|done].
Qed.

Lemma deriv_complete c r s : lang r (String c s) -> lang (deriv c r) s.
Proof.
  intros Hl. remember (String c s) as w eqn:Hw. revert s Hw.
  induction Hl as [|p d Hp|r t x y Hx IHx Hy IHy|r t x Hx IHx|r t x Hx IHx|r|r x y Hx IHx Hy IHy];
    simpl; intros s Hw; try discriminate Hw.
  - injection Hw as -> <-. rewrite Hp. constructor.
  - destruct x as [|d x]; simpl in Hw.
    + rewrite (proj2 (nullable_spec r)) by done. apply lang_alt_r. by apply IHy.
    + injection Hw as -> <-. destruct (nullable r); [apply lang_alt_l|];
        (apply lang_seq; [by apply IHx|done]).
  - by apply lang_alt_l, IHx.
  - by apply lang_alt_r, IHx.
  - destruct x as [|d x]; simpl in Hw; [by apply IHy|].
    injection Hw as -> <-. apply lang_seq; [by apply IHx|done].
Qed.

(** The matcher decides the language. *)
Lemma re_match_spec r s : re_match r s = true <-> lang r s.
Proof.
  revert r. induction s as [|c s IH]; intros r; simpl; [apply nullable_spec|].
  rewrite IH. split; [apply deriv_sound|apply deriv_complete].
Qed.

#[export] Instance lang_dec r s : Decision (lang r s).
Proof.
  destruct (re_match r s) eqn:E; [left; by apply re_match_spec|right].
  intros H%re_match_spec. congruence.
Defined.

(** ** Words of one class joined by a separator *)

Definition words_re (first rest : ascii -> bool) (sep : ascii) : re :=
  Seq (Seq (Cls first) (Star (Cls rest)))
      (Star (Seq (Cls (Ascii.eqb sep)) (Seq (Cls first) (Star (Cls rest))))).

(** A word: a first character, then any number of further ones. *)
Definition is_word (first rest : ascii -> bool) (s : string) : bool :=
  match s with "" => false | String c s' => first c && all_chars rest s' end.

Lemma star_cls p s : lang (Star (Cls p)) s <-> all_chars p s = true.
Proof.
  split.
  - intros H. remember (Star (Cls p)) as r eqn:Hr. induction H as [| | | | | |r x y Hx _ Hy IH]; try done.
    injection Hr as ->. apply lang_cls_inv in Hx as (c & -> & Hp). simpl. by rewrite Hp, IH.
  - induction s as [|c s IH]; intros Hs; [constructor|]. simpl in Hs.
    apply andb_true_iff in Hs as [Hc Hs].
    apply (lang_star_cons (Cls p) (String c "") s); [by constructor|by apply IH].
Qed.

Lemma word_lang first rest s :
  lang (Seq (Cls first) (Star (Cls rest))) s <-> is_word first rest s = true.
Proof.
  split.
  - intros (x & y & -> & (c & -> & Hc)%lang_cls_inv & Hy)%lang_seq_inv.
    simpl. rewrite Hc. simpl. by apply star_cls.
  - destruct s as [|c s]; [done|]. simpl. intros [Hc Hs]%andb_true_iff.
    apply (lang_seq _ _ (String c "") s); [by constructor|by apply star_cls].
Qed.

Section Words.
Context (first rest : ascii -> bool) (sep : ascii).
Hypothesis Hfirst : first sep = false.
Hypothesis Hrest : rest sep = false.

Lemma all_chars_free s : all_chars rest s = true -> no_char sep s = true.
Proof.
  induction s as [|c s IH]; [done|]. simpl. intros [Hc Hs]%andb_true_iff.
  rewrite no_char_cons, IH by done. destruct (Ascii.eqb_spec sep c); [congruence|done].
Qed.

Lemma word_free s : is_word first rest s = true -> no_char sep s = true.
Proof.
  destruct s as [|c s]; [done|]. simpl. intros [Hc Hs]%andb_true_iff.
  rewrite no_char_cons, all_chars_free by done. destruct (Ascii.eqb_spec sep c); [congruence|done].
Qed.

(** The expression describes the strings whose pieces between separators are words. *)
Lemma words_re_spec s :
  re_match (words_re first rest sep) s = true <->
  Forall (fun w => is_word first rest w = true) (Split sep s).
Proof.
  rewrite re_match_spec. unfold words_re. set (word := Seq (Cls first) (Star (Cls rest))). split.
  - intros (x & y & -> & Hx%word_lang & Hy)%lang_seq_inv.
    revert x Hx. remember (Star (Seq (Cls (Ascii.eqb sep)) word)) as r eqn:Hr. induction Hy as [| | | | |r0|r0 u v Hu _ Hv IH]; try done; intros x Hx.
    + rewrite append_empty_r, Split_none by (by apply word_free). by constructor.
    + injection Hr as ->. apply lang_seq_inv in Hu as (a & w & -> & (c & -> & Hc)%lang_cls_inv & Hw%word_lang).
      apply Ascii.eqb_eq in Hc as <-.
      change ((String sep "" ++ w) ++ v) with (String sep (w ++ v)).
      rewrite Split_app by (by apply word_free). constructor; [done|]. by apply IH.
  - intros H. rewrite <- (Split_Join sep s). revert H. pose proof (Split_nonempty sep s) as Hne.
    destruct (Split sep s) as [|x l]; [done|]. clear Hne s. intros [Hx Hl]%Forall_cons.
    assert (Hlist : forall x, is_word first rest x = true ->
      exists t, Join (x :: l) (String sep "") = x ++ t /\ lang (Star (Seq (Cls (Ascii.eqb sep)) word)) t).
    { clear x Hx. induction Hl as [|y l Hy Hl IH]; intros x Hx.
      - exists "". split; [by rewrite append_empty_r|constructor].
      - destruct (IH y Hy) as (t & E & Ht). exists (String sep (y ++ t)). split.
        + rewrite Join_cons by done. by rewrite E.
        + apply (lang_star_cons (Seq (Cls (Ascii.eqb sep)) word) (String sep y) t); [|done].
          apply (lang_seq (Cls (Ascii.eqb sep)) word (String sep "") y); [|by apply word_lang].
          constructor. apply Ascii.eqb_refl. }
    destruct (Hlist x Hx) as (t & -> & Ht). apply lang_seq; [by apply word_lang|done].
Qed.
End Words.
