(* ===== verification/Records.v ===== *)
(** * Capability IDs, names, agent cards and the records of the DHT

    [pkg/capability/capability.go] (Module Capability), [daemon/names/names.go]
    (Module Names), [daemon/registry/registry.go] (Module Registry) and
    [pkg/a2avalidator] (Module Validators).  JSON and protobuf encodings of the
    records are the class [RecordCodec], Unicode's tables the class [Unicode]; the
    DHT is its answers, given as arguments, and the log of the values put. *)

From stdpp Require Import base gmap strings list pretty.
From Stdlib Require Import ZArith Lia Ascii.
From S2P Require Import Prelude GoStd Identity Regex.

Local Open Scope string_scope.
Local Open Scope Z_scope.
#[local] Arguments String.append : simpl nomatch.

Import Identity.

Definition is_lower (c : ascii) : bool := (97 <=? byte_of c) && (byte_of c <=? 122).
Definition is_digit (c : ascii) : bool := (48 <=? byte_of c) && (byte_of c <=? 57).
Definition is_ascii (s : string) : bool := all_chars (fun c => byte_of c <? 128) s.

(** ** pkg/capability *)

Module Capability.

Definition Scheme : string := "a2a".
Definition Version : string := "v1".

(** The regular expression of a name: words of lower-case letters and digits,
    joined by hyphens. *)
Definition lower_digit (c : ascii) : bool := is_lower c || is_digit c.
Definition validName : re := words_re lower_digit lower_digit "-".

Definition validateName (name : string) : outcome unit :=
  if String.eqb name "" then Err (Errorf "capability name must not be empty") else
  if negb (re_match validName name)
  then Err (Errorf "capability name must be lowercase alphanumeric with hyphens") else Ok tt.

Definition New (name : string) : outcome string :=
  match validateName name with
  | Ok _ => Ok (Scheme ++ ":" ++ Version ++ ":cap:" ++ name)
  | Err e => Err e
  | Panic => Panic
  end.

Definition MustNew (name : string) : outcome string :=
  match New name with Ok s => Ok s | _ => Panic end.

Definition Validate (capID : string) : outcome unit :=
  match SplitN ":" 4 capID with
  | [p0; p1; p2; p3] =>
      if negb (String.eqb p0 Scheme) then Err (Errorf "capability scheme") else
      if negb (HasPrefix p1 "v") then Err (Errorf "capability version must start with 'v'") else
      if negb (String.eqb p2 "cap") then Err (Errorf "capability type must be cap") else
      validateName p3
  | _ => Err (Errorf "capability ID must have 4 colon-separated parts")
  end.

(** Indexing the parts panics when there are too few; Validate has checked. *)
Definition Parse (capID : string) : outcome (string * string * string) :=
  match Validate capID with
  | Ok _ =>
      match SplitN ":" 4 capID with
      | [p0; p1; _; p3] => Ok (p0, p1, p3)
      | _ => Panic
      end
  | Err e => Err e
  | Panic => Panic
  end.

Definition Name (capID : string) : outcome string :=
  match Parse capID with
  | Ok (_, _, name) => Ok name
  | Err _ => Ok capID
  | Panic => Panic
  end.

Definition Short (capID : string) : outcome string :=
  match Name capID with
  | Ok name => if String.eqb name capID then Ok capID else Ok name
  | r => r
  end.

Definition WithVersion (capID ver : string) : outcome string :=
  match Parse capID with
  | Ok (_, _, name) => Ok (Scheme ++ ":" ++ ver ++ ":cap:" ++ name)
  | Err e => Err e
  | Panic => Panic
  end.

End Capability.

(** ** Records and their encodings *)

(** Claim of names.go, and nameClaim of validator.go with the same JSON form. *)
Record Claim : Type := mkClaim {
  c_Name : string; c_DID : string; c_PublishedAt : Z; c_ExpiresAt : Z; c_Signature : string }.

Record Skill : Type := mkSkill {
  sk_Id : string; sk_Name : string; sk_Description : string;
  sk_InputSchema : string; sk_OutputSchema : string; sk_Tags : list string }.

Record AgentCard : Type := mkCard {
  a_Did : string; a_Name : string; a_Description : string; a_Skills : list Skill;
  a_Multiaddrs : list string; a_PublicKey : string; a_PublishedAt : Z; a_ExpiresAt : Z;
  a_Signature : string; a_Metadata : gmap string string; a_EncryptionPublicKey : string;
  a_NodePeerId : string; a_Sequence : Z }.

(** [json_*] encode, [un_*] decode what [json.Unmarshal] reads into the struct at
    hand; [proto_card] is the deterministic protobuf encoding.  [un_dids] gives
    what the slice holds after the call, and whether there was an error. *)
Class RecordCodec : Type := {
  json_claim : Claim -> string;
  un_claim : string -> option Claim;
  json_card : AgentCard -> string;
  un_card : string -> option AgentCard;
  un_published_at : string -> option Z;
  proto_card : AgentCard -> string;
  json_dids : list string -> string;
  un_dids : string -> list string * bool;
  un_head : string -> option (string * string * Z);
  un_envelope : string -> option (string * Z * string);
  cid_Decode : string -> bool }.

Definition claim_ascii (c : Claim) : bool :=
  is_ascii (c_Name c) && is_ascii (c_DID c) && is_ascii (c_Signature c).

Definition card_ascii (c : AgentCard) : bool :=
  is_ascii (a_Did c) && is_ascii (a_Name c) && is_ascii (a_Description c)
  && forallb (fun sk => is_ascii (sk_Id sk) && is_ascii (sk_Name sk) && is_ascii (sk_Description sk)
                        && forallb is_ascii (sk_Tags sk)) (a_Skills c)
  && forallb is_ascii (a_Multiaddrs c) && is_ascii (a_PublicKey c) && is_ascii (a_Signature c)
  && forallb (fun kv => is_ascii (fst kv) && is_ascii (snd kv)) (map_to_list (a_Metadata c))
  && is_ascii (a_NodePeerId c).

(** Decoding inverts encoding (encoding/json replaces invalid UTF-8, so strings
    are taken to be ASCII), and one value read into two structs gives fields of
    the same name the same value. *)
Class RecordCodecLaws `{RecordCodec} : Prop := {
  claim_roundtrip : forall c, claim_ascii c = true -> un_claim (json_claim c) = Some c;
  card_roundtrip : forall c, card_ascii c = true -> un_card (json_card c) = Some c;
  card_published_at : forall v c, un_card v = Some c -> un_published_at v = Some (a_PublishedAt c) }.

(** What the code uses of Unicode, on code points. *)
Class Unicode : Type := {
  IsLetter : Z -> bool;
  IsDigit : Z -> bool;
  ToLower : Z -> Z }.

(** The tables on the characters of valid names and their separator. *)
Class UnicodeLaws `{Unicode} : Prop := {
  IsLetter_lower : forall r, 97 <= r <= 122 -> IsLetter r = true;
  IsDigit_digit : forall r, 48 <= r <= 57 -> IsDigit r = true;
  hyphen_neither : IsLetter 45 = false /\ IsDigit 45 = false;
  ToLower_id : forall r, 97 <= r <= 122 \/ 48 <= r <= 57 -> ToLower r = r }.

Definition five_minutes : Z := 300000.

(** ** UTF-8 *)

Definition RuneError : Z := 65533.
Definition between (a x b : Z) : bool := (a <=? x) && (x <=? b).
Definition cont (x : Z) : bool := between 128 x 191.

(** The code points [range] yields: an invalid byte is one [RuneError]. *)
Fixpoint runes (s : string) : list Z :=
  match s with
  | "" => []
  | String a s1 =>
      let x := byte_of a in
      if x <? 128 then x :: runes s1 else
      match s1 with
      | "" => [RuneError]
      | String b s2 =>
          let y := byte_of b in
          if between 194 x 223 && cont y then (x - 192) * 64 + (y - 128) :: runes s2 else
          match s2 with
          | "" => RuneError :: runes s1
          | String c s3 =>
              let z := byte_of c in
              if (((x =? 224) && between 160 y 191) || ((x =? 237) && between 128 y 159)
                  || ((between 225 x 236 || between 238 x 239) && cont y)) && cont z
              then (x - 224) * 4096 + (y - 128) * 64 + (z - 128) :: runes s3 else
              match s3 with
              | "" => RuneError :: runes s1
              | String d s4 =>
                  let u := byte_of d in
                  if (((x =? 240) && between 144 y 191) || ((x =? 244) && between 128 y 143)
                      || (between 241 x 243 && cont y)) && cont z && cont u
                  then (x - 240) * 262144 + (y - 128) * 4096 + (z - 128) * 64 + (u - 128) :: runes s4
                  else RuneError :: runes s1
              end
          end
      end
  end.

Definition byte_str (n : Z) : string := String (byte_chr n) "".

(** [utf8.AppendRune]. *)
Definition encode_rune (r : Z) : string :=
  if between 0 r 127 then byte_str r else
  if between 128 r 2047 then byte_str (192 + r / 64) ++ byte_str (128 + r mod 64) else
  let r := if between 55296 r 57343 || (r <? 0) || (1114111 <? r) then RuneError else r in
  if r <=? 65535
  then byte_str (224 + r / 4096) ++ byte_str (128 + r / 64 mod 64) ++ byte_str (128 + r mod 64)
  else byte_str (240 + r / 262144) ++ byte_str (128 + r / 4096 mod 64)
         ++ byte_str (128 + r / 64 mod 64) ++ byte_str (128 + r mod 64).

Fixpoint encode_runes (l : list Z) : string :=
  match l with [] => "" | r :: l' => encode_rune r ++ encode_runes l' end.

(** [strings.FieldsFunc]: the maximal runs of code points that [keep]. *)
Definition add_word (w : list Z) (ws : list (list Z)) : list (list Z) :=
  match w with [] => ws | _ => w :: ws end.

Fixpoint scan_fields (keep : Z -> bool) (l : list Z) : list Z * list (list Z) :=
  match l with
  | [] => ([], [])
  | r :: l' =>
      let '(w, ws) := scan_fields keep l' in
      if keep r then (r :: w, ws) else ([], add_word w ws)
  end.

Definition FieldsFunc (keep : Z -> bool) (l : list Z) : list (list Z) :=
  let '(w, ws) := scan_fields keep l in add_word w ws.

(** ** daemon/names *)

Module Names.
Section Names.
Context `{Crypto} `{RecordCodec} `{Unicode}.

Definition claimTTL : Z := 86400000.

Definition lower_digit (c : ascii) : bool := is_lower c || is_digit c.
Definition validName : re := words_re is_lower lower_digit "-".

(** The test [w != ""] never fails on a field: it holds a code point. *)
Definition Normalize (name : string) : string :=
  let keep r := IsLetter r || IsDigit r in
  let words := map (fun w => encode_runes (map ToLower w)) (FieldsFunc keep (runes name)) in
  Join (filter (fun w => w <> "") words) "-".

Definition Validate (name : string) : outcome unit :=
  if slen name =? 0 then Err (Errorf "name is empty") else
  if slen name >? 64 then Err (Errorf "name too long (max 64 characters)") else
  if negb (re_match validName name)
  then Err (Errorf "name must be lowercase letters/digits separated by hyphens") else Ok tt.

Definition dhtKey (name : string) : string := "/names/" ++ name.

Definition set_signature (s : string) (c : Claim) : Claim :=
  mkClaim (c_Name c) (c_DID c) (c_PublishedAt c) (c_ExpiresAt c) s.

(** Marshalling a struct of strings and integers does not fail. *)
Definition canonical (c : Claim) : string := json_claim (set_signature "" c).

Definition signClaim (sk : string) (c : Claim) : string := std_encode (ed25519_sign sk (canonical c)).

Definition verifyClaim (c : Claim) : outcome unit :=
  if String.eqb (c_Signature c) "" then Err (Errorf "missing signature") else
  match PubKeyFromDID (c_DID c) with
  | Err e => Err e
  | Panic => Panic
  | Ok pub =>
      match std_decode (c_Signature c) with
      | None => Err (Errorf "decode signature")
      | Some sig =>
          match ed25519_Verify pub (canonical c) sig with
          | Ok true => Ok tt
          | Ok false => Err (Errorf "signature verification failed")
          | Err e => Err e
          | Panic => Panic
          end
      end
  end.

(** The loop over the channel: each value with the clock when it is looked at. *)
Fixpoint search_loop (name : string) (best : option Claim) (vals : list (Z * string))
    : outcome (option Claim) :=
  match vals with
  | [] => Ok best
  | (now, data) :: vals' =>
      match un_claim data with
      | None => search_loop name best vals'
      | Some c =>
          match verifyClaim c with
          | Panic => Panic
          | Err _ => search_loop name best vals'
          | Ok _ =>
              if negb (String.eqb (c_Name c) name) || (c_ExpiresAt c <=? now)
                 || (c_PublishedAt c >? now + five_minutes)
              then search_loop name best vals' else
              match best with
              | None => search_loop name (Some c) vals'
              | Some b =>
                  if c_PublishedAt c >? c_PublishedAt b then search_loop name (Some c) vals'
                  else search_loop name best vals'
              end
          end
      end
  end.

(** [found]: what SearchValue yields for the key, [None] if it fails. *)
Definition searchBest (found : string -> option (list (Z * string))) (name : string)
    : outcome (option Claim) :=
  match found (dhtKey name) with
  | None => Ok None
  | Some vals => search_loop name None vals
  end.

(** The registry: the names claimed, and the values put to the DHT. *)
Record Registry : Type := mkNames { claims : list string; puts : list (string * string) }.

Definition put_value (k v : string) (r : Registry) : Registry := mkNames (claims r) (puts r ++ [(k, v)]).
Definition add_claim (name : string) (r : Registry) : Registry := mkNames (claims r ++ [name]) (puts r).

(** The result of a pure computation as a computation of the monad. *)
Definition lift {S A} (r : outcome A) : M S A :=
  match r with Ok a => ret a | Err e => throw e | Panic => panic end.

(** [did], [sk]: the daemon's identity; [now1], [now2], [now3]: the readings of
    the clock at the expiry check, for PublishedAt and for ExpiresAt. *)
Definition claim (did sk : string) (found : string -> option (list (Z * string))) (now1 now2 now3 : Z)
    (name : string) : M Registry Claim :=
  let name := Normalize name in
  do! lift (Validate name) in
  let! existing := lift (searchBest found name) in
  let refused := match existing with
                 | Some e => negb (String.eqb (c_DID e) did) && (c_ExpiresAt e >? now1)
                 | None => false
                 end in
  if refused then throw (Errorf "name is already claimed") else
  let c := mkClaim name did now2 (now3 + claimTTL) "" in
  let c := set_signature (signClaim sk c) c in
  do! exec (put_value (dhtKey name) (json_claim c)) in
  do! modify (add_claim name) in
  ret c.

Definition resolve (found : string -> option (list (Z * string))) (name : string) : outcome Claim :=
  let name := Normalize name in
  match Validate name with
  | Err e => Err e
  | Panic => Panic
  | Ok _ =>
      match searchBest found name with
      | Ok (Some best) => Ok best
      | Ok None => Err (Errorf "name not found")
      | Err e => Err e
      | Panic => Panic
      end
  end.

(** One tick of RunRepublish, or of the schedule of EnableActor: [range] fixes
    the slice before the loop.  [found i] and [now i] answer the [i]-th claim. *)
Definition republish (did sk : string) (found : nat -> string -> option (list (Z * string)))
    (now : nat -> Z) : M Registry unit := fun w =>
  for_each (imap pair (claims (db w)))
    (fun '(i, name) => log_err (claim did sk (found i) (now i) (now i) (now i) name)) w.

End Names.
End Names.

(** ** daemon/registry *)

Module Registry.
Section Registry.
Context `{Crypto} `{RecordCodec}.

Definition agentCardTTL : Z := 3600000.

Definition dhtKey (did : string) : string := "/agents/" ++ did.
Definition capabilityAgentsKey (peerID capability : string) : string :=
  "/agents/capabilities/" ++ peerID ++ "/" ++ capability.

Definition set_signature (s : string) (c : AgentCard) : AgentCard :=
  mkCard (a_Did c) (a_Name c) (a_Description c) (a_Skills c) (a_Multiaddrs c) (a_PublicKey c)
    (a_PublishedAt c) (a_ExpiresAt c) s (a_Metadata c) (a_EncryptionPublicKey c) (a_NodePeerId c)
    (a_Sequence c).

Definition cardCanonical (c : AgentCard) : string := proto_card (set_signature "" c).

Definition cardHasCapability (c : AgentCard) (capability : string) : bool :=
  existsb (fun sk => String.eqb (sk_Id sk) capability) (a_Skills c).

Definition verifyCard (now : Z) (c : AgentCard) : outcome unit :=
  if String.eqb (a_Signature c) "" then Err (Errorf "card has no signature") else
  if (a_PublishedAt c >? now + five_minutes) || (a_ExpiresAt c <=? now)
     || (a_ExpiresAt c <=? a_PublishedAt c)
  then Err (Errorf "expired or invalid card validity interval") else
  match PubKeyFromDID (a_Did c) with
  | Err e => Err e
  | Panic => Panic
  | Ok pub =>
      if negb (String.eqb (a_PublicKey c) (std_encode pub))
      then Err (Errorf "public key does not match DID") else
      match std_decode (a_Signature c) with
      | None => Err (Errorf "decode signature")
      | Some sig =>
          match ed25519_Verify pub (cardCanonical c) sig with
          | Ok true => Ok tt
          | Ok false => Err (Errorf "signature verification failed")
          | Err e => Err e
          | Panic => Panic
          end
      end
  end.

(** The registry: its own card, the cards of the agents behind it, and what it
    put to and provided on the DHT. *)
Record Registry : Type := mkRegistry {
  r_card : option AgentCard;
  r_cards : gmap string AgentCard;
  r_puts : list (string * string);
  r_provided : list string }.

Definition put_value (k v : string) (r : Registry) : Registry :=
  mkRegistry (r_card r) (r_cards r) (r_puts r ++ [(k, v)]) (r_provided r).
Definition provide (capability : string) (r : Registry) : Registry :=
  mkRegistry (r_card r) (r_cards r) (r_puts r) (r_provided r ++ [capability]).
Definition set_card (c : AgentCard) (r : Registry) : Registry :=
  mkRegistry (Some c) (r_cards r) (r_puts r) (r_provided r).
Definition store_card (did : string) (c : AgentCard) (r : Registry) : Registry :=
  mkRegistry (r_card r) (<[did := c]> (r_cards r)) (r_puts r) (r_provided r).

(** [get]: the answer of GetValue.  [peerID]: the host's.  Errors of the lookup and
    of decoding are dropped. *)
Definition putCapabilityAgent (get : string -> option string) (peerID capability did : string)
    : M Registry unit :=
  let key := capabilityAgentsKey peerID capability in
  let dids := match get key with Some raw => fst (un_dids raw) | None => [] end in
  if existsb (String.eqb did) dids then ret tt
  else exec (put_value key (json_dids (dids ++ [did]))).

Definition capabilityAgents (get : string -> option string) (peerID capability : string) : list string :=
  match get (capabilityAgentsKey peerID capability) with
  | None => []
  | Some raw => match un_dids raw with (dids, true) => dids | _ => [] end
  end.

(** A capability's CID is a hash of its name, which SHA-256 always gives. *)
Definition advertiseCapability (capability : string) : M Registry unit := fun w =>
  if bool_decide (r_card (db w) = None) && bool_decide (size (r_cards (db w)) = 0%nat)
  then (Err (Errorf "publish agent card first"), w)
  else exec (provide capability) w.

Definition publishSigned (now : Z) (get : string -> option string) (peerID : string) (card : AgentCard)
    : M Registry unit :=
  do! Names.lift (verifyCard now card) in
  do! exec (put_value (dhtKey (a_Did card)) (json_card card)) in
  do! modify (store_card (a_Did card) card) in
  for_each (a_Skills card) (fun skill =>
    do! putCapabilityAgent get peerID (sk_Id skill) (a_Did card) in
    advertiseCapability (sk_Id skill)).

(** [did], [pub], [sk]: the daemon's identity. *)
Definition publish (did pub sk : string) (now1 now2 : Z) (card : AgentCard) : M Registry unit :=
  let card := mkCard did (a_Name card) (a_Description card) (a_Skills card) (a_Multiaddrs card)
                (std_encode pub) now1 (now2 + agentCardTTL) "" (a_Metadata card)
                (a_EncryptionPublicKey card) (a_NodePeerId card) (a_Sequence card) in
  let card := set_signature (std_encode (ed25519_sign sk (cardCanonical card))) card in
  do! exec (put_value (dhtKey did) (json_card card)) in
  modify (set_card card).

(** [now1]: in verifyCard; [now2]: at the expiry check. *)
Definition resolve (get : string -> option string) (now1 now2 : Z) (did : string) : outcome AgentCard :=
  match get (dhtKey did) with
  | None => Err (Errorf "dht get")
  | Some data =>
      match un_card data with
      | None => Err (Errorf "unmarshal card")
      | Some card =>
          match verifyCard now1 card with
          | Err e => Err e
          | Panic => Panic
          | Ok _ =>
              if negb (String.eqb (a_Did card) did)
              then Err (Errorf "agent card DID does not match lookup key") else
              if a_ExpiresAt card <=? now2 then Err (Errorf "agent card expired") else Ok card
          end
      end
  end.

(** *** findByCapability *)

(** A provider: its peer ID and the key extracted from it, if any. *)
Record Provider : Type := mkProvider { prov_ID : string; prov_key : option string }.

(** What the loops carry, and whether they returned. *)
Record found : Type := mkFound { cards : list AgentCard; seen : gset string; done_ : bool }.

Definition at_limit (limit : Z) (l : list AgentCard) : bool := (limit >? 0) && (llen l >=? limit).

Definition push (limit : Z) (did : string) (c : AgentCard) (f : found) : found :=
  let l := (cards f ++ [c])%list in mkFound l ({[did]} ∪ seen f) (at_limit limit l).

(** The cards of local agents, in the order the map is ranged over. *)
Fixpoint find_local (capability : string) (limit : Z) (l : list (string * AgentCard)) (f : found) : found :=
  match l with
  | [] => f
  | (did, c) :: l' =>
      if cardHasCapability c capability then
        let f' := push limit did c f in
        if done_ f' then f' else find_local capability limit l' f'
      else find_local capability limit l' f
  end.

(** The agents a provider's index names; [res] is [resolve] at the call. *)
Fixpoint find_indexed (capability : string) (limit : Z) (res : string -> outcome AgentCard)
    (dids : list string) (f : found) : outcome found :=
  match dids with
  | [] => Ok f
  | did :: dids' =>
      if bool_decide (did ∈ seen f) then find_indexed capability limit res dids' f else
      match res did with
      | Panic => Panic
      | Err _ => find_indexed capability limit res dids' f
      | Ok c =>
          if negb (cardHasCapability c capability) then find_indexed capability limit res dids' f else
          let f' := push limit did c f in
          if done_ f' then Ok f' else find_indexed capability limit res dids' f'
      end
  end.

(** The daemon behind a provider. *)
Definition find_provider (self : string) (own : option AgentCard) (capability : string) (limit : Z)
    (res : string -> outcome AgentCard) (p : Provider) (f : found) : outcome found :=
  if String.eqb (prov_ID p) self then
    match own with
    | Some c =>
        if negb (bool_decide (a_Did c ∈ seen f)) && cardHasCapability c capability
        then Ok (mkFound (cards f ++ [c])%list ({[a_Did c]} ∪ seen f) false)
        else Ok f
    | None => Ok f
    end
  else
    match prov_key p with
    | None => Ok f
    | Some rawPub =>
        match res (DIDFromPubBytes rawPub) with
        | Panic => Panic
        | Err _ => Ok f
        | Ok c =>
            if bool_decide (a_Did c ∈ seen f) then Ok f else
            if negb (cardHasCapability c capability) then Ok f else
            Ok (push limit (a_Did c) c f)
        end
    end.

Fixpoint find_remote (self : string) (own : option AgentCard) (capability : string) (limit : Z)
    (agents : string -> list string) (res : string -> outcome AgentCard) (provs : list Provider) (f : found)
    : outcome found :=
  match provs with
  | [] => Ok f
  | p :: provs' =>
      match find_indexed capability limit res (agents (prov_ID p)) f with
      | Err e => Err e
      | Panic => Panic
      | Ok f1 =>
          if done_ f1 then Ok f1 else
          match find_provider self own capability limit res p f1 with
          | Err e => Err e
          | Panic => Panic
          | Ok f2 =>
              if done_ f2 then Ok f2
              else find_remote self own capability limit agents res provs' f2
          end
      end
  end.

(** [locals]: the map in the order it is ranged over; [provs]: the channel. *)
Definition findByCapability (r : Registry) (locals : list (string * AgentCard)) (self : string)
    (get : string -> option string) (now1 now2 : Z) (provs : list Provider) (capability : string) (limit : Z)
    : outcome (list AgentCard) :=
  let f := find_local capability limit locals (mkFound [] ∅ false) in
  if done_ f then Ok (cards f) else
  match find_remote self (r_card r) capability limit
          (fun peer => capabilityAgents get peer capability) (resolve get now1 now2) provs f with
  | Ok f' => Ok (cards f')
  | Err e => Err e
  | Panic => Panic
  end.

(** One tick of RunRepublish. *)
Definition republish (did pub sk : string) (now1 now2 : Z) : M Registry unit := fun w =>
  match r_card (db w) with
  | None => (Ok tt, w)
  | Some c => log_err (publish did pub sk now1 now2 c) w
  end.

End Registry.
End Registry.

(** ** pkg/a2avalidator *)

Module Validators.
Section Validators.
Context `{Crypto} `{RecordCodec}.

Definition maxClockSkew : Z := 300000.

Definition stripNamespace (key segment : string) : string := TrimPrefix (TrimPrefix key "/") segment.

(** The loop of selectBest from index [i]; [best] is the index and rank found. *)
Fixpoint select_loop (validate : string -> outcome unit) (rank : string -> option Z) (i : nat)
    (best : option (nat * Z)) (vals : list string) : outcome (option (nat * Z)) :=
  match vals with
  | [] => Ok best
  | v :: vals' =>
      match validate v with
      | Panic => Panic
      | Err _ => select_loop validate rank (S i) best vals'
      | Ok _ =>
          match rank v with
          | None => select_loop validate rank (S i) best vals'
          | Some r =>
              match best with
              | None => select_loop validate rank (S i) (Some (i, r)) vals'
              | Some (_, r0) =>
                  if r >? r0 then select_loop validate rank (S i) (Some (i, r)) vals'
                  else select_loop validate rank (S i) best vals'
              end
          end
      end
  end.

Definition selectBest (key : string) (vals : list string) (validate : string -> string -> outcome unit)
    (rank : string -> option Z) : outcome nat :=
  match select_loop (validate key) rank 0 None vals with
  | Ok (Some (i, _)) => Ok i
  | Ok None => Err (Errorf "a2avalidator: no valid records")
  | Err e => Err e
  | Panic => Panic
  end.

Definition capabilityIndexPrefix : string := "capabilities/".

Definition validateCapabilityIndex (value : string) : outcome unit :=
  if snd (un_dids value) then Ok tt else Err (Errorf "a2avalidator: invalid capability index JSON").

Definition validateAgentCard (card : AgentCard) (now : Z) : outcome unit :=
  match PubKeyFromDID (a_Did card) with
  | Err e => Err e
  | Panic => Panic
  | Ok pub =>
      if negb (String.eqb (a_PublicKey card) (std_encode pub))
      then Err (Errorf "a2avalidator: public key does not match DID") else
      if a_PublishedAt card >? now + maxClockSkew
      then Err (Errorf "a2avalidator: published_at is too far in the future") else
      if (a_ExpiresAt card <=? now) || (a_ExpiresAt card <=? a_PublishedAt card)
      then Err (Errorf "a2avalidator: expired or invalid validity interval") else
      match std_decode (a_Signature card) with
      | None => Err (Errorf "a2avalidator: invalid signature encoding")
      | Some sig =>
          match ed25519_Verify pub (proto_card (Registry.set_signature "" card)) sig with
          | Ok true => Ok tt
          | Ok false => Err (Errorf "a2avalidator: invalid card signature")
          | Err e => Err e
          | Panic => Panic
          end
      end
  end.

Definition AgentCard_Validate (now : Z) (key value : string) : outcome unit :=
  let key := stripNamespace key "agents/" in
  if String.eqb key "" then Err (Errorf "a2avalidator: empty key") else
  if HasPrefix key capabilityIndexPrefix then validateCapabilityIndex value else
  match un_card value with
  | None => Err (Errorf "a2avalidator: invalid agent card JSON")
  | Some card =>
      if String.eqb (a_Did card) "" then Err (Errorf "a2avalidator: agent card missing did field") else
      if negb (String.eqb (a_Did card) key) then Err (Errorf "a2avalidator: card DID does not match key")
      else validateAgentCard card now
  end.

(** The longest list wins: [best] is an index and a length, -1 at first. *)
Fixpoint select_longest (i : nat) (best : option nat) (bestLen : Z) (vals : list string) : option nat :=
  match vals with
  | [] => best
  | v :: vals' =>
      match un_dids v with
      | (_, false) => select_longest (S i) best bestLen vals'
      | (dids, true) =>
          if llen dids >? bestLen then select_longest (S i) (Some i) (llen dids) vals'
          else select_longest (S i) best bestLen vals'
      end
  end.

Definition AgentCard_Select (now : Z) (key : string) (vals : list string) : outcome nat :=
  if HasPrefix (stripNamespace key "agents/") capabilityIndexPrefix then
    match select_longest 0 None (-1) vals with
    | Some i => Ok i
    | None => Err (Errorf "a2avalidator: no valid capability index records")
    end
  else selectBest key vals (AgentCard_Validate now) un_published_at.

Definition NameClaim_Validate (now : Z) (key value : string) : outcome unit :=
  let key := stripNamespace key "names/" in
  match un_claim value with
  | None => Err (Errorf "a2avalidator: invalid name claim")
  | Some claim =>
      if String.eqb key "" || negb (no_char "/" key) || negb (String.eqb (c_Name claim) key)
      then Err (Errorf "a2avalidator: claim name does not match key") else
      match PubKeyFromDID (c_DID claim) with
      | Err e => Err e
      | Panic => Panic
      | Ok pub =>
          if (c_PublishedAt claim >? now + maxClockSkew) || (c_ExpiresAt claim <=? now)
             || (c_ExpiresAt claim <=? c_PublishedAt claim)
          then Err (Errorf "a2avalidator: invalid claim validity interval") else
          match std_decode (c_Signature claim) with
          | None => Err (Errorf "a2avalidator: invalid claim signature encoding")
          | Some sig =>
              match ed25519_Verify pub (json_claim (Names.set_signature "" claim)) sig with
              | Ok true => Ok tt
              | Ok false => Err (Errorf "a2avalidator: invalid claim signature")
              | Err e => Err e
              | Panic => Panic
              end
          end
      end
  end.

Definition NameClaim_Select (now : Z) (key : string) (vals : list string) : outcome nat :=
  selectBest key vals (NameClaim_Validate now) (fun v => option_map c_PublishedAt (un_claim v)).

(** [strconv.ParseUint] and [strconv.ParseInt] in base 10 and 64 bits. *)
Fixpoint decimal (s : string) (acc : Z) : option Z :=
  match s with
  | "" => Some acc
  | String c s' => if is_digit c then decimal s' (10 * acc + (byte_of c - 48)) else None
  end.

Definition ParseUint (s : string) : option Z :=
  if String.eqb s "" then None else
  match decimal s 0 with
  | Some n => if n <? 2 ^ 64 then Some n else None
  | None => None
  end.

Definition ParseInt (s : string) : option Z :=
  let '(neg, digits) := match s with
    | String "+" t => (false, t)
    | String "-" t => (true, t)
    | _ => (false, s)
    end in
  if String.eqb digits "" then None else
  match decimal digits 0 with
  | Some n =>
      if neg then (if n <=? 2 ^ 63 then Some (- n) else None)
      else (if n <? 2 ^ 63 then Some n else None)
  | None => None
  end.

Definition ThreadHead_Validate (key value : string) : outcome unit :=
  let key := stripNamespace key "threads/" in
  if String.eqb key "" then Err (Errorf "a2avalidator: empty key") else
  match un_head value with
  | None => Err (Errorf "a2avalidator: invalid thread head JSON")
  | Some (threadID, blockCid, height) =>
      if String.eqb threadID "" then Err (Errorf "a2avalidator: thread head missing thread_id field") else
      let head (p0 : string) (want : option (option Z)) :=
        if String.eqb p0 "" || negb (String.eqb threadID p0)
        then Err (Errorf "a2avalidator: thread_id does not match key") else
        if match want with None => false | Some h => negb (bool_decide (h = Some height)) end
        then Err (Errorf "a2avalidator: height does not match key") else
        if String.eqb blockCid "" then Err (Errorf "a2avalidator: thread head missing block_cid field") else
        if negb (cid_Decode blockCid) then Err (Errorf "a2avalidator: invalid block CID") else
        if height <? 1 then Err (Errorf "a2avalidator: thread head height must be >= 1") else Ok tt in
      match Split "/" key with
      | [p0] => head p0 None
      | [p0; p1] => head p0 (Some (ParseInt p1))
      | [p0; p1; p2] =>
          if String.eqb p1 "recovery" then
            match un_envelope value with
            | None => Err (Errorf "a2avalidator: invalid recovery envelope JSON")
            | Some (tid, epoch, envelopeCID) =>
                if String.eqb p0 "" || negb (String.eqb tid p0) || (epoch =? 0) || String.eqb envelopeCID ""
                then Err (Errorf "a2avalidator: invalid recovery envelope record") else
                if negb (bool_decide (ParseUint p2 = Some epoch))
                then Err (Errorf "a2avalidator: recovery envelope epoch does not match key") else
                if negb (cid_Decode envelopeCID)
                then Err (Errorf "a2avalidator: invalid recovery envelope CID") else Ok tt
            end
          else Err (Errorf "a2avalidator: thread_id does not match key")
      | _ => Err (Errorf "a2avalidator: thread_id does not match key")
      end
  end.

Definition ThreadHead_Select (key : string) (vals : list string) : outcome nat :=
  selectBest key vals ThreadHead_Validate (fun v => option_map snd (un_head v)).

End Validators.
End Validators.

(** ** Concrete encodings *)

#[export] Instance Claim_eq_dec : EqDecision Claim.
Proof. solve_decision. Defined.
#[export] Instance Skill_eq_dec : EqDecision Skill.
Proof. solve_decision. Defined.
#[export] Instance AgentCard_eq_dec : EqDecision AgentCard.
Proof. solve_decision. Defined.

#[export] Instance Claim_countable : Countable Claim :=
  inj_countable' (fun c => (c_Name c, c_DID c, c_PublishedAt c, c_ExpiresAt c, c_Signature c))
    (fun '(a, b, c, d, e) => mkClaim a b c d e) ltac:(by intros []).
#[export] Instance Skill_countable : Countable Skill :=
  inj_countable' (fun s => (sk_Id s, sk_Name s, sk_Description s, sk_InputSchema s, sk_OutputSchema s, sk_Tags s))
    (fun '(a, b, c, d, e, f) => mkSkill a b c d e f) ltac:(by intros []).
#[export] Instance AgentCard_countable : Countable AgentCard :=
  inj_countable' (fun c => (((a_Did c, a_Name c), (a_Description c, a_Skills c)),
      ((a_Multiaddrs c, a_PublicKey c), (a_PublishedAt c, a_ExpiresAt c)),
      ((a_Signature c, a_Metadata c), (a_EncryptionPublicKey c, a_NodePeerId c, a_Sequence c))))
    (fun '(((a, b), (c, d)), ((e, f), (g, h)), ((i, j), (k, l, m))) => mkCard a b c d e f g h i j k l m)
    ltac:(by intros []).

(** A countable value as the digits of its code. *)
Fixpoint pos_string (p : positive) : string :=
  match p with xH => "1" | xO p' => String "0" (pos_string p') | xI p' => String "2" (pos_string p') end.

Fixpoint string_pos (s : string) : option positive :=
  match s with
  | "1" => Some xH
  | String "0" s' => option_map xO (string_pos s')
  | String "2" s' => option_map xI (string_pos s')
  | _ => None
  end.

Lemma string_pos_string p : string_pos (pos_string p) = Some p.
Proof. induction p as [p IH|p IH|]; cbn [pos_string string_pos]; [by rewrite IH..|done]. Qed.

Definition to_code {A} `{Countable A} (a : A) : string := pos_string (encode a).
Definition of_code {A} `{Countable A} (s : string) : option A :=
  match string_pos s with Some p => decode p | None => None end.

Lemma of_code_to_code {A} `{Countable A} (a : A) : of_code (to_code a) = Some a.
Proof. unfold of_code, to_code. rewrite string_pos_string. apply decode_encode. Qed.

#[export] Instance toy_records : RecordCodec := {|
  json_claim c := to_code c;
  un_claim s := of_code s;
  json_card c := to_code c;
  un_card s := of_code s;
  un_published_at s := option_map a_PublishedAt (of_code s);
  proto_card c := to_code c;
  json_dids l := to_code l;
  un_dids s := match of_code s with Some l => (l, true) | None => ([], false) end;
  un_head s := of_code s;
  un_envelope s := of_code s;
  cid_Decode s := negb (String.eqb s "") |}.

#[export] Instance toy_records_laws : RecordCodecLaws.
Proof.
  split; simpl; intros; [apply of_code_to_code..|]. by match goal with H : _ = Some _ |- _ => rewrite H end.
Qed.

(** Unicode restricted to ASCII. *)
#[export] Instance ascii_unicode : Unicode := {|
  IsLetter r := between 97 r 122 || between 65 r 90;
  IsDigit r := between 48 r 57;
  ToLower r := if between 65 r 90 then r + 32 else r |}.

#[export] Instance ascii_unicode_laws : UnicodeLaws.
Proof.
  split; unfold IsLetter, IsDigit, ToLower, ascii_unicode, between.
  - intros r Hr. apply orb_true_iff. left. lia.
  - intros r Hr. lia.
  - done.
  - intros r Hr. destruct ((65 <=? r) && (r <=? 90)) eqn:E; [|done]. lia.
Qed.
