(* ===== verification/RecordsFacts.v ===== *)
(** * Properties of capability IDs, names, agent cards and DHT records

    The grammar of capability IDs; names are fixed points of normalization; a
    claimed name resolves to an authentic claim at least as recent; the registry
    and the validator of the DHT accept the same cards; discovery returns cards
    that offer the capability, at most one more than asked for; selection returns
    the first of the best valid records. *)

From stdpp Require Import base gmap strings list pretty.
From Stdlib Require Import ZArith Lia Ascii.
From S2P Require Import Prelude GoStd Identity Regex Records.

Local Open Scope string_scope.
Local Open Scope Z_scope.
#[local] Arguments String.append : simpl nomatch.

Import Identity.

(** ** Capability IDs *)

Section Capability.
Import Capability.

Lemma lower_digit_hyphen : lower_digit "-" = false.
Proof. reflexivity. Qed.

(** The pieces of a capability name between hyphens. *)
Definition cap_word (w : string) : Prop := w <> "" /\ all_chars lower_digit w = true.

Lemma is_word_cap w : is_word lower_digit lower_digit w = true <-> cap_word w.
Proof.
  unfold cap_word. destruct w as [|c w]; simpl; [by split; [|intros []]|].
  split; [intros ->; by split|by intros []].
Qed.

Lemma validateName_spec n : validateName n = Ok tt <-> Forall cap_word (Split "-" n).
Proof.
  unfold validateName. destruct (String.eqb_spec n "") as [->|Hn].
  { split; [done|]. intros [[H _] _]%Forall_cons. done. }
  rewrite <- (Forall_iff _ _ _ (fun w => is_word_cap w)).
  rewrite <- (words_re_spec lower_digit lower_digit "-" lower_digit_hyphen lower_digit_hyphen).
  unfold validName. by destruct (re_match _ n).
Qed.

Lemma cap_word_nocolon n : Forall cap_word (Split "-" n) -> no_char ":" n = true.
Proof.
  intros Hf. rewrite <- (Split_Join "-" n). revert Hf. generalize (Split "-" n) as l.
  induction 1 as [|x l [_ Hx] Hl IH]; [done|].
  assert (Hx' : no_char ":" x = true) by (by apply (all_chars_free lower_digit lower_digit ":")).
  destruct l as [|y l]; [done|]. rewrite Join_cons, !no_char_app, IH, Hx' by done. done.
Qed.

Lemma HasPrefix_v v : HasPrefix v "v" = true -> exists u, v = String "v" u.
Proof. intros E%prefix_split. rewrite E. eexists. reflexivity. Qed.

Lemma SplitN_4 s v n :
  no_char ":" s = true -> no_char ":" v = true ->
  SplitN ":" 4 (s ++ ":" ++ v ++ ":cap:" ++ n) = [s; v; "cap"; n].
Proof.
  intros Hs Hv. cbn [SplitN]. change (s ++ ":" ++ ?t) with (s ++ String ":" t).
  rewrite cut_app by done. change (v ++ ":cap:" ++ n) with (v ++ String ":" ("cap" ++ String ":" n)).
  rewrite cut_app by done. rewrite cut_app by done. done.
Qed.

Lemma SplitN_4_inv id a b c d :
  SplitN ":" 4 id = [a; b; c; d] ->
  id = a ++ ":" ++ b ++ ":" ++ c ++ ":" ++ d /\ no_char ":" a = true /\ no_char ":" b = true.
Proof.
  cbn [SplitN]. destruct (cut ":" id) as [x [y|]] eqn:E1; [|done].
  destruct (cut ":" y) as [x1 [y1|]] eqn:E2; [|done].
  destruct (cut ":" y1) as [x2 [y2|]] eqn:E3; [|done]. intros [= -> -> -> ->].
  apply cut_some in E1 as [-> Ha], E2 as [-> Hb], E3 as [-> _]. done.
Qed.

End Capability.

(** The grammar of capability IDs: Parse accepts exactly the strings
    a2a:version:cap:name where the version starts with v and holds no colon and
    every piece of the name between hyphens is a non-empty word of lower-case
    letters and digits, and returns their parts; New succeeds exactly on such
    names, and what it builds parses back with version v1. *)
Theorem capability_grammar id s v n :
  (Capability.Parse id = Ok (s, v, n) <->
     s = "a2a" /\ id = "a2a:" ++ v ++ ":cap:" ++ n /\ HasPrefix v "v" = true /\ no_char ":" v = true /\
     Forall cap_word (Split "-" n)) /\
  (Forall cap_word (Split "-" n) <-> Capability.New n = Ok ("a2a:v1:cap:" ++ n)) /\
  (forall id', Capability.New n = Ok id' -> Capability.Parse id' = Ok ("a2a", "v1", n)).
Proof.
  assert (Hp : forall v n, HasPrefix v "v" = true -> no_char ":" v = true ->
    Forall cap_word (Split "-" n) ->
    Capability.Parse ("a2a:" ++ v ++ ":cap:" ++ n) = Ok ("a2a", v, n)).
  { clear. intros v n Hv Hc Hn. unfold Capability.Parse, Capability.Validate.
    change ("a2a:" ++ v ++ ":cap:" ++ n) with ("a2a" ++ ":" ++ v ++ ":cap:" ++ n).
    rewrite SplitN_4 by done. rewrite Hv. simpl. by rewrite (proj2 (validateName_spec n)). }
  assert (Hnew : Forall cap_word (Split "-" n) <-> Capability.New n = Ok ("a2a:v1:cap:" ++ n)).
  { rewrite <- validateName_spec. unfold Capability.New.
    destruct (Capability.validateName n) as [[]| |]; by split. }
  split; [|split; [done|]].
  - split.
    + unfold Capability.Parse, Capability.Validate.
      destruct (SplitN ":" 4 id) as [|a [|b [|c [|d [|]]]]] eqn:E; try done.
      apply SplitN_4_inv in E as (-> & Ha & Hb).
      destruct (String.eqb_spec a Capability.Scheme) as [->|]; [|done].
      destruct (HasPrefix b "v") eqn:Hv; [|done]. destruct (String.eqb_spec c "cap") as [->|]; [|done].
      simpl negb. cbv iota. destruct (Capability.validateName d) as [[]| |] eqn:Hd; [|done..].
      intros [= <- <- <-]. split; [done|]. split; [done|]. split; [done|]. split; [done|].
      by apply validateName_spec.
    + intros (-> & -> & Hv & Hc & Hn). by apply Hp.
  - intros id' Hid. assert (Hn : Forall cap_word (Split "-" n)).
    { apply validateName_spec. unfold Capability.New in Hid.
      by destruct (Capability.validateName n) as [[]| |]. }
    rewrite (proj1 Hnew Hn) in Hid. apply (inj Ok) in Hid as <-. by apply (Hp "v1").
Qed.

(** WithVersion does not check the version it is given: the ID it returns may not
    parse. *)
Example WithVersion_unchecked :
  Capability.WithVersion "a2a:v1:cap:search" "2" = Ok "a2a:2:cap:search" /\
  is_ok (Capability.Validate "a2a:2:cap:search") = false.
Proof. split; vm_compute; reflexivity. Qed.

(** ** Names *)

Section Names.
Import Names.

Fixpoint bytes_of (s : string) : list Z :=
  match s with "" => [] | String c s' => byte_of c :: bytes_of s' end.

Lemma bytes_of_cons c s : bytes_of (String c s) = byte_of c :: bytes_of s.
Proof. reflexivity. Qed.

Lemma runes_ascii s : is_ascii s = true -> runes s = bytes_of s.
Proof.
  unfold is_ascii. induction s as [|c s IH]; [done|]. simpl. intros [Hc Hs]%andb_true_iff.
  rewrite Hc, IH by done. done.
Qed.

Lemma encode_bytes s : is_ascii s = true -> encode_runes (bytes_of s) = s.
Proof.
  unfold is_ascii. induction s as [|c s IH]; [done|]. simpl. intros [Hc Hs]%andb_true_iff.
  pose proof (byte_of_range c). unfold encode_rune, between.
  rewrite (proj2 (andb_true_iff _ _)) by (split; lia). unfold byte_str. rewrite (byte_chr_of c) by done.
  by rewrite IH.
Qed.

Context `{UnicodeLaws}.

Definition keep (r : Z) : bool := IsLetter r || IsDigit r.

Lemma lower_digit_keep c : lower_digit c = true -> keep (byte_of c) = true.
Proof.
  unfold lower_digit, keep, is_lower, is_digit. intros [Hc|Hc]%orb_true_iff; apply andb_true_iff in Hc.
  - rewrite IsLetter_lower; [done|lia].
  - rewrite (IsDigit_digit (byte_of c)) by lia. by destruct (IsLetter _).
Qed.

Lemma lower_digit_lower c : lower_digit c = true -> ToLower (byte_of c) = byte_of c.
Proof.
  unfold lower_digit, is_lower, is_digit.
  intros [Hc|Hc]%orb_true_iff; apply andb_true_iff in Hc; apply ToLower_id; [left|right]; lia.
Qed.

Lemma lower_digit_ascii s : all_chars lower_digit s = true -> is_ascii s = true.
Proof.
  unfold is_ascii. induction s as [|c s IH]; [done|]. simpl. intros [Hc Hs]%andb_true_iff.
  rewrite IH by done. unfold lower_digit, is_lower, is_digit in Hc.
  apply andb_true_iff. split; [|done]. apply orb_true_iff in Hc as [Hc|Hc]; apply andb_true_iff in Hc; lia.
Qed.

Lemma ToLower_word w : all_chars lower_digit w = true -> map ToLower (bytes_of w) = bytes_of w.
Proof.
  induction w as [|c w IH]; [done|]. simpl. intros [Hc Hw]%andb_true_iff.
  by rewrite lower_digit_lower, IH.
Qed.

Lemma is_word_name w : is_word is_lower lower_digit w = true -> w <> "" /\ all_chars lower_digit w = true.
Proof.
  destruct w as [|c w]; [done|]. simpl. intros [Hc Hw]%andb_true_iff.
  rewrite Hw. unfold lower_digit. rewrite Hc. done.
Qed.

(** The fields of a string of name characters are its pieces between hyphens. *)
Lemma scan_words s x l :
  Split "-" s = x :: l -> Forall (fun w => w <> "" /\ all_chars lower_digit w = true) l ->
  all_chars lower_digit x = true ->
  scan_fields keep (bytes_of s) = (bytes_of x, map bytes_of l).
Proof.
  revert x l. induction s as [|c s IH]; intros x l E Hl Hx; [by injection E as <- <-|].
  rewrite bytes_of_cons. cbn [scan_fields]. cbn [Split] in E.
  destruct (Ascii.eqb_spec "-" c) as [<-|Hc].
  - injection E as <- E. pose proof (Split_nonempty "-" s) as Hne.
    destruct l as [|y l]; [done|]. apply Forall_cons in Hl as [[Hy Hy'] Hl].
    rewrite (IH y l E Hl Hy'). unfold keep. change (byte_of "-") with 45.
    rewrite (proj1 hyphen_neither), (proj2 hyphen_neither). by destruct y.
  - destruct (Split "-" s) as [|y l'] eqn:Es; [by apply Split_nonempty in Es|].
    injection E as <- ->. simpl in Hx. apply andb_true_iff in Hx as [Hcc Hy].
    rewrite (IH y l eq_refl Hl Hy), lower_digit_keep by done. done.
Qed.

Lemma Validate_words n :
  Validate n = Ok tt ->
  Forall (fun w => w <> "" /\ all_chars lower_digit w = true) (Split "-" n) /\ slen n <= 64.
Proof.
  unfold Validate. destruct (slen n =? 0); [done|]. destruct (slen n >? 64) eqn:Hn; [done|].
  destruct (re_match validName n) eqn:Hm; [|done]. intros _. split; [|lia].
  apply (words_re_spec is_lower lower_digit "-" eq_refl eq_refl) in Hm.
  eapply Forall_impl; [exact Hm|]. intros w. apply is_word_name.
Qed.

Lemma words_ascii n :
  Forall (fun w => w <> "" /\ all_chars lower_digit w = true) (Split "-" n) -> is_ascii n = true.
Proof.
  assert (Happ : forall a b, is_ascii (a ++ b) = is_ascii a && is_ascii b).
  { unfold is_ascii. induction a as [|c a IHa]; intros b; simpl; [done|]. by rewrite IHa, andb_assoc. }
  intros Hf. rewrite <- (Split_Join "-" n). revert Hf. generalize (Split "-" n) as l.
  induction 1 as [|x l [_ Hx] Hl IH]; [done|].
  destruct l as [|y l]; [by apply lower_digit_ascii|].
  rewrite Join_cons, !Happ, IH by done. by rewrite lower_digit_ascii.
Qed.

(** A valid name is its own normal form. *)
Lemma Normalize_valid n : Validate n = Ok tt -> Normalize n = n.
Proof.
  intros [Hw _]%Validate_words. unfold Normalize.
  rewrite runes_ascii by (by apply words_ascii). fold keep.
  pose proof (Split_nonempty "-" n) as Hne. destruct (Split "-" n) as [|x l] eqn:E; [done|].
  apply Forall_cons in Hw as [[Hx Hx'] Hl]. unfold FieldsFunc.
  change (fun r => IsLetter r || IsDigit r) with keep. rewrite (scan_words n x l E Hl Hx').
  assert (Hadd : add_word (bytes_of x) (map bytes_of l) = map bytes_of (x :: l)) by (by destruct x).
  rewrite Hadd, map_map. rewrite <- (Split_Join "-" n). rewrite E. f_equal.
  assert (Hl' : Forall (fun w => w <> "" /\ all_chars lower_digit w = true) (x :: l)) by (by constructor).
  clear -H0 Hl'. induction Hl' as [|w ws [Hw Hw'] _ IH]; [done|]. cbn [map].
  rewrite ToLower_word, encode_bytes by (done || by apply lower_digit_ascii).
  rewrite filter_cons_True by done. by rewrite IH.
Qed.
End Names.

Section NameClaims.
Import Names.
Context `{Crypto} `{RecordCodec}.

(** A record that counts for a name when it is looked at. *)
Definition live_claim (name : string) (now : Z) (c : Claim) : Prop :=
  verifyClaim c = Ok tt /\ c_Name c = name /\ now < c_ExpiresAt c /\ c_PublishedAt c <= now + five_minutes.

Definition candidate (name : string) (vals : list (Z * string)) (c : Claim) : Prop :=
  exists now data, (now, data) ∈ vals /\ un_claim data = Some c /\ live_claim name now c.

(** No record of the answer makes the verification panic. *)
Definition calm (vals : list (Z * string)) : Prop :=
  forall now data c, (now, data) ∈ vals -> un_claim data = Some c -> verifyClaim c <> Panic.

Lemma candidate_cons name v vals c : candidate name vals c -> candidate name (v :: vals) c.
Proof. intros (now & data & Hin & H'). exists now, data. split; [by right|done]. Qed.

Lemma candidate_inv name now data vals c :
  candidate name ((now, data) :: vals) c ->
  (un_claim data = Some c /\ live_claim name now c) \/ candidate name vals c.
Proof.
  intros (now' & data' & Hin & H'). apply elem_of_cons in Hin as [[= -> ->]|Hin]; [by left|right].
  by exists now', data'.
Qed.

(** What the loop returns: the best so far or a candidate, and none is more recent. *)
Lemma search_loop_spec name vals best r :
  search_loop name best vals = Ok r ->
  (forall c, candidate name vals c \/ best = Some c -> exists b, r = Some b /\ c_PublishedAt c <= c_PublishedAt b) /\
  (forall b, r = Some b -> candidate name vals b \/ best = Some b).
Proof.
  revert best. induction vals as [|[now data] vals IH]; intros best; simpl.
  { intros [= ->]. split; [|by right]. intros c [(?&?&Hin&_)| ->]; [by apply elem_of_nil in Hin|]. by exists c. }
  assert (Hskip : search_loop name best vals = Ok r ->
    (forall c, un_claim data = Some c -> live_claim name now c -> exists b, best = Some b /\ c_PublishedAt c <= c_PublishedAt b) ->
    (forall c, candidate name ((now, data) :: vals) c \/ best = Some c -> exists b, r = Some b /\ c_PublishedAt c <= c_PublishedAt b) /\
    (forall b, r = Some b -> candidate name ((now, data) :: vals) b \/ best = Some b)).
  { intros E Hno. destruct (IH best E) as [H1 H2]. split.
    - intros c [[[Hu Hl]|Hc]%candidate_inv|Hc]; [|by apply H1; left|by apply H1; right].
      destruct (Hno c Hu Hl) as (b & Hb & Hle). destruct (H1 b (or_intror Hb)) as (b' & -> & Hle').
      exists b'. split; [done|lia].
    - intros b [Hb|Hb]%H2; [left; by apply candidate_cons|by right]. }
  destruct (un_claim data) as [c|] eqn:Hu; [|intros E; by apply Hskip].
  destruct (verifyClaim c) as [[]|e|] eqn:Hv; [| |done].
  2: { intros E. apply Hskip; [done|]. intros c' [= <-] [Hv' _]. congruence. }
  destruct (negb _ || _ || _) eqn:Hd.
  { intros E. apply Hskip; [done|]. intros c' [= <-] (_ & Hn & He & Hp).
    rewrite Hn, String.eqb_refl in Hd. simpl in Hd. lia. }
  assert (Hlive : live_claim name now c).
  { apply orb_false_iff in Hd as [[Hd1 Hd2]%orb_false_iff Hd3]. apply negb_false_iff, String.eqb_eq in Hd1.
    repeat split; [done|done|lia|lia]. }
  assert (Htake : search_loop name (Some c) vals = Ok r ->
    (forall b, best = Some b -> c_PublishedAt b <= c_PublishedAt c) ->
    (forall c, candidate name ((now, data) :: vals) c \/ best = Some c -> exists b, r = Some b /\ c_PublishedAt c <= c_PublishedAt b) /\
    (forall b, r = Some b -> candidate name ((now, data) :: vals) b \/ best = Some b)).
  { intros E Hle. destruct (IH (Some c) E) as [H1 H2].
    destruct (H1 c (or_intror eq_refl)) as (b & -> & Hcb). split.
    - intros c' [[[Hu' Hl]|Hc]%candidate_inv|Hc].
      + rewrite Hu in Hu'. injection Hu' as <-. by exists b.
      + by apply H1; left.
      + exists b. split; [done|]. specialize (Hle c' Hc). lia.
    - intros b' [Hb|[= <-]]%H2; [left; by apply candidate_cons|]. left. exists now, data.
      split; [by left|done]. }
  destruct best as [b|]; [|intros E; by apply Htake].
  destruct (c_PublishedAt c >? c_PublishedAt b) eqn:Hgt; intros E.
  - apply Htake; [done|]. intros b' [= <-]. lia.
  - apply Hskip; [done|]. intros c' [= <-] _. exists b. split; [done|lia].
Qed.

Lemma search_loop_calm name vals best : calm vals -> exists r, search_loop name best vals = Ok r.
Proof.
  revert best. induction vals as [|[now data] vals IH]; intros best Hc; simpl; [eauto|].
  assert (Hc' : calm vals) by (intros n d c Hin; apply (Hc n d c); by right).
  destruct (un_claim data) as [c|] eqn:Hu; [|by apply IH].
  pose proof (Hc now data c ltac:(by left) Hu) as Hp. destruct (verifyClaim c) as [[]|e|]; [|by apply IH|done].
  destruct (negb _ || _ || _); [by apply IH|]. destruct best as [b|]; [|by apply IH].
  destruct (_ >? _); by apply IH.
Qed.
End NameClaims.

Lemma std_encode_ascii s : is_ascii (std_encode s) = true.
Proof.
  assert (Hn : forall n, 0 <= n < 64 -> byte_of (std_char n) <? 128 = true).
  { intros n Hn. assert (Ht : forallb (fun k => byte_of (std_char (Z.of_nat k)) <? 128) (seq 0 64) = true)
      by (vm_compute; reflexivity).
    rewrite forallb_forall in Ht. specialize (Ht (Z.to_nat n)). rewrite Z2Nat.id in Ht by lia.
    apply Ht, in_seq. lia. }
  unfold std_encode, is_ascii. induction s using string_ind3; [done|..]; cbn [b64_enc all_chars]; cbv zeta;
    bytes; rewrite !Hn by (Z.to_euclidean_division_equations; lia); done.
Qed.

Lemma std_encode_nonempty s : s <> "" -> std_encode s <> "".
Proof. destruct s as [|a [|b [|c s]]]; done. Qed.

Section NameRoundTrip.
Import Names.
Context `{CryptoLaws} `{RecordCodecLaws} `{UnicodeLaws}.

Lemma signed_claim_verifies sk name p e :
  slen (ed25519_public sk) = 32 ->
  let c := mkClaim name (DIDFromPubBytes (ed25519_public sk)) p e "" in
  verifyClaim (set_signature (signClaim sk c) c) = Ok tt.
Proof.
  intros Hs c. unfold verifyClaim. simpl c_Signature. simpl c_DID. unfold signClaim.
  rewrite (proj2 (String.eqb_neq _ "")) by (apply std_encode_nonempty, ed25519_nonempty; done).
  rewrite did_roundtrip by done. rewrite std_roundtrip. unfold ed25519_Verify. rewrite Hs.
  change (canonical (set_signature _ c)) with (canonical c). simpl. by rewrite ed25519_correct.
Qed.

(** What a successful claim wrote. *)
Lemma claim_ok did sk found now1 now2 now3 name w c w' :
  claim did sk found now1 now2 now3 name w = (Ok c, w') ->
  let n := Normalize name in
  Validate n = Ok tt /\
  c = set_signature (signClaim sk (mkClaim n did now2 (now3 + claimTTL) "")) (mkClaim n did now2 (now3 + claimTTL) "") /\
  (forall e, searchBest found n = Ok (Some e) -> c_DID e = did \/ c_ExpiresAt e <= now1) /\
  puts (db w') = (puts (db w) ++ [(dhtKey n, json_claim c)])%list /\ claims (db w') = (claims (db w) ++ [n])%list.
Proof.
  intros E n. unfold claim in E. fold n in E. apply bind_ok in E as ([] & w1 & E1 & E).
  destruct (Validate n) as [[]| |] eqn:Hv; [|done..]. injection E1 as <-. split; [done|].
  apply bind_ok in E as (ex & w1 & E1 & E). destruct (searchBest found n) as [ex'| |] eqn:Hs; [|done..].
  injection E1 as -> <-. destruct (match ex with Some _ => _ | None => _ end) eqn:Hr; [done|].
  apply bind_ok in E as ([] & w1 & E1 & E). apply exec_ok in E1.
  apply bind_ok in E as ([] & w2 & E2 & E). injection E as <- <-. injection E2 as <-.
  split; [done|]. split.
  - intros e [= ->]. destruct (String.eqb_spec (c_DID e) did); [by left|right]. simpl in Hr. lia.
  - simpl db. rewrite E1. done.
Qed.
End NameRoundTrip.

(** Claiming a name and resolving it agree: a successful claim puts one record
    under the key of the normalized name, and whenever the network's answer for
    that key includes the record while it is live (and no record whose DID is
    malformed), resolving the name returns a claim for it that is signed by its
    holder's key, unexpired when examined, in the answer, and the most recently
    published of all such claims, so at least as recent as ours. *)
Theorem name_claim_resolves `{CryptoLaws} `{RecordCodecLaws} `{UnicodeLaws}
    sk found now1 now2 now3 name w c w' vals t :
  let did := DIDFromPubBytes (ed25519_public sk) in
  slen (ed25519_public sk) = 32 -> is_ascii did = true ->
  Names.claim did sk found now1 now2 now3 name w = (Ok c, w') ->
  (t, json_claim c) ∈ vals -> c_PublishedAt c <= t + five_minutes -> t < c_ExpiresAt c -> calm vals ->
  let key := Names.dhtKey (Names.Normalize name) in
  Names.puts (db w') = (Names.puts (db w) ++ [(key, json_claim c)])%list /\
  exists c', Names.resolve (fun k => if String.eqb k key then Some vals else None) name = Ok c' /\
    candidate (Names.Normalize name) vals c' /\
    (forall c'', candidate (Names.Normalize name) vals c'' -> c_PublishedAt c'' <= c_PublishedAt c') /\
    c_PublishedAt c <= c_PublishedAt c'.
Proof.
  intros did Hs Hda E Hin Hp He Hcalm key. apply claim_ok in E as (Hv & Hc & _ & Hput & _).
  split; [done|]. unfold Names.resolve. rewrite Hv. unfold Names.searchBest. fold key. rewrite String.eqb_refl.
  assert (Hcand : candidate (Names.Normalize name) vals c).
  { exists t, (json_claim c). split; [done|]. split.
    - apply claim_roundtrip. subst c. unfold claim_ascii. simpl. unfold Names.signClaim.
      rewrite std_encode_ascii, Hda, andb_true_r. apply andb_true_iff. split; [|done].
      apply words_ascii. by apply Validate_words.
    - split; [subst c; by apply signed_claim_verifies|]. subst c. done. }
  destruct (search_loop_calm (Names.Normalize name) vals None Hcalm) as [r Hr]. rewrite Hr.
  apply search_loop_spec in Hr as [Hmax Hres]. destruct (Hmax c (or_introl Hcand)) as (b & -> & Hle).
  exists b. split; [done|]. split; [by destruct (Hres b eq_refl)|]. split; [|done].
  intros c'' Hc''. destruct (Hmax c'' (or_introl Hc'')) as (b' & [= <-] & Hle'). done.
Qed.

Section Toy.
#[local] Existing Instance ascii_crypto.
#[local] Existing Instance ascii_laws.

Definition toy_did : string := DIDFromPubBytes toy_key.
Definition toy_no_answer (k : string) : option (list (Z * string)) := None.
Definition toy_names : world Names.Registry := World (Names.mkNames [] []) [].
Definition toy_claim : Claim :=
  let c := mkClaim "swift-falcon" toy_did 5 (5 + Names.claimTTL) "" in
  Names.set_signature (Names.signClaim toy_key c) c.

Lemma name_claim_resolves_witness :
  let key := Names.dhtKey (Names.Normalize "Swift Falcon") in
  Names.puts (Names.mkNames ["swift-falcon"] [(key, json_claim toy_claim)]) =
    ([] ++ [(key, json_claim toy_claim)])%list /\
  exists c', Names.resolve (fun k => if String.eqb k key then Some [(7, "junk"); (8, json_claim toy_claim)] else None)
      "Swift Falcon" = Ok c' /\
    candidate (Names.Normalize "Swift Falcon") [(7, "junk"); (8, json_claim toy_claim)] c' /\
    (forall c'', candidate (Names.Normalize "Swift Falcon") [(7, "junk"); (8, json_claim toy_claim)] c'' ->
       c_PublishedAt c'' <= c_PublishedAt c') /\
    c_PublishedAt toy_claim <= c_PublishedAt c'.
Proof.
  apply (name_claim_resolves toy_key toy_no_answer 5 5 5 "Swift Falcon" toy_names toy_claim
    (World (Names.mkNames ["swift-falcon"] [(Names.dhtKey (Names.Normalize "Swift Falcon"), json_claim toy_claim)]) [])
    [(7, "junk"); (8, json_claim toy_claim)] 8);
    [reflexivity|vm_compute; reflexivity|vm_compute; reflexivity| |vm_compute; congruence|vm_compute; reflexivity|].
  - right. left.
  - intros now data c Hin Hc. apply elem_of_cons in Hin as [[= -> ->]|Hin]; [discriminate Hc|].
    apply list_elem_of_singleton, (f_equal snd) in Hin. cbn [snd] in Hin. rewrite Hin, claim_roundtrip in Hc by (vm_compute; reflexivity).
    injection Hc as <-. vm_compute. congruence.
Defined.
End Toy.

(** *** Renewing claims *)

Section Republish.
Import Names.
Context `{CryptoLaws} `{RecordCodecLaws} `{UnicodeLaws}.

Lemma claim_runs did sk found now1 now2 now3 name s :
  Validate name = Ok tt ->
  (exists r, searchBest found name = Ok r /\ forall e, r = Some e -> c_DID e = did) ->
  exists s' c, claim did sk found now1 now2 now3 name (World s []) = (Ok c, World s' []) /\
    claims s' = (claims s ++ [name])%list.
Proof.
  intros Hv (r & Hr & Hd). unfold claim. rewrite Normalize_valid, Hv, Hr by done.
  unfold lift, bind at 1, ret at 1. unfold bind at 1, ret at 1.
  replace (match r with Some e => _ | None => false end) with false; [eexists _, _; by split|].
  destruct r as [e|]; [|done]. by rewrite (Hd e eq_refl), String.eqb_refl.
Qed.

Lemma republish_loop did sk found now names i s :
  Forall (fun n => Validate n = Ok tt) names ->
  (forall i n, n ∈ names -> exists r, searchBest (found i) n = Ok r /\ forall e, r = Some e -> c_DID e = did) ->
  exists s', for_each (imap (fun k => pair (i + k)%nat) names)
      (fun '(i, name) => log_err (claim did sk (found i) (now i) (now i) (now i) name)) (World s [])
    = (Ok tt, World s' []) /\ claims s' = (claims s ++ names)%list.
Proof.
  intros Hv. revert i s. induction Hv as [|n names Hn _ IH]; intros i s Hf; simpl.
  { exists s. split; [done|]. by rewrite app_nil_r. }
  destruct (claim_runs did sk (found (i + 0)%nat) (now (i + 0)%nat) (now (i + 0)%nat) (now (i + 0)%nat) n s)
    as (s1 & c & E & Hc); [done|apply Hf; by left|].
  destruct (IH (S i) s1) as (s' & E' & Hc'); [intros; apply Hf; by right|].
  exists s'. unfold bind, log_err, catch. rewrite E. cbn [ret].
  unfold ret. rewrite (imap_ext _ (fun k => pair (S i + k)%nat)) by (intros; unfold compose; f_equal; lia).
  split; [exact E'|]. rewrite Hc', Hc, <- app_assoc. done.
Qed.
End Republish.

(** Renewing doubles the work: a round of RunRepublish in which every renewal
    succeeds appends each name to the list it ranges over once more, so the list
    of claimed names, and with it the number of DHT searches and writes of the
    next round, doubles every period. *)
Theorem names_republish_doubles `{CryptoLaws} `{RecordCodecLaws} `{UnicodeLaws} did sk found now s :
  Forall (fun n => Names.Validate n = Ok tt) (Names.claims s) ->
  (forall i n, n ∈ Names.claims s ->
     exists r, Names.searchBest (found i) n = Ok r /\ forall e, r = Some e -> c_DID e = did) ->
  exists s', Names.republish did sk found now (World s []) = (Ok tt, World s' []) /\
    Names.claims s' = (Names.claims s ++ Names.claims s)%list.
Proof. intros Hv Hf. apply (republish_loop did sk found now (Names.claims s) 0 s Hv Hf). Qed.

Lemma names_republish_doubles_witness :
  exists s', @Names.republish ascii_crypto toy_records ascii_unicode toy_did toy_key (fun _ => toy_no_answer)
      (fun _ => 9) (World (Names.mkNames ["swift-falcon"] []) []) = (Ok tt, World s' []) /\
    Names.claims s' = ["swift-falcon"; "swift-falcon"].
Proof.
  apply (@names_republish_doubles ascii_crypto ascii_laws toy_records toy_records_laws ascii_unicode
    ascii_unicode_laws toy_did toy_key (fun _ => toy_no_answer) (fun _ => 9) (Names.mkNames ["swift-falcon"] [])).
  - repeat constructor; vm_compute; reflexivity.
  - intros i n _. exists None. split; [reflexivity|discriminate].
Defined.

(** The doc of Claim promises a refusal when any peer returns another holder's
    live claim; only the most recent claim of the answer is looked at. *)
Example claim_ignores_older_holder :
  let other := "9123456789abcdef0123456789abcdef" in
  let held := let c := mkClaim "swift-falcon" (@DIDFromPubBytes ascii_crypto other) 4 (4 + Names.claimTTL) "" in
              Names.set_signature (@Names.signClaim ascii_crypto toy_records other c) c in
  let found k := Some [(6, json_claim held); (6, json_claim toy_claim)] in
  @live_claim ascii_crypto toy_records "swift-falcon" 6 held /\ c_DID held <> toy_did /\
  is_ok (fst (@Names.claim ascii_crypto toy_records ascii_unicode toy_did toy_key found 6 6 6 "swift-falcon" toy_names)) = true.
Proof. repeat split; vm_compute; congruence. Qed.

(** ** Agent cards *)

Section Cards.
Context `{Crypto} `{RecordCodec}.

Lemma HasPrefix_app_l p s : HasPrefix (p ++ s) p = true.
Proof. apply prefix_app. Qed.

Lemma strip_agents did : Validators.stripNamespace (Registry.dhtKey did) "agents/" = did.
Proof.
  unfold Validators.stripNamespace, Registry.dhtKey.
  change ("/agents/" ++ did) with ("/" ++ ("agents/" ++ did)). by rewrite !TrimPrefix_app.
Qed.

(** The registry's check and the validator's run the same tests in another order. *)
Lemma verifyCard_agrees now c :
  a_Signature c <> "" ->
  (Registry.verifyCard now c = Ok tt <-> Validators.validateAgentCard c now = Ok tt) /\
  (Registry.verifyCard now c = Panic <-> Validators.validateAgentCard c now = Panic).
Proof.
  intros Hs. unfold Registry.verifyCard, Validators.validateAgentCard.
  rewrite (proj2 (String.eqb_neq _ "") Hs).
  change Validators.maxClockSkew with five_minutes. unfold Registry.cardCanonical.
  destruct (a_PublishedAt c >? now + five_minutes), (a_ExpiresAt c <=? now), (a_ExpiresAt c <=? a_PublishedAt c);
    simpl; destruct (PubKeyFromDID (a_Did c)) as [pub|e|] eqn:Hpk; try (by split);
    try (exfalso; revert Hpk; unfold PubKeyFromDID; repeat case_match; discriminate);
    destruct (String.eqb (a_PublicKey c) (std_encode pub)); simpl; try (by split);
    destruct (std_decode (a_Signature c)) as [sig|]; try (by split);
    destruct (ed25519_Verify pub _ sig) as [[]|e|]; by split.
Qed.
End Cards.

(** C35: Discovery and the DHT enforce the same rules: for every DID that is not in
    the index's name space, Resolve returns a card exactly when the record stored
    under the DID's key passes the DHT validator and carries a signature; the card
    it returns is then that record's, names the DID it was asked for, and bears a
    signature of the DID's own key over all its other fields. *)
Theorem card_resolve_agrees `{Crypto} `{RecordCodec} get now did card :
  did <> "" -> HasPrefix did Validators.capabilityIndexPrefix = false ->
  (Registry.resolve get now now did = Ok card <->
     exists v, get (Registry.dhtKey did) = Some v /\ un_card v = Some card /\ a_Signature card <> "" /\
       Validators.AgentCard_Validate now (Registry.dhtKey did) v = Ok tt) /\
  (Registry.resolve get now now did = Ok card ->
     a_Did card = did /\ now < a_ExpiresAt card /\
     exists pub sig, PubKeyFromDID did = Ok pub /\ std_decode (a_Signature card) = Some sig /\
       ed25519_check pub (Registry.cardCanonical card) sig = true).
Proof.
  intros Hd Hp. split.
  - unfold Registry.resolve, Validators.AgentCard_Validate. rewrite strip_agents, Hp.
    rewrite (proj2 (String.eqb_neq did "") Hd). destruct (get (Registry.dhtKey did)) as [v|]; [|by split; [|intros (?&?&_)]].
    destruct (un_card v) as [c|] eqn:Hu.
    2: { split; [done|]. intros (v' & [= <-] & Hu' & _). congruence. }
    assert (Hsig : Registry.verifyCard now c = Ok tt -> a_Signature c <> "").
    { intros Hv E. unfold Registry.verifyCard in Hv. by rewrite E in Hv. }
    split.
    + intros Hr. destruct (Registry.verifyCard now c) as [[]| |] eqn:Hv; [|done..]. specialize (Hsig eq_refl).
      destruct (String.eqb_spec (a_Did c) did) as [Ed|]; [|done]. simpl in Hr.
      destruct (a_ExpiresAt c <=? now); [done|]. injection Hr as <-. exists v. rewrite Hu.
      split; [done|]. split; [done|]. split; [done|]. rewrite Ed, String.eqb_refl.
      rewrite (proj2 (String.eqb_neq did "") Hd). simpl. by apply (verifyCard_agrees now c Hsig).
    + intros (v' & [= <-] & Hu' & Hs & Hval). rewrite Hu in Hu', Hval. injection Hu' as ->.
      destruct (String.eqb_spec (a_Did card) ""); [done|].
      destruct (String.eqb_spec (a_Did card) did) as [Ed|]; [|done]. simpl in Hval |- *.
      apply (verifyCard_agrees now card Hs) in Hval as Hv. rewrite Hv.
      unfold Registry.verifyCard in Hv. destruct (String.eqb _ ""); [done|].
      destruct (a_ExpiresAt card <=? now); [|done]. by rewrite !orb_true_r in Hv.
  - unfold Registry.resolve. destruct (get _) as [v|]; [|done]. destruct (un_card v) as [c|]; [|done].
    destruct (Registry.verifyCard now c) as [[]| |] eqn:Hv; [|done..].
    destruct (String.eqb_spec (a_Did c) did) as [Ed|]; [|done]. simpl.
    destruct (a_ExpiresAt c <=? now) eqn:He; [done|]. intros [= <-]. split; [done|]. split; [lia|].
    unfold Registry.verifyCard in Hv. destruct (String.eqb _ ""); [done|]. destruct (_ || _ || _); [done|].
    rewrite Ed in Hv. destruct (PubKeyFromDID did) as [pub| |]; [|done..].
    destruct (String.eqb _ (std_encode pub)); [|done]. simpl in Hv.
    destruct (std_decode (a_Signature c)) as [sig|]; [|done]. exists pub, sig. split; [done|]. split; [done|].
    unfold ed25519_Verify in Hv. destruct (slen pub =? 32); [|done]. by destruct (ed25519_check _ _ _).
Qed.

Section ToyCard.
#[local] Existing Instance ascii_crypto.
#[local] Existing Instance ascii_laws.

Definition toy_skill : Skill := mkSkill "a2a:v1:cap:search" "search" "" "" "" [].
Definition toy_card : AgentCard :=
  mkCard toy_did "falcon" "" [toy_skill] [] (std_encode toy_key) 5 3600005 (std_encode toy_key) ∅ "" "peer-a" 1.
Definition toy_get (k : string) : option string :=
  if String.eqb k (Registry.dhtKey toy_did) then Some (json_card toy_card) else None.

Lemma toy_card_valid now :
  5 <= now + five_minutes -> now < 3600005 ->
  Validators.AgentCard_Validate now (Registry.dhtKey toy_did) (json_card toy_card) = Ok tt.
Proof.
  intros Hp He. unfold Validators.AgentCard_Validate. rewrite strip_agents.
  rewrite card_roundtrip by (vm_compute; reflexivity).
  replace (String.eqb toy_did "") with false by (vm_compute; reflexivity).
  replace (HasPrefix toy_did _) with false by (vm_compute; reflexivity).
  change (a_Did toy_card) with toy_did. rewrite String.eqb_refl.
  replace (String.eqb toy_did "") with false by (vm_compute; reflexivity). simpl negb. cbv iota.
  unfold Validators.validateAgentCard. change (a_Did toy_card) with (DIDFromPubBytes toy_key).
  rewrite did_roundtrip by reflexivity. change (a_PublicKey toy_card) with (std_encode toy_key).
  rewrite String.eqb_refl. change (a_PublishedAt toy_card) with 5. change (a_ExpiresAt toy_card) with 3600005.
  change Validators.maxClockSkew with five_minutes.
  destruct (5 >? now + five_minutes) eqn:E1; [lia|]. destruct (3600005 <=? now) eqn:E2; [lia|].
  change (a_Signature toy_card) with (std_encode toy_key). simpl negb. cbn [orb]. cbv iota.
  rewrite std_roundtrip. unfold ed25519_Verify. reflexivity.
Qed.

Lemma card_resolve_agrees_witness :
  Registry.resolve toy_get 9 9 toy_did = Ok toy_card /\
  a_Did toy_card = toy_did /\ 9 < a_ExpiresAt toy_card /\
  exists pub sig, PubKeyFromDID toy_did = Ok pub /\ std_decode (a_Signature toy_card) = Some sig /\
    ed25519_check pub (Registry.cardCanonical toy_card) sig = true.
Proof.
  destruct (card_resolve_agrees toy_get 9 toy_did toy_card) as [Hiff Hprop];
    [vm_compute; congruence|vm_compute; reflexivity|].
  assert (Hr : Registry.resolve toy_get 9 9 toy_did = Ok toy_card).
  { apply Hiff. exists (json_card toy_card). split; [|split; [|split]].
    - unfold toy_get. by rewrite String.eqb_refl.
    - by apply card_roundtrip; vm_compute.
    - vm_compute. congruence.
    - apply toy_card_valid; vm_compute; congruence. }
  split; [exact Hr|exact (Hprop Hr)].
Defined.
End ToyCard.

(** *** Malformed DIDs *)

Lemma no_char_prefix a s : no_char a s = true -> HasPrefix s (String a "") = false.
Proof.
  intros Hs. destruct (HasPrefix s (String a "")) eqn:E; [|done]. apply prefix_split in E.
  rewrite E in Hs. simpl in Hs. by rewrite no_char_cons, Ascii.eqb_refl in Hs.
Qed.

(** A record whose DID is longer than a key's panics every reader: the
    validator that each node runs on a record it is asked to store, the search
    behind Claim and Resolve, and the card check behind agent discovery all call
    ed25519.Verify with whatever follows the two prefix bytes of the DID, and it
    panics unless they are 32.  Anyone can publish such a record. *)
Theorem overlong_did_panics `{CryptoLaws} `{RecordCodec} now key payload sig c card value :
  let did := keyPrefix ++ base58_Encode payload in
  slen payload > 34 -> std_decode sig <> None -> sig <> "" ->
  (un_claim value = Some c -> c_DID c = did -> c_Signature c = sig ->
   key <> "" -> no_char "/" key = true -> c_Name c = key -> HasPrefix key "names/" = false ->
   c_PublishedAt c <= now + five_minutes -> now < c_ExpiresAt c -> c_PublishedAt c < c_ExpiresAt c ->
   Validators.NameClaim_Validate now key value = Panic /\
   Names.search_loop key None [(now, value)] = Panic) /\
  (a_Did card = did -> a_Signature card = sig -> a_PublicKey card = std_encode (drop_str 2 payload) ->
   a_PublishedAt card <= now + five_minutes -> now < a_ExpiresAt card ->
   a_PublishedAt card < a_ExpiresAt card ->
   Registry.verifyCard now card = Panic /\ Validators.validateAgentCard card now = Panic).
Proof.
  intros did Hp Hsig Hne.
  assert (Hpk : PubKeyFromDID did = Ok (drop_str 2 payload)) by (apply PubKeyFromDID_prefix; lia).
  assert (Hver : forall m s, ed25519_Verify (drop_str 2 payload) m s = Panic).
  { intros m s. unfold ed25519_Verify. destruct (slen (drop_str 2 payload) =? 32) eqn:E; [|done].
    exfalso. unfold slen in *. destruct payload as [|a [|b t]]; simpl in *; lia. }
  destruct (std_decode sig) as [raw|] eqn:Hraw; [|done]. split.
  - intros Hu Hd Hs Hk Hk' Hn Hpre Hpub Hexp Hint.
    assert (Hstrip : Validators.stripNamespace key "names/" = key).
    { unfold Validators.stripNamespace, TrimPrefix.
      rewrite (no_char_prefix "/" key) by done. by rewrite Hpre. }
    split.
    + unfold Validators.NameClaim_Validate. rewrite Hstrip, Hu, Hk', Hn, String.eqb_refl, Hd, Hpk, Hs, Hraw, Hver.
      rewrite (proj2 (String.eqb_neq key "") Hk). change Validators.maxClockSkew with five_minutes. simpl negb.
      cbn [orb]. destruct (_ || _ || _) eqn:E; [|done].
      apply orb_true_iff in E as [[E|E]%orb_true_iff|E]; lia.
    + simpl. rewrite Hu. unfold Names.verifyClaim. rewrite Hs, (proj2 (String.eqb_neq sig "") Hne), Hd, Hpk, Hraw, Hver.
      done.
  - intros Hd Hs Hk Hpub Hexp Hint.
    assert (Hv : Registry.verifyCard now card = Panic).
    { unfold Registry.verifyCard. rewrite Hs, (proj2 (String.eqb_neq sig "") Hne), Hd, Hpk, Hk, String.eqb_refl, Hraw, Hver.
      destruct (_ || _ || _) eqn:E; [|done]. apply orb_true_iff in E as [[E|E]%orb_true_iff|E]; lia. }
    split; [done|]. apply verifyCard_agrees; [by rewrite Hs|done].
Qed.

Lemma overlong_did_panics_witness :
  let payload := toy_key ++ "overlong" in
  let c := mkClaim "falcon" (keyPrefix ++ payload) 5 50 (std_encode "sig") in
  Validators.NameClaim_Validate 9 "falcon" (json_claim c) = Panic /\
  Names.search_loop "falcon" None [(9, json_claim c)] = Panic.
Proof.
  intros payload c.
  apply (overlong_did_panics 9 "falcon" payload (std_encode "sig") c toy_card (json_claim c)).
  1: reflexivity. 1: rewrite std_roundtrip; discriminate. 1: discriminate. 1: apply of_code_to_code.
  all: try reflexivity; try discriminate; vm_compute; congruence.
Defined.

(** ** Selecting among records *)

Section Select.
Import Validators.
Context (validate : string -> outcome unit) (rank : string -> option Z).

Definition eligible (vals : list string) (j : nat) (r : Z) : Prop :=
  exists v, vals !! j = Some v /\ validate v = Ok tt /\ rank v = Some r.

(** [best] is the first of the highest rank among the first [i] of [all]. *)
Definition best_of (all : list string) (i : nat) (best : option (nat * Z)) : Prop :=
  match best with
  | Some (k, r) =>
      (k < i)%nat /\ eligible all k r /\
      (forall j r', (j < i)%nat -> eligible all j r' -> r' < r \/ (r' = r /\ (k <= j)%nat))
  | None => forall j r', (j < i)%nat -> ~ eligible all j r'
  end.

Lemma eligible_fun all j r r' : eligible all j r -> eligible all j r' -> r = r'.
Proof. intros (v & Hv & _ & Hr) (v' & Hv' & _ & Hr'). congruence. Qed.

Lemma best_of_skip all i best v :
  all !! i = Some v -> (validate v = Ok tt -> rank v = None) -> best_of all i best -> best_of all (S i) best.
Proof.
  intros Hv Hno. assert (Hi : forall r, ~ eligible all i r).
  { intros r (v' & Hv' & Hok & Hr). rewrite Hv in Hv'. injection Hv' as <-. specialize (Hno Hok). congruence. }
  unfold best_of. destruct best as [[k r]|].
  - intros (Hk & He & Hall). split; [lia|]. split; [done|]. intros j r' Hj Hel.
    destruct (decide (j = i)) as [->|]; [by apply Hi in Hel|]. apply Hall; [lia|done].
  - intros Hall j r' Hj Hel. destruct (decide (j = i)) as [->|]; [by apply Hi in Hel|].
    by apply (Hall j r'); [lia|].
Qed.

Lemma best_of_take all i best v r :
  all !! i = Some v -> validate v = Ok tt -> rank v = Some r ->
  (forall k r0, best = Some (k, r0) -> r0 < r) -> best_of all i best -> best_of all (S i) (Some (i, r)).
Proof.
  intros Hv Hok Hr Hgt Hb. assert (He : eligible all i r) by (by exists v).
  split; [lia|]. split; [done|]. intros j r' Hj Hel.
  destruct (decide (j = i)) as [->|]; [right; split; [by apply (eligible_fun all i)|done]|].
  destruct best as [[k r0]|]; [|by destruct (Hb j r' ltac:(lia))].
  destruct Hb as (_ & _ & Hall). specialize (Hgt k r0 eq_refl).
  destruct (Hall j r' ltac:(lia) Hel); left; lia.
Qed.

Lemma best_of_keep all i k r0 v r :
  all !! i = Some v -> rank v = Some r -> r <= r0 ->
  best_of all i (Some (k, r0)) -> best_of all (S i) (Some (k, r0)).
Proof.
  intros Hv Hr Hle (Hk & He & Hall). split; [lia|]. split; [done|]. intros j r' Hj Hel.
  destruct (decide (j = i)) as [->|]; [|apply Hall; [lia|done]].
  destruct Hel as (v' & Hv' & _ & Hr'). assert (r' = r) by congruence. lia.
Qed.

Lemma select_loop_spec vals : forall pre best,
  best_of (pre ++ vals)%list (length pre) best ->
  match select_loop validate rank (length pre) best vals with
  | Ok b => best_of (pre ++ vals)%list (length (pre ++ vals)%list) b
  | Err _ => False
  | Panic => exists v, v ∈ vals /\ validate v = Panic
  end.
Proof.
  induction vals as [|v vals IH]; intros pre best Hb; simpl; [by rewrite app_nil_r in *|].
  assert (Hv : (pre ++ v :: vals)%list !! length pre = Some v) by (by apply list_lookup_middle).
  assert (Hnext : forall best', best_of (pre ++ v :: vals)%list (S (length pre)) best' ->
    match select_loop validate rank (S (length pre)) best' vals with
    | Ok b => best_of (pre ++ v :: vals)%list (length (pre ++ v :: vals)%list) b
    | Err _ => False
    | Panic => exists v', v' ∈ v :: vals /\ validate v' = Panic
    end).
  { intros best' Hb'. specialize (IH (pre ++ [v])%list best').
    rewrite <- app_assoc, (length_app pre [v]), Nat.add_1_r in IH. simpl in IH. specialize (IH Hb').
    destruct (select_loop validate rank _ best' vals); [done|done|].
    destruct IH as (v' & Hin & Hp). exists v'. split; [by right|done]. }
  destruct (validate v) as [[]|e|] eqn:Hval.
  - destruct (rank v) as [r|] eqn:Hr; [|apply Hnext; by apply (best_of_skip _ _ best v)].
    destruct best as [[k r0]|].
    + destruct (r >? r0) eqn:Hgt; apply Hnext.
      * apply (best_of_take _ _ (Some (k, r0)) v r); try done. intros ?? [= -> ->]. lia.
      * apply (best_of_keep _ _ k r0 v r); [done|done|lia|done].
    + apply Hnext. by apply (best_of_take _ _ None v r).
  - apply Hnext. apply (best_of_skip _ _ best v); [done|congruence|done].
  - exists v. split; [by left|done].
Qed.
End Select.

(** Selection among the records the DHT holds for a key, of every kind (agent
    cards and name claims by publication time, thread heads by height): the index
    returned is that of a record that passes the validator, no valid record ranks
    higher, and of the equally ranked it is the first; an error means that no
    record is valid, a panic that the validator panics on one. *)
Theorem selectBest_spec key vals validate rank :
  match Validators.selectBest key vals validate rank with
  | Ok i => exists r, eligible (validate key) rank vals i r /\
      forall j r', eligible (validate key) rank vals j r' -> r' < r \/ (r' = r /\ (i <= j)%nat)
  | Err _ => forall j r', ~ eligible (validate key) rank vals j r'
  | Panic => exists v, v ∈ vals /\ validate key v = Panic
  end.
Proof.
  unfold Validators.selectBest.
  assert (Hlen : forall j r, eligible (validate key) rank vals j r -> (j < length vals)%nat).
  { intros j r (v & Hv & _). by apply lookup_lt_Some in Hv. }
  assert (H0 : best_of (validate key) rank ([] ++ vals)%list 0 None) by (intros j r' Hj; lia).
  pose proof (select_loop_spec (validate key) rank vals [] None H0) as H. cbn [length app] in H.
  destruct (Validators.select_loop _ _ _ _ _) as [[[i r]|]|e|]; [|..|done].
  - destruct H as (_ & He & Hall). exists r. split; [done|]. intros j r' Hel. apply Hall; [by eapply Hlen|done].
  - intros j r' Hel. by apply (H j r'); [eapply Hlen|].
  - done.
Qed.

(** ** Finding agents by capability *)

Section Find.
Import Registry.
Context `{Crypto} (capability : string) (limit : Z) (own : option AgentCard) (P : AgentCard -> Prop).
Hypothesis Hown : forall c, own = Some c -> P c.

(** What holds of the result as it grows. *)
Record find_inv (f : found) : Prop := {
  fi_cards : Forall (fun c => P c /\ cardHasCapability c capability = true) (cards f);
  fi_nodup : NoDup (map a_Did (cards f));
  fi_seen : forall c, c ∈ cards f -> a_Did c ∈ seen f;
  fi_open : limit > 0 -> done_ f = false ->
    llen (cards f) < limit + match own with Some c => if bool_decide (a_Did c ∈ seen f) then 1 else 0 | None => 0 end;
  fi_len : limit > 0 -> llen (cards f) <= limit + 1 }.

Lemma own_bonus (s : gset string) :
  0 <= match own with Some c => if bool_decide (a_Did c ∈ s) then 1 else 0 | None => 0 end <= 1.
Proof. destruct own as [c|]; [case_bool_decide|]; lia. Qed.

Lemma llen_snoc {A} (l : list A) x : llen (l ++ [x])%list = llen l + 1.
Proof. unfold llen. rewrite length_app. simpl. lia. Qed.

Lemma NoDup_snoc f c :
  find_inv f -> a_Did c ∉ seen f -> NoDup (map a_Did (cards f ++ [c])%list).
Proof.
  intros Hf Hc. rewrite map_app. apply NoDup_app. split; [apply Hf|]. split; [|apply NoDup_singleton].
  intros d Hd ->%list_elem_of_singleton. apply list_elem_of_fmap in Hd as (c' & E & Hin).
  apply Hc. rewrite E. by apply (fi_seen f Hf).
Qed.

Lemma push_inv f c :
  find_inv f -> done_ f = false -> a_Did c ∉ seen f -> P c -> cardHasCapability c capability = true ->
  find_inv (push limit (a_Did c) c f).
Proof.
  intros Hf Hd Hc HP Hcap. pose proof (own_bonus (seen f)) as Hbonus.
  split; unfold push; cbn [cards seen done_].
  - apply Forall_app. split; [apply Hf|by constructor].
  - by apply NoDup_snoc.
  - intros c' [Hin| ->%list_elem_of_singleton]%elem_of_app; [|set_solver].
    apply (fi_seen f Hf) in Hin. set_solver.
  - intros Hl. unfold at_limit. rewrite (proj2 (Z.gtb_lt limit 0)) by lia. simpl. intros Hge.
    pose proof (own_bonus ({[a_Did c]} ∪ seen f)). lia.
  - intros Hl. pose proof (fi_open f Hf Hl Hd). rewrite llen_snoc. lia.
Qed.

Lemma find_local_inv l f :
  NoDup (map fst l) -> Forall (fun kc => a_Did (snd kc) = fst kc /\ P (snd kc)) l ->
  (forall kc, kc ∈ l -> fst kc ∉ seen f) -> find_inv f -> done_ f = false ->
  find_inv (find_local capability limit l f).
Proof.
  revert f. induction l as [|[did c] l IH]; intros f Hnd Hall Hseen Hf Hd; [done|]. simpl.
  apply NoDup_cons in Hnd as [Hni Hnd]. apply Forall_cons in Hall as [[Hdid HP] Hall]. simpl in *.
  destruct (cardHasCapability c capability) eqn:Hcap.
  - assert (Hf' : find_inv (push limit did c f)).
    { rewrite <- Hdid. apply push_inv; try done. rewrite Hdid. apply (Hseen (did, c)). by left. }
    destruct (at_limit limit (cards f ++ [c])%list) eqn:Hlim; [done|]. apply IH; try done.
    intros kc Hin. simpl. intros [E%elem_of_singleton|Hs]%elem_of_union.
    + apply Hni. rewrite <- E. by apply list_elem_of_fmap_2.
    + apply (Hseen kc); [by right|done].
  - apply IH; try done. intros kc Hin. apply Hseen. by right.
Qed.

Section Remote.
Context (res : string -> outcome AgentCard).
Hypothesis Hres : forall did c, res did = Ok c -> a_Did c = did /\ P c.

Lemma find_indexed_inv dids f f' :
  find_inv f -> done_ f = false -> find_indexed capability limit res dids f = Ok f' -> find_inv f'.
Proof.
  revert f. induction dids as [|did dids IH]; intros f Hf Hd; simpl; [by intros [= <-]|].
  case_bool_decide as Hs; [by apply IH|].
  destruct (res did) as [c|e|] eqn:Hr; [|by apply IH|done].
  destruct (Hres _ _ Hr) as [Hdid HP].
  destruct (cardHasCapability c capability) eqn:Hcap; [|by apply IH]. simpl.
  assert (Hf' : find_inv (push limit did c f)).
  { rewrite <- Hdid. apply push_inv; try done. by rewrite Hdid. }
  destruct (at_limit limit (cards f ++ [c])%list) eqn:Hlim; [by intros [= <-]|]. by apply IH.
Qed.

Lemma find_provider_inv self p f f' :
  find_inv f -> done_ f = false -> find_provider self own capability limit res p f = Ok f' -> find_inv f'.
Proof.
  intros Hf Hd. unfold find_provider. destruct (String.eqb (prov_ID p) self).
  - destruct own as [c|] eqn:Ho; [|by intros [= <-]]. case_bool_decide as Hs; [by intros [= <-]|]. simpl.
    destruct (cardHasCapability c capability) eqn:Hcap; [|by intros [= <-]]. intros [= <-].
    assert (HP : P c) by (by apply Hown).
    assert (Hopen : limit > 0 -> llen (cards f) < limit).
    { intros Hl. pose proof (fi_open f Hf Hl Hd) as Hlt. rewrite Ho, bool_decide_eq_false_2 in Hlt by done. lia. }
    split; cbn [cards seen done_].
    + apply Forall_app. split; [apply Hf|by constructor].
    + by apply NoDup_snoc.
    + intros c' [Hin| ->%list_elem_of_singleton]%elem_of_app; [|set_solver].
      apply (fi_seen f Hf) in Hin. set_solver.
    + intros Hl _. rewrite Ho, bool_decide_eq_true_2 by set_solver. specialize (Hopen Hl). rewrite llen_snoc. lia.
    + intros Hl. specialize (Hopen Hl). rewrite llen_snoc. lia.
  - destruct (prov_key p) as [pk|]; [|by intros [= <-]].
    destruct (res (DIDFromPubBytes pk)) as [c|e|] eqn:Hr; [|by intros [= <-]|done].
    destruct (Hres _ _ Hr) as [_ HP]. case_bool_decide as Hs; [by intros [= <-]|].
    destruct (cardHasCapability c capability) eqn:Hcap; [|by intros [= <-]]. intros [= <-]. by apply push_inv.
Qed.

Lemma find_remote_inv self agents provs f f' :
  find_inv f -> done_ f = false ->
  find_remote self own capability limit agents res provs f = Ok f' -> find_inv f'.
Proof.
  revert f. induction provs as [|p provs IH]; intros f Hf Hd; simpl; [by intros [= <-]|].
  destruct (find_indexed _ _ _ _ f) as [f1| |] eqn:E1; [|done..].
  pose proof (find_indexed_inv _ _ _ Hf Hd E1) as Hf1. destruct (done_ f1) eqn:Hd1; [by intros [= <-]|].
  destruct (find_provider _ _ _ _ _ _ f1) as [f2| |] eqn:E2; [|done..].
  pose proof (find_provider_inv _ _ _ _ Hf1 Hd1 E2) as Hf2.
  destruct (done_ f2) eqn:Hd2; [by intros [= <-]|]. by apply IH.
Qed.
End Remote.
End Find.

Lemma resolve_ok `{Crypto} `{RecordCodec} get now1 now2 did c :
  Registry.resolve get now1 now2 did = Ok c ->
  a_Did c = did /\ Registry.verifyCard now1 c = Ok tt /\ now2 < a_ExpiresAt c.
Proof.
  unfold Registry.resolve. destruct (get _) as [v|]; [|done]. destruct (un_card v) as [c'|]; [|done].
  destruct (Registry.verifyCard now1 c') as [[]| |] eqn:Hv; [|done..].
  destruct (String.eqb_spec (a_Did c') did); [|done]. simpl.
  destruct (a_ExpiresAt c' <=? now2) eqn:He; [done|]. intros [= <-]. repeat split; [done|done|lia].
Qed.

(** What FindByCapability returns: cards that list the capability, of pairwise
    distinct agents, each either published through this daemon, or the daemon's
    own, or resolved from the DHT, hence verified and unexpired; and at most
    limit + 1 of them when a limit is given. *)
Theorem find_by_capability_sound `{Crypto} `{RecordCodec} r locals self get now1 now2 provs cap limit l :
  NoDup (map fst locals) -> Forall (fun kc => a_Did (snd kc) = fst kc) locals ->
  Registry.findByCapability r locals self get now1 now2 provs cap limit = Ok l ->
  NoDup (map a_Did l) /\ (limit > 0 -> llen l <= limit + 1) /\
  Forall (fun c => Registry.cardHasCapability c cap = true /\
    (c ∈ map snd locals \/ Registry.r_card r = Some c \/
     (Registry.verifyCard now1 c = Ok tt /\ now2 < a_ExpiresAt c))) l.
Proof.
  intros Hnd Hloc Hfind. unfold Registry.findByCapability in Hfind.
  set (P c := c ∈ map snd locals \/ Registry.r_card r = Some c \/
    (Registry.verifyCard now1 c = Ok tt /\ now2 < a_ExpiresAt c)).
  assert (Hfin : forall f, find_inv cap limit (Registry.r_card r) P f -> l = Registry.cards f ->
    NoDup (map a_Did l) /\ (limit > 0 -> llen l <= limit + 1) /\
    Forall (fun c => Registry.cardHasCapability c cap = true /\ P c) l).
  { intros f [H1 H2 H3 H4 H5] ->. split; [done|]. split; [done|]. eapply Forall_impl; [exact H1|].
    intros c []. done. }
  assert (Hinit : find_inv cap limit (Registry.r_card r) P (Registry.mkFound [] ∅ false)).
  { split; simpl; [constructor|constructor|by intros c ?%elem_of_nil|..].
    - intros Hl _. unfold llen. simpl. destruct (Registry.r_card r); [case_bool_decide|]; lia.
    - unfold llen. simpl. lia. }
  assert (HlocP : find_inv cap limit (Registry.r_card r) P
    (Registry.find_local cap limit locals (Registry.mkFound [] ∅ false))).
  { apply find_local_inv; [intros c Hc; right; by left|done| |intros kc _; set_solver|done|done].
    apply Forall_forall. intros kc Hin. rewrite Forall_forall in Hloc. split; [by apply Hloc|].
    left. by apply list_elem_of_fmap_2. }
  destruct (Registry.done_ (Registry.find_local _ _ _ _)) eqn:Hd.
  { injection Hfind as <-. by eapply Hfin. }
  destruct (Registry.find_remote _ _ _ _ _ _ _ _) as [f'| |] eqn:Hr; [|done..]. injection Hfind as <-.
  eapply Hfin; [|done]. eapply find_remote_inv; [|..|exact HlocP|done|exact Hr].
  - intros c Hc. right. by left.
  - intros did c Hc. apply resolve_ok in Hc as (? & ? & ?). split; [done|]. right. by right.
Qed.

Definition toy_registry : Registry.Registry := Registry.mkRegistry (Some toy_card) ∅ [] [].
Definition toy_local : string * AgentCard :=
  ("did:local", mkCard "did:local" "x" "" [toy_skill] [] "" 0 3 "" ∅ "" "" 0).

Lemma find_by_capability_sound_witness :
  let l := [snd toy_local; toy_card] in
  NoDup (map a_Did l) /\ (5 > 0 -> llen l <= 5 + 1) /\
  Forall (fun c => Registry.cardHasCapability c "a2a:v1:cap:search" = true /\
    (c ∈ map snd [toy_local] \/ Registry.r_card toy_registry = Some c \/
     (@Registry.verifyCard ascii_crypto toy_records 9 c = Ok tt /\ 9 < a_ExpiresAt c))) l.
Proof.
  apply (@find_by_capability_sound ascii_crypto toy_records toy_registry [toy_local] "peer-a" (fun _ => None)
    9 9 [Registry.mkProvider "peer-a" None] "a2a:v1:cap:search" 5).
  - apply NoDup_singleton.
  - by repeat constructor.
  - vm_compute. reflexivity.
Defined.

(** The daemon's own card is added without looking at the limit, so that the next
    card found exceeds it. *)
Example find_exceeds_limit :
  let third := mkCard "did:b" "y" "" [toy_skill] [] "" 0 3 "" ∅ "" "" 0 in
  match Registry.find_remote "peer-a" (Some toy_card) "a2a:v1:cap:search" 1 (fun _ => [])
          (fun _ => Ok third) [Registry.mkProvider "peer-a" None; Registry.mkProvider "peer-b" (Some "key")]
          (Registry.mkFound [] ∅ false) with
  | Ok f => llen (Registry.cards f) = 2
  | _ => False
  end.
Proof. vm_compute. reflexivity. Qed.

(** The card of a local agent is returned after it expired: it expires at 3 and
    the clock shows 9. *)
Example find_returns_expired_local :
  @Registry.findByCapability ascii_crypto toy_records (Registry.mkRegistry None ∅ [] []) [toy_local] "peer-a"
    (fun _ => None) 9 9 [] "a2a:v1:cap:search" 0 = Ok [snd toy_local] /\ a_ExpiresAt (snd toy_local) = 3.
Proof. vm_compute. by split. Qed.
