(* ===== verification/Manager.v ===== *)
(** * Thread managers and actors ([daemon/thread/manager.go], [actor_manager.go],
    [actor_supervisor.go], [actor.go], [engine.go])

    Validation of thread creation, persistence of descriptors and of the creator's
    and one's own membership, recovery commitments, activation of threads by the
    supervisor, the mailbox of a thread actor, and the fan-out of committed entries
    to subscribers.  The consensus backends are the class [ActorBackend] of the Go
    interface; a call of the actor system or of pubsub is a statement that may
    fail. *)

From stdpp Require Import base gmap strings list.
From Stdlib Require Import ZArith Lia Ascii.
From S2P Require Import Prelude GoStd Identity ThreadStore ConsensusStore Membership Chain ThreadCrypto.

Local Open Scope string_scope.
Local Open Scope Z_scope.
Local Open Scope go_scope.

Import ThreadStore ConsensusStore Membership Chain.

(** ** The store the managers share *)

Record Store : Type := mkStore {
  s_blocks : BlocksDB; s_members : MemberDB; s_keys : Keys.KeysDB; s_consensus : ConsensusDB }.

Definition with_s_blocks (b : BlocksDB) (s : Store) : Store :=
  mkStore b (s_members s) (s_keys s) (s_consensus s).
Definition with_s_members (m : MemberDB) (s : Store) : Store :=
  mkStore (s_blocks s) m (s_keys s) (s_consensus s).
Definition with_s_keys (k : Keys.KeysDB) (s : Store) : Store :=
  mkStore (s_blocks s) (s_members s) k (s_consensus s).
Definition with_s_consensus (c : ConsensusDB) (s : Store) : Store :=
  mkStore (s_blocks s) (s_members s) (s_keys s) c.

Definition on_blocks {A} (m : M BlocksDB A) : M Store A := zoom s_blocks with_s_blocks m.
Definition on_members {A} (m : M MemberDB A) : M Store A := zoom s_members with_s_members m.
Definition on_keys {A} (m : M Keys.KeysDB A) : M Store A := zoom s_keys with_s_keys m.
Definition on_consensus {A} (m : M ConsensusDB A) : M Store A := zoom s_consensus with_s_consensus m.

(** The result of a pure computation. *)
Definition lift {S A} (r : outcome A) : M S A :=
  match r with Ok a => ret a | Err e => throw e | Panic => panic end.

(** [pb.CreateThreadRequest] and [pb.ThreadRecoveryHandle]. *)
Record CreateThreadRequest : Type := mkCreateThread {
  q_ReplicaDids : list string; q_F : Z; q_EpochMs : Z; q_Metadata : gmap string string;
  q_ThreadId : string; q_CreatorDid : string; q_CreatorSignature : string; q_CreatedAt : Z;
  q_RecoverySecret : string }.

Definition empty_request : CreateThreadRequest := mkCreateThread [] 0 0 ∅ "" "" "" 0 "".

Record ThreadRecoveryHandle : Type := mkRecovery {
  rh_ThreadId : string; rh_RecoverySecret : string; rh_Version : Z }.

(** [pb.ThreadEntryWithPos]. *)
Record ThreadEntryWithPos : Type := mkPos {
  e_Height : Z; e_Index : Z; e_Entry : ThreadEntry; e_BlockHash : string }.

(** The interface of a consensus backend to its actor.  A call returns the backend's
    new state and the blocks its commit callback was called with, in order. *)
Class ActorBackend : Type := {
  Backend : Type;
  new_backend : BackendKind -> Thread -> M Store Backend;
  Tick : Backend -> M Store (Backend * list ThreadBlock);
  StepInbound : string -> Backend -> M Store (Backend * list ThreadBlock);
  Pump : Backend -> M Store (Backend * list ThreadBlock);
  BeginVoterChange : option (string -> bool -> Backend -> M Store Backend);
  Snapshot_ : option (Backend -> M Store unit) }.

Module Manager.
Section Manager.
Context `{Crypto} `{Codec}.

Definition defaultEpochMs : Z := 1000.

(** [BackendKind(meta["backend"])]. *)
Definition BackendKindOf (s : string) : BackendKind :=
  if String.eqb s "tendermint" then BackendTendermint
  else if String.eqb s "raft" then BackendRaft else BackendOther s.

Definition is_tendermint (k : BackendKind) : bool :=
  match k with BackendTendermint => true | _ => false end.

(** ** Thread creation *)

Definition maxTolerableFailures (backend : BackendKind) (replicas : Z) : Z :=
  if replicas <? 1 then 0 else
  if is_tendermint backend then (replicas - 1) / 3 else (replicas - 1) / 2.

(** [uuid]: a fresh one; [now]: the clock in milliseconds. *)
Definition newThreadFromRequest (uuid : string) (now : Z) (selfDID : string)
    (req : option CreateThreadRequest) (requestedID : string) (createdAt : Z) : outcome Thread :=
  match req with
  | None => Err (Errorf "thread creation request is required")
  | Some req =>
      let replicas := q_ReplicaDids req in
      let replicas := if existsb (fun did => String.eqb did selfDID) replicas then replicas
                      else selfDID :: replicas in
      let meta := match q_Metadata req !! "backend" with
                  | Some _ => q_Metadata req
                  | None => <["backend" := "raft"]> (q_Metadata req)
                  end in
      let f := q_F req in
      let n := if is_tendermint (BackendKindOf (default "" (meta !! "backend")))
               then int32 (int32 (3 * f) + 1) else int32 (int32 (2 * f) + 1) in
      let n := if f =? 0 then 1 else n in
      if int32 (llen replicas) <? n then Err (Errorf "backend needs more replicas") else
      let epochMs := if q_EpochMs req =? 0 then defaultEpochMs else q_EpochMs req in
      let requestedID := if String.eqb requestedID "" then uuid else requestedID in
      let createdAt := if createdAt =? 0 then now else createdAt in
      Ok (mkThread requestedID selfDID replicas n f epochMs createdAt meta)
  end.

Definition NewThreadFromRequest (uuid : string) (now : Z) (selfDID : string)
    (req : option CreateThreadRequest) : outcome Thread :=
  newThreadFromRequest uuid now selfDID req "" 0.

Definition NewThreadFromSignedRequest (uuid : string) (now : Z) (req : option CreateThreadRequest)
    : outcome Thread :=
  match req with
  | None => Err (Errorf "signed thread creation requires thread_id, creator_did, creator_signature, and created_at")
  | Some r =>
      if String.eqb (q_ThreadId r) "" || String.eqb (q_CreatorDid r) ""
         || (slen (q_CreatorSignature r) =? 0) || (q_CreatedAt r <=? 0)
      then Err (Errorf "signed thread creation requires thread_id, creator_did, creator_signature, and created_at")
      else
      match newThreadFromRequest uuid now (q_CreatorDid r) req (q_ThreadId r) (q_CreatedAt r) with
      | Err e => Err e
      | Panic => Panic
      | Ok th =>
          let th := set_metadata (<[descriptorSignatureKey := std_encode (q_CreatorSignature r)]>) th in
          match VerifyDescriptor (Some th) with
          | Ok _ => Ok th
          | Err _ => Err (Errorf "verify SDK thread descriptor")
          | Panic => Panic
          end
      end
  end.

(** [did], [sk]: the daemon's identity. *)
Definition buildAndPersistThread (uuid : string) (now : Z) (did sk : string)
    (req : option CreateThreadRequest) : M Store Thread :=
  let signed := match req with Some r => negb (String.eqb (q_CreatorDid r) "") | None => false end in
  let! thread := lift (if signed then NewThreadFromSignedRequest uuid now req
                       else NewThreadFromRequest uuid now did req) in
  let! thread := (if signed then ret thread else lift (SignDescriptor thread did sk)) in
  do! on_blocks (SaveThread thread) in
  do! on_members (SaveMember (t_Id thread) (Some (mkMember (CreatorDid thread) ADMIN 1))) in
  ret thread.

(** ** Reading entries *)

Definition positions (b : ThreadBlock) : list ThreadEntryWithPos :=
  imap (fun i entry => mkPos (Height b) (int32 (Z.of_nat i)) entry (BlockHash b)) (Entries b).

Definition entriesFromBlocks (blocks : list ThreadBlock) : list ThreadEntryWithPos :=
  concat (map positions blocks).

Definition GetEntries (threadID : string) (sinceHeight limit : Z) : M Store (list ThreadEntryWithPos) :=
  let! blocks := on_blocks (GetBlocksSince threadID sinceHeight limit) in
  ret (entriesFromBlocks blocks).

(** ** The replica's own membership *)

Definition recordSelfMembership (th : Thread) (selfDID : string) : M Store unit :=
  if String.eqb selfDID "" then ret tt else
  if existsb (fun did => String.eqb did selfDID) (ReplicaDids th) then
    catch (on_members (MembershipEpochOf (t_Id th))) (fun r =>
      let epoch := match r with Ok e => e | _ => 1 end in
      on_members (SaveMember (t_Id th) (Some (mkMember selfDID OBSERVER epoch))))
  else ret tt.

(** ** Subscribers ([engine.go], [actor.go]) *)

Definition channel_capacity : nat := 256.

(** A channel: its identity and what it holds. *)
Record chan : Type := mkChan { c_id : nat; c_buf : list ThreadEntryWithPos }.

(** [select { case sub <- ep: default: }]. *)
Definition offer (ep : ThreadEntryWithPos) (c : chan) : chan :=
  if decide (length (c_buf c) < channel_capacity)%nat then mkChan (c_id c) (c_buf c ++ [ep]) else c.

(** The loop over the entries of a committed block. *)
Fixpoint fan_out_from (block : ThreadBlock) (i : nat) (entries : list ThreadEntry) (subs : list chan) : list chan :=
  match entries with
  | [] => subs
  | entry :: rest =>
      let ep := mkPos (Height block) (int32 (Z.of_nat i)) entry (BlockHash block) in
      fan_out_from block (S i) rest (map (offer ep) subs)
  end.

Definition fan_out (block : ThreadBlock) (subs : list chan) : list chan :=
  fan_out_from block 0 (Entries block) subs.

Definition Subscribe (id : nat) (subs : list chan) : list chan := subs ++ [mkChan id []].

Fixpoint Unsubscribe (id : nat) (subs : list chan) : list chan :=
  match subs with
  | [] => []
  | c :: subs' => if Nat.eqb (c_id c) id then subs' else c :: Unsubscribe id subs'
  end.

(** ** The actor of a thread ([actor.go]) *)

Definition threadPassivateAfter : Z := 300000.

Section Actors.
Context `{ActorBackend}.

(** [a_running]: what [IsRunning] answers for its PID; [a_crashes]: when the actor
    panicked, the latest first; [a_suspended]: whether the actor system suspended it. *)
Record ThreadActor : Type := mkActor {
  a_thread : Thread; a_backend : Backend; a_subscribers : list chan; a_committedHeight : Z;
  a_lastActivity : Z; a_passivateAfter : Z; a_running : bool; a_crashes : list Z; a_suspended : bool }.

Definition with_backend (b : Backend) (a : ThreadActor) : ThreadActor :=
  mkActor (a_thread a) b (a_subscribers a) (a_committedHeight a) (a_lastActivity a) (a_passivateAfter a)
    (a_running a) (a_crashes a) (a_suspended a).
Definition with_subscribers (l : list chan) (a : ThreadActor) : ThreadActor :=
  mkActor (a_thread a) (a_backend a) l (a_committedHeight a) (a_lastActivity a) (a_passivateAfter a)
    (a_running a) (a_crashes a) (a_suspended a).
Definition touch (now : Z) (a : ThreadActor) : ThreadActor :=
  mkActor (a_thread a) (a_backend a) (a_subscribers a) (a_committedHeight a) now (a_passivateAfter a)
    (a_running a) (a_crashes a) (a_suspended a).
Definition stopped (a : ThreadActor) : ThreadActor :=
  mkActor (a_thread a) (a_backend a) [] (a_committedHeight a) (a_lastActivity a) (a_passivateAfter a) false
    (a_crashes a) (a_suspended a).
Definition crashed (now : Z) (running suspended : bool) (old a : ThreadActor) : ThreadActor :=
  mkActor (a_thread a) (a_backend a) (a_subscribers a) (a_committedHeight a) (a_lastActivity a)
    (a_passivateAfter a) running (now :: a_crashes old) suspended.

Definition handleCommit (block : ThreadBlock) (a : ThreadActor) : ThreadActor :=
  mkActor (a_thread a) (a_backend a) (fan_out block (a_subscribers a)) (Height block) (a_lastActivity a)
    (a_passivateAfter a) (a_running a) (a_crashes a) (a_suspended a).

(** A backend call with its commit callbacks. *)
Definition drive (call : Backend -> M Store (Backend * list ThreadBlock)) (a : ThreadActor)
    : M Store ThreadActor :=
  let! r := call (a_backend a) in
  ret (fold_left (fun a b => handleCommit b a) (snd r) (with_backend (fst r) a)).

(** [after]: the supervisor's setting; [now]: the clock. *)
Definition PreStart (now after : Z) (th : Thread) : M Store ThreadActor :=
  catch (on_blocks (GetThread (t_Id th))) (fun r =>
    let th := match r with Ok current => current | _ => th end in
    let! backend := new_backend (BackendKindOf (default "" (Metadata th !! "backend"))) th in
    let! height := on_blocks (GetCommittedHeight (t_Id th)) in
    ret (mkActor th backend [] height now (if after <=? 0 then threadPassivateAfter else after) true [] false)).

Inductive message : Type :=
| TickMsg
| ConsensusMsg (m : string)
| ActivateMsg
| ProposeVoterChangeMsg (did : string) (add : bool)
| QueryThreadMsg.

(** What Receive answers. *)
Inductive reply : Type :=
| NoReply
| VoterChangeReply (r : outcome unit)
| QueryThreadReply (t : Thread) (height : Z).

(** Snapshot and checkpoint failures are logged; subscriber channels are closed. *)
Definition PostStop (now : Z) (a : ThreadActor) : M Store ThreadActor :=
  do! (match Snapshot_ with Some snap => log_err (snap (a_backend a)) | None => ret tt end) in
  do! log_err (on_consensus (SaveCheckpoint (t_Id (a_thread a))
                 (ConsensusStore.mkCheckpoint (a_committedHeight a) now))) in
  ret (stopped a).

Definition Receive (now : Z) (msg : message) (a : ThreadActor) : M Store (ThreadActor * reply) :=
  match msg with
  | TickMsg =>
      if now - a_lastActivity a >=? a_passivateAfter a then
        let! a := PostStop now a in ret (a, NoReply)
      else
        let! a := drive Tick a in
        let! a := drive Pump a in
        ret (a, NoReply)
  | ConsensusMsg m =>
      let! a := drive (StepInbound m) (touch now a) in
      let! a := drive Pump a in
      ret (a, NoReply)
  | ActivateMsg =>
      let! a := drive Pump (touch now a) in
      ret (a, NoReply)
  | ProposeVoterChangeMsg did add =>
      match BeginVoterChange with
      | None => ret (a, VoterChangeReply (Err (Errorf "thread: backend has no voter set")))
      | Some begin =>
          catch (begin did add (a_backend a)) (fun r =>
            match r with
            | Ok b => ret (with_backend b a, VoterChangeReply (Ok tt))
            | Err e => ret (a, VoterChangeReply (Err e))
            | Panic => panic
            end)
      end
  | QueryThreadMsg => ret (a, QueryThreadReply (a_thread a) (a_committedHeight a))
  end.

(** ** The supervisor and the actor manager *)

(** [pids]: the registered actors, by thread; [strays]: the actors alive in the actor
    system (the [children] of its hierarchy) that are no longer registered; [cancels]:
    the threads whose bridge has a cancel function; [suspendedRuns]: what the actor
    system's [IsRunning] answers for a suspended actor. *)
Record State : Type := mkState {
  store : Store; pids : gmap string ThreadActor; strays : gmap string ThreadActor; cancels : gset string;
  passivateAfter : Z; hasPubSub : bool; suspendedRuns : bool }.

Definition with_store (s : Store) (m : State) : State :=
  mkState s (pids m) (strays m) (cancels m) (passivateAfter m) (hasPubSub m) (suspendedRuns m).
Definition with_pids (p : gmap string ThreadActor) (m : State) : State :=
  mkState (store m) p (strays m) (cancels m) (passivateAfter m) (hasPubSub m) (suspendedRuns m).
Definition with_strays (p : gmap string ThreadActor) (m : State) : State :=
  mkState (store m) (pids m) p (cancels m) (passivateAfter m) (hasPubSub m) (suspendedRuns m).
Definition register (id : string) (a : ThreadActor) (m : State) : State :=
  mkState (store m) (<[id := a]> (pids m)) (strays m) ({[id]} ∪ cancels m) (passivateAfter m) (hasPubSub m)
    (suspendedRuns m).
Definition unregister (id : string) (m : State) : State :=
  mkState (store m) (delete id (pids m)) (strays m) (cancels m ∖ {[id]}) (passivateAfter m) (hasPubSub m)
    (suspendedRuns m).

Definition on_store {A} (m : M Store A) : M State A := zoom store with_store m.
Definition get_state : M State State := fun w => (Ok (db w), w).

(** A call of the actor system or of pubsub, which may fail. *)
Definition external : M State unit := exec (fun s => s).

Definition SetPassivationAfter (after : Z) (m : State) : State :=
  if after >? 0
  then mkState (store m) (pids m) (strays m) (cancels m) after (hasPubSub m) (suspendedRuns m) else m.

(** The hierarchy's [SpawnUnder] returns the running child of that name, if there is
    one; else PreStart runs inside the spawn of a new one.  The actor is killed again
    when its tick cannot be scheduled. *)
Definition Spawn (now : Z) (th : Thread) : M State unit :=
  let! m := get_state in
  let running := match pids m !! t_Id th with Some a => a_running a | None => false end in
  if running then ret tt else
  do! modify (unregister (t_Id th)) in
  do! (if hasPubSub m then external else ret tt) in
  do! modify (fun m => with_strays (delete (t_Id th) (strays m)) m) in
  let spawn_child := do! external in on_store (PreStart now (passivateAfter m) th) in
  let! a := match strays m !! t_Id th with
            | Some a => if a_running a then ret a else spawn_child
            | None => spawn_child
            end in
  catch external (fun r =>
    match r with
    | Ok _ => modify (register (t_Id th) a)
    | Err e => do! on_store (let! _ := PostStop now a in ret tt) in throw e
    | Panic => panic
    end).

(** Whether a running actor is registered; a stopped one is dropped. *)
Definition PID (threadID : string) : M State bool :=
  let! m := get_state in
  match pids m !! threadID with
  | None => ret false
  | Some a => if a_running a then ret true
              else do! modify (unregister threadID) in ret false
  end.

(** A kill that fails leaves the actor alive. *)
Definition Stop (now : Z) (threadID : string) : M State unit :=
  let! m := get_state in
  match pids m !! threadID with
  | None => ret tt
  | Some a =>
      do! modify (unregister threadID) in
      catch external (fun r =>
        match r with
        | Ok _ => if a_running a then on_store (let! _ := PostStop now a in ret tt) else ret tt
        | Err e => do! modify (fun m => with_strays (<[threadID := a]> (strays m)) m) in throw e
        | Panic => panic
        end)
  end.

Definition activate (now : Z) (threadID : string) : M State unit :=
  let! up := PID threadID in
  if up then ret tt else
  let! th := on_store (on_blocks (GetThread threadID)) in
  Spawn now th.

Definition CreateThread (uuid : string) (now : Z) (did sk : string) (req : option CreateThreadRequest)
    : M State Thread :=
  let! th := on_store (buildAndPersistThread uuid now did sk req) in
  do! Spawn now th in
  ret th.

(** A failed or missing lookup leaves a running actor alone. *)
Definition InviteReceived (now : Z) (did : string) (th : Thread) : M State unit :=
  catch (on_store (on_blocks (GetThread (t_Id th)))) (fun prev =>
    do! match prev with
        | Ok p => if negb (t_N p =? t_N th) then log_err (Stop now (t_Id th)) else ret tt
        | _ => ret tt
        end in
    do! on_store (on_blocks (SaveThread th)) in
    do! on_store (recordSelfMembership th did) in
    Spawn now th).

(** [rnd]: the secret drawn when the request has none. *)
Definition createThreadWithRecovery (rnd : outcome string)
    (createThread : option CreateThreadRequest -> M State Thread) (req : option CreateThreadRequest)
    : M State (Thread * ThreadRecoveryHandle) :=
  let request := default empty_request req in
  let! secret := (if slen (q_RecoverySecret request) =? 0
                  then lift (match ThreadCrypto.NewRecoveryHandle rnd "pending" with
                             | Ok h => Ok (ThreadCrypto.Secret h)
                             | Err e => Err e
                             | Panic => Panic
                             end)
                  else ret (q_RecoverySecret request)) in
  let! commitment := lift (ThreadCrypto.RecoveryCommitment secret) in
  let signed := negb (String.eqb (q_CreatorDid request) "") in
  let key := ThreadCrypto.RecoveryCommitmentMetadataKey in
  guard! negb signed || bool_decide (q_Metadata request !! key = Some commitment)
    else Errorf "signed recovery thread must commit to its recovery secret" in
  let meta := if signed then q_Metadata request else <[key := commitment]> (q_Metadata request) in
  let request := mkCreateThread (q_ReplicaDids request) (q_F request) (q_EpochMs request) meta
                   (q_ThreadId request) (q_CreatorDid request) (q_CreatorSignature request)
                   (q_CreatedAt request) secret in
  let! th := createThread (Some request) in
  do! on_store (on_keys (Keys.SaveRecoveryCapability (t_Id th) secret)) in
  ret (th, mkRecovery (t_Id th) secret 1).

Definition CreateThreadWithRecovery (rnd : outcome string) (uuid : string) (now : Z) (did sk : string)
    (req : option CreateThreadRequest) : M State (Thread * ThreadRecoveryHandle) :=
  createThreadWithRecovery rnd (CreateThread uuid now did sk) req.

(** Delivering a message to the mailbox may fail; the actor processes it later. *)
Definition AppendEntry (now : Z) (threadID : string) (entry : ThreadEntry) : M State unit :=
  do! on_store (on_blocks (EnqueueEntry now threadID entry)) in
  do! activate now threadID in
  external.

(** *** Supervision *)

(** The crash budget [NewThreadSupervisor] configures; times in milliseconds. *)
Definition threadSupervisorMaxRetries : nat := 3.
Definition threadSupervisorWindow : Z := 60000.

Definition recent (now : Z) (crashes : list Z) : nat :=
  length (List.filter (fun t => now - t <? threadSupervisorWindow) crashes).
Definition within_budget (now : Z) (crashes : list Z) : bool :=
  (recent now crashes <? threadSupervisorMaxRetries)%nat.

(** The actor of a thread's name: the registered one, or a stray. *)
Definition resident (id : string) (m : State) : option ThreadActor :=
  match pids m !! id with Some a => Some a | None => strays m !! id end.
Definition put (id : string) (a : ThreadActor) (m : State) : State :=
  match pids m !! id with
  | Some _ => with_pids (<[id := a]> (pids m)) m
  | None => with_strays (<[id := a]> (strays m)) m
  end.
Definition remove (id : string) (m : State) : State :=
  unregister id (with_strays (delete id (strays m)) m).

(** The restart of an actor whose Receive panicked: it is stopped, and its onStop hook
    takes it from the supervisor's tables, then it is started again; one whose start
    fails stays stopped. *)
Definition restart (now : Z) (id : string) (a : ThreadActor) : M State unit :=
  do! on_store (let! _ := PostStop now a in ret tt) in
  do! modify (remove id) in
  catch (on_store (PreStart now (a_passivateAfter a) (a_thread a))) (fun r =>
    match r with
    | Ok a' => modify (fun m => with_strays (<[id := crashed now true false a a']> (strays m)) m)
    | Err _ => ret tt
    | Panic => panic
    end).

(** Out of budget the actor is suspended, where it is registered. *)
Definition supervise (now : Z) (id : string) (a : ThreadActor) : M State unit :=
  if within_budget now (a_crashes a) then restart now id a
  else modify (fun m => put id (crashed now (suspendedRuns m) true a a) m).

(** Code that handles a panic. *)
Definition on_panic {S A} (m k : M S A) : M S A := fun w =>
  match m w with (Panic, w1) => k w1 | r => r end.

(** One message of an actor's mailbox.  An actor that stopped itself is unregistered by
    its onStop hook; one that panicked is supervised, and the message is lost. *)
Definition deliver_msg (now : Z) (threadID : string) (msg : message) : M State reply :=
  let! m := get_state in
  match resident threadID m with
  | None => throw (Errorf "actor not found")
  | Some a =>
      if negb (a_running a) || a_suspended a then throw (Errorf "actor is not running") else
      on_panic
        (let! r := on_store (Receive now msg a) in
         do! modify (if a_running (fst r) then put threadID (fst r) else remove threadID) in
         ret (snd r))
        (do! supervise now threadID a in throw (Errorf "request timed out"))
  end.

(** Asking the actor may time out.  [during]: what happens to the manager while the
    call waits for the change; [done]: the result of its commit, or of the context. *)
Definition ProposeVoterChange (now : Z) (during : State -> State) (done : outcome unit)
    (threadID did : string) (add : bool) : M State unit :=
  do! activate now threadID in
  do! external in
  let! r := deliver_msg now threadID (ProposeVoterChangeMsg did add) in
  match r with
  | VoterChangeReply (Ok _) => do! modify during in lift done
  | VoterChangeReply (Err e) => throw e
  | _ => throw (Errorf "invalid voter change response")
  end.

(** [Engine(threadID).Subscribe()]: a subscription activates the thread. *)
Definition EngineSubscribe (now : Z) (id : nat) (threadID : string) : M State unit :=
  do! activate now threadID in
  modify (fun m => with_pids (alter (fun a => with_subscribers (Subscribe id (a_subscribers a)) a)
                                threadID (pids m)) m).

End Actors.

End Manager.
End Manager.

(** ** The manager of engines ([manager.go]) *)

Module Engines.
Import Manager.
Section Engines.
Context `{Crypto} `{Codec}.

Record Engine : Type := mkEngine { eng_thread : Thread; eng_kind : BackendKind; eng_subscribers : list chan }.

Record State : Type := mkEngines { estore : Store; engines : gmap string Engine }.

Definition with_estore (s : Store) (m : State) : State := mkEngines s (engines m).
Definition on_estore {A} (m : M Store A) : M State A := zoom estore with_estore m.

(** [new_backend]: the constructor of the backend; the last statement is the
    gossip bridge. *)
Definition Start (new_backend : BackendKind -> Thread -> M Store unit) (th : Thread) : M State unit := fun w =>
  match engines (db w) !! t_Id th with
  | Some _ => (Ok tt, w)
  | None =>
      let backend := default "" (Metadata th !! "backend") in
      let kind := if String.eqb backend "" then BackendRaft else BackendKindOf backend in
      let kind := match kind with BackendRaft => BackendRaft | _ => BackendTendermint end in
      (do! on_estore (new_backend kind th) in
       exec (fun m => mkEngines (estore m) (<[t_Id th := mkEngine th kind []]> (engines m)))) w
  end.

Definition Stop (threadID : string) (m : State) : State := mkEngines (estore m) (delete threadID (engines m)).

Definition CreateThread new_backend (uuid : string) (now : Z) (did sk : string)
    (req : option CreateThreadRequest) : M State Thread :=
  let! th := on_estore (buildAndPersistThread uuid now did sk req) in
  do! Start new_backend th in
  ret th.

Definition StartAll new_backend : M State unit :=
  let! threads := on_estore (on_blocks ListThreads) in
  for_each threads (fun t => log_err (Start new_backend t)).

Definition InviteReceived new_backend (did : string) (th : Thread) : M State unit :=
  do! on_estore (on_blocks (SaveThread th)) in
  do! on_estore (recordSelfMembership th did) in
  Start new_backend th.

Definition AppendEntry (now : Z) (threadID : string) (entry : ThreadEntry) : M State unit :=
  on_estore (on_blocks (EnqueueEntry now threadID entry)).

Definition handleCommit (block : ThreadBlock) (e : Engine) : Engine :=
  mkEngine (eng_thread e) (eng_kind e) (fan_out block (eng_subscribers e)).

End Engines.
End Engines.
