(* ===== verification/ManagerFacts.v ===== *)
(** * Properties of the thread managers

    Which creation requests are accepted and what the thread then looks like, the
    descriptor and membership a creation leaves behind, recovery commitments, the
    fan-out to subscribers, the durability of appended entries and the state of the
    supervisor through failures and panics.  Also: negative and overflowing failure
    bounds are accepted, a Tendermint thread may have more validators than its quorum
    can bind, an invite demotes the replica that receives it, and an actor restarted
    after a panic is detached from the supervisor and from promotions. *)

From stdpp Require Import base gmap strings list.
From Stdlib Require Import ZArith Lia Ascii.
From S2P Require Import Prelude GoStd Identity ThreadStore ConsensusStore Membership Chain Instances ChainFacts Tendermint ThreadCrypto Manager.

Local Open Scope string_scope.
Local Open Scope Z_scope.

Import Identity ThreadStore Membership Chain Manager.

(** ** Sizes *)

(** The replica set of the thread: the request's, with the creator. *)
Definition with_creator (did : string) (l : list string) : list string :=
  if existsb (fun d => String.eqb d did) l then l else did :: l.

Definition request_kind (req : CreateThreadRequest) : BackendKind :=
  BackendKindOf (default "raft" (q_Metadata req !! "backend")).

Definition voters_needed (k : BackendKind) (f : Z) : Z := if is_tendermint k then 3 * f + 1 else 2 * f + 1.

Lemma with_creator_in did l : did ∈ with_creator did l.
Proof.
  unfold with_creator. destruct (existsb _ l) eqn:E; [|by left].
  apply existsb_exists in E as (d & Hd & E). apply String.eqb_eq in E as ->. by apply list_elem_of_In.
Qed.

(** The thread a request asks for. *)
Definition thread_of (uuid : string) (now : Z) (did : string) (req : CreateThreadRequest) (rid : string) (at_ n : Z)
    : Thread :=
  mkThread (if String.eqb rid "" then uuid else rid) did (with_creator did (q_ReplicaDids req)) n (q_F req)
    (if q_EpochMs req =? 0 then defaultEpochMs else q_EpochMs req) (if at_ =? 0 then now else at_)
    (match q_Metadata req !! "backend" with
     | Some _ => q_Metadata req | None => <["backend" := "raft"]> (q_Metadata req) end).

Lemma request_backend (req : CreateThreadRequest) :
  BackendKindOf (default "" ((match q_Metadata req !! "backend" with
    | Some _ => q_Metadata req | None => <["backend" := "raft"]> (q_Metadata req) end) !! "backend"))
  = request_kind req.
Proof.
  unfold request_kind. destruct (q_Metadata req !! "backend") as [b|] eqn:E; [by rewrite E|].
  by rewrite lookup_insert_eq.
Qed.

(** The wrapped size Go computes. *)
Definition wrapped_size (k : BackendKind) (f : Z) : Z :=
  if f =? 0 then 1 else
  if is_tendermint k then int32 (int32 (3 * f) + 1) else int32 (int32 (2 * f) + 1).

Lemma newThread_eq uuid now did req rid at_ :
  newThreadFromRequest uuid now did (Some req) rid at_ =
  let n := wrapped_size (request_kind req) (q_F req) in
  if int32 (llen (with_creator did (q_ReplicaDids req))) <? n then Err (Errorf "backend needs more replicas")
  else Ok (thread_of uuid now did req rid at_ n).
Proof. unfold newThreadFromRequest. cbv zeta. rewrite request_backend. reflexivity. Qed.

Lemma wrapped_size_small k f : -715827882 <= f <= 715827882 -> wrapped_size k f = voters_needed k f.
Proof.
  intros Hf. unfold wrapped_size, voters_needed. destruct (Z.eqb_spec f 0) as [->|]; [by destruct k|].
  destruct (is_tendermint k); [rewrite (int32_small (3 * f)) by lia|rewrite (int32_small (2 * f)) by lia];
    rewrite int32_small; lia.
Qed.

Lemma maxTolerable_spec k f n :
  1 <= n -> 0 <= f -> (f <= maxTolerableFailures k n <-> voters_needed k f <= n).
Proof.
  intros Hn Hf. unfold maxTolerableFailures, voters_needed. destruct (n <? 1) eqn:E; [lia|].
  destruct (is_tendermint k); Z.to_euclidean_division_equations; lia.
Qed.

Lemma with_creator_len did l : 1 <= llen (with_creator did l).
Proof.
  pose proof (with_creator_in did l) as H. destruct (with_creator did l); [by apply elem_of_nil in H|].
  unfold llen. simpl. lia.
Qed.

(** C27: A thread creation request is accepted exactly when the bound on failures is
    one the replica set supports: for f between 0 and 715827882 and fewer than 2^31
    replicas (the creator included), creation succeeds iff f is at most
    maxTolerableFailures, and the thread then has its creator among the replicas,
    N = 3f+1 (Tendermint) or 2f+1 (otherwise) voters, no more than there are
    replicas, a backend, a non-zero epoch, and the id and date it was given. *)
Theorem thread_request_wf uuid now did req rid at_ :
  let replicas := with_creator did (q_ReplicaDids req) in
  0 <= q_F req <= 715827882 -> llen replicas < 2 ^ 31 ->
  is_ok (newThreadFromRequest uuid now did (Some req) rid at_) =
    (q_F req <=? maxTolerableFailures (request_kind req) (llen replicas)) /\
  (forall th, newThreadFromRequest uuid now did (Some req) rid at_ = Ok th ->
     CreatorDid th = did /\ did ∈ ReplicaDids th /\ t_F th = q_F req /\
     t_N th = voters_needed (request_kind req) (q_F req) /\ 1 <= t_N th <= llen (ReplicaDids th) /\
     BackendKindOf (default "" (Metadata th !! "backend")) = request_kind req /\ EpochMs th <> 0 /\
     (rid <> "" -> t_Id th = rid) /\ (at_ <> 0 -> CreatedAt th = at_)).
Proof.
  intros replicas Hf Hlen. rewrite newThread_eq. fold replicas. cbv zeta.
  pose proof (with_creator_len did (q_ReplicaDids req)) as H1. fold replicas in H1.
  rewrite wrapped_size_small, int32_small by lia.
  pose proof (maxTolerable_spec (request_kind req) (q_F req) (llen replicas) H1) as Hmax.
  destruct (llen replicas <? voters_needed (request_kind req) (q_F req)) eqn:E.
  { split; [|done]. symmetry. apply Z.leb_gt. simpl. destruct Hmax as [Hmax _]; [lia|]. lia. }
  split; [symmetry; apply Z.leb_le, Hmax; lia|]. intros th [= <-]. simpl.
  assert (1 <= voters_needed (request_kind req) (q_F req)).
  { unfold voters_needed. destruct (is_tendermint _); lia. }
  repeat split; try done.
  - apply with_creator_in.
  - fold replicas. lia.
  - apply request_backend.
  - destruct (Z.eqb_spec (q_EpochMs req) 0); [done|done].
  - intros Hr. by rewrite (proj2 (String.eqb_neq rid "") Hr).
  - intros Ha. by rewrite (proj2 (Z.eqb_neq at_ 0) Ha).
Qed.

Definition toy_request : CreateThreadRequest :=
  mkCreateThread ["did:a"; "did:b"; "did:c"] 1 0 ∅ "" "" "" 0 "".

Lemma thread_request_wf_witness :
  is_ok (newThreadFromRequest "uuid" 7 "did:a" (Some toy_request) "" 0) = true /\
  (forall th, newThreadFromRequest "uuid" 7 "did:a" (Some toy_request) "" 0 = Ok th ->
     CreatorDid th = "did:a" /\ "did:a" ∈ ReplicaDids th /\ t_F th = 1 /\
     t_N th = 3 /\ 1 <= t_N th <= llen (ReplicaDids th) /\
     BackendKindOf (default "" (Metadata th !! "backend")) = BackendRaft /\ EpochMs th <> 0 /\
     ("" <> "" -> t_Id th = "") /\ (0 <> 0 -> CreatedAt th = 0)).
Proof.
  apply (thread_request_wf "uuid" 7 "did:a" toy_request "" 0); vm_compute; split; congruence.
Defined.

(** Failure bounds that make no sense are accepted.  A negative f (down to
    -715827882) passes for every replica set: the thread has a negative number of
    voters, and for Tendermint a negative quorum, which no votes at all already
    reach.  So does f = 1431655765 with a single replica, because 3f+1 wraps to 0. *)
Theorem thread_request_unsound uuid now did req rid at_ :
  llen (with_creator did (q_ReplicaDids req)) < 2 ^ 31 ->
  (-715827882 <= q_F req < 0 ->
   exists th, newThreadFromRequest uuid now did (Some req) rid at_ = Ok th /\ t_N th < 0 /\
     Tendermint.quorum th < 0) /\
  (q_F req = 1431655765 -> request_kind req = BackendTendermint ->
   exists th, newThreadFromRequest uuid now did (Some req) rid at_ = Ok th /\ t_N th = 0 /\
     Tendermint.quorum th > 2 ^ 31).
Proof.
  intros Hlen. rewrite newThread_eq. cbv zeta.
  pose proof (with_creator_len did (q_ReplicaDids req)) as H1. rewrite (int32_small (llen _)) by lia.
  split.
  - intros Hf. rewrite wrapped_size_small by lia. assert (voters_needed (request_kind req) (q_F req) < 0).
    { unfold voters_needed. destruct (is_tendermint _); lia. }
    destruct (_ <? _) eqn:E; [lia|]. eexists. split; [done|]. split; [done|]. unfold Tendermint.quorum. simpl. lia.
  - intros Hf Hk. rewrite Hf, Hk. change (wrapped_size BackendTendermint 1431655765) with 0.
    destruct (_ <? 0) eqn:E; [lia|]. eexists. split; [done|]. split; [done|].
    unfold Tendermint.quorum. simpl. rewrite Hf. lia.
Qed.

Lemma thread_request_unsound_witness :
  let req := mkCreateThread [] (-1) 0 {["backend" := "tendermint"]} "" "" "" 0 "" in
  exists th, newThreadFromRequest "uuid" 7 "did:a" (Some req) "" 0 = Ok th /\ t_N th < 0 /\
    Tendermint.quorum th < 0.
Proof.
  intros req. apply (thread_request_unsound "uuid" 7 "did:a" req "" 0); [vm_compute; congruence|].
  vm_compute. split; congruence.
Defined.

(** A Tendermint thread may be created with more validators than its quorum
    binds.  Validators are all the replicas, but the quorum stays 2f+1: with
    4f+2 or more replicas, which creation accepts for every f from 1, two disjoint
    sets of known validators each form a quorum, so that two conflicting blocks can
    be certified without a single faulty validator voting twice. *)
Theorem tendermint_oversized_quorums uuid now did req rid at_ :
  request_kind req = BackendTendermint -> 1 <= q_F req <= 715827882 ->
  let replicas := with_creator did (q_ReplicaDids req) in
  4 * q_F req + 2 <= llen replicas < 2 ^ 31 -> NoDup replicas ->
  exists th q1 q2, newThreadFromRequest uuid now did (Some req) rid at_ = Ok th /\
    NoDup (q1 ++ q2)%list /\ llen q1 = Tendermint.quorum th /\ llen q2 = Tendermint.quorum th /\
    Forall (fun d => Tendermint.isKnownValidator th d = true) (q1 ++ q2)%list.
Proof.
  intros Hk Hf replicas Hlen Hnd. rewrite newThread_eq. fold replicas. cbv zeta.
  rewrite Hk, wrapped_size_small, int32_small by lia. unfold voters_needed. simpl is_tendermint. cbv iota.
  destruct (_ <? _) eqn:E; [lia|]. set (k := Z.to_nat (2 * q_F req + 1)).
  exists (thread_of uuid now did req rid at_ (3 * q_F req + 1)), (take k replicas), (take k (drop k replicas)).
  unfold llen in Hlen. assert (Hk2 : (k + k <= length replicas)%nat) by (unfold k; lia).
  rewrite (take_take_drop replicas k k).
  split; [done|]. split; [apply (sublist_NoDup _ replicas); [done|apply sublist_take]|].
  unfold llen, Tendermint.quorum. rewrite !length_take, length_drop.
  split; [simpl; unfold k in *; lia|]. split; [simpl; unfold k in *; lia|].
  apply Forall_forall. intros d Hd. unfold Tendermint.isKnownValidator. apply existsb_exists. exists d.
  split; [|apply String.eqb_refl]. apply list_elem_of_In. fold replicas. simpl.
  apply elem_of_take in Hd as (i & Hi & _). by eapply list_elem_of_lookup_2.
Qed.

Definition toy_big : CreateThreadRequest :=
  mkCreateThread ["did:a"; "did:b"; "did:c"; "did:d"; "did:e"; "did:f"] 1 0 {["backend" := "tendermint"]} "" "" "" 0 "".

Lemma tendermint_oversized_quorums_witness :
  exists th q1 q2, newThreadFromRequest "uuid" 7 "did:a" (Some toy_big) "" 0 = Ok th /\
    NoDup (q1 ++ q2)%list /\ llen q1 = Tendermint.quorum th /\ llen q2 = Tendermint.quorum th /\
    Forall (fun d => Tendermint.isKnownValidator th d = true) (q1 ++ q2)%list.
Proof.
  apply (tendermint_oversized_quorums "uuid" 7 "did:a" toy_big "" 0);
    [reflexivity|vm_compute; split; congruence|vm_compute; split; congruence|].
  apply (bool_decide_unpack _). vm_compute. exact I.
Defined.

(** ** Creation *)

Lemma lift_ok {S A} (r : outcome A) (w : world S) a w' : lift r w = (Ok a, w') -> r = Ok a /\ w' = w.
Proof. destruct r; simpl; [intros [= -> <-]; done|done|done]. Qed.

Lemma SaveMember_ok T m w w' :
  SaveMember T (Some m) w = (Ok tt, w') ->
  members (db w') = <[(T, Did m) := (MRole m, JoinedEpoch m)]> (members (db w)).
Proof.
  unfold SaveMember. destruct (_ || _); [done|]. intros (w1 & w2 & E1 & E & E2)%tx_ok.
  apply bind_ok in E as ([] & w3 & Ha%exec_ok & Hb%exec_ok). rewrite E2, Hb, Ha, <- E1. done.
Qed.

Section Create.
Context `{CryptoLaws} `{Codec}.

Lemma newThread_fields uuid now did req rid at_ th :
  newThreadFromRequest uuid now did (Some req) rid at_ = Ok th ->
  CreatorDid th = did /\ did ∈ ReplicaDids th /\
  t_Id th = (if String.eqb rid "" then uuid else rid) /\
  (forall k, k <> "backend" -> Metadata th !! k = q_Metadata req !! k).
Proof.
  rewrite newThread_eq. cbv zeta. destruct (_ <? _); [done|]. intros [= <-]. simpl.
  split; [done|]. split; [apply with_creator_in|]. split; [done|]. intros k Hk.
  destruct (q_Metadata req !! "backend"); [done|]. by rewrite lookup_insert_ne.
Qed.

(** What the descriptor step of a creation yields. *)
Lemma descriptor_built uuid now sk (req : CreateThreadRequest) (th : Thread) (w w' : world Store) :
  let did := DIDFromPubBytes (ed25519_public sk) in
  let signed := negb (String.eqb (q_CreatorDid req) "") in
  slen (ed25519_public sk) = 32 -> uuid <> "" ->
  bind (lift (if signed then NewThreadFromSignedRequest uuid now (Some req) else NewThreadFromRequest uuid now did (Some req)))
    (fun thread => if signed then ret thread else lift (SignDescriptor thread did sk)) w = (Ok th, w') ->
  w' = w /\ VerifyDescriptor (Some th) = Ok tt /\ t_Id th <> "" /\
  CreatorDid th = (if signed then q_CreatorDid req else did) /\ CreatorDid th ∈ ReplicaDids th /\
  (forall k, k <> "backend" -> k <> descriptorSignatureKey -> Metadata th !! k = q_Metadata req !! k).
Proof.
  intros did signed Hpk Huuid E. apply bind_ok in E as (t0 & w1 & [E1 ->]%lift_ok & E). destruct signed.
  - injection E as <- <-. unfold NewThreadFromSignedRequest in E1.
    destruct (_ || _ || _ || _) eqn:Hg; [done|].
    destruct (newThreadFromRequest _ _ _ _ _ _) as [t| |] eqn:Hn; [|done..].
    destruct (VerifyDescriptor _) as [[]| |] eqn:Hv; [|done..]. injection E1 as <-.
    apply newThread_fields in Hn as (Hc & Hr & Hid & Hm). simpl.
    apply orb_false_iff in Hg as [[[Hg _]%orb_false_iff _]%orb_false_iff _].
    split; [done|]. split; [done|]. split; [rewrite Hid, Hg; by apply String.eqb_neq|].
    split; [done|]. split; [by rewrite Hc|]. intros k Hk Hk'. rewrite lookup_insert_ne by done. by apply Hm.
  - apply lift_ok in E as [Es ->]. apply newThread_fields in E1 as (Hc & Hr & Hid & Hm). simpl in Hid.
    apply SignDescriptor_verifies in Es as (_ & -> & Hv & _); [|done|by rewrite Hid].
    split; [done|]. split; [done|]. simpl. split; [by rewrite Hid|]. split; [done|].
    split; [by rewrite Hc|]. intros k Hk Hk'. rewrite lookup_insert_ne by done. by apply Hm.
Qed.

(** The outcome of a successful creation in the store. *)
Lemma buildAndPersist_ok uuid now sk req th w w' :
  let did := DIDFromPubBytes (ed25519_public sk) in
  slen (ed25519_public sk) = 32 -> uuid <> "" ->
  buildAndPersistThread uuid now did sk (Some req) w = (Ok th, w') ->
  VerifyDescriptor (Some th) = Ok tt /\ t_Id th <> "" /\ CreatorDid th ∈ ReplicaDids th /\
  CreatorDid th = (if negb (String.eqb (q_CreatorDid req) "") then q_CreatorDid req else did) /\
  threads (s_blocks (db w')) = <[t_Id th := th]> (threads (s_blocks (db w))) /\
  members (s_members (db w')) = <[(t_Id th, CreatorDid th) := (ADMIN, 1)]> (members (s_members (db w))) /\
  s_keys (db w') = s_keys (db w) /\
  (forall k, k <> "backend" -> k <> descriptorSignatureKey -> Metadata th !! k = q_Metadata req !! k).
Proof.
  intros did Hpk Huuid E. unfold buildAndPersistThread in E. cbv zeta in E. fold did in E.
  apply bind_ok in E as (t0 & w0 & E0 & E). apply bind_ok in E as (t1 & w1 & E1 & E).
  assert (E01 : bind (lift (if negb (String.eqb (q_CreatorDid req) "")
      then NewThreadFromSignedRequest uuid now (Some req) else NewThreadFromRequest uuid now did (Some req)))
    (fun thread => if negb (String.eqb (q_CreatorDid req) "") then ret thread
                   else lift (SignDescriptor thread did sk)) w = (Ok t1, w1)).
  { unfold bind. rewrite E0. exact E1. }
  apply descriptor_built in E01 as (-> & Hv & Hid & Hc & Hr & Hm); [|done..].
  apply bind_ok in E as ([] & w2 & E2 & E). apply bind_ok in E as ([] & w3 & E3 & E). injection E as <- <-.
  apply zoom_ok in E2 as (w2' & E2 & Hd2 & _). apply exec_ok in E2.
  apply zoom_ok in E3 as (w3' & E3 & Hd3 & _). apply SaveMember_ok in E3. simpl in E3.
  split; [done|]. split; [done|]. split; [done|]. split; [done|].
  rewrite Hd3, Hd2. simpl. rewrite Hd2 in E3. simpl in E3. rewrite E2. done.
Qed.
End Create.

(** ** Actors *)

(** What building a backend, taking its snapshot and driving it leave alone.  A
    backend owns the consensus tables and the claims on pending entries; driving it
    may commit blocks, but files threads under their own ids. *)
Definition store_view (s : Store) : gmap string Thread * list pending_row * MemberDB * Keys.KeysDB :=
  (threads (s_blocks s), pending (s_blocks s), s_members s, s_keys s).

Definition filed (s : Store) : Prop := forall id t, threads (s_blocks s) !! id = Some t -> t_Id t = id.

Class ActorBackendLaws `{ActorBackend} : Prop := {
  new_backend_view v k th : preserves (fun s => store_view s = v) (new_backend k th);
  snapshot_view v snap b : Snapshot_ = Some snap -> preserves (fun s => store_view s = v) (snap b);
  Tick_filed b : preserves filed (Tick b);
  StepInbound_filed m b : preserves filed (StepInbound m b);
  Pump_filed b : preserves filed (Pump b);
  BeginVoterChange_filed begin did add b :
    BeginVoterChange = Some begin -> preserves filed (begin did add b) }.

Section Actors.
Context `{Crypto} `{Codec} `{ActorBackendLaws}.

Lemma PostStop_view v now a : preserves (fun s => store_view s = v) (PostStop now a).
Proof.
  unfold PostStop. apply preserves_bind; [|intros _; apply preserves_bind; [|intros; apply preserves_ret]].
  - destruct Snapshot_ as [snap|] eqn:E; [|apply preserves_ret]. apply preserves_log_err.
    by apply snapshot_view.
  - apply preserves_log_err, preserves_zoom; [|done]. intros s Hs. by apply preserves_exec.
Qed.

Lemma on_blocks_query_view {A} v (f : BlocksDB -> outcome A) :
  preserves (fun s => store_view s = v) (on_blocks (query f)).
Proof. apply preserves_zoom; [|done]. intros s Hs. by apply preserves_stmt. Qed.

Lemma PreStart_view v now after th : preserves (fun s => store_view s = v) (PreStart now after th).
Proof.
  unfold PreStart. apply preserves_catch; [apply on_blocks_query_view|]. intros r.
  apply preserves_bind; [apply new_backend_view|]. intros b.
  apply preserves_bind; [apply on_blocks_query_view|]. intros h. apply preserves_ret.
Qed.

(** Registering and unregistering actors does not touch the store. *)
Lemma Spawn_view v now th : preserves (fun m => store_view (store m) = v) (Spawn now th).
Proof.
  unfold Spawn. apply preserves_bind; [by intros w|]. intros m.
  apply preserves_if; [apply preserves_ret|].
  apply preserves_bind; [by apply preserves_modify|intros _].
  apply preserves_bind; [destruct (hasPubSub m); [by apply preserves_exec|apply preserves_ret]|intros _].
  apply preserves_bind; [by apply preserves_modify|intros _]. cbv zeta.
  assert (Hnew : preserves (fun m' => store_view (store m') = v)
    (bind external (fun _ => on_store (PreStart now (passivateAfter m) th)))).
  { apply preserves_bind; [by apply preserves_exec|intros _].
    apply preserves_zoom; [|done]; intros; apply PreStart_view. }
  apply preserves_bind.
  { destruct (strays m !! t_Id th) as [a|]; [|done]. destruct (a_running a); [apply preserves_ret|done]. }
  intros a.
  apply preserves_catch; [by apply preserves_exec|]. intros [[]|e|].
  - by apply preserves_modify.
  - apply preserves_bind; [|intros; apply preserves_throw]. apply preserves_zoom; [|done]. intros m' Hm.
    apply preserves_bind; [apply PostStop_view|intros; apply preserves_ret].
  - apply preserves_panic.
Qed.

Lemma activate_view v now T : preserves (fun m => store_view (store m) = v) (activate now T).
Proof.
  unfold activate. apply preserves_bind.
  - unfold PID. apply preserves_bind; [by intros w|]. intros m. destruct (pids m !! T) as [a|]; [|apply preserves_ret].
    destruct (a_running a); [apply preserves_ret|]. apply preserves_bind; [by apply preserves_modify|].
    intros; apply preserves_ret.
  - intros up. destruct up; [apply preserves_ret|]. apply preserves_bind.
    + apply preserves_zoom; [|done]. intros. apply on_blocks_query_view.
    + intros th. apply Spawn_view.
Qed.

Lemma PreStart_running now after th w a w' : PreStart now after th w = (Ok a, w') -> a_running a = true.
Proof.
  unfold PreStart, catch. destruct (on_blocks _ w) as [r w1]. destruct r; [| |discriminate];
    intros (b & w2 & _ & E)%bind_ok; apply bind_ok in E as (h & w3 & _ & E); by injection E as <- _.
Qed.

(** A thread the supervisor reports as spawned has a running actor. *)
Lemma Spawn_running now th w w' :
  Spawn now th w = (Ok tt, w') ->
  exists a, pids (db w') !! t_Id th = Some a /\ a_running a = true.
Proof.
  unfold Spawn. intros (m & w1 & [= <- <-] & E)%bind_ok.
  destruct (match pids (db w) !! t_Id th with Some a => a_running a | None => false end) eqn:Hr.
  { destruct (pids (db w) !! t_Id th) as [a|] eqn:Ha; [|done]. injection E as <-. by exists a. }
  apply bind_ok in E as ([] & w1 & _ & E). apply bind_ok in E as ([] & w2 & _ & E).
  apply bind_ok in E as ([] & w3 & _ & E). apply bind_ok in E as (b & w4 & Eb & E).
  assert (Hb : a_running b = true).
  { assert (Hnew : forall w5 w6, bind external (fun _ => on_store (PreStart now (passivateAfter (db w)) th)) w5 = (Ok b, w6) ->
      a_running b = true).
    { intros w5 w6 ([] & w7 & _ & E1)%bind_ok. apply zoom_ok in E1 as (w8 & E1 & _). by eapply PreStart_running. }
    destruct (strays (db w) !! t_Id th) as [a|]; [|by eapply Hnew].
    destruct (a_running a) eqn:Ha; [|by eapply Hnew]. by injection Eb as <- _. }
  unfold catch in E. destruct (external w4) as [[[]|e|] w5]; [|exfalso|done].
  - injection E as <-. simpl. exists b. by rewrite lookup_insert_eq.
  - apply bind_ok in E as ([] & w6 & _ & E). discriminate E.
Qed.
End Actors.

(** Creating a thread: whenever CreateThread reports success, under any other
    failures, the thread stored under its id has a descriptor signature that
    VerifyDescriptor accepts (the daemon's own, or the agent's it was sent with), its
    creator is a replica and recorded as admin, no other thread or membership
    changed, and its actor is running. *)
Theorem thread_created `{CryptoLaws} `{Codec} `{ActorBackendLaws} uuid now sk req th w w' :
  let did := DIDFromPubBytes (ed25519_public sk) in
  slen (ed25519_public sk) = 32 -> uuid <> "" ->
  CreateThread uuid now did sk (Some req) w = (Ok th, w') ->
  VerifyDescriptor (Some th) = Ok tt /\ CreatorDid th ∈ ReplicaDids th /\
  CreatorDid th = (if String.eqb (q_CreatorDid req) "" then did else q_CreatorDid req) /\
  threads (s_blocks (store (db w'))) = <[t_Id th := th]> (threads (s_blocks (store (db w)))) /\
  members (s_members (store (db w'))) =
    <[(t_Id th, CreatorDid th) := (ADMIN, 1)]> (members (s_members (store (db w)))) /\
  exists a, pids (db w') !! t_Id th = Some a /\ a_running a = true.
Proof.
  intros did Hpk Huuid E. unfold CreateThread in E.
  apply bind_ok in E as (t & w1 & E1 & E). apply bind_ok in E as ([] & w2 & E2 & E). injection E as <- <-.
  apply zoom_ok in E1 as (w1' & E1 & Hd1 & _).
  apply buildAndPersist_ok in E1 as (Hv & Hid & Hr & Hc & Ht & Hm & _ & _); [|done..].
  assert (Hst : store (db w1) = db w1') by (by rewrite Hd1). simpl in Ht, Hm.
  assert (Hview : store_view (store (db w2)) = store_view (store (db w1))).
  { apply (preserves_use _ _ _ _ _ (Spawn_view (store_view (store (db w1))) now t) E2). done. }
  unfold store_view in Hview. injection Hview as Hvt Hvp Hvm Hvk.
  split; [done|]. split; [done|]. split; [rewrite Hc; by destruct (String.eqb _ _)|].
  rewrite Hvt, Hvm, Hst, Ht, Hm. split; [done|]. split; [done|]. by apply (Spawn_running now t w1).
Qed.

(** A backend that does nothing. *)
#[export] Instance idle_backend : ActorBackend := {|
  Backend := unit;
  new_backend _ _ := ret tt;
  Tick _ := ret (tt, []);
  StepInbound _ _ := ret (tt, []);
  Pump _ := ret (tt, []);
  BeginVoterChange := None;
  Snapshot_ := None |}.

#[export] Instance idle_backend_laws : ActorBackendLaws.
Proof. split; try done; intros; apply preserves_ret. Qed.

Definition empty_store : Store :=
  mkStore ThreadStore.empty_db Membership.empty_db (Keys.mkKeysDB ∅ ∅ ∅) (ConsensusStore.empty_cdb).
Definition empty_manager : State := mkState empty_store ∅ ∅ ∅ 1000 true false.

Definition toy_self : string := DIDFromPubBytes toy_key.
Definition toy_create : CreateThreadRequest := mkCreateThread [] 0 0 ∅ "" "" "" 0 "".
Definition toy_creation : outcome Thread * world State :=
  CreateThread "uuid" 7 toy_self toy_key (Some toy_create) (World empty_manager []).
Definition toy_created : Thread := match fst toy_creation with Ok t => t | _ => toy_thread end.

Lemma thread_created_witness :
  VerifyDescriptor (Some toy_created) = Ok tt /\ CreatorDid toy_created ∈ ReplicaDids toy_created /\
  CreatorDid toy_created = toy_self /\
  threads (s_blocks (store (db (snd toy_creation)))) = <[t_Id toy_created := toy_created]> ∅ /\
  members (s_members (store (db (snd toy_creation)))) =
    <[(t_Id toy_created, CreatorDid toy_created) := (ADMIN, 1)]> ∅ /\
  exists a, pids (db (snd toy_creation)) !! t_Id toy_created = Some a /\ a_running a = true.
Proof.
  pose proof (thread_created "uuid" 7 toy_key toy_create toy_created (World empty_manager []) (snd toy_creation)) as H.
  assert (E : CreateThread "uuid" 7 toy_self toy_key (Some toy_create) (World empty_manager []) = (Ok toy_created, snd toy_creation))
    by (vm_compute; reflexivity).
  specialize (H eq_refl ltac:(discriminate) E). clear E.
  destruct H as (H1 & H2 & H3 & H4 & H5 & H6).
  split; [exact H1|]. split; [exact H2|]. split; [exact H3|]. split; [exact H4|]. split; [exact H5|exact H6].
Defined.

(** A thread created with recovery commits to the secret of its handle: the
    handle returned names the thread, the thread's signed metadata holds the
    commitment, which MatchesRecoveryCommitment accepts for the handle's secret, and
    the store authorizes exactly that secret's digest.  A secret that is not 32 bytes
    long is refused. *)
Theorem recovery_thread_commits `{CryptoLaws} `{Codec} `{ActorBackendLaws} rnd uuid now sk req th h w w' :
  let did := DIDFromPubBytes (ed25519_public sk) in
  slen (ed25519_public sk) = 32 -> uuid <> "" ->
  CreateThreadWithRecovery rnd uuid now did sk (Some req) w = (Ok (th, h), w') ->
  slen (Sum256 (rh_RecoverySecret h)) = 32 ->
  rh_ThreadId h = t_Id th /\ slen (rh_RecoverySecret h) = 32 /\ VerifyDescriptor (Some th) = Ok tt /\
  ThreadCrypto.MatchesRecoveryCommitment (rh_RecoverySecret h)
    (default "" (Metadata th !! ThreadCrypto.RecoveryCommitmentMetadataKey)) = true /\
  Keys.capabilities (s_keys (store (db w'))) !! t_Id th = Some (Sum256 (rh_RecoverySecret h)).
Proof.
  intros did Hpk Huuid E Hsum. unfold CreateThreadWithRecovery, createThreadWithRecovery in E. simpl default in E.
  apply bind_ok in E as (secret & w1 & _ & E). apply bind_ok in E as (commitment & w2 & [Hc ->]%lift_ok & E).
  destruct (negb _ || _) eqn:Hg; [|done].
  set (request := mkCreateThread _ _ _ _ _ _ _ _ _) in E.
  apply bind_ok in E as (t & w3 & E3 & E). apply bind_ok in E as ([] & w4 & E4 & E). injection E as <- <- <-.
  unfold CreateThread in E3. apply bind_ok in E3 as (t' & w5 & E5 & E3).
  apply bind_ok in E3 as ([] & w6 & _ & E3). injection E3 as -> _.
  apply zoom_ok in E5 as (w5' & E5 & _). apply buildAndPersist_ok in E5 as (Hv & Hid & _ & _ & _ & _ & _ & Hm); [|done..].
  unfold ThreadCrypto.RecoveryCommitment in Hc. destruct (slen secret =? 32) eqn:Hs; [|done]. injection Hc as <-.
  simpl. split; [done|]. split; [lia|]. split; [done|]. split.
  - rewrite Hm by (unfold descriptorSignatureKey; discriminate).
    assert (Hq : q_Metadata request !! ThreadCrypto.RecoveryCommitmentMetadataKey = Some (hex_encode (Sum256 secret))).
    { simpl. destruct (String.eqb (q_CreatorDid req) ""); simpl in Hg |- *; [by rewrite lookup_insert_eq|].
      by apply bool_decide_eq_true in Hg. }
    rewrite Hq. simpl default. unfold ThreadCrypto.MatchesRecoveryCommitment, ThreadCrypto.RecoveryCommitment.
    rewrite Hs. simpl negb. cbv iota. simpl in Hsum. rewrite String.eqb_refl, hex_encode_len, Hsum. reflexivity.
  - apply zoom_ok in E4 as (w7 & E4 & -> & _). apply zoom_ok in E4 as (w8 & E4 & -> & _).
    unfold Keys.SaveRecoveryCapability in E4. destruct (String.eqb (t_Id t) "" || negb (slen secret =? 32)); [done|]. apply exec_ok in E4.
    simpl. rewrite E4. simpl. by rewrite lookup_insert_eq.
Qed.

Definition toy_recovery : outcome (Thread * ThreadRecoveryHandle) * world State :=
  CreateThreadWithRecovery (Ok toy_key) "uuid" 7 toy_self toy_key (Some toy_create) (World empty_manager []).
Definition toy_recovered : Thread := match fst toy_recovery with Ok (t, _) => t | _ => toy_thread end.

Lemma recovery_thread_commits_witness :
  rh_ThreadId (mkRecovery "uuid" toy_key 1) = t_Id toy_recovered /\ slen toy_key = 32 /\
  VerifyDescriptor (Some toy_recovered) = Ok tt /\
  ThreadCrypto.MatchesRecoveryCommitment toy_key
    (default "" (Metadata toy_recovered !! ThreadCrypto.RecoveryCommitmentMetadataKey)) = true /\
  Keys.capabilities (s_keys (store (db (snd toy_recovery)))) !! t_Id toy_recovered = Some (Sum256 toy_key).
Proof.
  assert (E : CreateThreadWithRecovery (Ok toy_key) "uuid" 7 toy_self toy_key (Some toy_create) (World empty_manager [])
    = (Ok (toy_recovered, mkRecovery "uuid" toy_key 1), snd toy_recovery)) by (vm_compute; reflexivity).
  exact (recovery_thread_commits (Ok toy_key) "uuid" 7 toy_key toy_create toy_recovered (mkRecovery "uuid" toy_key 1)
    (World empty_manager []) (snd toy_recovery) eq_refl ltac:(discriminate) E eq_refl).
Defined.

(** ** Entries *)

(** An appended entry is durable before anything else happens: whatever fails
    afterwards (the lookup, the actor system, the backend, the mailbox), either the
    insert itself failed and nothing changed, or the entry is queued in the store,
    where a later activation proposes it; and when AppendEntry reports success the
    thread's actor runs. *)
Theorem append_entry_durable `{Crypto} `{Codec} `{ActorBackendLaws} now T entry w r w' :
  AppendEntry now T entry w = (r, w') ->
  ((r = Err ErrIO /\ db w' = db w) \/
   exists n, mkPending n T (Some entry) now ∈ pending (s_blocks (store (db w')))) /\
  (r = Ok tt -> filed (store (db w)) -> exists a, pids (db w') !! T = Some a /\ a_running a = true).
Proof.
  unfold AppendEntry. intros E.
  destruct (on_store (on_blocks (EnqueueEntry now T entry)) w) as [r1 w1] eqn:E1.
  assert (Hq : (r1 = Err ErrIO /\ db w1 = db w) \/ (r1 = Ok tt /\
    (exists n, mkPending n T (Some entry) now ∈ pending (s_blocks (store (db w1)))) /\
    threads (s_blocks (store (db w1))) = threads (s_blocks (store (db w))))).
  { revert E1. unfold on_store, on_blocks, zoom, EnqueueEntry, exec, stmt. simpl.
    destruct (faults w) as [|[] fs]; intros [= <- <-]; simpl; [right| |right].
    - split; [done|]. split; [|done]. eexists. apply elem_of_app. right. by left.
    - left. split; [done|]. by destruct (db w) as [[] ? ? ? ? ? ?].
    - split; [done|]. split; [|done]. eexists. apply elem_of_app. right. by left. }
  unfold bind at 1 in E. rewrite E1 in E.
  destruct Hq as [[-> Hd]|(-> & [n Hn] & Hth)]; [injection E as <- <-; split; [by left|done]|].
  assert (Hrest : preserves (fun m => store_view (store m) = store_view (store (db w1)))
    (bind (activate now T) (fun _ => external))).
  { apply preserves_bind; [apply activate_view|]. intros _. by apply preserves_exec. }
  pose proof (preserves_use _ _ _ _ _ Hrest E eq_refl) as Hv. simpl in Hv.
  unfold store_view in Hv. injection Hv as Hvt Hvp _ _. split; [right; exists n; by rewrite Hvp|].
  intros -> Hf. apply bind_ok in E as ([] & w2 & E2 & E%exec_ok). rewrite E.
  unfold activate in E2. apply bind_ok in E2 as (up & w3 & E3 & E2). unfold PID in E3.
  apply bind_ok in E3 as (m & w4 & [= <- <-] & E3).
  destruct (pids (db w1) !! T) as [a|] eqn:Ha; [destruct (a_running a) eqn:Hr|].
  1: injection E3 as <- <-; injection E2 as <-; by exists a.
  1: apply bind_ok in E3 as ([] & w5 & [= <-] & E3).
  all: injection E3 as <- <-; apply bind_ok in E2 as (th & w6 & E6 & E2);
    apply zoom_ok in E6 as (w7 & E6 & _); apply zoom_ok in E6 as (w8 & E6 & _);
    apply query_ok in E6 as [E6 _]; simpl in E6; rewrite Hth in E6;
    destruct (threads (s_blocks (store (db w))) !! T) as [t|] eqn:Ht; [|done]; injection E6 as ->;
    apply Spawn_running in E2; by rewrite (Hf _ _ Ht) in E2.
Qed.

Definition toy_block : ThreadBlock := mkBlock "T" 4 1 "p" [toy_entry "x"; toy_entry "y"] "did:a" "" "h4" 9.
Definition toy_append : outcome unit * world State :=
  AppendEntry 8 "uuid" (toy_entry "x") (World (db (snd toy_creation)) [false; true]).

Lemma append_entry_durable_witness :
  (fst toy_append = Err ErrIO /\ db (snd toy_append) = db (snd toy_creation) \/
   exists n, mkPending n "uuid" (Some (toy_entry "x")) 8 ∈ pending (s_blocks (store (db (snd toy_append))))) /\
  (fst toy_append = Ok tt -> filed (store (db (snd toy_creation))) ->
   exists a, pids (db (snd toy_append)) !! "uuid" = Some a /\ a_running a = true).
Proof.
  apply (append_entry_durable 8 "uuid" (toy_entry "x") (World (db (snd toy_creation)) [false; true])).
  unfold toy_append. by destruct (AppendEntry _ _ _ _).
Defined.

(** *** Subscriptions *)

(** Offering entries one after the other. *)
Definition offer_all (l : list ThreadEntryWithPos) (c : chan) : chan :=
  mkChan (c_id c) (c_buf c ++ take (channel_capacity - length (c_buf c)) l).

Lemma offer_all_cons ep l c : offer_all l (offer ep c) = offer_all (ep :: l) c.
Proof.
  unfold offer_all, offer. destruct (decide (length (c_buf c) < channel_capacity)%nat) as [Hlt|Hge]; simpl.
  - rewrite length_app, <- app_assoc. simpl.
    replace (channel_capacity - length (c_buf c))%nat with (S (channel_capacity - (length (c_buf c) + 1))) by lia.
    done.
  - replace (channel_capacity - length (c_buf c))%nat with 0%nat by lia. done.
Qed.

Lemma offer_all_nil c : offer_all [] c = c.
Proof. unfold offer_all. rewrite take_nil, app_nil_r. by destruct c. Qed.

(** The loop of the fan-out offers what the loop of GetEntries lists. *)
Lemma fan_out_from_spec b i es subs :
  fan_out_from b i es subs =
    map (offer_all (imap (fun j e => mkPos (Height b) (int32 (Z.of_nat (i + j))) e (BlockHash b)) es)) subs.
Proof.
  revert i subs. induction es as [|e es IH]; intros i subs; simpl.
  - rewrite <- (map_id subs) at 1. apply map_ext. intros c. symmetry. apply offer_all_nil.
  - rewrite IH, map_map. apply map_ext. intros c. rewrite offer_all_cons. f_equal.
    rewrite Nat.add_0_r. f_equal. apply imap_ext. intros j x _. simpl. by rewrite Nat.add_succ_r.
Qed.

Lemma fan_out_spec b subs : fan_out b subs = map (offer_all (positions b)) subs.
Proof. apply fan_out_from_spec. Qed.

Lemma offer_all_app l1 l2 c : offer_all l2 (offer_all l1 c) = offer_all (l1 ++ l2) c.
Proof.
  revert c. induction l1 as [|ep l1 IH]; intros c; simpl; [by rewrite offer_all_nil|].
  rewrite <- !offer_all_cons. apply IH.
Qed.

Section Stream.
Context `{ActorBackend}.

Definition commit_all (bs : list ThreadBlock) (a : ThreadActor) : ThreadActor :=
  fold_left (fun a b => handleCommit b a) bs a.

Lemma commit_all_subs bs a :
  a_subscribers (commit_all bs a) = map (offer_all (entriesFromBlocks bs)) (a_subscribers a).
Proof.
  revert a. induction bs as [|b bs IH]; intros a; simpl.
  - rewrite <- (map_id (a_subscribers a)) at 1. apply map_ext. intros c. symmetry. apply offer_all_nil.
  - unfold commit_all in *. rewrite IH. simpl. rewrite fan_out_spec, map_map. apply map_ext. intros c.
    apply offer_all_app.
Qed.
End Stream.

(** C34: Streaming and polling show the same entries: after any sequence of commits
    each subscriber's channel holds what it held followed by the entries of those
    blocks, in the order and with the positions in which GetEntries lists them, cut
    off where the channel of 256 is full; a subscriber with room for all of them has
    received exactly the list, and no channel ever exceeds its capacity. *)
Theorem subscriber_stream `{ActorBackend} bs a c :
  c ∈ a_subscribers a -> (length (c_buf c) <= channel_capacity)%nat ->
  exists c', c' ∈ a_subscribers (commit_all bs a) /\ c_id c' = c_id c /\
    (length (c_buf c') <= channel_capacity)%nat /\
    (exists k, c_buf c' = (c_buf c ++ take k (entriesFromBlocks bs))%list) /\
    ((length (c_buf c) + length (entriesFromBlocks bs) <= channel_capacity)%nat ->
     c_buf c' = (c_buf c ++ entriesFromBlocks bs)%list).
Proof.
  intros Hc Hle. exists (offer_all (entriesFromBlocks bs) c).
  split; [rewrite commit_all_subs; by apply list_elem_of_fmap_2|]. split; [done|]. split; [|split].
  - unfold offer_all. simpl. rewrite length_app, length_take. lia.
  - by eexists.
  - intros Hroom. unfold offer_all. simpl. f_equal. apply take_ge. lia.
Qed.

Definition toy_actor : ThreadActor :=
  mkActor toy_thread (tt : @Backend idle_backend) [mkChan 1 []; mkChan 2 []] 3 0 1000 true [] false.

Lemma subscriber_stream_witness :
  exists c', c' ∈ a_subscribers (commit_all [toy_block] toy_actor) /\ c_id c' = 2%nat /\
    (length (c_buf c') <= channel_capacity)%nat /\
    (exists k, c_buf c' = ([] ++ take k (entriesFromBlocks [toy_block]))%list) /\
    ((0 + length (entriesFromBlocks [toy_block]) <= channel_capacity)%nat ->
     c_buf c' = ([] ++ entriesFromBlocks [toy_block])%list).
Proof.
  apply (subscriber_stream [toy_block] toy_actor (mkChan 2 [])); [right; left|unfold channel_capacity; simpl; lia].
Defined.

(** ** The supervisor *)

Section Supervisor.
Context `{CryptoLaws} `{Codec} `{ActorBackendLaws}.






































End Supervisor.

(** *** Panics *)

Section Panics.
Context `{Crypto} `{Codec} `{ActorBackend}.

Lemma on_store_tables {A} (c : M Store A) w :
  let w' := snd (on_store c w) in
  pids (db w') = pids (db w) /\ strays (db w') = strays (db w) /\ cancels (db w') = cancels (db w).
Proof. unfold on_store, zoom. by destruct (c _). Qed.

(** What a panicking message leads to. *)
Lemma deliver_panics now T msg a w :
  resident T (db w) = Some a -> a_running a = true -> a_suspended a = false ->
  fst (on_store (Receive now msg a) w) = Panic ->
  exists w1, pids (db w1) = pids (db w) /\
    deliver_msg now T msg w = bind (supervise now T a) (fun _ => throw (Errorf "request timed out")) w1.
Proof.
  intros Ha Hr Hs Hp. pose proof (on_store_tables (Receive now msg a) w) as (Ht & _ & _).
  exists (snd (on_store (Receive now msg a) w)). split; [done|]. unfold deliver_msg, bind at 1, get_state.
  rewrite Ha, Hr, Hs. cbn [negb orb]. unfold on_panic. generalize (supervise now T a). intros s.
  unfold bind at 1. destruct (on_store (Receive now msg a) w) as [r w1]. simpl in Hp. by subst r.
Qed.

(** A started actor has no subscribers. *)
Lemma PreStart_subscribers now after th w a w' : PreStart now after th w = (Ok a, w') -> a_subscribers a = [].
Proof.
  unfold PreStart, catch. intros E. destruct (on_blocks _ _) as [[t|e|] w1];
    [| |discriminate E]; apply bind_ok in E as (b & w2 & _ & E); apply bind_ok in E as (h & w3 & _ & E);
    by injection E as <- _.
Qed.

(** Stopping an actor only logs its failures. *)
Lemma PostStop_never_fails now a w e : fst (PostStop now a w) <> Err e.
Proof.
  unfold PostStop, log_err. destruct Snapshot_ as [snap|]; unfold bind, catch, ret;
    [destruct (snap _ w) as [[[]|e1|] w1]; [| |done]|]; by destruct (on_consensus _ _) as [[[]|e2|] w2].
Qed.

(** What a restart leaves of the tables. *)
Lemma restart_tables now T a w :
  let m' := db (snd (restart now T a w)) in
  fst (restart now T a w) <> Panic ->
  pids m' !! T = None /\ T ∉ cancels m' /\
  forall a', resident T m' = Some a' -> a_crashes a' = now :: a_crashes a /\ a_subscribers a' = [].
Proof.
  unfold restart. set (stop := on_store (bind (PostStop now a) (fun _ => ret tt))).
  assert (Hs : forall e, fst (stop w) <> Err e).
  { unfold stop, on_store, zoom, bind. pose proof (PostStop_never_fails now a) as Hn. intros e.
    match goal with |- context [PostStop now a ?w0] => specialize (Hn w0 e); destruct (PostStop now a w0) as [[|e'|] w1] end;
      simpl in *; congruence. }
  unfold bind. destruct (stop w) as [[[]|e|] w2]; [|by specialize (Hs e)|done]. cbn [modify]. unfold modify, catch.
  set (w3 := World _ _). pose proof (on_store_tables (PreStart now (a_passivateAfter a) (a_thread a)) w3) as (Ht1 & Ht2 & Ht3).
  destruct (on_store (PreStart _ _ _) w3) as [[a'|e|] w4] eqn:E4; [| |done]; simpl in *; intros _;
    rewrite Ht1, Ht3, lookup_delete_eq; (split; [done|]); (split; [set_solver|]); intros b; unfold resident;
    simpl; rewrite Ht1, lookup_delete_eq, Ht2; [rewrite lookup_insert_eq|by rewrite lookup_delete_eq].
  intros [= <-]. split; [done|]. simpl. apply zoom_ok in E4 as (w5 & E4 & _). by eapply PreStart_subscribers.
Qed.

(** A panic detaches an actor: within its budget the actor is started again, but its
    stop hook has taken it from the supervisor's tables and cancelled its bridge, its
    subscribers are gone, and it gets neither ticks nor gossip until the thread is
    activated again. *)
Theorem crash_detaches now T msg a w :
  resident T (db w) = Some a -> a_running a = true -> a_suspended a = false ->
  fst (on_store (Receive now msg a) w) = Panic -> within_budget now (a_crashes a) = true ->
  fst (deliver_msg now T msg w) <> Panic ->
  let m' := db (snd (deliver_msg now T msg w)) in
  pids m' !! T = None /\ T ∉ cancels m' /\
  forall a', resident T m' = Some a' -> a_crashes a' = now :: a_crashes a /\ a_subscribers a' = [].
Proof.
  intros Ha Hr Hs Hp Hb. destruct (deliver_panics now T msg a w Ha Hr Hs Hp) as (w1 & _ & ->).
  unfold supervise. rewrite Hb. unfold bind. pose proof (restart_tables now T a w1) as Hw.
  destruct (restart now T a w1) as [[[]|e|] w2]; [intros _|intros _|done]; by apply Hw.
Qed.

(** Out of its budget the actor stays registered and refuses every message. *)
Theorem crash_suspends now T msg a w :
  pids (db w) !! T = Some a -> a_running a = true -> a_suspended a = false ->
  fst (on_store (Receive now msg a) w) = Panic -> within_budget now (a_crashes a) = false ->
  let m' := db (snd (deliver_msg now T msg w)) in
  (exists a', pids m' !! T = Some a' /\ a_suspended a' = true /\ a_crashes a' = now :: a_crashes a) /\
  forall now2 msg2 fs, deliver_msg now2 T msg2 (World m' fs) = (Err (Errorf "actor is not running"), World m' fs).
Proof.
  intros Ha Hr Hs Hp Hb. assert (Ha' : resident T (db w) = Some a) by (unfold resident; by rewrite Ha).
  destruct (deliver_panics now T msg a w Ha' Hr Hs Hp) as (w1 & Ht & ->).
  unfold supervise, bind, throw, modify. rewrite Hb. unfold put. cbn [db fst snd]. rewrite Ht, Ha.
  set (a' := crashed now (suspendedRuns (db w1)) true a a). cbv zeta.
  assert (Hl : pids (with_pids (<[T := a']> (pids (db w))) (db w1)) !! T = Some a') by (simpl; by rewrite lookup_insert_eq).
  split; [by exists a'|]. intros now2 msg2 fs.
  unfold deliver_msg, bind, get_state, resident. cbn [db]. rewrite Hl. simpl. by rewrite orb_true_r.
Qed.

(** A promotion does not reach an actor that was restarted: an invite whose N changed
    stops the actor so that it is built anew, but Stop finds none registered, and the
    spawn that follows adopts the running one with the voter set it had. *)
Theorem invite_adopts_stray now did th a w w' :
  pids (db w) !! t_Id th = None -> strays (db w) !! t_Id th = Some a -> a_running a = true ->
  InviteReceived now did th w = (Ok tt, w') -> pids (db w') !! t_Id th = Some a.
Proof.
  intros Hp Hs Hr E. unfold InviteReceived, catch in E.
  set (tables := fun m : State => pids m !! t_Id th = None /\ strays m !! t_Id th = Some a).
  assert (Hon : forall A (c : M Store A), preserves tables (on_store c)).
  { intros A c w0 [H1' H2']. destruct (on_store_tables c w0) as (E1 & E2 & _). unfold tables. by rewrite E1, E2. }
  assert (Hw : tables (db w)) by done.
  pose proof (Hon _ (on_blocks (GetThread (t_Id th))) w Hw) as Hw1.
  assert (Hstop : preserves tables (log_err (Stop now (t_Id th)))).
  { intros w0 [H1' H2']. unfold log_err, catch, Stop, bind at 1, get_state. by rewrite H1'. }
  destruct (on_store (on_blocks (GetThread (t_Id th))) w) as [prev w1]. simpl in Hw1.
  assert (E' : bind (match prev with Ok p => if negb (t_N p =? t_N th) then log_err (Stop now (t_Id th)) else ret tt
      | _ => ret tt end) (fun _ => bind (on_store (on_blocks (SaveThread th))) (fun _ =>
        bind (on_store (recordSelfMembership th did)) (fun _ => Spawn now th))) w1 = (Ok tt, w'))
    by (destruct prev; [exact E|exact E|discriminate E]).
  clear E. apply bind_ok in E' as ([] & w2 & E2 & E).
  assert (Hw2 : tables (db w2)).
  { refine (preserves_use tables _ _ _ _ _ E2 Hw1). destruct prev as [p|e|]; [|apply preserves_ret..].
    destruct (negb _); [done|apply preserves_ret]. }
  apply bind_ok in E as ([] & w3 & E3 & E). apply (preserves_use _ _ _ _ _ (Hon _ _) E3) in Hw2 as Hw3.
  apply bind_ok in E as ([] & w4 & E4 & E). apply (preserves_use _ _ _ _ _ (Hon _ _) E4) in Hw3 as [Hp4 Hs4].
  unfold Spawn in E. apply bind_ok in E as (m & w5 & [= <- <-] & E). rewrite Hp4, Hs4 in E. cbv beta iota in E.
  apply bind_ok in E as ([] & w6 & _ & E). apply bind_ok in E as ([] & w7 & _ & E).
  apply bind_ok in E as ([] & w8 & _ & E). rewrite Hr in E. apply bind_ok in E as (b & w9 & [= <- <-] & E).
  unfold catch in E. destruct (external w8) as [[[]|e|] w10]; [|exfalso|done].
  - injection E as <-. simpl. by rewrite lookup_insert_eq.
  - apply bind_ok in E as ([] & w11 & _ & E). discriminate E.
Qed.
End Panics.


Section Calls.
Context `{Crypto} `{Codec} `{ActorBackend}.


End Calls.




(** ** Invites *)

Lemma MembershipEpochOf_run T m : exists e, MembershipEpochOf T (World m []) = (Ok e, World m []).
Proof.
  unfold MembershipEpochOf, catch, query, stmt, select_epoch. simpl. destruct (epochs m !! T); eauto.
Qed.

Lemma SaveMember_run T mb m :
  T <> "" -> Did mb <> "" -> MRole mb <> ROLE_UNSPECIFIED ->
  exists m', SaveMember T (Some mb) (World m []) = (Ok tt, World m' []) /\
    members m' = <[(T, Did mb) := (MRole mb, JoinedEpoch mb)]> (members m).
Proof.
  intros HT Hd Hr. unfold SaveMember. rewrite (proj2 (String.eqb_neq T "") HT), (proj2 (String.eqb_neq _ "") Hd).
  rewrite bool_decide_eq_false_2 by done. simpl. eexists. split; [reflexivity|]. done.
Qed.

(** An invite demotes the replica that receives it: recordSelfMembership writes
    an observer row whatever row was there, so that on a daemon that holds the admin
    or voter role of a thread every THREAD_INVITE for it (each wake-up of the thread
    sends one) takes the role away in its own store; the thread may be left without
    any voter. *)
Theorem invite_demotes_self `{Crypto} `{Codec} th did role epoch s :
  did ∈ ReplicaDids th -> did <> "" -> t_Id th <> "" ->
  members (s_members s) !! (t_Id th, did) = Some (role, epoch) ->
  exists s' epoch', recordSelfMembership th did (World s []) = (Ok tt, World s' []) /\
    members (s_members s') !! (t_Id th, did) = Some (OBSERVER, epoch') /\
    (forall d, d <> did -> members (s_members s') !! (t_Id th, d) = members (s_members s) !! (t_Id th, d)).
Proof.
  intros Hin Hd Hid Hm. unfold recordSelfMembership.
  rewrite (proj2 (String.eqb_neq did "") Hd).
  rewrite (proj2 (existsb_exists _ _)).
  2: { exists did. split; [by apply list_elem_of_In|apply String.eqb_refl]. }
  destruct (MembershipEpochOf_run (t_Id th) (s_members s)) as [e He].
  destruct (SaveMember_run (t_Id th) (mkMember did OBSERVER e) (s_members s)) as (m & Es & Hs); [done..|].
  unfold catch, on_members, zoom. cbn [db faults]. rewrite He. cbn [db faults].
  unfold with_s_members at 1. cbn [s_members]. rewrite Es. cbn [db faults]. eexists _, e. split; [done|].
  simpl. rewrite Hs. simpl. split; [by rewrite lookup_insert_eq|].
  intros d Hne. rewrite lookup_insert_ne; [done|congruence].
Qed.

Lemma invite_demotes_self_witness :
  let th := mkThread "T" "did:a" ["did:a"] 1 0 1000 5 ∅ in
  let s := mkStore ThreadStore.empty_db (Membership.mkDB {[("T", "did:a") := (ADMIN, 1)]} ∅ ∅)
             (Keys.mkKeysDB ∅ ∅ ∅) ConsensusStore.empty_cdb in
  exists s' epoch', recordSelfMembership th "did:a" (World s []) = (Ok tt, World s' []) /\
    members (s_members s') !! ("T", "did:a") = Some (OBSERVER, epoch') /\
    (forall d, d <> "did:a" -> members (s_members s') !! ("T", d) = members (s_members s) !! ("T", d)).
Proof.
  intros th s. apply (invite_demotes_self th "did:a" ADMIN 1 s); [by left|discriminate|discriminate|reflexivity].
Defined.
