(* ===== verification/Deliver.v ===== *)
(** * Message delivery between daemons ([daemon/deliver/deliver.go])

    The receiving handler of a stream: which messages are accepted, from whom, for
    whom, and what is done with them before they are acknowledged; the sender's choice
    of a peer; the reference counts of the per-peer executors.  libp2p authenticates
    the remote peer: its ID and key are arguments.  The handler runs on the state of
    the daemon, composed of the RPC server's components and the thread manager. *)

From stdpp Require Import base gmap strings list.
From Stdlib Require Import ZArith Lia Ascii.
From S2P Require Import Prelude GoStd Identity Session Mail ThreadStore Tasks Rpc ConsensusStore Membership Chain Records Manager.

Local Open Scope string_scope.
Local Open Scope Z_scope.
Local Open Scope go_scope.

Import Identity ThreadStore Chain.

(** [proto.Unmarshal] into a message and into a thread. *)
Class WireCodec : Type := {
  unmarshal_message : string -> option Message;
  unmarshal_thread : string -> option Thread }.

(** A peer of a connection: its ID, and the key extracted from it. *)
Record Peer : Type := mkPeer { peer_ID : string; peer_key : option string }.

Module Deliver.
Section Deliver.
Context `{Crypto} `{Codec} `{TaskCodec} `{ThreadManager} `{ActorBackend} `{WireCodec}.

(** The daemon: the components behind the RPC server, and the thread manager.  The two
    share the database of threads and blocks: the server works on the manager's, and
    its own field is not used. *)
Record Daemon : Type := mkDaemon { server : Rpc.Server; manager : Manager.State }.

Definition server_view (d : Daemon) : Rpc.Server :=
  Rpc.with_threads (s_blocks (Manager.store (manager d))) (server d).
Definition server_update (s : Rpc.Server) (d : Daemon) : Daemon :=
  mkDaemon (Rpc.with_threads (Rpc.threads (server d)) s)
    (Manager.with_store (with_s_blocks (Rpc.threads s) (Manager.store (manager d))) (manager d)).

Definition on_server {A} (m : M Rpc.Server A) : M Daemon A := zoom server_view server_update m.
Definition on_manager {A} (m : M Manager.State A) : M Daemon A :=
  zoom manager (fun s d => mkDaemon (server d) s) m.

(** The fields of a Deliverer that may be nil, and its registry's answers. *)
Record Deliverer : Type := mkDeliverer {
  d_resolve : option (string -> outcome AgentCard);
  d_hasThreads : bool;
  d_hasSessions : bool;
  d_hasHandler : bool }.

Definition senderIsSessionOnPeer (d : Deliverer) (claimedDID : string) (remotePeer : string) : outcome bool :=
  match d_resolve d with
  | None => Ok false
  | Some resolve =>
      match resolve claimedDID with
      | Ok card => Ok (String.eqb (a_NodePeerId card) remotePeer)
      | Err _ => Ok false
      | Panic => Panic
      end
  end.

(** HasSession prunes expired sessions. *)
Definition HasSession (now : Z) (did : string) : M Daemon bool :=
  on_server (Rpc.on_sessions (fun m => let '(b, m') := Session.HasSession now did m in (Ok b, m'))).

(** The invite arm: whether it is acknowledged. *)
Definition receive_invite (d : Deliverer) (now : Z) (did : string) (msg : Message) : M Daemon bool :=
  match unmarshal_thread (m_Payload msg) with
  | None => ret false
  | Some thread =>
      if negb (d_hasThreads d) then ret false else
      let member := existsb (fun x => String.eqb x (m_ToDid msg)) (ReplicaDids thread) in
      match VerifyDescriptor (Some thread) with
      | Panic => panic
      | Err _ => ret false
      | Ok _ =>
          if negb member then ret false else
          catch (on_manager (Manager.InviteReceived now did thread)) (fun r =>
            match r with Ok _ => ret true | _ => ret false end)
      end
  end.

(** The arm of all other messages: stored, then handled. *)
Definition receive_message (d : Deliverer) (now : Z) (clk : nat -> Z) (uuid : string) (msg : Message)
    : M Daemon bool :=
  catch (on_server (Rpc.on_inbox (Inbox.put now (m_ToDid msg) msg))) (fun r =>
    match r with
    | Ok _ =>
        if negb (d_hasHandler d) then ret true else
        catch (on_server (Rpc.HandleIncoming clk uuid msg)) (fun r =>
          match r with Ok _ => ret true | _ => ret false end)
    | _ => ret false
    end).

(** [data]: the frame read, if any; [did]: the daemon's identity in the thread
    manager; the result is the acknowledgement written. *)
Definition receiveHandlerRaw (d : Deliverer) (now : Z) (clk : nat -> Z) (uuid : string) (did : string)
    (remote local : Peer) (data : option string) : M Daemon bool :=
  match data with
  | None => ret false
  | Some data =>
  match unmarshal_message data with
  | None => ret false
  | Some msg =>
  match peer_key remote with
  | None => ret false
  | Some rawPub =>
      let expectedDID := DIDFromPubBytes rawPub in
      let! authentic := (if String.eqb (m_FromDid msg) expectedDID then ret true
                         else Manager.lift (senderIsSessionOnPeer d (m_FromDid msg) (peer_ID remote))) in
      if negb authentic then ret false else
      match peer_key local with
      | None => ret false
      | Some localRaw =>
          let toDaemon := String.eqb (m_ToDid msg) (DIDFromPubBytes localRaw) in
          let! toSessionAgent := (if d_hasSessions d then HasSession now (m_ToDid msg) else ret false) in
          if negb toDaemon && negb toSessionAgent then ret false else
          if bool_decide (m_Kind msg = KIND_THREAD_INVITE) then receive_invite d now did msg
          else receive_message d now clk uuid msg
      end
  end
  end
  end.

(** ** Sending *)

(** [id_of_key]: the peer ID of an Ed25519 key of 32 bytes. *)
Definition peerIDFromDID (id_of_key : string -> string) (did : string) : outcome string :=
  match PubKeyFromDID did with
  | Ok pub => if slen pub =? 32 then Ok (id_of_key pub) else Err (Errorf "expect ed25519 public key data size to be 32")
  | Err e => Err e
  | Panic => Panic
  end.

(** [connected]: whether the host has a connection to the peer; [parse_addrs]: the
    peer the multiaddrs name; [connect]: the result of dialling it; [transmit]: what
    writing the message to the peer and reading its acknowledgement gives.  The first
    component is the peer the message was written to. *)
Definition Send (id_of_key : string -> string) (d : Deliverer) (connected : string -> bool)
    (parse_addrs : list string -> option string) (connect : string -> bool)
    (transmit : string -> Message -> outcome unit) (msg : Message) : option string * outcome unit :=
  let via peer := (Some peer, transmit peer msg) in
  let by_card :=
    match d_resolve d with
    | None => (None, Err (Errorf "no registry configured"))
    | Some resolve =>
        match resolve (m_ToDid msg) with
        | Err e => (None, Err e)
        | Panic => (None, Panic)
        | Ok card =>
            if (llen (a_Multiaddrs card) =? 0) then (None, Err (Errorf "agent has no multiaddrs in card")) else
            match parse_addrs (a_Multiaddrs card) with
            | None => (None, Err (Errorf "parse multiaddrs"))
            | Some peer => if connect peer then via peer else (None, Err (Errorf "connect"))
            end
        end
    end in
  match peerIDFromDID id_of_key (m_ToDid msg) with
  | Ok pid => if connected pid then via pid else by_card
  | _ => by_card
  end.

(** ** Executors of peers *)

(** The executor of a peer: its identity and the number of users. *)
Record peerExecutor : Type := mkExec { px_id : nat; px_refs : Z }.

(** [running]: whether an executor's actor runs; [fresh]: the executor created, if it
    can be. *)
Definition executor (running : nat -> bool) (fresh : option nat) (id : string)
    (m : gmap string peerExecutor) : outcome nat * gmap string peerExecutor :=
  match m !! id with
  | Some e =>
      if running (px_id e) then (Ok (px_id e), <[id := mkExec (px_id e) (px_refs e + 1)]> m)
      else match fresh with
           | None => (Err (Errorf "spawn executor"), m)
           | Some x => (Ok x, <[id := mkExec x 1]> m)
           end
  | None => match fresh with
            | None => (Err (Errorf "spawn executor"), m)
            | Some x => (Ok x, <[id := mkExec x 1]> m)
            end
  end.

(** The executor stopped, if its last user left. *)
Definition releaseExecutor (id : string) (exec : nat) (m : gmap string peerExecutor)
    : option nat * gmap string peerExecutor :=
  match m !! id with
  | None => (None, m)
  | Some e =>
      if negb (Nat.eqb (px_id e) exec) then (None, m) else
      if px_refs e - 1 >? 0 then (None, <[id := mkExec (px_id e) (px_refs e - 1)]> m)
      else (Some exec, delete id m)
  end.

End Deliver.
End Deliver.
