(* ===== verification/DeliverFacts.v ===== *)
(** * Properties of message delivery

    An acknowledged message came from who it says, was for this daemon, and is in the
    inbox or has its thread stored; a message that is not authentic changes nothing
    but the pruning of expired sessions.  The sender writes only to a peer that holds
    the recipient's key or that the recipient's signed card names.  Also: an invite
    replaces a thread of the same id whoever created it. *)

From stdpp Require Import base gmap strings list.
From Stdlib Require Import ZArith Lia Ascii.
From S2P Require Import Prelude GoStd Identity Session Mail ThreadStore Tasks Rpc ConsensusStore Membership Chain Instances ChainFacts Records Manager ManagerFacts Deliver.

Local Open Scope string_scope.
Local Open Scope Z_scope.

Import Identity ThreadStore Membership Chain Deliver.

Section Deliver.
Context `{Crypto} `{Codec} `{TaskCodec} `{ThreadManager} `{ActorBackend} `{WireCodec}.

(** Who a message is from, as far as the transport and the registry prove. *)
Definition authentic (d : Deliverer) (remote : Peer) (from : string) : Prop :=
  (exists k, peer_key remote = Some k /\ from = DIDFromPubBytes k) \/
  (exists res card, d_resolve d = Some res /\ res from = Ok card /\ a_NodePeerId card = peer_ID remote).

(** Whom the daemon accepts a message for. *)
Definition addressed (d : Deliverer) (now : Z) (local : Peer) (to : string) (s : Daemon) : Prop :=
  (exists k, peer_key local = Some k /\ to = DIDFromPubBytes k) \/
  (d_hasSessions d = true /\ fst (Session.HasSession now to (Rpc.sessions (server s))) = true).

(** The daemon apart from its sessions. *)
Definition but_sessions (s : Daemon) :=
  let v := server s in
  (Rpc.tasks_db v, Rpc.outbox v, Rpc.inbox v, Rpc.published v, manager s).

Lemma HasSession_run now did w :
  exists w', HasSession now did w = (Ok (fst (Session.HasSession now did (Rpc.sessions (server (db w))))), w') /\
    but_sessions (db w') = but_sessions (db w) /\ faults w' = faults w.
Proof.
  unfold HasSession, on_server, Rpc.on_sessions, zoom. simpl.
  destruct (Session.HasSession now did _) as [b m]. eexists. split; [done|]. split; [|done]. unfold but_sessions. simpl. by destruct (db w) as [? [[] ? ? ?]].
Qed.

Lemma senderIsSession_ok d from peer :
  senderIsSessionOnPeer d from peer = Ok true ->
  exists res card, d_resolve d = Some res /\ res from = Ok card /\ a_NodePeerId card = peer.
Proof.
  unfold senderIsSessionOnPeer. destruct (d_resolve d) as [res|]; [|done].
  destruct (res from) as [card| |] eqn:E; [|done..]. intros [= Hb]. apply String.eqb_eq in Hb. eauto 6.
Qed.

(** The handler of task messages does not touch the inbox. *)
Definition inbox_is (i : Inbox.state) (s : Rpc.Server) : Prop := Rpc.inbox s = i.

Lemma on_tasks_inbox {A} i (m : M Tasks.TasksDB A) : preserves (inbox_is i) (Rpc.on_tasks m).
Proof. apply preserves_zoom; [|by intros []]. intros s Hs w Hw. by destruct (m w). Qed.
Lemma on_threads_inbox {A} i (m : M BlocksDB A) : preserves (inbox_is i) (Rpc.on_threads m).
Proof. apply preserves_zoom; [|by intros []]. intros s Hs w Hw. by destruct (m w). Qed.
Lemma self_inbox i : preserves (inbox_is i) Rpc.self.
Proof. by intros w. Qed.
#[local] Hint Resolve on_tasks_inbox on_threads_inbox self_inbox : molt_ops.

Lemma HandleIncoming_inbox i clk uuid msg : preserves (inbox_is i) (Rpc.HandleIncoming clk uuid msg).
Proof.
  unfold Rpc.HandleIncoming, Rpc.handleTaskRequest, Rpc.handleTaskResult, Rpc.gossip_PublishTaskEvent,
    Rpc.publish, Rpc.validateTopicAndPayload. cbv zeta.
  go_preserves; try done.
Qed.

(** A message is refused without effect, or it is authentic, addressed to this daemon
    and goes to its arm. *)
Lemma receive_cases d now clk uuid did remote local data w r w' :
  receiveHandlerRaw d now clk uuid did remote local data w = (r, w') ->
  (r <> Ok true /\ but_sessions (db w') = but_sessions (db w)) \/
  (exists bytes msg w1, data = Some bytes /\ unmarshal_message bytes = Some msg /\
     authentic d remote (m_FromDid msg) /\ addressed d now local (m_ToDid msg) (db w) /\
     but_sessions (db w1) = but_sessions (db w) /\ faults w1 = faults w /\
     (if bool_decide (m_Kind msg = KIND_THREAD_INVITE) then receive_invite d now did msg
      else receive_message d now clk uuid msg) w1 = (r, w')).
Proof.
  unfold receiveHandlerRaw. destruct data as [bytes|]; [|intros [= <- <-]; by left].
  destruct (unmarshal_message bytes) as [msg|] eqn:Hu; [|intros [= <- <-]; by left].
  destruct (peer_key remote) as [k|] eqn:Hk; [|intros [= <- <-]; by left]. cbv zeta.
  set (au := if String.eqb _ _ then ret true else _).
  assert (Hau : au w = (Panic, w) \/ (exists e, au w = (Err e, w)) \/
    exists b, au w = (Ok b, w) /\ (b = true -> authentic d remote (m_FromDid msg))).
  { unfold au. destruct (String.eqb_spec (m_FromDid msg) (DIDFromPubBytes k)) as [E|_].
    - right. right. exists true. split; [done|]. intros _. left. eauto.
    - destruct (senderIsSessionOnPeer _ _ _) as [b|e|] eqn:Es; simpl; [|by right; left; eexists|by left].
      right. right. exists b. split; [done|]. intros ->. right. by apply senderIsSession_ok. }
  unfold bind at 1. destruct Hau as [->|[[e ->]|(b & -> & Hb)]]; [intros [= <- <-]; by left..|].
  destruct b; [|intros [= <- <-]; by left]. simpl negb. cbv iota. specialize (Hb eq_refl).
  destruct (peer_key local) as [lk|] eqn:Hlk; [|intros [= <- <-]; by left]. unfold bind at 1.
  assert (Hs : exists b w1, (if d_hasSessions d then HasSession now (m_ToDid msg) else ret false) w = (Ok b, w1) /\
    but_sessions (db w1) = but_sessions (db w) /\ faults w1 = faults w /\
    (b = true -> d_hasSessions d = true /\
       fst (Session.HasSession now (m_ToDid msg) (Rpc.sessions (server (db w)))) = true)).
  { destruct (d_hasSessions d); [|by exists false, w].
    destruct (HasSession_run now (m_ToDid msg) w) as (w1 & E & Hv & Hf). eexists _, w1. split; [exact E|].
    split; [done|]. split; [done|]. intros Hb'. by split. }
  destruct Hs as (b & w1 & Es & Hv & Hf & Hsess). cbv beta iota delta [negb]. rewrite Es. fold negb.
  destruct (String.eqb_spec (m_ToDid msg) (DIDFromPubBytes lk)) as [Hto|Hto]; simpl.
  - intros E. right. exists bytes, msg, w1. repeat (split; [done|]). split; [left; eauto|]. done.
  - destruct b; simpl; [|intros [= <- <-]; by left].
    intros E. right. exists bytes, msg, w1. repeat (split; [done|]). split; [right; by apply Hsess|]. done.
Qed.

(** What an acknowledged message leaves in the inbox. *)
Lemma receive_message_ok d now clk uuid msg w w' :
  receive_message d now clk uuid msg w = (Ok true, w') ->
  exists row, row ∈ Inbox.rows (Rpc.inbox (server (db w'))) /\ Inbox.i_id row = m_Id msg /\
    (m_Id msg ∉ map Inbox.i_id (Inbox.rows (Rpc.inbox (server (db w)))) ->
     Inbox.i_owner row = m_ToDid msg /\ Inbox.i_payload row = Some msg).
Proof.
  unfold receive_message, catch. destruct (on_server _ w) as [[[]|e|] w1] eqn:E1; [|done..]. intros E.
  assert (Hin : exists row, row ∈ Inbox.rows (Rpc.inbox (server (db w1))) /\ Inbox.i_id row = m_Id msg /\
    (m_Id msg ∉ map Inbox.i_id (Inbox.rows (Rpc.inbox (server (db w)))) ->
     Inbox.i_owner row = m_ToDid msg /\ Inbox.i_payload row = Some msg)).
  { apply zoom_ok in E1 as (w2 & E1 & Hd1 & _). apply zoom_ok in E1 as (w3 & E1 & Hd2 & _). simpl in *.
    unfold Inbox.put in E1. apply bind_ok in E1 as ([] & w4 & E4%exec_ok & E1). injection E1 as <-.
    rewrite Hd1. simpl. rewrite Hd2. simpl. rewrite E4. simpl. unfold Inbox.insert_or_ignore. simpl.
    case_bool_decide as Hin.
    - apply list_elem_of_fmap in Hin as (row & Hid & Hin). exists row. split; [done|]. split; [done|].
      intros Hnew. exfalso. apply Hnew. rewrite Hid. by apply list_elem_of_fmap_2.
    - eexists. split; [apply elem_of_app; right; by left|]. done. }
  destruct (d_hasHandler d); simpl in E; [|by injection E as <-].
  destruct (on_server (Rpc.HandleIncoming clk uuid msg) w1) as [[[]|e|] w2] eqn:E2; [|done..].
  injection E as <-. apply zoom_ok in E2 as (w3 & E2 & Hd & _). rewrite Hd. simpl.
  pose proof (preserves_use _ _ _ _ _ (HandleIncoming_inbox (Rpc.inbox (server (db w1))) clk uuid msg) E2 eq_refl) as Hi.
  unfold inbox_is in Hi. by rewrite Hi.
Qed.

(** What an acknowledged invite leaves in the store. *)
Lemma InviteReceived_stores now did th w w' `{!ActorBackendLaws} :
  Manager.InviteReceived now did th w = (Ok tt, w') ->
  threads (s_blocks (Manager.store (db w'))) !! t_Id th = Some th.
Proof.
  unfold Manager.InviteReceived, catch. destruct (Manager.on_store _ w) as [prev w1]. intros E.
  assert (Hc : exists w2, bind (Manager.on_store (on_blocks (SaveThread th)))
    (fun _ => bind (Manager.on_store (Manager.recordSelfMembership th did)) (fun _ => Manager.Spawn now th)) w2
    = (Ok tt, w')).
  { destruct prev as [p|e|]; [|..|done]; apply bind_ok in E as ([] & w2 & _ & E); by exists w2. }
  clear E. destruct Hc as [w2 E]. apply bind_ok in E as ([] & w3 & E3 & E).
  apply bind_ok in E as ([] & w4 & E4 & E5).
  apply zoom_ok in E3 as (w5 & E3 & Hd3 & _). apply zoom_ok in E3 as (w6 & E3%exec_ok & Hd5 & _).
  assert (Hw3 : threads (s_blocks (Manager.store (db w3))) !! t_Id th = Some th).
  { rewrite Hd3. simpl. rewrite Hd5. simpl. rewrite E3. simpl. by rewrite lookup_insert_eq. }
  assert (Hw4 : threads (s_blocks (Manager.store (db w4))) !! t_Id th = Some th).
  { apply zoom_ok in E4 as (w7 & E4 & Hd4 & _). rewrite Hd4. simpl.
    eapply (preserves_use (fun s => threads (s_blocks s) !! t_Id th = Some th)); [|exact E4|exact Hw3].
    unfold Manager.recordSelfMembership. apply preserves_if; [apply preserves_ret|].
    apply preserves_if; [|apply preserves_ret].
    assert (Hm : forall A (c : M MemberDB A), preserves (fun s => threads (s_blocks s) !! t_Id th = Some th) (on_members c)).
    { intros A c w0 Hw0. unfold on_members, zoom. by destruct (c _). }
    apply preserves_catch; [apply Hm|]. intros r. apply Hm. }
  pose proof (preserves_use _ _ _ _ _ (Spawn_view (store_view (Manager.store (db w4))) now th) E5 eq_refl) as Hv.
  unfold store_view in Hv. injection Hv as -> _ _ _. done.
Qed.
End Deliver.

(** C14: What an acknowledgement means, under any failures: the message decoded, it is
    from the key that libp2p authenticated or from an agent whose own valid card names
    the remote peer, and it is for this daemon or an agent with a live session here; a
    thread invite then carried a descriptor signed by its creator that lists the
    recipient, and that thread is stored; any other message has a row in the inbox,
    filed for its recipient unless its id was already taken.  Everything else that
    arrives leaves tasks, queues, threads and publications untouched. *)
Theorem delivery_acknowledged `{Crypto} `{Codec} `{TaskCodec} `{ThreadManager} `{ActorBackendLaws} `{WireCodec}
    d now clk uuid did remote local data w r w' :
  receiveHandlerRaw d now clk uuid did remote local data w = (r, w') ->
  (r = Ok true -> exists bytes msg, data = Some bytes /\ unmarshal_message bytes = Some msg /\
     authentic d remote (m_FromDid msg) /\ addressed d now local (m_ToDid msg) (db w) /\
     if bool_decide (m_Kind msg = KIND_THREAD_INVITE)
     then exists th, unmarshal_thread (m_Payload msg) = Some th /\ VerifyDescriptor (Some th) = Ok tt /\
            m_ToDid msg ∈ ReplicaDids th /\
            threads (s_blocks (Manager.store (manager (db w')))) !! t_Id th = Some th
     else exists row, row ∈ Inbox.rows (Rpc.inbox (server (db w'))) /\ Inbox.i_id row = m_Id msg /\
            (m_Id msg ∉ map Inbox.i_id (Inbox.rows (Rpc.inbox (server (db w)))) ->
             Inbox.i_owner row = m_ToDid msg /\ Inbox.i_payload row = Some msg)) /\
  (but_sessions (db w') = but_sessions (db w) \/
   exists bytes msg, data = Some bytes /\ unmarshal_message bytes = Some msg /\
     authentic d remote (m_FromDid msg) /\ addressed d now local (m_ToDid msg) (db w)).
Proof.
  intros [[Hr Hv]|(bytes & msg & w1 & -> & Hu & Ha & Hto & Hv & Hf & E)]%receive_cases.
  { split; [done|]. by left. }
  split; [|right; by exists bytes, msg].
  intros ->. exists bytes, msg. split; [done|]. split; [done|]. split; [done|]. split; [done|].
  case_bool_decide as Hk.
  - unfold receive_invite in E. destruct (unmarshal_thread _) as [th|] eqn:Hth; [|done].
    destruct (d_hasThreads d); [|done]. cbv beta iota delta [negb] in E.
    destruct (VerifyDescriptor (Some th)) as [[]| |] eqn:Hver; [|done..].
    destruct (existsb _ _) eqn:Hm; [|done]. cbv beta iota delta [negb] in E.
    exists th. split; [done|]. split; [done|]. split.
    { apply existsb_exists in Hm as (x & Hx & Hm). apply String.eqb_eq in Hm as ->. by apply list_elem_of_In. }
    unfold catch in E. destruct (on_manager (Manager.InviteReceived now did th) w1) as [[[]|e|] w2] eqn:E2;
      unfold ret in E; [|discriminate..]. injection E as <-.
    apply zoom_ok in E2 as (w3 & E2 & -> & _). by apply (InviteReceived_stores now did th) in E2.
  - apply receive_message_ok in E as (row & Hin & Hid & Hnew). exists row. split; [done|]. split; [done|].
    unfold but_sessions in Hv. injection Hv as _ _ Hi _ _. by rewrite <- Hi.
Qed.

(** ** A thread taken over *)

Lemma VerifyDescriptor_id `{Crypto} `{Codec} th : VerifyDescriptor (Some th) = Ok tt -> t_Id th <> "".
Proof. unfold VerifyDescriptor. destruct (String.eqb_spec (t_Id th) ""); [done|]. done. Qed.

Lemma recordSelf_run th did s :
  t_Id th <> "" ->
  exists s', Manager.recordSelfMembership th did (World s []) = (Ok tt, World s' []) /\ s_blocks s' = s_blocks s.
Proof.
  intros Hid. unfold Manager.recordSelfMembership.
  destruct (String.eqb_spec did "") as [|Hd]; [by exists s|].
  destruct (existsb _ _); [|by exists s].
  destruct (MembershipEpochOf_run (t_Id th) (s_members s)) as [e He].
  destruct (SaveMember_run (t_Id th) (mkMember did OBSERVER e) (s_members s)) as (m & Es & _); [done..|].
  unfold catch, on_members, zoom. cbn [db faults]. rewrite He. cbn [db faults].
  unfold with_s_members at 1. cbn [s_members]. rewrite Es. by eexists.
Qed.

(** With a running actor and the same N, an invite only replaces the descriptor. *)
Lemma InviteReceived_replaces `{Crypto} `{Codec} `{ActorBackend} now did th old a s :
  t_Id th <> "" -> threads (s_blocks (Manager.store s)) !! t_Id th = Some old -> t_N old = t_N th ->
  Manager.pids s !! t_Id th = Some a -> Manager.a_running a = true ->
  exists s', Manager.InviteReceived now did th (World s []) = (Ok tt, World s' []) /\
    threads (s_blocks (Manager.store s')) = <[t_Id th := th]> (threads (s_blocks (Manager.store s))).
Proof.
  intros Hid Hold HN Ha Hrun.
  pose (s1 := Manager.with_store (with_s_blocks (with_threads (<[t_Id th := th]>) (s_blocks (Manager.store s)))
                (Manager.store s)) s).
  destruct (recordSelf_run th did (Manager.store s1)) as (s2 & E2 & Hb2); [done|].
  exists (Manager.with_store s2 s1). split.
  - unfold Manager.InviteReceived, catch.
    assert (Eg : Manager.on_store (on_blocks (GetThread (t_Id th))) (World s []) = (Ok old, World s [])).
    { unfold Manager.on_store, on_blocks, zoom, GetThread, query, stmt. simpl. rewrite Hold.
      by destruct s as [[] ? ? ? ? ? ?]. }
    rewrite Eg, HN, Z.eqb_refl. cbv beta iota delta [negb].
    unfold bind at 1, ret at 1. unfold bind at 1.
    assert (Es : Manager.on_store (on_blocks (SaveThread th)) (World s []) = (Ok tt, World s1 [])) by done.
    rewrite Es. unfold bind at 1.
    assert (Em : Manager.on_store (Manager.recordSelfMembership th did) (World s1 []) =
                 (Ok tt, World (Manager.with_store s2 s1) [])).
    { unfold Manager.on_store at 1, zoom. simpl in E2 |- *. by rewrite E2. }
    rewrite Em. unfold Manager.Spawn, bind, Manager.get_state. simpl. by rewrite Ha, Hrun.
  - simpl. by rewrite Hb2.
Qed.

(** An invite takes a thread over: the descriptor in it only has to be signed by
    the creator it names itself.  Any peer that lists the recipient among the replicas
    of a descriptor it signed, with the id and N of a thread running here, has its
    message acknowledged and the stored thread replaced, whoever created the stored
    one; from then on creator checks pass for the sender. *)
Theorem thread_hijack `{Crypto} `{Codec} `{TaskCodec} `{ThreadManager} `{ActorBackend} `{WireCodec}
    d now clk uuid did remote local k bytes msg th old a s :
  peer_key remote = Some k -> unmarshal_message bytes = Some msg -> m_FromDid msg = DIDFromPubBytes k ->
  option_map DIDFromPubBytes (peer_key local) = Some (m_ToDid msg) ->
  m_Kind msg = KIND_THREAD_INVITE -> unmarshal_thread (m_Payload msg) = Some th ->
  d_hasThreads d = true -> VerifyDescriptor (Some th) = Ok tt -> m_ToDid msg ∈ ReplicaDids th ->
  threads (s_blocks (Manager.store (manager s))) !! t_Id th = Some old ->
  t_N old = t_N th -> CreatorDid old <> CreatorDid th ->
  Manager.pids (manager s) !! t_Id th = Some a -> Manager.a_running a = true ->
  exists s' stored,
    receiveHandlerRaw d now clk uuid did remote local (Some bytes) (World s []) = (Ok true, World s' []) /\
    threads (s_blocks (Manager.store (manager s'))) !! t_Id th = Some stored /\
    CreatorDid stored = CreatorDid th /\ CreatorDid stored <> CreatorDid old.
Proof.
  intros Hk Hu Hfrom Hto Hkind Hth Hthreads Hv Hin Hold HN Hc Ha Hrun.
  destruct (peer_key local) as [lk|] eqn:Hlk; [|done]. injection Hto as Hto.
  assert (Hs : exists s1, (if d_hasSessions d then HasSession now (m_ToDid msg) else ret false) (World s []) =
    (Ok (if d_hasSessions d then fst (Session.HasSession now (m_ToDid msg) (Rpc.sessions (server s))) else false),
     World s1 []) /\ manager s1 = manager s).
  { destruct (d_hasSessions d); [|by exists s].
    destruct (HasSession_run now (m_ToDid msg) (World s [])) as ([s1 f1] & E & Hv1 & Hf). simpl in Hf. subst f1.
    exists s1. split; [exact E|]. unfold but_sessions in Hv1. by injection Hv1. }
  destruct Hs as (s1 & Es & Hm1).
  destruct (InviteReceived_replaces now did th old a (manager s1)) as (m2 & Ei & Ht2); try (by rewrite ?Hm1);
    [by apply VerifyDescriptor_id|].
  exists (mkDaemon (server s1) m2), th. split; [|split; [simpl; by rewrite Ht2, lookup_insert_eq|by split; [|intros E]]].
  unfold receiveHandlerRaw. rewrite Hu, Hk, Hfrom, String.eqb_refl, Hlk. rewrite (proj2 (String.eqb_eq _ _) (eq_sym Hto)).
  unfold bind at 1, ret at 1. cbv beta iota delta [negb]. unfold bind at 1. rewrite Es.
  cbv beta iota delta [andb]. rewrite bool_decide_eq_true_2 by done.
  unfold receive_invite. rewrite Hth, Hthreads, Hv.
  rewrite (proj2 (existsb_exists _ _)) by (exists (m_ToDid msg); split; [by apply list_elem_of_In|apply String.eqb_refl]).
  cbv beta iota delta [negb]. unfold catch, on_manager at 1, zoom. cbn [db faults]. by rewrite Ei.
Qed.

(** ** A concrete daemon *)

Definition other_key : string := "89abcdef0123456789abcdef01234567".
Definition toy_hijacker : string := DIDFromPubBytes other_key.

(** The same id and N, created and signed by another key. *)
Definition toy_takeover : Thread :=
  let th := mkThread (t_Id toy_created) toy_hijacker [toy_self] (t_N toy_created) 0 1000 9 ∅ in
  match SignDescriptor th toy_hijacker other_key with Ok th => th | _ => th end.

Definition toy_invite : Message := mkMessage "m1" toy_hijacker toy_self "" "" KIND_THREAD_INVITE "th" 0 "".

#[local] Instance toy_task_codec : TaskCodec := {|
  marshal_request _ := None; unmarshal_request _ := None; marshal_result _ := None;
  unmarshal_result _ := None; marshal_event _ := None; marshal_task _ := None |}.

#[local] Instance toy_wire : WireCodec := {|
  unmarshal_message b := if String.eqb b "invite" then Some toy_invite else None;
  unmarshal_thread b := if String.eqb b "th" then Some toy_takeover else None |}.

Definition toy_daemon : Daemon :=
  mkDaemon (Rpc.mkServer toy_self true true Tasks.empty_db (Outbox.mkState [] false) Inbox.empty
              (Session.New "node") ThreadStore.empty_db [])
    (db (snd toy_creation)).

Definition toy_deliverer : Deliverer := mkDeliverer None true true true.
Definition toy_clock (n : nat) : Z := Z.of_nat n.

Definition toy_received : outcome bool * world Daemon :=
  receiveHandlerRaw toy_deliverer 9 toy_clock "u" toy_self (mkPeer "p" (Some other_key)) (mkPeer "q" (Some toy_key))
    (Some "invite") (World toy_daemon []).

Lemma thread_hijack_witness :
  exists s' stored, toy_received = (Ok true, World s' []) /\
    threads (s_blocks (Manager.store (manager s'))) !! t_Id toy_takeover = Some stored /\
    CreatorDid stored = CreatorDid toy_takeover /\ CreatorDid stored <> CreatorDid toy_created.
Proof.
  destruct (Manager.pids (manager toy_daemon) !! t_Id toy_takeover) as [a|] eqn:Ha; [|vm_compute in Ha; discriminate].
  apply (thread_hijack toy_deliverer 9 toy_clock "u" toy_self (mkPeer "p" (Some other_key))
           (mkPeer "q" (Some toy_key)) other_key "invite" toy_invite toy_takeover toy_created a toy_daemon);
    try (vm_compute; reflexivity).
  - vm_compute. left.
  - vm_compute. discriminate.
  - exact Ha.
  - vm_compute in Ha. injection Ha as <-. reflexivity.
Defined.

Lemma delivery_acknowledged_witness :
  fst toy_received = Ok true /\
  exists msg, unmarshal_message "invite" = Some msg /\
     authentic toy_deliverer (mkPeer "p" (Some other_key)) (m_FromDid msg) /\
     exists th, unmarshal_thread (m_Payload msg) = Some th /\ VerifyDescriptor (Some th) = Ok tt /\
       threads (s_blocks (Manager.store (manager (db (snd toy_received))))) !! t_Id th = Some th.
Proof.
  assert (Hr : fst toy_received = Ok true) by (vm_compute; reflexivity). split; [exact Hr|].
  destruct (delivery_acknowledged toy_deliverer 9 toy_clock "u" toy_self (mkPeer "p" (Some other_key))
    (mkPeer "q" (Some toy_key)) (Some "invite") (World toy_daemon []) (Ok true) (snd toy_received)) as [Hok _].
  { rewrite <- Hr. apply surjective_pairing. }
  destruct (Hok eq_refl) as (bytes & msg & [= <-] & Hu & Ha & _ & Hk). exists msg. split; [exact Hu|].
  split; [exact Ha|]. injection Hu as <-. destruct Hk as (th & H1 & H2 & _ & H3). exists th. auto.
Defined.

(** ** The reference counts of executors *)

(** The table of executors with the executors held, each by one call of sendToPeer or
    of the receive handler; [n] bounds the executors created.  Calls take turns under
    peerMu in any order; an executor's actor may stop at any time. *)
Inductive exec_reach : gmap string peerExecutor -> list (string * nat) -> nat -> Prop :=
| reach_init : exec_reach ∅ [] 0
| reach_executor running ok id m held n x m' :
    exec_reach m held n -> executor running (if ok : bool then Some n else None) id m = (Ok x, m') ->
    exec_reach m' ((id, x) :: held) (S n)
| reach_release id x stop m m' l1 l2 n :
    exec_reach m (l1 ++ (id, x) :: l2)%list n -> releaseExecutor id x m = (stop, m') ->
    exec_reach m' (l1 ++ l2)%list n.

Definition holders (h : string * nat) (held : list (string * nat)) : Z := llen (filter (eq h) held).

Lemma holders_cons h g held : holders h (g :: held) = (if decide (h = g) then 1 else 0) + holders h held.
Proof. unfold holders, llen. rewrite filter_cons. destruct (decide (h = g)); simpl; lia. Qed.

Lemma holders_mid h g l1 l2 : holders h (l1 ++ g :: l2)%list = (if decide (h = g) then 1 else 0) + holders h (l1 ++ l2)%list.
Proof.
  unfold holders, llen. rewrite !filter_app, filter_cons, !length_app. destruct (decide (h = g)); simpl; lia.
Qed.

Lemma holders_zero h held : holders h held = 0 <-> h ∉ held.
Proof.
  unfold holders, llen. split.
  - intros Hz Hin. assert (Hf : h ∈ filter (eq h) held) by (by apply list_elem_of_filter).
    destruct (filter (eq h) held); [by inversion Hf|simpl in Hz; lia].
  - intros Hn. destruct (filter (eq h) held) as [|x l] eqn:E; [done|].
    assert (Hx : x ∈ filter (eq h) held) by (rewrite E; left).
    apply list_elem_of_filter in Hx as [<- Hx]. done.
Qed.

(** A registered executor counts its holders. *)
Record exec_inv (m : gmap string peerExecutor) (held : list (string * nat)) (n : nat) : Prop := {
  ei_refs : forall id e, m !! id = Some e -> px_refs e = holders (id, px_id e) held /\ 0 < px_refs e;
  ei_held : forall id x, (id, x) ∈ held -> (x < n)%nat }.

Lemma holders_fresh m held n id : exec_inv m held n -> holders (id, n) held = 0.
Proof. intros [_ Hh]. apply holders_zero. intros Hin%Hh. lia. Qed.

Lemma exec_inv_new m held n id :
  exec_inv m held n -> exec_inv (<[id := mkExec n 1]> m) ((id, n) :: held) (S n).
Proof.
  intros Hi. pose proof (holders_fresh _ _ _ id Hi) as Hz. destruct Hi as [Hr Hh]. split.
  - intros id' e. destruct (decide (id' = id)) as [->|Hne].
    + rewrite lookup_insert_eq. intros [= <-]. simpl. rewrite holders_cons, decide_True, Hz by done. lia.
    + rewrite lookup_insert_ne by done. intros He. rewrite holders_cons, decide_False by congruence. by apply Hr.
  - intros id' x [[= -> ->]|Hin]%elem_of_cons; [lia|]. apply Hh in Hin. lia.
Qed.

Lemma exec_reach_inv m held n : exec_reach m held n -> exec_inv m held n.
Proof.
  induction 1 as [|running ok id m held n x m' _ IH E|id x stop m m' l1 l2 n _ IH E].
  - split; [done|]. intros id x Hin. by inversion Hin.
  - unfold executor in E. pose proof (exec_inv_new m held n id IH) as Hnew.
    destruct (m !! id) as [e|] eqn:He; [destruct (running (px_id e))|];
      [|destruct ok; [injection E as <- <-; exact Hnew|done]..].
    injection E as <- <-. destruct IH as [Hr Hh]. split.
    + intros id' e'. destruct (decide (id' = id)) as [->|Hne].
      * rewrite lookup_insert_eq. intros [= <-]. simpl. rewrite holders_cons, decide_True by done.
        destruct (Hr id e He). lia.
      * rewrite lookup_insert_ne by done. intros He'. rewrite holders_cons, decide_False by congruence. by apply Hr.
    + intros id' x' [[= -> ->]|Hin]%elem_of_cons; [|by apply Hh in Hin; lia].
      destruct (Hr id e He) as [Hc Hpos]. destruct (decide ((id, px_id e) ∈ held)) as [Hin|Hin%holders_zero]; [|lia].
      apply Hh in Hin. lia.
  - destruct IH as [Hr Hh]. split.
    2: { intros id' x' Hin. apply (Hh id'). rewrite elem_of_app, elem_of_cons in *. tauto. }
    unfold releaseExecutor in E. intros id' e' He'.
    destruct (m !! id) as [e|] eqn:He; [destruct (Nat.eqb_spec (px_id e) x) as [<-|Hne]|]; simpl in E.
    + destruct (Hr id e He) as [Hc Hpos]. rewrite holders_mid, decide_True in Hc by done.
      destruct (px_refs e - 1 >? 0) eqn:Hgt; injection E as <- <-.
      * destruct (decide (id' = id)) as [->|Hn].
        -- rewrite lookup_insert_eq in He'. injection He' as <-. simpl. lia.
        -- rewrite lookup_insert_ne in He' by done. destruct (Hr id' e' He') as [Hc' ?].
           rewrite holders_mid, decide_False in Hc' by congruence. done.
      * apply lookup_delete_Some in He' as [Hn He']. destruct (Hr id' e' He') as [Hc' ?].
        rewrite holders_mid, decide_False in Hc' by congruence. done.
    + injection E as <- <-. destruct (Hr id' e' He') as [Hc' ?]. rewrite holders_mid in Hc'.
      rewrite decide_False in Hc'; [done|]. intros [= -> Hx]. congruence.
    + injection E as <- <-. destruct (Hr id' e' He') as [Hc' ?]. rewrite holders_mid in Hc'.
      rewrite decide_False in Hc'; [done|]. intros [= -> Hx]. congruence.
Qed.

(** Executors of peers under any interleaving of sends and received streams: a
    release stops an executor only when no other call holds it, and the release by the
    last holder of a registered executor does stop it and removes it from the table, so
    that none is stopped in use and none is left behind. *)
Theorem executor_stopped_when_unused id x stop m m' l1 l2 n :
  exec_reach m (l1 ++ (id, x) :: l2)%list n -> releaseExecutor id x m = (stop, m') ->
  (forall y, stop = Some y -> y = x /\ (id, x) ∉ (l1 ++ l2)%list) /\
  (forall e, m !! id = Some e -> px_id e = x -> (id, x) ∉ (l1 ++ l2)%list -> stop = Some x /\ m' !! id = None).
Proof.
  intros Hr E. apply exec_reach_inv in Hr as [Hr _]. unfold releaseExecutor in E.
  destruct (m !! id) as [e|] eqn:He; [|injection E as <- <-; done].
  destruct (Nat.eqb_spec (px_id e) x) as [Hx|Hx]; simpl in E;
    [|injection E as <- <-; split; [done|intros e' [= <-]; done]].
  destruct (Hr id e He) as [Hc Hpos]. rewrite Hx, holders_mid, decide_True in Hc by done.
  destruct (px_refs e - 1 >? 0) eqn:Hgt; injection E as <- <-.
  - split; [done|]. intros e' _ _ Hn%holders_zero. lia.
  - split; [|intros; by rewrite lookup_delete_eq].
    intros y [= <-]. split; [done|]. apply holders_zero. unfold holders, llen in *. lia.
Qed.

Lemma executor_stopped_when_unused_witness :
  exists m l, exec_reach m l 2 /\ l = [("p", 0%nat); ("p", 0%nat)] /\
    fst (releaseExecutor "p" 0 m) = None.
Proof.
  pose (m1 := snd (executor (fun _ => true) (Some 0%nat) "p" ∅)).
  pose (m2 := snd (executor (fun _ => true) None "p" m1)).
  assert (H2 : exec_reach m2 [("p", 0%nat); ("p", 0%nat)] 2).
  { apply (reach_executor (fun _ => true) false "p" m1 [("p", 0%nat)] 1); [|reflexivity].
    apply (reach_executor (fun _ => true) true "p" ∅ [] 0); [constructor|reflexivity]. }
  exists m2, [("p", 0%nat); ("p", 0%nat)]. split; [exact H2|]. split; [reflexivity|].
  destruct (executor_stopped_when_unused "p" 0 (fst (releaseExecutor "p" 0 m2)) m2 (snd (releaseExecutor "p" 0 m2))
    [] [("p", 0%nat)] 2 H2 (surjective_pairing _)) as [Hs _].
  destruct (fst (releaseExecutor "p" 0 m2)) as [y|]; [|reflexivity].
  exfalso. destruct (Hs y eq_refl) as [_ Hn]. apply Hn. left.
Defined.
