(* ===== verification/Transport.v ===== *)
(** * Messages from one daemon's outbox to another's inbox

    The sending half of [daemon/deliver/deliver.go] (stream, frame and acknowledgement)
    between the outbox of one daemon and the receive handler of another: a flush with
    what the network does to each transmission, restarts, and what else happens on the
    two sides, as a step relation. *)

From stdpp Require Import base gmap strings list.
From Stdlib Require Import ZArith Lia Ascii.
From S2P Require Import Prelude GoStd Identity Session Mail ThreadStore Tasks Rpc ConsensusStore Membership Chain Records Manager Deliver.

Import Deliver Outbox.

Local Open Scope string_scope.
Local Open Scope Z_scope.
Local Open Scope go_scope.

(** [proto.Marshal] of a message; go-msgio: the bytes of a frame, and the frame at the
    head of the bytes received, up to a size. *)
Class Framing `{WireCodec} : Type := {
  marshal_message : Message -> option string;
  frame : string -> string;
  read_frame : Z -> string -> option string }.

(** What was marshalled unmarshals to itself and has at most 2 GiB, protobuf's limit; a
    frame is read exactly when all of it arrived and it is not too long. *)
Class FramingLaws `{Framing} : Prop := {
  message_roundtrip : forall m d, marshal_message m = Some d -> unmarshal_message d = Some m;
  message_size : forall m d, marshal_message m = Some d -> slen d <= 2 ^ 31;
  frame_read : forall d max k, slen d < 2 ^ 32 ->
    read_frame max (take_str k (frame d)) =
      if (slen (frame d) <=? Z.of_nat k) && (slen d <=? max) then Some d else None }.

Module Transport.
Section Transport.
Context `{Crypto} `{Codec} `{TaskCodec} `{ThreadManager} `{ActorBackend} `{Framing}.

Definition maxMsgSize : Z := Z.shiftl 4 20.
Definition ackOK : Z := 1.

(** [writeAck]'s byte. *)
Definition ack_byte (ok : bool) : Z := if ok then ackOK else 0.

(** [write] hands the frame to the stream, [read] is the byte read back. *)
Definition sendToPeerRaw {S} (opened : bool) (write : string -> M S bool) (read : M S (option Z)) (msg : Message)
    : M S unit :=
  if negb opened then throw (Errorf "open stream") else
  match marshal_message msg with
  | None => throw (Errorf "marshal message")
  | Some data =>
      let! ok := write (frame data) in
      if negb ok then throw (Errorf "write message") else
      let! ack := read in
      match ack with
      | None => throw (Errorf "read ack")
      | Some b => if b =? ackOK then ret tt else throw (Errorf "remote rejected message")
      end
  end.

(** [sendToPeer]: with the actor system, in the executor of the peer, which is held
    meanwhile.  [execs] is the table of executors. *)
Definition sendToPeer {S} (execs : S -> gmap string peerExecutor) (put : gmap string peerExecutor -> S -> S)
    (hierarchy : bool) (running : nat -> bool) (fresh : option nat) (peer : string) (raw : M S unit) : M S unit :=
  if negb hierarchy then raw else
  let! e := (fun w => let '(r, m) := executor running fresh peer (execs (db w)) in
                      (r, World (put m (db w)) (faults w))) in
  fun w => let '(r, w1) := raw w in
           (r, World (put (snd (releaseExecutor peer e (execs (db w1)))) (db w1)) (faults w1)).

(** ** Two daemons *)

(** The sender's outbox, the recipient's daemon, and the byte it last wrote back. *)
Record System : Type := mkSystem { sender : Outbox.state; recipient : Daemon; answer : option Z }.

Definition on_sender {A} (m : M Outbox.state A) : M System A :=
  zoom sender (fun o s => mkSystem o (recipient s) (answer s)) m.

(** How the recipient's handler runs: clock, uuid and database failures. *)
Record Visit : Type := mkVisit { v_now : Z; v_clk : nat -> Z; v_uuid : string; v_faults : list bool }.

(** What happens to one transmission: whether the stream opens, how many bytes arrive,
    what the write reports, the handler's run, whether the acknowledgement arrives. *)
Record Fate : Type := mkFate {
  f_opened : bool; f_arrived : nat; f_written : bool; f_visit : Visit; f_acked : bool }.

(** The two ends: the sender's deliverer and peer, the recipient's, and the recipient's
    identity in its thread manager. *)
Record Ends : Type := mkEnds {
  e_sender : Deliverer; e_deliverer : Deliverer; e_did : string; e_from : Peer; e_to : Peer }.

Section Ends.
Variables (e : Ends) (id_of_key : string -> string).

Definition receive (v : Visit) (remote : Peer) (data : option string) (d : Daemon) : outcome bool * world Daemon :=
  receiveHandlerRaw (e_deliverer e) (v_now v) (v_clk v) (v_uuid v) (e_did e) remote (e_to e) data (World d (v_faults v)).

(** The bytes that arrive are read and handled at the other end; a panic there leaves
    no answer. *)
Definition write (f : Fate) (bytes : string) : M System bool := fun w =>
  let '(r, w1) := receive (f_visit f) (e_from e) (read_frame maxMsgSize (take_str (f_arrived f) bytes))
                    (recipient (db w)) in
  (Ok (f_written f),
   World (mkSystem (sender (db w)) (db w1) (match r with Ok b => Some (ack_byte b) | _ => None end)) (faults w)).
Definition read (f : Fate) : M System (option Z) := fun w =>
  (Ok (if f_acked f then answer (db w) else None), w).

(** The network during a flush: the sender's connections, the peer a list of addresses
    names, whether it can be dialled, the answers of peers other than the recipient,
    and what happens to the transmissions to the recipient. *)
Record Net : Type := mkNet {
  n_connected : string -> bool; n_parse : list string -> option string; n_connect : string -> bool;
  elsewhere : string -> Message -> bool; fate : Message -> Fate }.

(** The peer [Send] writes a message to. *)
Definition route (n : Net) (msg : Message) : option string :=
  fst (Send id_of_key (e_sender e) (n_connected n) (n_parse n) (n_connect n) (fun _ _ => Ok tt) msg).

Definition deliver (n : Net) (msg : Message) : M System unit :=
  match route n msg with
  | None => throw (Errorf "no route")
  | Some p =>
      if String.eqb p (peer_ID (e_to e)) then sendToPeerRaw (f_opened (fate n msg)) (write (fate n msg)) (read (fate n msg)) msg
      else if elsewhere n p msg then ret tt else throw (Errorf "elsewhere")
  end.

(** An item of [flush] with this delivery, and [flush] up to the [k]-th item. *)
Definition deliver_item (n : Net) (fin : string -> Z) (item : row) : M System unit :=
  match o_payload item with
  | None => on_sender (flush_item (fun _ => false) fin item)
  | Some msg =>
      catch (deliver n msg) (fun r =>
        on_sender (flush_item (fun _ => match r with Ok _ => true | _ => false end) fin item))
  end.
Definition flush_items (n : Net) (t1 t2 : Z) (fin : string -> Z) (k : nat) : M System unit :=
  catch (on_sender (flush_begin t1 t2)) (fun res =>
    match res with
    | Ok items => for_each (take k items) (deliver_item n fin)
    | _ => ret tt
    end).

Definition run (m : M System unit) (fs : list bool) (s : System) : System := db (snd (m (World s fs))).
Definition inbox_rows (d : Daemon) : list Inbox.row := Inbox.rows (Rpc.inbox (server d)).
Definition set_recipient (d : Daemon) (s : System) : System := mkSystem (sender s) d (answer s).

(** What the two daemons may do.  [msg] is the message followed: the sender's routes for
    it lead to its recipient, and nobody else sends the recipient a message with its
    id. *)
Inductive step (msg : Message) : System -> System -> Prop :=
| step_enqueue fs t1 t2 owner m s :
    step msg s (run (on_sender (EnqueueForOwner t1 t2 owner m)) fs s)
| step_flush fs n t1 t2 fin k s :
    (forall p, route n msg = Some p -> p = peer_ID (e_to e)) ->
    step msg s (run (flush_items n t1 t2 fin k) fs s)
| step_restart fs s : step msg s (run (on_sender migrate) fs s)
| step_receive v remote data s :
    (forall bytes m, data = Some bytes -> unmarshal_message bytes = Some m -> m_Id m <> m_Id msg) ->
    step msg s (set_recipient (db (snd (receive v remote data (recipient s)))) s)
| step_ack fs now owner mid s :
    step msg s (set_recipient (db (snd (on_server (Rpc.on_inbox (Inbox.ack now owner mid)) (World (recipient s) fs)))) s)
| step_recipient d s : inbox_rows d = inbox_rows (recipient s) -> step msg s (set_recipient d s).

End Ends.
End Transport.
End Transport.
