(* ===== verification/TransportFacts.v ===== *)
(** * Exactly one copy of a message

    Whatever the network loses, truncates or repeats and whichever database statement
    fails on either side, the recipient stores a message at most once and as it was
    sent, and a message the sender marks as delivered is stored.  Also: go-msgio's
    frames have the property the model assumes of them. *)

From stdpp Require Import base gmap strings list relations.
From Stdlib Require Import ZArith Lia Ascii.
From S2P Require Import Prelude GoStd Identity Session Mail MailFacts ThreadStore Tasks Rpc ConsensusStore Membership Chain Instances Records Manager ManagerFacts Deliver DeliverFacts Transport.

Import Deliver Outbox OutboxFacts Transport.

Local Open Scope string_scope.
Local Open Scope Z_scope.

(** ** Framing *)

(** The frames of go-msgio: four bytes of length, then the data. *)
Definition be32 (n : Z) (rest : string) : string :=
  let byte k := ascii_of_N (Z.to_N ((n / 2 ^ (8 * k)) `mod` 256)) in
  String (byte 3) (String (byte 2) (String (byte 1) (String (byte 0) rest))).
Definition un_be32 (a b c d : ascii) : Z :=
  let v x := Z.of_N (N_of_ascii x) in ((v a * 256 + v b) * 256 + v c) * 256 + v d.
Definition msgio_frame (d : string) : string := be32 (slen d) d.
Definition msgio_read (max : Z) (s : string) : option string :=
  match s with
  | String a (String b (String c (String d rest))) =>
      let n := un_be32 a b c d in
      if max <? n then None else if slen rest <? n then None else Some (take_str (Z.to_nat n) rest)
  | _ => None
  end.

Lemma byte_value n k : Z.of_N (N_of_ascii (ascii_of_N (Z.to_N ((n / 2 ^ (8 * k)) `mod` 256)))) = (n / 2 ^ (8 * k)) `mod` 256.
Proof.
  pose proof (Z.mod_pos_bound (n / 2 ^ (8 * k)) 256 ltac:(lia)). rewrite N_ascii_embedding by lia. lia.
Qed.

Lemma un_be32_value n : 0 <= n < 2 ^ 32 ->
  un_be32 (ascii_of_N (Z.to_N ((n / 2 ^ (8 * 3)) `mod` 256))) (ascii_of_N (Z.to_N ((n / 2 ^ (8 * 2)) `mod` 256)))
          (ascii_of_N (Z.to_N ((n / 2 ^ (8 * 1)) `mod` 256))) (ascii_of_N (Z.to_N ((n / 2 ^ (8 * 0)) `mod` 256))) = n.
Proof.
  intros Hn. unfold un_be32. rewrite !byte_value.
  change (2 ^ (8 * 3)) with 16777216. change (2 ^ (8 * 2)) with 65536. change (2 ^ (8 * 1)) with 256.
  change (2 ^ (8 * 0)) with 1. change (2 ^ 32) with 4294967296 in Hn. Z.div_mod_to_equations. lia.
Qed.

(** go-msgio's frames satisfy the law assumed of them. *)
Lemma msgio_frame_read d max k : slen d < 2 ^ 32 ->
  msgio_read max (take_str k (msgio_frame d)) =
    if (slen (msgio_frame d) <=? Z.of_nat k) && (slen d <=? max) then Some d else None.
Proof.
  intros Hd. pose proof (slen_nonneg d) as H0. pose proof (un_be32_value (slen d) (conj H0 Hd)) as Hv.
  assert (Hl : slen (msgio_frame d) = 4 + slen d) by (unfold msgio_frame, slen, be32; cbn [String.length]; lia).
  rewrite Hl. unfold msgio_frame, be32.
  do 4 (destruct k as [|k]; [by match goal with |- context [4 + slen d <=? ?b] => destruct (Z.leb_spec (4 + slen d) b); [lia|] end|]).
  cbn [take_str msgio_read]. rewrite Hv.
  destruct (Z.leb_spec (4 + slen d) (Z.of_nat (S (S (S (S k)))))) as [Hk|Hk]; simpl.
  - rewrite (take_str_all k d) by (unfold slen in *; lia).
    destruct (Z.ltb_spec max (slen d)); destruct (Z.leb_spec (slen d) max); try lia; [done|].
    destruct (Z.ltb_spec (slen d) (slen d)); [lia|]. f_equal. apply take_str_all. unfold slen. lia.
  - destruct (Z.ltb_spec max (slen d)); [done|].
    destruct (Z.ltb_spec (slen (take_str k d)) (slen d)) as [|Hc]; [done|].
    unfold slen in *. rewrite take_str_length in Hc. lia.
Qed.

(** ** Sending *)

(** The peer does not depend on the transmission, which alone decides the result; without
    a peer there is no success. *)
Lemma Send_route `{Crypto} idk d connected parse connect t1 t2 m :
  let s1 := Send idk d connected parse connect t1 m in
  fst s1 = fst (Send idk d connected parse connect t2 m) /\
  match fst s1 with Some p => snd s1 = t1 p m | None => snd s1 <> Ok tt end.
Proof.
  assert (Hc : forall via1 via2 : string -> option string * outcome unit,
    (forall p, fst (via1 p) = Some p /\ snd (via1 p) = t1 p m /\ fst (via2 p) = Some p) ->
    let by_card (via : string -> option string * outcome unit) :=
      match d_resolve d with
      | None => (None, Err (Errorf "no registry configured"))
      | Some resolve =>
          match resolve (m_ToDid m) with
          | Err e => (None, Err e)
          | Panic => (None, Panic)
          | Ok card =>
              if llen (a_Multiaddrs card) =? 0 then (None, Err (Errorf "agent has no multiaddrs in card")) else
              match parse (a_Multiaddrs card) with
              | None => (None, Err (Errorf "parse multiaddrs"))
              | Some peer => if connect peer then via peer else (None, Err (Errorf "connect"))
              end
          end
      end in
    fst (by_card via1) = fst (by_card via2) /\
    match fst (by_card via1) with Some p => snd (by_card via1) = t1 p m | None => snd (by_card via1) <> Ok tt end).
  { intros via1 via2 Hv. cbv zeta. destruct (d_resolve d) as [res|]; [|done]. destruct (res _) as [card| |]; [|done..].
    destruct (_ =? 0); [done|]. destruct (parse _) as [p|]; [|done]. destruct (connect p); [|done].
    destruct (Hv p) as (E1 & E2 & E3). by rewrite E1, E3. }
  unfold Send. cbv zeta. destruct (peerIDFromDID idk (m_ToDid m)) as [pid| |]; [destruct (connected pid); [done|]|..];
    by apply (Hc (fun p => (Some p, t1 p m)) (fun p => (Some p, t2 p m))).
Qed.

(** An executor made for one transmission is gone after it. *)
Lemma sendToPeer_releases {S} (execs : S -> gmap string peerExecutor) put running x peer (raw : M S unit) w :
  (forall m s, execs (put m s) = m) -> (forall w, execs (db (snd (raw w))) = execs (db w)) ->
  execs (db w) !! peer = None ->
  execs (db (snd (sendToPeer execs put true running (Some x) peer raw w))) = execs (db w).
Proof.
  intros Hput Hraw Hnone. unfold sendToPeer, bind, executor. cbn [negb]. rewrite Hnone. cbn [fst snd].
  set (w1 := World _ _). pose proof (Hraw w1) as Hr. destruct (raw w1) as [r w2]. cbn [snd db] in *. rewrite Hput, Hr.
  unfold w1. cbn [db]. rewrite Hput. unfold releaseExecutor. rewrite lookup_insert_eq. cbn [px_id px_refs].
  rewrite Nat.eqb_refl. cbn. by rewrite delete_insert_id.
Qed.

(** ** The sender's rows *)

(** What is known of the rows when the message [msg] is followed; [stored] says whether
    the recipient has it. *)
Section Rows.
Variable msg : Message.

Definition keyed (r : row) : Prop :=
  (forall m, o_payload r = Some m -> m_Id m = o_id r) /\ (o_id r = m_Id msg -> o_payload r = Some msg).
Definition row_ok (stored : Prop) (r : row) : Prop :=
  keyed r /\ (o_id r = m_Id msg -> o_status r = delivered -> stored).
Definition rows_ok (stored : Prop) (s : Outbox.state) : Prop :=
  m_Id msg ∈ ids s /\ Forall (row_ok stored) (rows s).

Lemma rows_ok_mono (P Q : Prop) s : (P -> Q) -> rows_ok P s -> rows_ok Q s.
Proof. intros HPQ [Hi Hs]. split; [done|]. eapply Forall_impl; [exact Hs|]. intros r [Hk Hd]. split; auto. Qed.

Lemma rows_ok_update P cond f s :
  (forall r, o_id (f r) = o_id r) -> (forall r, row_ok P r -> cond r = true -> row_ok P (f r)) ->
  rows_ok P s -> rows_ok P (update cond f s).
Proof.
  intros Hid Hf [Hi Hs]. split; [by rewrite update_ids|]. apply Forall_fmap. eapply Forall_impl; [exact Hs|].
  intros r Hr. simpl. destruct (cond r) eqn:E; auto.
Qed.

(** A row whose status is set to anything but delivered. *)
Lemma row_ok_state P st n last r : st <> delivered -> row_ok P r -> row_ok P (set_state st n last r).
Proof. intros Hst [Hk _]. split; [exact Hk|]. simpl. done. Qed.

Lemma rows_ok_enqueue P t1 t2 owner m : preserves (rows_ok P) (EnqueueForOwner t1 t2 owner m).
Proof.
  unfold EnqueueForOwner, enqueue. cbv zeta. apply preserves_bind; [|intros _; by apply preserves_modify].
  apply preserves_exec. intros s [Hi Hs]. unfold rows_ok, ids in *. simpl. unfold insert_or_ignore. simpl.
  case_bool_decide as Hm; [done|]. split.
  { rewrite fmap_app. apply elem_of_app. by left. }
  apply Forall_app. split; [done|]. apply Forall_singleton. split; [|done]. split; simpl; [by intros ? [= <-]|].
  intros E. by rewrite E in Hm.
Qed.

Lemma rows_ok_migrate P : preserves (rows_ok P) migrate.
Proof.
  unfold migrate. apply preserves_bind; [|intros _; apply preserves_bind; [apply preserves_query|intros l]].
  - apply preserves_exec. intros s. apply rows_ok_update; [done|]. intros r Hr _. by apply row_ok_state.
  - apply preserves_for_each. intros id. apply preserves_exec. intros s. apply rows_ok_update; [done|].
    intros r [Hk Hd] _. split; [exact Hk|]. simpl. intros E Hst. apply Hd; [done|]. by destruct (o_status r).
Qed.

(** Claimed items are rows, and none is delivered. *)
Lemma rows_ok_begin P t1 t2 : hoare (rows_ok P) (flush_begin t1 t2) (fun r s => rows_ok P s /\
  match r with Ok items => Forall keyed items | _ => True end).
Proof.
  unfold flush_begin. cbv zeta.
  assert (Hu : forall cond st, st <> delivered ->
    preserves (rows_ok P) (log_err (exec (update cond (fun r => set_state st (o_attempts r) (o_last r) r))))).
  { intros cond st Hst. apply preserves_log_err, preserves_exec. intros s. apply rows_ok_update; [done|].
    intros r Hr _. by apply row_ok_state. }
  eapply (hoare_bind _ (fun _ => rows_ok P)).
  { eapply hoare_conseq; [done|by apply (Hu _ expired)|]. intros [|e|] s Hs; auto. }
  intros _. eapply (hoare_bind _ (fun _ => rows_ok P)).
  { eapply hoare_conseq; [done|by apply (Hu _ pending)|]. intros [|e|] s Hs; auto. }
  intros _ w Hw. unfold stmt.
  assert (Hc : rows_ok P (snd (claim (UnixMilli t1) (UnixMilli (t2 - retryBaseDelay)) (db w))) /\
    Forall keyed (claimable (UnixMilli t1) (UnixMilli (t2 - retryBaseDelay)) (db w))).
  { split; [simpl; apply rows_ok_update; [done| |done]; intros r Hr _; by apply row_ok_state|].
    destruct Hw as [_ Hw]. unfold claimable. apply Forall_fmap, Forall_take.
    apply Forall_forall. intros r [_ Hr]%list_elem_of_filter. rewrite Forall_forall in Hw. by destruct (Hw r Hr). }
  destruct Hc as [H1 H2]. destruct (faults w) as [|[] fs]; simpl; [by split|by split|by split].
Qed.

(** An item is finished: marked delivered only if the recipient has it. *)
Lemma rows_ok_item P ok fin item : keyed item -> (o_id item = m_Id msg -> ok = true -> P) ->
  preserves (rows_ok P) (flush_item (fun _ => ok) fin item).
Proof.
  intros Hk HP. unfold flush_item. cbv zeta. destruct (o_payload item) as [m|].
  - destruct ok; apply preserves_log_err, preserves_exec; intros s; (apply rows_ok_update; [done|]).
    + intros r [Hkr _] Hc%bool_decide_eq_true. split; [exact Hkr|]. simpl. intros E _. apply HP; [congruence|done].
    + intros r Hr _. apply row_ok_state; [|done]. by destruct (negb _ && _).
  - apply preserves_log_err, preserves_exec. intros s. apply rows_ok_update; [done|]. intros r Hr _. by apply row_ok_state.
Qed.
End Rows.

(** ** The recipient's inbox *)

Section Recipient.
Context `{Crypto} `{Codec} `{TaskCodec} `{ThreadManager} `{ActorBackend} `{FramingLaws}.
Variables (e : Ends) (id_of_key : string -> string) (msg : Message).

Definition inbox_ids (d : Daemon) : list string := Inbox.i_id <$> inbox_rows d.

(** Ids are distinct, and a row with the message's id is the message. *)
Definition inbox_ok (d : Daemon) : Prop :=
  NoDup (inbox_ids d) /\
  forall r, r ∈ inbox_rows d -> Inbox.i_id r = m_Id msg -> Inbox.i_owner r = m_ToDid msg /\ Inbox.i_payload r = Some msg.
Definition stored (d : Daemon) : Prop := m_Id msg ∈ inbox_ids d.

Definition row_of (now : Z) (m : Message) : Inbox.row :=
  Inbox.mkRow (m_Id m) (m_ToDid m) (m_FromDid m) (m_ThreadId m) (m_TaskId m) (Some m) now None.

Lemma but_sessions_rows d d' : but_sessions d' = but_sessions d -> inbox_rows d' = inbox_rows d.
Proof. unfold but_sessions, inbox_rows. by intros [= _ _ -> _ _]. Qed.

Lemma put_rows now m w r w' :
  on_server (Rpc.on_inbox (Inbox.put now (m_ToDid m) m)) w = (r, w') ->
  inbox_rows (db w') = inbox_rows (db w) \/
  inbox_rows (db w') = Inbox.insert_or_ignore (row_of now m) (inbox_rows (db w)).
Proof.
  unfold on_server, Rpc.on_inbox, zoom, Inbox.put, bind, exec, stmt. simpl.
  destruct (faults w) as [|[] fs]; simpl; intros [= <- <-]; unfold inbox_rows; simpl; auto.
Qed.

(** Whatever a stream brings, the inbox gains at most the message it carried. *)
Lemma receive_rows v remote data d r w' :
  receive e v remote data d = (r, w') ->
  inbox_rows (db w') = inbox_rows d \/
  exists bytes m, data = Some bytes /\ unmarshal_message bytes = Some m /\
    inbox_rows (db w') = Inbox.insert_or_ignore (row_of (v_now v) m) (inbox_rows d).
Proof.
  unfold receive.
  intros [[_ Hv]|(bytes & m & w1 & Hd & Hu & _ & _ & Hv & _ & E)]%receive_cases;
    apply but_sessions_rows in Hv; [by left|]. simpl in Hv.
  rewrite <- Hv. case_bool_decide.
  - left. unfold receive_invite in E. destruct (unmarshal_thread _) as [th|]; [|by injection E as _ <-].
    destruct (d_hasThreads _); [|by injection E as _ <-]. cbn [negb] in E.
    destruct (Chain.VerifyDescriptor _); [|by injection E as _ <-..]. destruct (existsb _ _); [|by injection E as _ <-].
    cbn [negb] in E. unfold catch, on_manager, zoom in E. destruct (Manager.InviteReceived _ _ _ _) as [[[]|x|] w2];
      by injection E as _ <-.
  - unfold receive_message, catch in E. destruct (on_server _ w1) as [res w2] eqn:E1. apply put_rows in E1.
    assert (Hr : inbox_rows (db w') = inbox_rows (db w2)).
    { destruct res as [[]|x|]; [|by injection E as _ <-..]. destruct (d_hasHandler _); [|by injection E as _ <-].
      cbn [negb] in E. destruct (on_server (Rpc.HandleIncoming _ _ _) w2) as [res w3] eqn:E2.
      assert (Hi : inbox_rows (db w3) = inbox_rows (db w2)).
      { revert E2. unfold on_server, zoom.
        pose proof (HandleIncoming_inbox (Rpc.inbox (server (db w2))) (v_clk v) (v_uuid v) m
          (World (server_view (db w2)) (faults w2)) eq_refl) as Hi. unfold inbox_is in Hi.
        destruct (Rpc.HandleIncoming _ _ _ _) as [r3 w4]. intros [= _ <-]. unfold inbox_rows. simpl in *. by rewrite Hi. }
      destruct res as [[]|x|]; injection E as _ <-; exact Hi. }
    rewrite Hr. destruct E1 as [E1|E1]; [by left|right]. eauto.
Qed.

Lemma receive_acked v remote bytes d w' m :
  unmarshal_message bytes = Some m -> m_Kind m <> KIND_THREAD_INVITE ->
  receive e v remote (Some bytes) d = (Ok true, w') -> m_Id m ∈ inbox_ids (db w').
Proof.
  unfold receive. intros Hu Hk [[Hr _]|(bytes' & m' & w1 & [= <-] & Hu' & _ & _ & _ & _ & E)]%receive_cases; [done|].
  rewrite Hu in Hu'. injection Hu' as <-. rewrite bool_decide_eq_false_2 in E by done.
  apply receive_message_ok in E as (row & Hin & Hid & _). rewrite <- Hid. by apply list_elem_of_fmap_2.
Qed.

(** A row is added at the end, unless its id is taken. *)
Lemma insert_ids now m l :
  Inbox.i_id <$> Inbox.insert_or_ignore (row_of now m) l =
    if bool_decide (m_Id m ∈ Inbox.i_id <$> l) then Inbox.i_id <$> l else ((Inbox.i_id <$> l) ++ [m_Id m])%list.
Proof. unfold Inbox.insert_or_ignore. simpl. case_bool_decide; [done|]. by rewrite fmap_app. Qed.

Lemma inbox_ok_insert now m d d' : (m_Id m = m_Id msg -> m = msg) ->
  inbox_rows d' = Inbox.insert_or_ignore (row_of now m) (inbox_rows d) ->
  inbox_ok d -> inbox_ok d' /\ (stored d -> stored d').
Proof.
  intros Hm E [Hnd Hrow]. unfold inbox_ok, stored, inbox_ids in *. rewrite E, insert_ids.
  case_bool_decide as Hin.
  - assert (El : Inbox.insert_or_ignore (row_of now m) (inbox_rows d) = inbox_rows d).
    { unfold Inbox.insert_or_ignore. simpl. by rewrite bool_decide_eq_true_2. }
    by rewrite El.
  - split; [split|].
    + apply NoDup_app. split; [done|]. split; [|apply NoDup_singleton]. intros x Hx ->%list_elem_of_singleton. done.
    + intros r. unfold Inbox.insert_or_ignore. simpl. rewrite bool_decide_eq_false_2 by done.
      intros [Hr| ->%list_elem_of_singleton]%elem_of_app Hid; [by apply Hrow|]. simpl in *. by rewrite Hm.
    + intros Hs. apply elem_of_app. by left.
Qed.

Lemma inbox_ok_receive v remote data d r w' :
  (forall bytes m, data = Some bytes -> unmarshal_message bytes = Some m -> m_Id m = m_Id msg -> m = msg) ->
  receive e v remote data d = (r, w') -> inbox_ok d -> inbox_ok (db w') /\ (stored d -> stored (db w')).
Proof.
  intros Hm [E|(bytes & m & Hd & Hu & E)]%receive_rows Hok.
  - unfold inbox_ok, stored, inbox_ids in *. by rewrite E.
  - eapply inbox_ok_insert; [|exact E|done]. by eapply Hm.
Qed.

(** ** Both together *)

Hypothesis Hkind : m_Kind msg <> KIND_THREAD_INVITE.

Definition inv (s : System) : Prop := rows_ok msg (stored (recipient s)) (sender s) /\ inbox_ok (recipient s).

(** The recipient after a transmission of [m], which was answered with [r]. *)
Definition sent (m : Message) (d d' : Daemon) (r : option Z) : Prop :=
  inbox_ok d' /\ (stored d -> stored d') /\ (r = Some ackOK -> m_Id m = m_Id msg -> stored d').

Lemma write_sent f m data w : marshal_message m = Some data -> (m_Id m = m_Id msg -> m = msg) ->
  inbox_ok (recipient (db w)) ->
  exists w1, write e f (frame data) w = (Ok (f_written f), w1) /\ sender (db w1) = sender (db w) /\
    sent m (recipient (db w)) (recipient (db w1)) (answer (db w1)).
Proof.
  intros Hd Hm Hok. unfold write.
  destruct (receive e _ _ _ _) as [r w2] eqn:E. eexists. split; [reflexivity|]. split; [done|]. simpl.
  pose proof (message_roundtrip _ _ Hd) as Hu. pose proof (message_size _ _ Hd) as Hs.
  rewrite frame_read in E by lia. set (b := (slen (frame data) <=? _) && _) in E.
  assert (Hdec : forall bytes m', (if b then Some data else None) = Some bytes -> unmarshal_message bytes = Some m' ->
    m' = m /\ b = true).
  { intros bytes m' Hb Hu'. destruct b; [|done]. injection Hb as <-. split; [congruence|done]. }
  destruct (inbox_ok_receive _ _ _ _ _ _ ltac:(intros bytes m' Hb Hu' Hi;
    destruct (Hdec _ _ Hb Hu') as [-> _]; exact (Hm Hi)) E Hok) as [Hok' Hst].
  split; [exact Hok'|]. split; [exact Hst|]. intros Ha Hi.
  destruct r as [[]|x|]; [|discriminate..]. destruct b.
  - unfold stored. rewrite <- Hi. eapply receive_acked; [exact Hu| |exact E]. by rewrite Hm.
  - unfold receive in E. simpl in E. discriminate.
Qed.

Lemma deliver_sent n m w r w' :
  (forall p, m_Id m = m_Id msg -> route e id_of_key n m = Some p -> p = peer_ID (e_to e)) -> (m_Id m = m_Id msg -> m = msg) ->
  deliver e id_of_key n m w = (r, w') -> inbox_ok (recipient (db w)) ->
  sender (db w') = sender (db w) /\
  sent m (recipient (db w)) (recipient (db w')) (match r with Ok _ => Some ackOK | _ => None end).
Proof.
  intros Hroute Hm E Hok. unfold deliver in E.
  destruct (route e id_of_key n m) as [p|] eqn:Hr; [|by injection E as <- <-].
  destruct (String.eqb_spec p (peer_ID (e_to e))) as [_|Hp].
  - unfold sendToPeerRaw in E. destruct (f_opened _); [|by injection E as <- <-]. cbn [negb] in E.
    destruct (marshal_message m) as [data|] eqn:Hd; [|by injection E as <- <-].
    destruct (write_sent (fate n m) m data w Hd Hm Hok) as (w1 & Ew & Hs & Hok1 & Hst & Hack).
    unfold bind at 1 in E. rewrite Ew in E. destruct (f_written _); cbn [negb] in E; [|by injection E as <- <-].
    unfold bind, read in E. destruct (f_acked _); [|by injection E as <- <-].
    destruct (answer (db w1)) as [b|]; [|by injection E as <- <-].
    destruct (Z.eqb_spec b ackOK) as [Hb|_]; injection E as <- <-; [rewrite Hb in Hack|]; done.
  - destruct (elsewhere n p m); injection E as <- <-; [|done]. split; [done|]. split; [done|]. split; [done|].
    intros _ Hi. by destruct Hp; apply Hroute.
Qed.

Lemma inv_on_sender {A} (m : M Outbox.state A) :
  (forall P, preserves (rows_ok msg P) m) -> preserves inv (on_sender m).
Proof. intros Hm. apply preserves_zoom; [|by intros []]. intros s [_ Hi] w [Hw _]. split; [by apply Hm|done]. Qed.

Lemma deliver_item_inv n fin item :
  (forall p, route e id_of_key n msg = Some p -> p = peer_ID (e_to e)) -> keyed msg item ->
  preserves inv (deliver_item e id_of_key n fin item).
Proof.
  intros Hroute [Hk Hpay]. unfold deliver_item. destruct (o_payload item) as [m|] eqn:Hp.
  - intros w [Hrows Hok]. unfold catch. destruct (deliver e id_of_key n m w) as [r w1] eqn:E.
    assert (Hm : m_Id m = m_Id msg -> m = msg).
    { intros Hi. specialize (Hk m eq_refl). rewrite <- Hk in Hpay. specialize (Hpay Hi). congruence. }
    apply deliver_sent in E as (Hs & Hok1 & Hst & Hack); [|intros p Hi; rewrite (Hm Hi); apply Hroute|done|done].
    assert (Hinv : inv (db w1)) by (split; [rewrite Hs; by eapply rows_ok_mono|done]).
    assert (Hfin : forall ok, (ok = true -> r = Ok tt) -> preserves (fun s => inv s /\ recipient s = recipient (db w1))
      (on_sender (flush_item (fun _ => ok) fin item))).
    { intros ok Hr. apply preserves_zoom; [|by intros []]. intros s [[Hrs Hi] Heq] w2 [[Hw2 _] _]. simpl in *.
      split; [|done]. split; [|done]. apply rows_ok_item; [by split; rewrite Hp| |done].
      intros Hid Hok'. rewrite Heq. apply Hack; [by rewrite Hr|]. rewrite (Hk m eq_refl). done. }
    destruct r as [[]|x|]; [| |exact Hinv].
    + by apply (Hfin true ltac:(done) w1).
    + by apply (Hfin false ltac:(done) w1).
  - apply inv_on_sender. intros P. apply rows_ok_item; [by split; rewrite Hp|done].
Qed.

Lemma flush_inv n t1 t2 fin k :
  (forall p, route e id_of_key n msg = Some p -> p = peer_ID (e_to e)) ->
  preserves inv (flush_items e id_of_key n t1 t2 fin k).
Proof.
  intros Hroute w [Hrows Hok]. unfold flush_items, catch, on_sender, zoom.
  pose proof (rows_ok_begin msg _ t1 t2 (World (sender (db w)) (faults w)) Hrows) as [Hb Hit].
  destruct (flush_begin t1 t2 _) as [[items|x|] w1]; simpl in *; [|by split..].
  apply preserves_for_each_in; [|by split]. intros item Hin. apply deliver_item_inv; [done|].
  rewrite Forall_forall in Hit. apply Hit. rewrite <- (take_drop k items). apply elem_of_app. by left.
Qed.

Lemma ack_rows now owner mid w r w' :
  on_server (Rpc.on_inbox (Inbox.ack now owner mid)) w = (r, w') ->
  exists f, inbox_rows (db w') = f <$> inbox_rows (db w) /\
    forall x, Inbox.i_id (f x) = Inbox.i_id x /\ Inbox.i_owner (f x) = Inbox.i_owner x /\ Inbox.i_payload (f x) = Inbox.i_payload x.
Proof.
  unfold on_server, Rpc.on_inbox, zoom, Inbox.ack, exec, stmt. simpl.
  destruct (faults w) as [|[] fs]; simpl; intros [= <- <-]; unfold inbox_rows; simpl.
  2: { exists (fun x => x). split; [by rewrite list_fmap_id|done]. }
  all: eexists; (split; [reflexivity|]); intros x; simpl; by destruct (bool_decide _ && _).
Qed.

Lemma step_inv s s' : step e id_of_key msg s s' -> inv s -> inv s'.
Proof.
  intros Hstep Hi. pose proof Hi as [Hrows Hok]. destruct Hstep as [fs t1 t2 owner m s|fs n t1 t2 fin k s Hr|fs s|v remote data s Hd|fs now owner mid s|d s Hd].
  - apply (inv_on_sender (EnqueueForOwner t1 t2 owner m) (fun P => rows_ok_enqueue msg P t1 t2 owner m) (World s fs) Hi).
  - apply (flush_inv n t1 t2 fin k Hr (World s fs) Hi).
  - apply (inv_on_sender migrate (rows_ok_migrate msg) (World s fs) Hi).
  - destruct (receive e v remote data (recipient s)) as [r w1] eqn:E.
    destruct (inbox_ok_receive _ _ _ _ _ _ ltac:(intros bytes m Hb Hu Hid; destruct (Hd _ _ Hb Hu Hid)) E Hok) as [Hok' Hst].
    split; [by eapply rows_ok_mono|exact Hok'].
  - destruct (on_server _ (World (recipient s) fs)) as [r w1] eqn:E. apply ack_rows in E as (f & Ef & Hf).
    assert (Eids : inbox_ids (db w1) = inbox_ids (recipient s)).
    { unfold inbox_ids. rewrite Ef, <- list_fmap_compose. apply list_fmap_ext. intros i x _. simpl. by destruct (Hf x). }
    split; [eapply rows_ok_mono; [|exact Hrows]; unfold stored; simpl; by rewrite Eids|]. destruct Hok as [Hnd Hrow].
    split; [simpl; by rewrite Eids|]. intros x Hx. simpl in Hx. rewrite Ef in Hx.
    apply list_elem_of_fmap in Hx as (y & -> & Hy). destruct (Hf y) as (-> & -> & ->). by apply Hrow.
  - unfold inv, inbox_ok, stored, inbox_ids in *. simpl. by rewrite Hd.
Qed.

(** ** The sender's row survives *)

Lemma deliver_sender n m w r w' : deliver e id_of_key n m w = (r, w') -> sender (db w') = sender (db w).
Proof.
  unfold deliver. destruct (route _ _ _ _) as [p|]; [|by intros [= <- <-]]. destruct (String.eqb _ _).
  - unfold sendToPeerRaw, bind, write, read. destruct (f_opened _); [|by intros [= <- <-]]. cbn [negb].
    destruct (marshal_message m); [|by intros [= <- <-]]. destruct (receive _ _ _ _ _) as [res w1].
    destruct (f_written _); cbn [negb]; [|by intros [= <- <-]]. simpl.
    destruct (if f_acked _ then _ else _) as [b|]; [|by intros [= <- <-]]. by destruct (b =? ackOK); intros [= <- <-].
  - by destruct (elsewhere n p m); intros [= <- <-].
Qed.

Lemma step_at (J : row -> Prop) s s' :
  stable J -> step e id_of_key msg s s' -> at_id (m_Id msg) J (sender s) -> at_id (m_Id msg) J (sender s').
Proof.
  set (id := m_Id msg). intros HJ Hstep Hat.
  assert (Hz : forall A (m : M Outbox.state A), preserves (at_id id J) m ->
    preserves (fun s => at_id id J (sender s)) (on_sender m)).
  { intros A m Hm. apply preserves_zoom; [|by intros []]. intros t _. exact Hm. }
  pose proof (st_flush J HJ) as Hf.
  destruct Hstep as [fs t1 t2 owner m s|fs n t1 t2 fin k s Hr|fs s|v remote data s Hd|fs now owner mid s|d s Hd]; try done.
  - apply (Hz _ _ (enqueue_at id J t1 t2 owner m) (World s fs) Hat).
  - unfold run, flush_items, catch. unfold on_sender at 1, zoom. simpl.
    destruct (flush_begin_at id J (fun _ => true) (Hf _) t1 t2 (World (sender s) fs) Hat) as [Hb Hit].
    destruct (flush_begin t1 t2 _) as [[items|x|] w1]; simpl in *; [|done..].
    revert w1 Hb. generalize (recipient s) (answer s). intros rc an w1 Hb.
    apply (preserves_for_each_in (fun s => at_id id J (sender s)) (take k items) (deliver_item e id_of_key n fin)); [|exact Hb]. intros item Hin. assert (Hc : o_id item = id -> claimed_from J item).
    { intros Hid. apply Hit; [|done]. rewrite <- (take_drop k items). apply elem_of_app. by left. }
    unfold deliver_item. destruct (o_payload item) as [m|]; [|apply Hz, flush_item_at; [apply Hf|done]].
    intros w Hw. unfold catch. destruct (deliver e id_of_key n m w) as [r w2] eqn:E.
    apply deliver_sender in E. rewrite <- E in Hw.
    destruct r as [[]|x|]; [| |exact Hw]; apply Hz; try exact Hw; apply flush_item_at; auto.
  - apply (Hz _ _ (migrate_at id J (fun r => st_restart J HJ r) (fun r => st_wake J HJ r)) (World s fs) Hat).
Qed.
End Recipient.

(** ** Exactly one copy *)

Lemma unique_copy {A} (f : A -> string) k (l : list A) : NoDup (f <$> l) ->
  filter (fun x => f x = k) l = [] \/ exists x, filter (fun x => f x = k) l = [x] /\ x ∈ l /\ f x = k.
Proof.
  induction l as [|x l IH]; simpl; [by left|]. intros [Hn Hd]%NoDup_cons. rewrite filter_cons. case_decide as Hx.
  - right. exists x. split; [|by split; [left|]]. f_equal. destruct (IH Hd) as [->|(y & _ & Hy & Hk)]; [done|].
    exfalso. apply Hn. rewrite Hx, <- Hk. by apply list_elem_of_fmap_2.
  - destruct (IH Hd) as [->|(y & -> & Hy & Hk)]; [by left|]. right. exists y. split; [done|]. split; [by right|done].
Qed.

(** The copies of a message in an inbox. *)
Definition copies (msg : Message) (d : Daemon) : list Inbox.row :=
  filter (fun r => Inbox.i_id r = m_Id msg) (inbox_rows d).

(** What a row of the outbox is while its message is followed. *)
Definition carries (msg : Message) (r : row) : Prop :=
  if durableKind (m_Kind msg) then safe_durable msg r else o_payload r = Some msg.

Lemma carries_stable msg : stable (carries msg).
Proof.
  unfold carries. destruct (durableKind (m_Kind msg)); [apply safe_durable_stable|].
  by split; [intros d; split|..].
Qed.

Lemma carries_payload msg r : carries msg r -> o_payload r = Some msg /\
  (durableKind (m_Kind msg) = true -> o_status r = pending \/ o_status r = processing \/ o_status r = delivered).
Proof. unfold carries, safe_durable. destruct (durableKind (m_Kind msg)); naive_solver. Qed.

(** C40: A message reaches its recipient once: let a message that is not a THREAD_INVITE be
    enqueued under an id that is new in the sender's outbox and in the recipient's
    inbox, let every route the sender finds for it lead to its recipient, and let nobody
    else send the recipient a message of that id.  From then on, whatever else either
    daemon does, however often transmissions are lost, cut short, repeated or answered
    in vain, and whichever database statements fail, the recipient's inbox has at most
    one row with the id, which holds the message as sent, for its addressee; a message
    the sender has marked as delivered has that row; and the row of a task message is
    never given up before. *)
Theorem mail_exactly_once `{Crypto} `{Codec} `{TaskCodec} `{ThreadManager} `{ActorBackend} `{FramingLaws}
    e id_of_key msg t1 t2 owner w u wA d ans s :
  EnqueueForOwner t1 t2 owner msg w = (Ok u, wA) ->
  NoDup (ids (db w)) -> Forall (fun r => forall m, o_payload r = Some m -> m_Id m = o_id r) (rows (db w)) ->
  m_Id msg ∉ ids (db w) -> NoDup (inbox_ids d) -> m_Id msg ∉ inbox_ids d -> m_Kind msg <> KIND_THREAD_INVITE ->
  rtc (step e id_of_key msg) (mkSystem (db wA) d ans) s ->
  (copies msg (recipient s) = [] \/
   exists c, copies msg (recipient s) = [c] /\ Inbox.i_owner c = m_ToDid msg /\ Inbox.i_payload c = Some msg) /\
  exists r, r ∈ rows (sender s) /\ o_id r = m_Id msg /\ o_payload r = Some msg /\
    (o_status r = delivered -> copies msg (recipient s) <> []) /\
    (durableKind (m_Kind msg) = true -> o_status r = pending \/ o_status r = processing \/ o_status r = delivered).
Proof.
  intros Henq Hnd Hkey Hfresh Hnd' Hfresh' Hkind Hrun.
  assert (Hstart : inv msg (mkSystem (db wA) d ans) /\ at_id (m_Id msg) (carries msg) (db wA)).
  { pose proof (enqueue_ok _ _ _ _ _ _ _ Henq Hnd Hfresh) as Hat. split.
    - split; [|split; [done|]].
      + pose proof Hat as [_ (r & Hr & Hid & <-)]. split; [rewrite <- Hid; by apply list_elem_of_fmap_2|]. simpl.
        unfold EnqueueForOwner, enqueue in Henq. apply bind_ok in Henq as ([] & w1 & E%exec_ok & E2).
        injection E2 as _ <-. simpl. rewrite E. simpl. unfold insert_or_ignore. rewrite bool_decide_eq_false_2 by done.
        apply Forall_app. split; [|apply Forall_singleton; split; [|done]; split; [by intros ? [= <-]|done]].
        rewrite Forall_forall in Hkey |- *. intros x Hx. split; [|intros Hi; destruct Hfresh; rewrite <- Hi; by apply list_elem_of_fmap_2].
        split; [by apply Hkey|]. intros Hi. destruct Hfresh. rewrite <- Hi. by apply list_elem_of_fmap_2.
      + intros r Hr Hid. destruct Hfresh'. rewrite <- Hid. by apply list_elem_of_fmap_2.
    - eapply at_id_impl; [|exact Hat]. intros r <-. unfold carries, safe_durable. simpl. destruct (durableKind _); auto. }
  assert (Hs : inv msg s /\ at_id (m_Id msg) (carries msg) (sender s)).
  { revert Hstart. change (db wA) with (sender (mkSystem (db wA) d ans)) at 2.
    induction Hrun as [s|x y z Hstep _ IH]; [done|]. intros [Hi Ha]. apply IH. split; [by eapply step_inv|].
    eapply step_at; [apply carries_stable|exact Hstep|exact Ha]. }
  destruct Hs as [[[_ Hrows] [Hids Hrow]] [_ (r & Hr & Hid & [Hp Hdur]%carries_payload)]].
  destruct (unique_copy Inbox.i_id (m_Id msg) (inbox_rows (recipient s)) Hids) as [E|(c & E & Hc & Hk)];
    unfold copies; rewrite E.
  - split; [by left|]. exists r. split; [done|]. split; [done|]. split; [done|]. split; [|done].
    intros Hst. rewrite Forall_forall in Hrows. destruct (Hrows r Hr) as [_ Hd]. specialize (Hd Hid Hst).
    apply list_elem_of_fmap in Hd as (x & Hx & Hin). assert (Hf : x ∈ filter (fun r => Inbox.i_id r = m_Id msg) (inbox_rows (recipient s))).
    { by apply list_elem_of_filter. } rewrite E in Hf. by apply elem_of_nil in Hf.
  - split; [right; exists c; split; [done|]; by apply Hrow|]. exists r. split; [done|]. split; [done|]. split; [done|].
    by split.
Qed.

(** ** A lost acknowledgement *)

Definition note : Message := mkMessage "n1" toy_hijacker toy_self "" "" KIND_TEXT "hello" 5 "".

#[local] Existing Instance DeliverFacts.toy_task_codec.
#[local] Instance note_wire : WireCodec := {|
  unmarshal_message b := if String.eqb b "note" then Some note else None;
  unmarshal_thread _ := None |}.
#[local] Instance note_framing : Framing := {|
  marshal_message m := if decide (m = note) then Some "note" else None;
  frame := msgio_frame;
  read_frame := msgio_read |}.

#[local] Instance note_framing_laws : FramingLaws.
Proof.
  split; [| |apply msgio_frame_read]; simpl; intros m d; (case_decide as E; [|done]); intros [= <-]; [by subst|].
  unfold slen. simpl. lia.
Qed.

(** The sender is connected to the recipient; the first acknowledgement is lost. *)
Definition note_ends : Ends :=
  mkEnds toy_deliverer toy_deliverer toy_self (mkPeer other_key (Some other_key)) (mkPeer toy_key (Some toy_key)).
Definition note_net (acked : bool) : Net :=
  mkNet (fun _ => true) (fun _ => None) (fun _ => false) (fun _ _ => false)
    (fun _ => mkFate true 100 true (mkVisit 7 toy_clock "u" []) acked).

Definition second : Z := 1000000000.
Definition note_queued : world Outbox.state := snd (EnqueueForOwner second second "o" note (World (Outbox.mkState [] false) [])).
Definition note_flush (acked : bool) (t : Z) (s : System) : System :=
  run (flush_items note_ends (fun k => k) (note_net acked) t t (fun _ => t / 1000000) 50) [] s.
Definition note_end : System :=
  note_flush true (20 * second) (note_flush false (10 * second) (mkSystem (db note_queued) toy_daemon None)).

(** Two transmissions, both stored by the recipient's handler, leave one row. *)
Lemma mail_exactly_once_witness :
  (fun r => (o_attempts r, o_status r)) <$> rows (sender note_end) = [(2, delivered)] /\
  exists c, copies note (recipient note_end) = [c] /\ Inbox.i_owner c = toy_self /\ Inbox.i_payload c = Some note.
Proof.
  split; [vm_compute; reflexivity|].
  assert (Hroute : forall b p, route note_ends (fun k => k) (note_net b) note = Some p -> p = peer_ID (e_to note_ends)).
  { intros b p. vm_compute. by intros [= <-]. }
  destruct (mail_exactly_once note_ends (fun k => k) note second second "o" (World (Outbox.mkState [] false) []) tt note_queued
    toy_daemon None note_end) as [[E|E] _].
  - vm_compute. reflexivity.
  - constructor.
  - constructor.
  - apply not_elem_of_nil.
  - vm_compute. constructor.
  - vm_compute. apply not_elem_of_nil.
  - done.
  - eapply rtc_l; [apply step_flush, (Hroute false)|]. eapply rtc_l; [apply step_flush, (Hroute true)|]. apply rtc_refl.
  - exfalso. revert E. vm_compute. discriminate.
  - exact E.
Defined.
