(* ===== verification/Publisher.v ===== *)
(** * Durability of threads beyond their replicas ([daemon/thread/publisher.go],
    [archive.go], [archive_worker.go], [gossip_validation.go], [pkg/p2putil])

    Publishing committed blocks to a content-addressed block store with pointers in
    the DHT, resolving and fetching them again, signed receipts and recovery
    envelopes, the archive worker and the validator of consensus gossip.  What this
    daemon writes to the network is its log ([Net]); what the network answers is a
    [View], an argument of the operations that read it.  A step on the network is a
    statement that may fail. *)

From stdpp Require Import base gmap strings list pretty.
From Stdlib Require Import ZArith Lia Ascii.
From S2P Require Import Prelude GoStd Identity ThreadStore ConsensusStore Membership Chain Records Manager.

Local Open Scope string_scope.
Local Open Scope Z_scope.
Local Open Scope go_scope.

Import Identity ThreadStore Membership Chain Keys.

(** [RecoveryEnvelopeHead]. *)
Record RecoveryEnvelopeHead : Type := mkRHead {
  rv_ThreadID : string; rv_Epoch : Z; rv_EnvelopeCID : string; rv_PublishedAt : Z }.

(** Protobuf and JSON forms; [cid_text] writes the CIDv1 (raw, sha2-256) of a
    digest. *)
Class ArchiveCodec : Type := {
  proto_block : ThreadBlock -> option string;
  un_block : string -> option ThreadBlock;
  json_head : ThreadHead -> option string;
  un_thread_head : string -> option ThreadHead;
  proto_envelope : ThreadKeyEnvelope -> option string;
  un_key_envelope : string -> option ThreadKeyEnvelope;
  json_rhead : RecoveryEnvelopeHead -> option string;
  un_rhead : string -> option RecoveryEnvelopeHead;
  proto_ack : Archive.Acknowledgement -> string;
  un_ack : string -> option Archive.Acknowledgement;
  cid_text : string -> string }.

(** What the network answers: a DHT value, a block fetched by its CID. *)
Record View : Type := mkView {
  GetValue : string -> outcome string;
  GetBlock_ : string -> outcome string }.

(** What this daemon has written: its block store, the values it put into the DHT,
    the CIDs it provides. *)
Record Net : Type := mkNet {
  bstore : gmap string string; puts : list (string * string); provided : list string }.

Module Publisher.
Section Publisher.
Context `{Crypto} `{Codec} `{RecordCodec} `{ArchiveCodec}.

(** The CID of a block of data; encoding a sha2-256 digest cannot fail. *)
Definition CIDv1Block (data : string) : string := cid_text (Sum256 data).

(** ** Publishing ([publisher.go]) *)

Definition threadHeadDHTKey (threadID : string) : string := "/threads/" +:+ threadID.
Definition threadHeightDHTKey (threadID : string) (height : Z) : string :=
  "/threads/" +:+ threadID +:+ "/" +:+ pretty height.

Definition bs_Put (c data : string) : M Net unit :=
  exec (fun n => mkNet (<[c := data]> (bstore n)) (puts n) (provided n)).
Definition NotifyNewBlocks : M Net unit := exec (fun n => n).
Definition PutValue (key value : string) : M Net unit :=
  exec (fun n => mkNet (bstore n) (puts n ++ [(key, value)]) (provided n)).
Definition Provide (c : string) : M Net unit :=
  exec (fun n => mkNet (bstore n) (puts n) (c :: provided n)).

Definition ArchiveProviderCID (threadID : string) : outcome string :=
  if String.eqb threadID "" then Err (Errorf "thread id required")
  else Ok (cid_text (Sum256 ("moltmesh/archive/v1/" +:+ threadID))).

Definition AdvertiseArchiveProvider (hasDHT : bool) (threadID : string) : M Net unit :=
  if negb hasDHT then throw (Errorf "archive provider discovery requires DHT") else
  let! c := Manager.lift (ArchiveProviderCID threadID) in
  Provide c.

(** The fields of a Publisher that may be nil. *)
Record Config : Type := mkConfig { p_dht : bool; p_blockstore : bool; p_bitswap : bool }.

(** Failures are logged; only a failed store ends the publication. *)
Definition publishBlock (p : Config) (now : Z) (thread : Thread) (block : ThreadBlock) : M Net unit :=
  match proto_block block with
  | None => ret tt
  | Some data =>
      let c := CIDv1Block data in
      let! stored := (if p_blockstore p then
                        catch (bs_Put c data) (fun r =>
                          match r with
                          | Ok _ => do! (if p_bitswap p then log_err NotifyNewBlocks else ret tt) in ret true
                          | _ => ret false
                          end)
                      else ret true) in
      if negb (stored : bool) then ret tt else
      if negb (p_dht p) then ret tt else
      let head := mkHead (ThreadId block) (Height block) c (BlockHash block) now (Some thread) in
      match json_head head with
      | None => ret tt
      | Some headData =>
          do! log_err (PutValue (threadHeightDHTKey (ThreadId block) (Height block)) headData) in
          do! log_err (PutValue (threadHeadDHTKey (ThreadId block)) headData) in
          log_err (AdvertiseArchiveProvider (p_dht p) (ThreadId block))
      end
  end.

(** A nil publisher does nothing. *)
Definition PublishBlock (p : option Config) (now : Z) (thread : Thread) (block : ThreadBlock) : M Net unit :=
  match p with None => ret tt | Some p => publishBlock p now thread block end.

Definition ResolveHead (v : View) (threadID : string) : outcome ThreadHead :=
  match GetValue v (threadHeadDHTKey threadID) with
  | Err _ => Err (Errorf "dht get thread head")
  | Panic => Panic
  | Ok data =>
      match un_thread_head data with
      | None => Err (Errorf "unmarshal thread head")
      | Some head =>
          if negb (String.eqb (h_ThreadID head) threadID)
          then Err (Errorf "thread head ID does not match lookup") else
          if negb (cid_Decode (h_BlockCid head)) then Err (Errorf "invalid thread head CID") else Ok head
      end
  end.

Definition ResolveHeight (v : View) (threadID : string) (height : Z) : outcome ThreadHead :=
  match GetValue v (threadHeightDHTKey threadID height) with
  | Err _ => Err (Errorf "dht get thread height")
  | Panic => Panic
  | Ok data =>
      match un_thread_head data with
      | None => Err (Errorf "unmarshal thread height record")
      | Some head =>
          if negb (String.eqb (h_ThreadID head) threadID) || negb (h_Height head =? height)
          then Err (Errorf "thread height record does not match lookup") else
          if negb (cid_Decode (h_BlockCid head)) then Err (Errorf "invalid thread height CID") else Ok head
      end
  end.

Definition FetchBlock (v : View) (cidStr : string) : outcome ThreadBlock :=
  if negb (cid_Decode cidStr) then Err (Errorf "invalid block cid") else
  match GetBlock_ v cidStr with
  | Err _ => Err (Errorf "fetch block")
  | Panic => Panic
  | Ok data => match un_block data with None => Err (Errorf "unmarshal block") | Some b => Ok b end
  end.

(** ** Receipts and recovery envelopes ([archive.go]) *)

(** [id]: the DID and key of the identity. *)
Definition NewArchiveAcknowledgement (id : option (string * string)) (threadID blockHash : string) (at_ : Z)
    : outcome Archive.Acknowledgement :=
  match id with
  | None => Err (Errorf "archive acknowledgement requires identity, thread id, and block hash")
  | Some (did, sk) =>
      if String.eqb threadID "" || String.eqb blockHash ""
      then Err (Errorf "archive acknowledgement requires identity, thread id, and block hash") else
      let ack := Archive.mkAck threadID did blockHash at_ "" in
      Ok (Archive.mkAck threadID did blockHash at_ (ed25519_sign sk (proto_ack ack)))
  end.

Definition RecoveryEnvelopeTopic (threadID : string) : string :=
  "moltmesh/thread/" +:+ threadID +:+ "/recovery-envelopes/v1".

Definition recoveryEnvelopeDHTKey (threadID : string) (epoch : Z) : string :=
  "/threads/" +:+ threadID +:+ "/recovery/" +:+ pretty epoch.

Definition PublishRecoveryEnvelope (hasDHT hasBlockstore hasBitswap : bool) (now : Z)
    (envelope : option ThreadKeyEnvelope) : M Net unit :=
  match envelope with
  | None => throw (Errorf "recovery envelope publishing requires DHT, blockstore, and envelope")
  | Some e =>
      if negb hasDHT || negb hasBlockstore
      then throw (Errorf "recovery envelope publishing requires DHT, blockstore, and envelope") else
      match proto_envelope e with
      | None => throw (Errorf "proto: invalid UTF-8")
      | Some raw =>
          let c := CIDv1Block raw in
          do! bs_Put c raw in
          do! (if hasBitswap then log_err NotifyNewBlocks else ret tt) in
          match json_rhead (mkRHead (k_ThreadId e) (k_EncryptionEpoch e) c now) with
          | None => throw (Errorf "json")
          | Some head => PutValue (recoveryEnvelopeDHTKey (k_ThreadId e) (k_EncryptionEpoch e)) head
          end
      end
  end.

Definition ResolveRecoveryEnvelope (v : View) (threadID : string) (epoch : Z) : outcome RecoveryEnvelopeHead :=
  match GetValue v (recoveryEnvelopeDHTKey threadID epoch) with
  | Err e => Err e
  | Panic => Panic
  | Ok raw =>
      match un_rhead raw with
      | None => Err (Errorf "json")
      | Some head =>
          if negb (String.eqb (rv_ThreadID head) threadID) || negb (rv_Epoch head =? epoch)
          then Err (Errorf "recovery envelope manifest does not match request") else
          if negb (cid_Decode (rv_EnvelopeCID head)) then Err (Errorf "invalid cid") else Ok head
      end
  end.

Definition FetchRecoveryEnvelope (hasBitswap : bool) (v : View) (cidString : string) : outcome ThreadKeyEnvelope :=
  if negb hasBitswap then Err (Errorf "bitswap required") else
  if negb (cid_Decode cidString) then Err (Errorf "invalid cid") else
  match GetBlock_ v cidString with
  | Err e => Err e
  | Panic => Panic
  | Ok data => match un_key_envelope data with None => Err (Errorf "proto") | Some e => Ok e end
  end.

(** The envelope with its signature cleared. *)
Definition unsigned (e : ThreadKeyEnvelope) : ThreadKeyEnvelope := Keys.strip_signature e.

Definition VerifyRecoveryKeyEnvelopeCreator (creatorDID : string) (envelope : option ThreadKeyEnvelope)
    : outcome unit :=
  match envelope with
  | None => Err (Errorf "signed recovery key envelope required")
  | Some e =>
      if String.eqb creatorDID "" || negb (k_Recovery e) || (slen (k_AuthorSignature e) =? 0)
      then Err (Errorf "signed recovery key envelope required") else
      match proto_envelope (unsigned e) with
      | None => Err (Errorf "proto: invalid UTF-8")
      | Some raw =>
          match VerifyDID creatorDID raw (k_AuthorSignature e) with
          | Ok true => Ok tt
          | Panic => Panic
          | _ => Err (Errorf "invalid recovery key envelope signature")
          end
      end
  end.

(** [found]: the providers the DHT streams. *)
Fixpoint distinct (seen : list string) (found : list string) : list string :=
  match found with
  | [] => []
  | p :: rest => if bool_decide (p ∈ seen) then distinct seen rest else p :: distinct (p :: seen) rest
  end.

Definition DiscoverArchiveProviders (hasDHT : bool) (threadID : string) (found : list string)
    : outcome (list string) :=
  if negb hasDHT then Err (Errorf "archive provider discovery requires DHT") else
  match ArchiveProviderCID threadID with
  | Ok _ => Ok (distinct [] found)
  | Err e => Err e
  | Panic => Panic
  end.

(** ** History from the network *)

(** [kind := BackendKind(...); if kind == "" { kind = BackendRaft }]. *)
Definition archive_kind (th : Thread) : BackendKind :=
  let s := default "" (Metadata th !! "backend") in
  if String.eqb s "" then BackendRaft else Manager.BackendKindOf s.

(** The lookups of recoverThreadHistory and of Sync: the descriptor from a first
    lookup of the head, the chain from a second one ([v2]). *)
Definition resolve_history (v1 v2 : View) (threadID : string) : outcome (Thread * list ThreadBlock) :=
  match ResolveHead v1 threadID with
  | Err e => Err e
  | Panic => Panic
  | Ok head =>
      match h_Thread head with
      | None => Err (Errorf "published thread descriptor is unavailable")
      | Some th =>
          if negb (String.eqb (t_Id th) threadID)
          then Err (Errorf "published thread descriptor is unavailable") else
          match VerifyDescriptor (Some th) with
          | Err _ => Err (Errorf "verify thread descriptor")
          | Panic => Panic
          | Ok _ =>
              match VerifyChainFromHead (archive_kind th) threadID (ResolveHead v2 threadID)
                      (ResolveHeight v2 threadID) (FetchBlock v2) with
              | Ok chain => Ok (th, chain)
              | Err e => Err e
              | Panic => Panic
              end
          end
      end
  end.

(** ** Consensus gossip ([gossip_validation.go], [gossip.go]) *)

Definition maxConsensusMessageSize : Z := 1048576.

Definition ConsensusTopic (threadID : string) : string := "a2a/threads/" +:+ threadID +:+ "/consensus".

(** [un_consensus]: the thread a ConsensusMsg names and whether it has a payload. *)
Definition decodeConsensusMsg (un_consensus : string -> option (string * bool)) (threadID data : string)
    : outcome (option (string * bool)) :=
  match un_consensus data with
  | None => Err (Errorf "proto")
  | Some cm => if negb (String.eqb (fst cm) threadID) then Ok None else Ok (Some cm)
  end.

(** The validator registerConsensusValidator installs for [th], the thread at the time
    its topic is joined; [author]: the key extracted from the author's peer ID. *)
Definition consensus_validator (un_consensus : string -> option (string * bool)) (th : Thread)
    (author : option string) (data : string) : bool :=
  if (slen data =? 0) || (maxConsensusMessageSize <? slen data) then false else
  match author with
  | None => false
  | Some raw =>
      if negb (bool_decide (DIDFromPubBytes raw ∈ ReplicaDids th)) then false else
      match un_consensus data with
      | None => false
      | Some cm => String.eqb (fst cm) (t_Id th) && snd cm
      end
  end.

End Publisher.
End Publisher.

(** ** The archive worker ([archive_worker.go]) *)

Module ArchiveWorker.
Import Publisher.
Section ArchiveWorker.
Context `{Crypto} `{Codec} `{RecordCodec} `{ArchiveCodec}.

(** The worker with what it works on: the thread store, its archive tables and the
    network; the topics joined, and those of them with a subscription. *)
Record State : Type := mkState {
  w_store : Store; w_archive : Archive.ArchiveDB; w_net : Net;
  inFlight : gset string;
  ackTopics : gset string; ackSubs : gset string;
  recoveryTopics : gset string; recoverySubs : gset string;
  published : list Archive.Acknowledgement }.

Definition on_store {A} (m : M Store A) : M State A :=
  zoom w_store (fun s w => mkState s (w_archive w) (w_net w) (inFlight w) (ackTopics w) (ackSubs w)
                             (recoveryTopics w) (recoverySubs w) (published w)) m.
Definition on_archive {A} (m : M Archive.ArchiveDB A) : M State A :=
  zoom w_archive (fun a w => mkState (w_store w) a (w_net w) (inFlight w) (ackTopics w) (ackSubs w)
                               (recoveryTopics w) (recoverySubs w) (published w)) m.
Definition on_net {A} (m : M Net A) : M State A :=
  zoom w_net (fun n w => mkState (w_store w) (w_archive w) n (inFlight w) (ackTopics w) (ackSubs w)
                           (recoveryTopics w) (recoverySubs w) (published w)) m.
Definition with_inFlight (f : gset string -> gset string) (w : State) : State :=
  mkState (w_store w) (w_archive w) (w_net w) (f (inFlight w)) (ackTopics w) (ackSubs w)
    (recoveryTopics w) (recoverySubs w) (published w).
Definition with_acks (topics subs : gset string) (w : State) : State :=
  mkState (w_store w) (w_archive w) (w_net w) (inFlight w) topics subs (recoveryTopics w) (recoverySubs w)
    (published w).
Definition with_recovery (topics subs : gset string) (w : State) : State :=
  mkState (w_store w) (w_archive w) (w_net w) (inFlight w) (ackTopics w) (ackSubs w) topics subs (published w).
Definition with_published (l : list Archive.Acknowledgement) (w : State) : State :=
  mkState (w_store w) (w_archive w) (w_net w) (inFlight w) (ackTopics w) (ackSubs w) (recoveryTopics w)
    (recoverySubs w) l.

Definition state : M State State := fun w => (Ok (db w), w).
(** A call of pubsub, which may fail. *)
Definition external : M State unit := exec (fun w => w).

(** The fields of an ArchiveWorker that may be nil; its identity. *)
Record Config : Type := mkConfig {
  c_dht : bool; c_host : bool; c_ps : bool; c_blockstore : bool; c_bitswap : bool;
  c_id : option (string * string) }.

(** ** Subscriptions *)

(** The topic is recorded before it is subscribed to. *)
Definition ensureRecoveryEnvelopeSubscription (c : Config) (threadID : string) : M State unit :=
  if negb (c_ps c) || String.eqb threadID "" then ret tt else
  let! w := state in
  if bool_decide (threadID ∈ recoveryTopics w) then ret tt else
  catch external (fun r =>
    match r with
    | Ok _ =>
        do! modify (fun w => with_recovery ({[threadID]} ∪ recoveryTopics w) (recoverySubs w) w) in
        catch external (fun r =>
          match r with
          | Ok _ => modify (fun w => with_recovery (recoveryTopics w) ({[threadID]} ∪ recoverySubs w) w)
          | _ => ret tt
          end)
    | _ => ret tt
    end).

Definition ensureAckSubscription (c : Config) (threadID : string) : M State unit :=
  if negb (c_ps c) || String.eqb threadID "" then ret tt else
  let! w := state in
  if bool_decide (threadID ∈ ackTopics w) then ret tt else
  catch external (fun r =>
    match r with
    | Ok _ =>
        do! modify (fun w => with_acks ({[threadID]} ∪ ackTopics w) (ackSubs w) w) in
        catch external (fun r =>
          match r with
          | Ok _ => modify (fun w => with_acks (ackTopics w) ({[threadID]} ∪ ackSubs w) w)
          | _ => ret tt
          end)
    | _ => ret tt
    end).

(** One message of the recovery topic of a thread; [now]: the clock. *)
Definition receive_envelope (now : Z) (threadID data : string) : M State unit :=
  match un_key_envelope data with
  | None => ret tt
  | Some e =>
      if negb (k_Recovery e) || negb (String.eqb (k_ThreadId e) threadID) then ret tt else
      let complain detail := log_err (on_archive (Archive.RecordArchiveDiagnostic now
        (Archive.mkDiag threadID "unknown" "invalid-recovery-envelope" detail 0))) in
      catch (on_store (on_blocks (GetThread threadID))) (fun r =>
        let verdict := match r with
                       | Ok th => VerifyRecoveryKeyEnvelopeCreator (CreatorDid th) (Some e)
                       | Err e => Err e
                       | Panic => Panic
                       end in
        match verdict with
        | Panic => panic
        | Err _ => complain "creator signature verification failed"
        | Ok _ =>
            catch (on_store (on_keys (SaveRecoveryKeyEnvelope (Some e)))) (fun r =>
              match r with Ok _ => ret tt | _ => complain "save" end)
        end)
  end.

(** One message of a thread's receipt topic. *)
Definition receive_ack (now : Z) (threadID data : string) : M State unit :=
  match un_ack data with
  | None => ret tt
  | Some ack =>
      catch (on_archive (Archive.SaveArchiveAcknowledgement proto_ack (Some ack))) (fun r =>
        match r with
        | Ok _ => ret tt
        | _ => log_err (on_archive (Archive.RecordArchiveDiagnostic now
                 (Archive.mkDiag threadID (Archive.a_ProviderDid ack) "invalid-ack" "err" 0)))
        end)
  end.

Definition publishAcknowledgement (c : Config) (ack : Archive.Acknowledgement) : M State unit :=
  if negb (c_ps c) then ret tt else
  do! ensureAckSubscription c (Archive.a_ThreadId ack) in
  let! w := state in
  if negb (bool_decide (Archive.a_ThreadId ack ∈ ackTopics w)) then ret tt else
  log_err (do! external in modify (fun w => with_published (published w ++ [ack]) w)).

(** ** Sync *)

(** The pointer the walk uses at a height. *)
Definition pointer (v : View) (threadID : string) (head : ThreadHead) (h : Z) : outcome ThreadHead :=
  if h =? h_Height head then Ok head else ResolveHeight v threadID h.

(** The raw blocks the walk fetched, by CID, from height 1 up. *)
Definition fetched (v : View) (threadID : string) (n : nat) : list (string * string) :=
  match ResolveHead v threadID with
  | Ok head =>
      omap (fun h => match pointer v threadID head (Z.of_nat h) with
                     | Ok ptr => match GetBlock_ v (h_BlockCid ptr) with
                                 | Ok data => Some (h_BlockCid ptr, data) | _ => None end
                     | _ => None end) (seq 1 n)
  | _ => []
  end.

(** [v1]: the network at the first lookup of the head, [v2]: during the walk. *)
Definition sync_body (c : Config) (now : Z) (v1 v2 : View) (threadID : string)
    : M State Archive.Acknowledgement :=
  let! tc := Manager.lift (resolve_history v1 v2 threadID) in
  let '(th, chain) := tc in
  do! on_store (on_blocks (ImportHistory (Some th) chain)) in
  let blocks := fetched v2 threadID (length chain) in
  do! for_each blocks (fun b => on_net (bs_Put (fst b) (snd b))) in
  do! (if llen blocks >? 0 then log_err (on_net NotifyNewBlocks) else ret tt) in
  do! on_net (AdvertiseArchiveProvider (c_dht c) threadID) in
  match last chain with
  | None => panic
  | Some b =>
      let! ack := Manager.lift (NewArchiveAcknowledgement (c_id c) threadID (BlockHash b) now) in
      do! on_archive (Archive.SaveArchiveAcknowledgement proto_ack (Some ack)) in
      do! publishAcknowledgement c ack in
      ret ack
  end.

(** [defer func() { delete(w.inFlight, threadID) }()]: also on errors and panics. *)
Definition finally {A} (f : State -> State) (m : M State A) : M State A := fun w =>
  let '(r, w') := m w in (r, World (f (db w')) (faults w')).

(** Connecting to the providers found only primes Bitswap. *)
Definition Sync (c : Config) (now : Z) (v1 v2 : View) (threadID : string) : M State Archive.Acknowledgement :=
  if negb (c_dht c && c_bitswap c && c_blockstore c && bool_decide (is_Some (c_id c)))
  then throw (Errorf "archive worker is not fully configured") else
  if String.eqb threadID "" then throw (Errorf "thread id required") else
  let! w := state in
  if bool_decide (threadID ∈ inFlight w) then throw (Errorf "archive sync already in progress") else
  do! modify (with_inFlight (fun s => {[threadID]} ∪ s)) in
  finally (with_inFlight (fun s => s ∖ {[threadID]})) (sync_body c now v1 v2 threadID).

(** [views]: the network at each thread's turn. *)
Definition syncKnown (c : Config) (now : Z) (views : string -> View * View) : M State unit :=
  catch (on_store (on_blocks ListThreads)) (fun r =>
    match r with
    | Ok threads =>
        for_each threads (fun th =>
          do! ensureAckSubscription c (t_Id th) in
          do! ensureRecoveryEnvelopeSubscription c (t_Id th) in
          log_err (Sync c now (fst (views (t_Id th))) (snd (views (t_Id th))) (t_Id th)))
    | _ => ret tt
    end).

End ArchiveWorker.
End ArchiveWorker.
