(* ===== verification/PublisherFacts.v ===== *)
(** * Properties of publication and recovery

    A published history is recovered from the network alone; a receipt of the archive
    worker means that a verified history is stored and its blocks retained, whatever
    the network answers; only envelopes signed by the creator are kept.  Also: an
    unauthenticated head of enormous height, which the DHT prefers, makes every reader
    panic. *)

From stdpp Require Import base gmap strings list pretty.
From Stdlib Require Import ZArith Lia Ascii.
From S2P Require Import Prelude GoStd Identity ThreadStore ConsensusStore Membership Chain Instances ChainFacts Records RecordsFacts Manager Publisher.

Local Open Scope string_scope.
Local Open Scope Z_scope.
#[local] Arguments String.append : simpl nomatch.

Import Identity ThreadStore Membership Chain Keys Publisher.

(** The encodings round trip, the validator reads the fields of the same JSON, a CID
    decodes and determines its digest. *)
Class ArchiveCodecLaws `{RecordCodec} `{ArchiveCodec} : Prop := {
  block_roundtrip b d : proto_block b = Some d -> un_block d = Some b;
  head_roundtrip h d : json_head h = Some d -> un_thread_head d = Some h;
  head_fields d h : un_thread_head d = Some h -> un_head d = Some (h_ThreadID h, h_BlockCid h, h_Height h);
  envelope_roundtrip_wire e d : proto_envelope e = Some d -> un_key_envelope d = Some e;
  cid_text_decodes x : cid_Decode (cid_text x) = true;
  cid_text_nonempty x : cid_text x <> "";
  cid_text_inj x y : cid_text x = cid_text y -> x = y }.

(** ** Keys of the DHT *)

(** A number printed and parsed. *)
Lemma decimal_go x : forall s, Validators.decimal (pretty_N_go x s) 0 = Validators.decimal s (Z.of_N x).
Proof.
  induction (N.lt_wf_0 x) as [x _ IH]. intros s. destruct (decide (0 < x)%N) as [Hx|Hx].
  - rewrite pretty_N_go_step by done. rewrite IH by (by apply N.div_lt).
    cbn [Validators.decimal].
    assert (Hm : (x `mod` 10 < 10)%N) by (by apply N.mod_lt).
    assert (Hd : is_digit (pretty_N_char (x `mod` 10)) = true /\
                 byte_of (pretty_N_char (x `mod` 10)) - 48 = Z.of_N (x `mod` 10)%N).
    { generalize dependent (x `mod` 10)%N. intros m Hm.
      assert (m = 0 \/ m = 1 \/ m = 2 \/ m = 3 \/ m = 4 \/ m = 5 \/ m = 6 \/ m = 7 \/ m = 8 \/ m = 9)%N as
        [->|[->|[->|[->|[->|[->|[->|[->|[->| ->]]]]]]]]] by lia; done. }
    destruct Hd as [-> ->]. f_equal. rewrite (N.div_mod x 10) at 3 by done. lia.
  - replace x with 0%N by lia. by rewrite pretty_N_go_0.
Qed.

Lemma ParseInt_pretty h : 0 < h < 2 ^ 63 -> Validators.ParseInt (pretty h) = Some h.
Proof.
  intros Hh. destruct h as [|p|p]; [lia| |lia].
  assert (Hg : pretty (Z.pos p) = pretty_N_go (N.pos p) "") by done.
  assert (Hd : Validators.decimal (pretty (Z.pos p)) 0 = Some (Z.pos p)) by (by rewrite Hg, decimal_go).
  assert (Hc : forall c t, pretty (Z.pos p) = String c t -> is_digit c = true).
  { intros c t E. rewrite E in Hd. cbn [Validators.decimal] in Hd. by destruct (is_digit c). }
  unfold Validators.ParseInt. destruct (pretty (Z.pos p)) as [|c t] eqn:E; [discriminate Hd|].
  specialize (Hc c t eq_refl).
  assert (Hs : (match String c t with String "+" t => (false, t) | String "-" t => (true, t)
                | _ => (false, String c t) end) = (false, String c t)).
  { destruct c as [[] [] [] [] [] [] [] []]; done. }
  rewrite Hs. cbn [String.eqb]. rewrite Hd. by rewrite (proj2 (Z.ltb_lt _ _) (proj2 Hh)).
Qed.

Lemma strip_threads s : Validators.stripNamespace ("/threads/" +:+ s) "threads/" = s.
Proof.
  unfold Validators.stripNamespace. change ("/threads/" +:+ s) with ("/" +:+ ("threads/" +:+ s)).
  by rewrite !TrimPrefix_app.
Qed.

Lemma append_inj_l (p s t : string) : p +:+ s = p +:+ t -> s = t.
Proof. induction p as [|c p IH]; [done|]. intros [= E]. by apply IH. Qed.

Lemma head_key_inj T h : threadHeadDHTKey T <> threadHeightDHTKey T h.
Proof.
  unfold threadHeadDHTKey, threadHeightDHTKey. intros E%append_inj_l. apply (f_equal slen) in E.
  rewrite slen_app in E. pose proof (slen_nonneg (pretty h)). unfold slen in *. simpl in *. lia.
Qed.

Lemma height_key_inj T h h' : threadHeightDHTKey T h = threadHeightDHTKey T h' -> h = h'.
Proof. unfold threadHeightDHTKey. intros E%append_inj_l%append_inj_l%append_inj_l. by apply (inj pretty) in E. Qed.

Section Publisher.
Context `{Crypto} `{Codec} `{ArchiveCodecLaws}.

(** ** What the validator accepts *)

Definition good_head (T : string) (h : ThreadHead) : Prop :=
  h_ThreadID h = T /\ cid_Decode (h_BlockCid h) = true /\ h_BlockCid h <> "" /\ 1 <= h_Height h < 2 ^ 63.

Lemma head_valid T h d :
  T <> "" -> no_char "/" T = true -> un_thread_head d = Some h -> good_head T h ->
  Validators.ThreadHead_Validate (threadHeadDHTKey T) d = Ok tt.
Proof.
  intros HT Hs Hd (HTh & Hc & Hne & Hh). unfold Validators.ThreadHead_Validate, threadHeadDHTKey.
  rewrite strip_threads, (proj2 (String.eqb_neq _ _) HT), (head_fields _ _ Hd), HTh.
  rewrite (proj2 (String.eqb_neq _ _) HT), Split_none by done.
  rewrite String.eqb_refl, Hc, (proj2 (String.eqb_neq _ _) Hne), (proj2 (Z.ltb_ge _ _)) by lia. by rewrite (proj2 (String.eqb_neq _ _) HT).
Qed.

Lemma height_valid T h d :
  T <> "" -> no_char "/" T = true -> un_thread_head d = Some h -> good_head T h ->
  Validators.ThreadHead_Validate (threadHeightDHTKey T (h_Height h)) d = Ok tt.
Proof.
  intros HT Hs Hd (HTh & Hc & Hne & Hh). unfold Validators.ThreadHead_Validate, threadHeightDHTKey.
  rewrite strip_threads, (head_fields _ _ Hd), HTh.
  destruct (String.eqb_spec (T +:+ "/" +:+ pretty (h_Height h)) "") as [E|_].
  { by destruct T. }
  rewrite (proj2 (String.eqb_neq _ _) HT).
  change (T +:+ "/" +:+ pretty (h_Height h)) with (T +:+ String "/" (pretty (h_Height h))).
  rewrite Split_app, Split_none by (done || by apply pretty_Z_free).
  rewrite String.eqb_refl, (proj2 (String.eqb_neq _ _) HT), ParseInt_pretty, bool_decide_eq_true_2 by (done || lia).
  simpl. rewrite Hc, (proj2 (String.eqb_neq _ _) Hne), (proj2 (Z.ltb_ge _ _)) by lia. done.
Qed.

Lemma ThreadHead_Validate_total key d : Validators.ThreadHead_Validate key d <> Panic.
Proof. unfold Validators.ThreadHead_Validate. repeat case_match; done. Qed.

(** The DHT serves the valid record of the greatest height. *)
Lemma select_max key vals k d h :
  vals !! k = Some d -> Validators.ThreadHead_Validate key d = Ok tt -> un_thread_head d = Some h ->
  (forall j d' x, vals !! j = Some d' -> j <> k -> un_head d' = Some x -> snd x < h_Height h) ->
  Validators.ThreadHead_Select key vals = Ok k.
Proof.
  intros Hk Hv Hh Hmax. unfold Validators.ThreadHead_Select.
  pose proof (selectBest_spec key vals Validators.ThreadHead_Validate (fun v => option_map snd (un_head v))) as Hs.
  assert (Hel : eligible (Validators.ThreadHead_Validate key) (fun v => option_map snd (un_head v)) vals k (h_Height h)).
  { exists d. rewrite (head_fields _ _ Hh). done. }
  destruct (Validators.selectBest _ _ _ _) as [i|e|].
  - destruct Hs as (r & (d' & Hi & _ & Hr) & Hall). f_equal. destruct (decide (i = k)) as [|Hne]; [done|].
    destruct (un_head d') as [x|] eqn:Hx; [|done]. injection Hr as <-.
    specialize (Hmax i d' x Hi Hne Hx). destruct (Hall k _ Hel); lia.
  - by apply Hs in Hel.
  - destruct Hs as (d' & _ & Hp). by apply ThreadHead_Validate_total in Hp.
Qed.

(** ** A poisoned head *)

(** The view answers a lookup with the record its validator selects. *)
Definition serves (v : View) (key : string) (vals : list string) : Prop :=
  forall i d, Validators.ThreadHead_Select key vals = Ok i -> vals !! i = Some d -> GetValue v key = Ok d.

Lemma poisoned_history v1 v2 T th h d :
  GetValue v1 (threadHeadDHTKey T) = Ok d -> GetValue v2 (threadHeadDHTKey T) = Ok d ->
  un_thread_head d = Some h -> good_head T h -> h_Thread h = Some th -> t_Id th = T ->
  VerifyDescriptor (Some th) = Ok tt -> max_pointers < h_Height h ->
  resolve_history v1 v2 T = Panic.
Proof.
  intros Hv1 Hv2 Hd (HT & Hc & _ & _) Hth Hid Hver Hbig.
  assert (Hr : forall v, GetValue v (threadHeadDHTKey T) = Ok d -> ResolveHead v T = Ok h).
  { intros v Hv. unfold ResolveHead. by rewrite Hv, Hd, HT, String.eqb_refl, Hc. }
  unfold resolve_history. rewrite (Hr v1 Hv1), Hth, Hid, String.eqb_refl, Hver, (Hr v2 Hv2). simpl.
  unfold VerifyChainFromHead. by rewrite (proj2 (Z.ltb_lt _ _) Hbig), orb_true_r.
Qed.
End Publisher.

(** One forged record stops every archive of a thread.  Records of a thread's
    head carry no signature, the validator asks only for a positive height, and the
    DHT serves the greatest: a record with the thread's own public descriptor, any
    CID and a height above 2^45 is valid, is selected over every honest one, and makes
    the next Sync of a fully configured archive worker panic, in the goroutine of the
    daemon that runs it, when the slice for the blocks is allocated. *)
Theorem poisoned_head_panics `{Crypto} `{Codec} `{ArchiveCodecLaws} c now v T th vals k d h w :
  T <> "" -> no_char "/" T = true -> vals !! k = Some d -> un_thread_head d = Some h -> good_head T h ->
  h_Thread h = Some th -> t_Id th = T -> VerifyDescriptor (Some th) = Ok tt ->
  max_pointers < h_Height h ->
  (forall j d' x, vals !! j = Some d' -> j <> k -> un_head d' = Some x -> snd x < h_Height h) ->
  serves v (threadHeadDHTKey T) vals ->
  ArchiveWorker.c_dht c && ArchiveWorker.c_bitswap c && ArchiveWorker.c_blockstore c = true ->
  is_Some (ArchiveWorker.c_id c) -> T ∉ ArchiveWorker.inFlight (db w) ->
  Validators.ThreadHead_Validate (threadHeadDHTKey T) d = Ok tt /\
  fst (ArchiveWorker.Sync c now v v T w) = Panic.
Proof.
  intros HT Hs Hk Hd Hg Hth Hid Hver Hbig Hmax Hserve Hcfg Hme Hfree.
  pose proof (head_valid T h d HT Hs Hd Hg) as Hval. split; [done|].
  pose proof (Hserve k d (select_max _ vals k d h Hk Hval Hd Hmax) Hk) as Hget.
  unfold ArchiveWorker.Sync. rewrite Hcfg, bool_decide_eq_true_2 by done.
  rewrite (proj2 (String.eqb_neq _ _) HT). cbn [negb andb]. unfold bind, ArchiveWorker.state, modify.
  rewrite bool_decide_eq_false_2 by done. unfold ArchiveWorker.finally, ArchiveWorker.sync_body, bind at 1.
  by rewrite (poisoned_history v v T th h d Hget Hget Hd Hg Hth Hid Hver Hbig).
Qed.

(** ** The walk *)

Section Walk.
Context `{Crypto} `{Codec} (kind : BackendKind) (T : string) (head : ThreadHead)
  (rh : Z -> outcome ThreadHead) (fb : string -> outcome ThreadBlock).

(** The block [b] of height [h] as the walk finds it. *)
Definition found_at (h : Z) (b : ThreadBlock) : Prop :=
  exists ptr, (if h =? h_Height head then Ok head else rh h) = Ok ptr /\ h_BlockHash ptr = BlockHash b /\
    fb (h_BlockCid ptr) = Ok b.

Lemma walk_back_complete pre : forall acc,
  verify_loop kind 0 "" pre = Ok tt -> Forall (fun b => ThreadId b = T) pre ->
  (forall i b, pre !! i = Some b -> found_at (Z.of_nat i + 1) b) ->
  walk_back kind T head rh fb (length pre) (last_hash "" pre) acc = Ok (pre ++ acc)%list.
Proof.
  induction pre as [|b pre IH] using rev_ind; intros acc Hv HT Hf; [done|].
  apply verify_loop_snoc in Hv as [Hv (Hh & Hp & Hb)]. apply Forall_app in HT as [HT Hb'].
  rewrite Forall_singleton in Hb'.
  destruct (Hf (length pre) b) as (ptr & Hptr & Hph & Hfb); [by apply list_lookup_middle|].
  rewrite length_app, Nat.add_1_r, last_hash_snoc. cbn [walk_back]. cbv zeta.
  replace (Z.of_nat (S (length pre))) with (Z.of_nat (length pre) + 1) by lia.
  rewrite Hptr, Hph, String.eqb_refl, Hfb, Hb', String.eqb_refl.
  rewrite (proj2 (Z.eqb_eq (Height b) (Z.of_nat (length pre) + 1))) by lia. rewrite Hb, String.eqb_refl. cbn [negb].
  rewrite Hp, IH; [by rewrite <- app_assoc|done|done|].
  intros i b' Hi. apply Hf. by apply lookup_app_l_Some.
Qed.

Lemma walk_back_fetched n : forall want acc res,
  walk_back kind T head rh fb n want acc = Ok res ->
  forall i b, (i < n)%nat -> res !! i = Some b -> found_at (Z.of_nat i + 1) b.
Proof.
  induction n as [|n IH]; intros want acc res; cbn [walk_back]; [intros _ i b Hi; lia|].
  cbv zeta. destruct (if Z.of_nat (S n) =? _ then _ else _) as [ptr|e|] eqn:Hptr; [|done..].
  destruct (String.eqb_spec (h_BlockHash ptr) want) as [Hw|]; cbn [negb]; [|done].
  destruct (fb _) as [b|e|] eqn:Hfb; [|done..].
  destruct (negb (String.eqb (ThreadId b) T)); [done|].
  destruct (negb (Height b =? _)); [done|].
  destruct (String.eqb_spec (blockHashFn kind b) (BlockHash b)) as [Hb|]; cbn [negb]; [|done].
  destruct (String.eqb_spec (blockHashFn kind b) want) as [Hbw|]; cbn [negb]; [|done].
  intros Hrec i b' Hi Hl. destruct (decide (i < n)%nat) as [Hlt|Hge]; [by apply (IH _ _ _ Hrec)|].
  replace i with n in * by lia. apply walk_back_sound in Hrec as (pre & -> & Hlen & _).
  rewrite lookup_app_r, Hlen, Nat.sub_diag in Hl by lia. injection Hl as <-.
  exists ptr. replace (Z.of_nat n + 1) with (Z.of_nat (S n)) by lia. split; [done|]. split; [congruence|done].
Qed.
End Walk.

(** ** Publishing a history *)

Section Publish.
Context `{CryptoLaws} `{Codec} `{ArchiveCodecLaws} (now : Z) (th : Thread).

Definition enc (b : ThreadBlock) : string := default "" (proto_block b).
Definition head_of (b : ThreadBlock) : ThreadHead :=
  mkHead (ThreadId b) (Height b) (CIDv1Block (enc b)) (BlockHash b) now (Some th).
Definition record_of (b : ThreadBlock) : string := default "" (json_head (head_of b)).

(** The block and its pointer have encodings. *)
Definition encodable (b : ThreadBlock) : Prop := is_Some (proto_block b) /\ is_Some (json_head (head_of b)).

Definition full : Config := mkConfig true true true.
Definition publish_all (bs : list ThreadBlock) : M Net unit := for_each bs (publishBlock full now th).

Definition put_records (b : ThreadBlock) : list (string * string) :=
  [(threadHeightDHTKey (ThreadId b) (Height b), record_of b); (threadHeadDHTKey (ThreadId b), record_of b)].

Lemma publishBlock_run b n :
  encodable b ->
  exists n', publishBlock full now th b (World n []) = (Ok tt, World n' []) /\
    bstore n' = <[CIDv1Block (enc b) := enc b]> (bstore n) /\ puts n' = (puts n ++ put_records b)%list.
Proof.
  intros [[data Hd] [j Hj]]. unfold publishBlock, put_records, record_of, head_of, enc in *. rewrite Hd in *.
  cbn [default from_option id] in *. rewrite Hj. cbn [default from_option id].
  unfold full, AdvertiseArchiveProvider, ArchiveProviderCID.
  destruct (String.eqb (ThreadId b) ""); (eexists; split; [reflexivity|]; simpl; by rewrite <- app_assoc).
Qed.

Lemma publish_all_run bs : forall n,
  Forall encodable bs ->
  exists n', publish_all bs (World n []) = (Ok tt, World n' []) /\
    bstore n' = foldl (fun m b => <[CIDv1Block (enc b) := enc b]> m) (bstore n) bs /\
    puts n' = (puts n ++ concat (map put_records bs))%list.
Proof.
  induction bs as [|b bs IH]; intros n; [intros _; exists n; by rewrite app_nil_r|].
  intros [Hb Hbs]%Forall_cons. destruct (publishBlock_run b n Hb) as (n1 & E1 & Hs1 & Hp1).
  destruct (IH n1 Hbs) as (n2 & E2 & Hs2 & Hp2). exists n2. split; [|split].
  - unfold publish_all. cbn [for_each]. unfold bind. by rewrite E1.
  - by rewrite Hs2, Hs1.
  - rewrite Hp2, Hp1. simpl. by rewrite <- !app_assoc.
Qed.

(** Content addressing: a later block under the same CID is the same block. *)
Lemma served_blocks bs : forall (m : gmap string string) b,
  b ∈ bs \/ m !! CIDv1Block (enc b) = Some (enc b) ->
  foldl (fun m b => <[CIDv1Block (enc b) := enc b]> m) m bs !! CIDv1Block (enc b) = Some (enc b).
Proof.
  induction bs as [|c bs IH]; intros m b Hb; simpl.
  { destruct Hb as [Hb|Hb]; [by inversion Hb|done]. }
  apply IH. destruct (decide (CIDv1Block (enc c) = CIDv1Block (enc b))) as [E|Hne].
  - right. rewrite E, lookup_insert_eq. f_equal. by apply cid_text_inj, Sum256_inj in E.
  - rewrite lookup_insert_ne by done. destruct Hb as [[->|Hb]%elem_of_cons|Hb]; [done|by left|by right].
Qed.

(** ** What the DHT holds then *)

(** The values put under a key. *)
Definition values (key : string) (l : list (string * string)) : list string :=
  snd <$> filter (fun p => fst p = key) l.

Lemma values_app key l1 l2 : values key (l1 ++ l2)%list = (values key l1 ++ values key l2)%list.
Proof. unfold values. by rewrite filter_app, fmap_app. Qed.

Lemma values_head T bs :
  Forall (fun b => ThreadId b = T) bs ->
  values (threadHeadDHTKey T) (concat (map put_records bs)) = map record_of bs.
Proof.
  induction 1 as [|b bs Hb Hbs IH]; [done|]. 
  change (concat (map put_records (b :: bs))) with (put_records b ++ concat (map put_records bs))%list.
  rewrite values_app, IH. unfold values, put_records.
  rewrite Hb, filter_cons_False, filter_cons_True, filter_nil; [done|done|].
  simpl. intros E. by apply (head_key_inj T (Height b)).
Qed.

Lemma values_height T h bs :
  Forall (fun b => ThreadId b = T) bs ->
  values (threadHeightDHTKey T h) (concat (map put_records bs)) =
  map record_of (filter (fun b => Height b = h) bs).
Proof.
  induction 1 as [|b bs Hb Hbs IH]; [done|]. 
  change (concat (map put_records (b :: bs))) with (put_records b ++ concat (map put_records bs))%list.
  rewrite values_app, IH, filter_cons.
  unfold values, put_records. rewrite Hb, filter_cons.
  rewrite (filter_cons_False _ (threadHeadDHTKey T, _)), filter_nil by (simpl; apply head_key_inj).
  simpl fst. destruct (decide (Height b = h)) as [->|Hne]; [by rewrite decide_True|].
  rewrite decide_False; [done|]. intros E. by apply height_key_inj in E.
Qed.

(** The heights of a verified chain are consecutive. *)
Lemma verified_heights kind l : forall k p i b,
  verify_loop kind k p l = Ok tt -> l !! i = Some b -> Height b = k + Z.of_nat i + 1.
Proof.
  induction l as [|c l IH]; intros k p i b Hv Hi; [done|]. simpl in Hv.
  destruct (Z.eqb_spec (Height c) (k + 1)) as [Hc|]; cbn [negb] in Hv; [|done].
  destruct (negb (String.eqb (ParentHash c) p)); [done|].
  destruct (negb (String.eqb (blockHashFn kind c) (BlockHash c))); [done|].
  destruct i as [|i]; [injection Hi as <-; lia|]. rewrite (IH _ _ i b Hv Hi). lia.
Qed.

Lemma list_filter_none {A} (P : A -> Prop) `{!forall x, Decision (P x)} (l : list A) :
  (forall x, x ∈ l -> ~ P x) -> filter P l = [].
Proof.
  induction l as [|x l IH]; intros Hn; [done|]. rewrite filter_cons_False by (apply Hn; left).
  apply IH. intros y Hy. apply Hn. by right.
Qed.

Lemma filter_height l k i b :
  (forall i b, l !! i = Some b -> Height b = k + Z.of_nat i + 1) -> l !! i = Some b ->
  filter (fun x => Height x = Height b) l = [b].
Proof.
  revert k i. induction l as [|c l IH]; intros k i Hh Hi; [done|].
  pose proof (Hh 0%nat c eq_refl) as Hc. pose proof (Hh i b Hi) as Hb.
  assert (Hl : forall i b, l !! i = Some b -> Height b = (k + 1) + Z.of_nat i + 1).
  { intros j x Hx. rewrite (Hh (S j) x Hx). lia. }
  destruct i as [|i].
  - injection Hi as ->. rewrite filter_cons_True by done. f_equal.
    apply list_filter_none. intros x Hx E. apply list_elem_of_lookup in Hx as [j Hj].
    rewrite (Hl j x Hj) in E. lia.
  - rewrite filter_cons_False by lia. by apply (IH (k + 1) i).
Qed.

(** The network serves what was published. *)
Definition answers (v : View) (n : Net) : Prop :=
  (forall key, serves v key (values key (puts n))) /\
  (forall c d, bstore n !! c = Some d -> GetBlock_ v c = Ok d).

Lemma record_head b : encodable b -> un_thread_head (record_of b) = Some (head_of b).
Proof. intros [_ [j Hj]]. unfold record_of. rewrite Hj. by apply head_roundtrip. Qed.

Lemma FetchBlock_published v n bs b :
  bstore n = foldl (fun m b => <[CIDv1Block (enc b) := enc b]> m) ∅ bs -> answers v n ->
  encodable b -> b ∈ bs -> FetchBlock v (CIDv1Block (enc b)) = Ok b.
Proof.
  intros Hs [_ Hb] [[d Hd] _] Hin. unfold FetchBlock. unfold CIDv1Block at 1. rewrite cid_text_decodes. cbn [negb].
  rewrite (Hb _ (enc b)) by (rewrite Hs; apply served_blocks; by left).
  unfold enc. rewrite Hd. simpl. by rewrite (block_roundtrip _ _ Hd).
Qed.

(** A network that serves a verified chain published for the thread. *)
Record published_chain (bs : list ThreadBlock) (v : View) (n : Net) : Prop := {
  pc_id : t_Id th <> "" /\ no_char "/" (t_Id th) = true;
  pc_verified : verify_loop (archive_kind th) 0 "" bs = Ok tt;
  pc_thread : Forall (fun b => ThreadId b = t_Id th) bs;
  pc_length : llen bs <= max_pointers;
  pc_enc : Forall encodable bs;
  pc_store : bstore n = foldl (fun m b => <[CIDv1Block (enc b) := enc b]> m) ∅ bs;
  pc_puts : puts n = concat (map put_records bs);
  pc_answers : answers v n }.

Section Published.
Context (bs : list ThreadBlock) (v : View) (n : Net) (Hpc : published_chain bs v n).

Lemma chain_height i b : bs !! i = Some b -> Height b = Z.of_nat i + 1.
Proof. intros Hi. by rewrite (verified_heights _ bs 0 "" i b (pc_verified _ _ _ Hpc) Hi). Qed.

Lemma chain_block i b : bs !! i = Some b -> encodable b /\ ThreadId b = t_Id th /\ good_head (t_Id th) (head_of b).
Proof.
  intros Hi. destruct Hpc as [_ _ HT Hlen Henc _ _ _]. rewrite Forall_lookup in Henc, HT.
  split; [by apply (Henc i)|]. split; [by apply (HT i)|].
  split; [by apply (HT i)|]. split; [apply cid_text_decodes|]. split; [apply cid_text_nonempty|].
  simpl. rewrite (chain_height i b Hi). apply lookup_lt_Some in Hi. unfold llen, max_pointers in Hlen. lia.
Qed.

(** The lookup of a key finds the record of its highest block. *)
Lemma lookup_highest key k i b :
  values key (puts n) = map record_of k -> k !! i = Some b ->
  encodable b -> Validators.ThreadHead_Validate key (record_of b) = Ok tt ->
  (forall j c, k !! j = Some c -> j <> i -> encodable c /\ Height c < Height b) ->
  GetValue v key = Ok (record_of b).
Proof.
  intros Hv Hi He Hval Hmax. destruct (pc_answers _ _ _ Hpc) as [Hans _]. apply (Hans key i).
  - rewrite Hv. apply (select_max _ _ i (record_of b) (head_of b)); [by rewrite list_lookup_fmap, Hi|done| |].
    + by apply record_head.
    + intros j d x Hj Hji Hx. rewrite list_lookup_fmap in Hj. destruct (k !! j) as [c|] eqn:Hc; [|done].
      injection Hj as <-. destruct (Hmax j c Hc Hji) as [Hec Hlt].
      rewrite (head_fields _ _ (record_head c Hec)) in Hx. injection Hx as <-. exact Hlt.
  - by rewrite Hv, list_lookup_fmap, Hi.
Qed.

Lemma ResolveHeight_published i b : bs !! i = Some b -> ResolveHeight v (t_Id th) (Height b) = Ok (head_of b).
Proof.
  intros Hi. destruct (chain_block i b Hi) as (He & HTb & Hg), (pc_id _ _ _ Hpc) as [HT Hs]. unfold ResolveHeight.
  rewrite (lookup_highest _ [b] 0%nat b).
  - rewrite (record_head b He). destruct Hg as (_ & Hc & _). simpl in *. by rewrite HTb, String.eqb_refl, Z.eqb_refl, Hc.
  - rewrite (pc_puts _ _ _ Hpc), values_height by apply Hpc.
    by rewrite (filter_height bs 0 i b chain_height Hi).
  - done.
  - done.
  - by apply (height_valid (t_Id th) (head_of b)); [done|done|apply record_head|].
  - intros [|j] c; done.
Qed.

Lemma ResolveHead_published pre b : bs = (pre ++ [b])%list -> ResolveHead v (t_Id th) = Ok (head_of b).
Proof.
  intros Hlast. assert (Hib : bs !! length pre = Some b) by (rewrite Hlast; by apply list_lookup_middle).
  destruct (chain_block _ b Hib) as (He & HTb & Hg), (pc_id _ _ _ Hpc) as [HT Hs].
  unfold ResolveHead. rewrite (lookup_highest _ bs (length pre) b).
  - rewrite (record_head b He). destruct Hg as (_ & Hc & _). simpl in *. by rewrite HTb, String.eqb_refl, Hc.
  - rewrite (pc_puts _ _ _ Hpc). apply values_head, Hpc.
  - done.
  - done.
  - by apply (head_valid (t_Id th) (head_of b)); [done|done|apply record_head|].
  - intros j c Hj Hji. split; [by eapply chain_block|]. rewrite (chain_height j c Hj), (chain_height _ b Hib).
    apply lookup_lt_Some in Hj. rewrite Hlast, length_app in Hj. simpl in Hj. lia.
Qed.

Lemma FromHead_published : bs <> [] ->
  VerifyChainFromHead (archive_kind th) (t_Id th) (ResolveHead v (t_Id th)) (ResolveHeight v (t_Id th)) (FetchBlock v)
  = Ok bs.
Proof.
  intros Hne. destruct (exists_last Hne) as (pre & b & Hlast).
  assert (Hib : bs !! length pre = Some b) by (rewrite Hlast; by apply list_lookup_middle).
  rewrite (ResolveHead_published pre b Hlast). unfold VerifyChainFromHead.
  assert (Hlen : h_Height (head_of b) = llen bs).
  { simpl. rewrite (chain_height _ b Hib). unfold llen. rewrite Hlast, length_app. simpl. lia. }
  pose proof (pc_length _ _ _ Hpc).
  rewrite Hlen, (proj2 (Z.ltb_ge _ _)) by (unfold llen; lia). rewrite (proj2 (Z.ltb_ge _ _)) by lia. cbn [orb].
  assert (Hw : h_BlockHash (head_of b) = last_hash "" bs) by (by rewrite Hlast, last_hash_snoc).
  rewrite Hw. unfold llen. rewrite Nat2Z.id.
  rewrite (walk_back_complete _ (t_Id th) (head_of b) (ResolveHeight v (t_Id th)) (FetchBlock v) bs []);
    [by rewrite app_nil_r|apply Hpc|apply Hpc|].
  intros i c Hi. exists (head_of c). split; [|split; [done|]].
  - destruct (Z.eqb_spec (Z.of_nat i + 1) (h_Height (head_of b))) as [Hlst|_].
    + f_equal. simpl in Hlst. rewrite (chain_height _ b Hib) in Hlst. replace i with (length pre) in Hi by lia.
      rewrite Hi in Hib. by injection Hib as ->.
    + rewrite <- (chain_height i c Hi). by apply (ResolveHeight_published i).
  - apply (FetchBlock_published v n bs); [apply Hpc|apply Hpc|by eapply chain_block|].
    by apply list_elem_of_lookup_2 in Hi.
Qed.
End Published.

(** A history published block by block is what a reader reconstructs. *)
Lemma resolve_published bs v n :
  VerifyDescriptor (Some th) = Ok tt -> no_char "/" (t_Id th) = true -> bs <> [] ->
  VerifyChain (archive_kind th) bs = Ok tt -> Forall (fun b => ThreadId b = t_Id th) bs ->
  llen bs <= max_pointers -> Forall encodable bs ->
  publish_all bs (World (mkNet ∅ [] []) []) = (Ok tt, World n []) -> answers v n ->
  resolve_history v v (t_Id th) = Ok (th, bs).
Proof.
  intros Hver Hslash Hne Hchain HT Hlen Henc Hpub Hans. rewrite VerifyChain_loop in Hchain by done.
  assert (HTne : t_Id th <> "").
  { unfold VerifyDescriptor in Hver. destruct (String.eqb_spec (t_Id th) ""); done. }
  destruct (publish_all_run bs (mkNet ∅ [] []) Henc) as (n' & E & Hs & Hp). rewrite Hpub in E. injection E as <-.
  assert (Hpc : published_chain bs v n) by (by split).
  destruct (exists_last Hne) as (pre & b & Hlast).
  pose proof (FromHead_published bs v n Hpc Hne) as Hf. pose proof (ResolveHead_published bs v n Hpc pre b Hlast) as Hh.
  rewrite Hh in Hf. unfold resolve_history. rewrite Hh. cbn [h_Thread head_of].
  by rewrite String.eqb_refl, Hver, Hf.
Qed.
End Publish.

(** ** The archive worker *)

Lemma for_each_ok {S A} (body : A -> M S unit) (g : A -> S -> S) l :
  (forall a w w', body a w = (Ok tt, w') -> db w' = g a (db w)) ->
  forall w w', for_each l body w = (Ok tt, w') -> db w' = foldl (fun s a => g a s) (db w) l.
Proof.
  intros Hb. induction l as [|a l IH]; intros w w'; [by intros [= <-]|].
  intros ([] & w1 & E1%Hb & E2%IH)%bind_ok. simpl. by rewrite <- E1.
Qed.

Lemma ImportHistory_ok t bs w w' :
  ImportHistory (Some t) bs w = (Ok tt, w') ->
  db w' = foldl (fun s b => replace_block b s) (with_threads (<[t_Id t := t]>) (db w)) bs.
Proof.
  unfold ImportHistory. destruct (negb _); [|done]. simpl.
  intros (w1 & w2 & Hw1 & ([] & w3 & E3%exec_ok & E)%bind_ok & ->)%tx_ok. rewrite <- Hw1, <- E3.
  revert E. apply for_each_ok. intros b wa wb E. by apply exec_ok in E.
Qed.

Lemma replace_blocks_threads bs : forall s, threads (foldl (fun s b => replace_block b s) s bs) = threads s.
Proof. induction bs as [|b bs IH]; intros s; [done|]. simpl. by rewrite IH. Qed.

(** Blocks of distinct heights do not overwrite each other. *)
Lemma replace_blocks_lookup `{Crypto} `{Codec} kind bs : forall k p s i b,
  verify_loop kind k p bs = Ok tt -> bs !! i = Some b ->
  blocks (foldl (fun s b => replace_block b s) s bs) !! (ThreadId b, Height b) = Some (block_to_row b).
Proof.
  assert (Hother : forall l s T h, (forall c, c ∈ l -> Height c <> h) ->
    blocks (foldl (fun s b => replace_block b s) s l) !! (T, h) = blocks s !! (T, h)).
  { induction l as [|c l IH]; intros s T h Hl; [done|]. simpl. rewrite IH by (intros d Hd; apply Hl; by right).
    simpl. rewrite lookup_insert_ne; [done|]. intros [= _ E]. by apply (Hl c); [left|]. }
  induction bs as [|c bs IH]; intros k p s i b Hv Hi; [done|].
  pose proof (verified_heights kind (c :: bs) k p) as Hh. simpl in Hv.
  destruct (negb (Height c =? k + 1)) eqn:E1; [done|]. destruct (negb (String.eqb (ParentHash c) p)) eqn:E2; [done|].
  destruct (negb (String.eqb (blockHashFn kind c) (BlockHash c))) eqn:E3; [done|].
  destruct i as [|i]; simpl; [|by apply (IH (k + 1) (BlockHash c) _ i)].
  injection Hi as ->. rewrite Hother; [simpl; by rewrite lookup_insert_eq|].
  intros d Hd E. apply list_elem_of_lookup in Hd as [j Hj].
  assert (Hv' : verify_loop kind k p (b :: bs) = Ok tt) by (simpl; by rewrite E1, E2, E3).
  pose proof (Hh (S j) d Hv' Hj). pose proof (Hh 0%nat b Hv' eq_refl). lia.
Qed.

Section Worker.
Import ArchiveWorker.
Context `{Crypto} `{Codec} `{RecordCodec} `{ArchiveCodec}.

(** What publishing a receipt leaves alone. *)
Definition durable (s : State) := (w_store s, w_archive s, w_net s, inFlight s).

Lemma ensureAck_durable c T x : preserves (fun s => durable s = x) (ensureAckSubscription c T).
Proof. unfold ensureAckSubscription, state, external. go_preserves; try done. by intros w. Qed.

Lemma publishAck_durable c ack x : preserves (fun s => durable s = x) (publishAcknowledgement c ack).
Proof.
  unfold publishAcknowledgement, state, external.
  apply preserves_if; [apply preserves_ret|]. apply preserves_bind; [apply ensureAck_durable|intros _].
  go_preserves; try done. by intros w.
Qed.

Lemma on_store_inFlight {A} (m : M Store A) x : preserves (fun s => inFlight s = x) (on_store m).
Proof. intros w Hw. unfold on_store, zoom. by destruct (m _). Qed.
Lemma on_archive_inFlight {A} (m : M Archive.ArchiveDB A) x : preserves (fun s => inFlight s = x) (on_archive m).
Proof. intros w Hw. unfold on_archive, zoom. by destruct (m _). Qed.
Lemma on_net_inFlight {A} (m : M Net A) x : preserves (fun s => inFlight s = x) (on_net m).
Proof. intros w Hw. unfold on_net, zoom. by destruct (m _). Qed.
Lemma publishAck_inFlight c ack x : preserves (fun s => inFlight s = x) (publishAcknowledgement c ack).
Proof.
  intros w Hw. pose proof (publishAck_durable c ack (durable (db w)) w eq_refl) as E.
  unfold durable in E. by injection E as _ _ _ ->.
Qed.
Lemma lift_inFlight {A} (r : outcome A) x : preserves (fun s : State => inFlight s = x) (Manager.lift r).
Proof. destruct r; [apply preserves_ret|apply preserves_throw|apply preserves_panic]. Qed.
#[local] Hint Resolve on_store_inFlight on_archive_inFlight on_net_inFlight publishAck_inFlight lift_inFlight : molt_ops.

Lemma sync_body_inFlight c now v1 v2 T x : preserves (fun s => inFlight s = x) (sync_body c now v1 v2 T).
Proof. unfold sync_body. go_preserves. Qed.

(** What Sync fetched, and retains. *)
Lemma fetched_chain kind v T chain i b :
  VerifyChainFromHead kind T (ResolveHead v T) (ResolveHeight v T) (FetchBlock v) = Ok chain ->
  chain !! i = Some b ->
  exists cd data, (cd, data) ∈ fetched v T (length chain) /\ un_block data = Some b.
Proof.
  unfold fetched. destruct (ResolveHead v T) as [head|e|] eqn:Hr; [|done..]. intros Hv Hi.
  pose proof (from_head_verified _ _ _ _ _ _ Hv) as (Hb & Hlen & _). unfold VerifyChainFromHead in Hv.
  destruct ((h_Height head <? 0) || (max_pointers <? h_Height head)); [done|].
  assert (Hin : (i < length chain)%nat) by (by apply lookup_lt_Some in Hi).
  destruct (walk_back_fetched _ _ _ _ _ _ _ _ _ Hv i b) as (ptr & Hptr & _ & Hf); [lia|done|].
  unfold FetchBlock in Hf. destruct (negb (cid_Decode (h_BlockCid ptr))); [done|].
  destruct (GetBlock_ v (h_BlockCid ptr)) as [data|e|] eqn:Hg; [|done..].
  destruct (un_block data) as [b'|] eqn:Hu; [|done]. injection Hf as ->.
  exists (h_BlockCid ptr), data. split; [|done]. apply list_elem_of_omap. exists (S i). split.
  - apply list_elem_of_In, in_seq. lia.
  - unfold pointer. replace (Z.of_nat (S i)) with (Z.of_nat i + 1) by lia. by rewrite Hptr, Hg.
Qed.

Lemma fetched_view v T n cd data : (cd, data) ∈ fetched v T n -> GetBlock_ v cd = Ok data.
Proof.
  unfold fetched. destruct (ResolveHead v T) as [head|e|]; [|by intros ?%elem_of_nil..].
  intros (h & _ & Hh)%list_elem_of_omap. destruct (pointer v T head (Z.of_nat h)) as [ptr|e|]; [|done..].
  destruct (GetBlock_ v (h_BlockCid ptr)) eqn:Hg; [|done..]. by injection Hh as <- <-.
Qed.

Definition keep (b : string * string) (s : State) : State :=
  mkState (w_store s) (w_archive s)
    (mkNet (<[fst b := snd b]> (bstore (w_net s))) (puts (w_net s)) (provided (w_net s)))
    (inFlight s) (ackTopics s) (ackSubs s) (recoveryTopics s) (recoverySubs s) (published s).

Lemma keep_all v l cd data : (forall cd data, (cd, data) ∈ l -> GetBlock_ v cd = Ok data) ->
  forall s, (cd, data) ∈ l \/ (bstore (w_net s) !! cd = Some data /\ GetBlock_ v cd = Ok data) ->
  bstore (w_net (foldl (fun s b => keep b s) s l)) !! cd = Some data.
Proof.
  induction l as [|[c d] l IH]; intros Hl s Hin; simpl.
  { destruct Hin as [Hin|[Hin _]]; [by apply elem_of_nil in Hin|done]. }
  assert (Hc : GetBlock_ v c = Ok d) by (apply Hl; left).
  apply IH; [intros; apply Hl; by right|]. simpl.
  destruct Hin as [[[= -> ->]|Hin]%elem_of_cons|[Hs Hg]]; [|by left|]; right.
  - by rewrite lookup_insert_eq.
  - split; [|done]. destruct (decide (c = cd)) as [->|Hne]; [|by rewrite lookup_insert_ne].
    rewrite lookup_insert_eq. congruence.
Qed.

Lemma keep_rest l : forall s, let s' := foldl (fun s b => keep b s) s l in
  (w_store s', w_archive s') = (w_store s, w_archive s).
Proof. induction l as [|b l IH]; intros s; [done|]. simpl. apply (IH (keep b s)). Qed.

Lemma resolve_history_ok v1 v2 T th chain :
  resolve_history v1 v2 T = Ok (th, chain) ->
  t_Id th = T /\ VerifyDescriptor (Some th) = Ok tt /\
  VerifyChainFromHead (archive_kind th) T (ResolveHead v2 T) (ResolveHeight v2 T) (FetchBlock v2) = Ok chain.
Proof.
  unfold resolve_history. destruct (ResolveHead v1 T) as [head|e|]; [|done..].
  destruct (h_Thread head) as [t|]; [|done]. destruct (String.eqb_spec (t_Id t) T) as [Ht|]; cbn [negb]; [|done].
  destruct (VerifyDescriptor (Some t)) as [[]|e|] eqn:Hv; [|done..].
  destruct (VerifyChainFromHead _ _ _ _ _) as [l|e|] eqn:Hc; [|done..]. by intros [= <- <-].
Qed.

(** What announcing leaves alone. *)
Definition kept (s : State) := (w_store s, w_archive s, bstore (w_net s)).

Lemma on_net_kept {A} (m : M Net A) :
  (forall x, preserves (fun n => bstore n = x) m) -> forall x, preserves (fun s => kept s = x) (on_net m).
Proof.
  intros Hm x wa Hwa. unfold on_net, zoom.
  specialize (Hm (bstore (w_net (db wa))) (World (w_net (db wa)) (faults wa)) eq_refl).
  destruct (m _) as [r wb]. simpl in *. rewrite <- Hwa. unfold kept. simpl. by rewrite Hm.
Qed.

Lemma advertise_kept has T x : preserves (fun s => kept s = x) (on_net (AdvertiseArchiveProvider has T)).
Proof.
  apply on_net_kept. intros y. unfold AdvertiseArchiveProvider, ArchiveProviderCID, Provide. go_preserves; try done.
  unfold Manager.lift. destruct (String.eqb T ""); [apply preserves_throw|apply preserves_ret].
Qed.

(** A receipt: a verified history stored, its blocks retained, and signed for. *)
Lemma sync_body_ok c now v1 v2 T w ack w' :
  sync_body c now v1 v2 T w = (Ok ack, w') ->
  exists th chain b, resolve_history v1 v2 T = Ok (th, chain) /\ last chain = Some b /\
    s_blocks (w_store (db w')) = foldl (fun s b => replace_block b s)
      (with_threads (<[t_Id th := th]>) (s_blocks (w_store (db w)))) chain /\
    (forall cd data, (cd, data) ∈ fetched v2 T (length chain) -> bstore (w_net (db w')) !! cd = Some data) /\
    Archive.a_ThreadId ack = T /\ Archive.a_BlockHash ack = BlockHash b /\
    Archive.VerifyArchiveAcknowledgement proto_ack (Some ack) = Ok tt /\
    Archive.acks (w_archive (db w')) !! (T, Archive.a_ProviderDid ack, Archive.a_BlockHash ack) = Some ack.
Proof.
  unfold sync_body. intros ([th chain] & w1 & E1 & E)%bind_ok. unfold Manager.lift in E1.
  destruct (resolve_history v1 v2 T) as [tc|e|] eqn:Hres; [|done..]. injection E1 as -> <-.
  apply bind_ok in E as ([] & w2 & E2 & E). apply zoom_ok in E2 as (s2 & E2 & Hd2 & _).
  apply zoom_ok in E2 as (s3 & E3%ImportHistory_ok & Hd3 & _). simpl in E3, Hd3.
  apply bind_ok in E as ([] & w3 & E4 & E).
  apply (for_each_ok _ keep) in E4.
  2: { intros [cd data] wa wb Hk. apply zoom_ok in Hk as (n & Hn%exec_ok & -> & _). rewrite Hn. done. }
  apply bind_ok in E as ([] & w4 & E5 & E). apply bind_ok in E as ([] & w5 & E6 & E).
  assert (Hk : forall cd data, (cd, data) ∈ fetched v2 T (length chain) -> bstore (w_net (db w3)) !! cd = Some data).
  { intros cd data Hin. rewrite E4. apply (keep_all v2); [apply fetched_view|by left]. }
  assert (Hk45 : kept (db w5) = kept (db w3)).
  { transitivity (kept (db w4)).
    - eapply (preserves_use (fun s => kept s = kept (db w4))); [|exact E6|done]. apply advertise_kept.
    - eapply (preserves_use (fun s => kept s = kept (db w3))); [|exact E5|done].
      apply preserves_if; [|apply preserves_ret]. apply preserves_log_err, on_net_kept. intros x.
      by apply preserves_exec. }
  destruct (last chain) as [b|] eqn:Hlast; [|done].
  apply bind_ok in E as (ack' & w6 & E7 & E). unfold Manager.lift in E7.
  destruct (NewArchiveAcknowledgement _ _ _ _) as [a|e|] eqn:Hnew; [|done..]. injection E7 as -> <-.
  apply bind_ok in E as ([] & w7 & E8 & E). apply bind_ok in E as ([] & w8 & E9 & E). injection E as -> <-.
  exists th, chain, b. split; [done|]. split; [done|].
  apply zoom_ok in E8 as (s8 & E8 & Hd8 & _).
  pose proof (preserves_use _ _ _ _ _ (publishAck_durable c ack (durable (db w7))) E9 eq_refl) as Hd.
  unfold durable in Hd. injection Hd as Hds Hda Hdn _.
  unfold kept in Hk45. injection Hk45 as Hks Hka Hkn.
  unfold Archive.SaveArchiveAcknowledgement in E8.
  destruct (Archive.VerifyArchiveAcknowledgement proto_ack (Some ack)) as [[]|e|] eqn:Hvack; [|done..].
  apply exec_ok in E8. simpl in E8.
  unfold NewArchiveAcknowledgement in Hnew. destruct (c_id c) as [[did sk]|]; [|done].
  destruct (_ || _); [done|]. injection Hnew as Hack. subst ack. simpl.
  rewrite Hds, Hdn, Hda, Hd8. simpl. rewrite E8. simpl.
  pose proof (keep_rest (fetched v2 T (length chain)) (db w2)) as Hrest. simpl in Hrest. injection Hrest as Hr1 Hr2.
  split; [|split; [|split; [done|split; [done|split; [done|by rewrite lookup_insert_eq]]]]].
  - by rewrite Hks, E4, Hr1, Hd2, Hd3.
  - intros cd data Hin. rewrite Hkn. by apply Hk.
Qed.
End Worker.

(** C13: What a receipt of the archive worker means, whatever the network answers and
    whichever statement fails: Sync returns one only when the thread's descriptor was
    signed by its creator, the chain hashes up from its first block to the head, every
    block of it is in the thread store and its raw form, which decodes to that very
    block, in the block store served to others, and the receipt, signed for the hash
    of the last block, is saved.  The mark that a sync is in progress is gone on every
    outcome, panics included, so that no thread is left locked. *)
Theorem archive_sync_sound `{Crypto} `{Codec} `{RecordCodec} `{ArchiveCodec} c now v1 v2 T w r w' :
  ArchiveWorker.Sync c now v1 v2 T w = (r, w') ->
  ArchiveWorker.inFlight (db w') = ArchiveWorker.inFlight (db w) /\
  forall ack, r = Ok ack -> exists th chain,
    t_Id th = T /\ VerifyDescriptor (Some th) = Ok tt /\ VerifyChain (archive_kind th) chain = Ok tt /\
    threads (s_blocks (ArchiveWorker.w_store (db w'))) !! T = Some th /\
    (forall b, b ∈ chain ->
       blocks (s_blocks (ArchiveWorker.w_store (db w'))) !! (T, Height b) = Some (block_to_row b) /\
       exists cd data, bstore (ArchiveWorker.w_net (db w')) !! cd = Some data /\ un_block data = Some b) /\
    Archive.a_ThreadId ack = T /\ Archive.a_BlockHash ack = last_hash "" chain /\
    Archive.VerifyArchiveAcknowledgement proto_ack (Some ack) = Ok tt /\
    Archive.acks (ArchiveWorker.w_archive (db w')) !!
      (T, Archive.a_ProviderDid ack, Archive.a_BlockHash ack) = Some ack.
Proof.
  unfold ArchiveWorker.Sync. destruct (negb _); [by intros [= <- <-]|].
  destruct (String.eqb T ""); [by intros [= <- <-]|]. unfold bind, ArchiveWorker.state, modify.
  case_bool_decide as Hfree; [by intros [= <- <-]|]. unfold ArchiveWorker.finally.
  set (w0 := World _ _). destruct (ArchiveWorker.sync_body c now v1 v2 T w0) as [r1 w1] eqn:E. intros [= <- <-].
  pose proof (preserves_use _ _ _ _ _ (sync_body_inFlight c now v1 v2 T _) E eq_refl) as Hin. split.
  { simpl in Hin |- *. rewrite Hin. set_solver. }
  intros ack ->. apply sync_body_ok in E as (th & chain & b & Hres & Hlast & Hs & Hk & HT & Hh & Hv & Ha).
  apply resolve_history_ok in Hres as (Hid & Hver & Hchain).
  destruct (ResolveHead v2 T) as [head|e|] eqn:Hr; [|done..].
  pose proof (from_head_verified _ _ _ _ _ _ Hchain) as (_ & _ & _ & Hloop & HTs).
  exists th, chain. simpl. rewrite Hs. split; [done|]. split; [done|]. split.
  { rewrite VerifyChain_loop; [done|]. by intros ->. }
  split; [rewrite replace_blocks_threads; simpl; by rewrite <- Hid, lookup_insert_eq|]. split.
  { intros b' [i Hi]%list_elem_of_lookup. rewrite Forall_lookup in HTs. split.
    - pose proof (HTs i b' Hi) as HTb. simpl in HTb. rewrite <- HTb.
      exact (replace_blocks_lookup (archive_kind th) chain 0 "" _ i b' Hloop Hi).
    - rewrite <- Hr in Hchain. destruct (fetched_chain _ _ _ _ i b' Hchain Hi) as (cd & data & Hf & Hu).
      exists cd, data. split; [by apply Hk|done]. }
  split; [done|]. split; [|done]. rewrite Hh. unfold last_hash. by rewrite Hlast.
Qed.

(** ** A concrete network *)

#[local] Instance Thread_eq_dec' : EqDecision Thread.
Proof. solve_decision. Defined.
#[local] Instance ThreadHead_eq_dec : EqDecision ThreadHead.
Proof. solve_decision. Defined.
#[local] Instance Envelope_eq_dec : EqDecision ThreadKeyEnvelope.
Proof. solve_decision. Defined.

(** Records are coded field by field, as a list: pairs would interleave the codes. *)
#[local] Instance ThreadEntry_countable : Countable ThreadEntry :=
  inj_countable (fun e => [encode (AuthorDid e); encode (Payload e); encode (Kind e); encode (AuthorSig e);
      encode (SubmittedAt e); encode (EncodingVersion e); encode (Sequence e); encode (PreviousBlockHash e);
      encode (MembershipEpoch e); encode (EncryptionEpoch e); encode (Nonce e); encode (AuthorSignature e)])
    (fun l => match l with
              | [a; b; c; d; e; f; g; h; i; j; k; l] =>
                  a ← decode a; b ← decode b; c ← decode c; d ← decode d;
                  e ← decode e; f ← decode f; g ← decode g; h ← decode h;
                  i ← decode i; j ← decode j; k ← decode k; l ← decode l;
                  Some (mkEntry a b c d e f g h i j k l)
              | _ => None
              end)
    ltac:(by intros []; cbn; rewrite !decode_encode).
#[local] Instance ThreadBlock_countable : Countable ThreadBlock :=
  inj_countable (fun b => [encode (ThreadId b); encode (Height b); encode (Round b); encode (ParentHash b);
      encode (Entries b); encode (ProposerDid b); encode (ProposerSig b); encode (BlockHash b); encode
      (CommittedAt b)])
    (fun l => match l with
              | [a; b; c; d; e; f; g; h; i] =>
                  a ← decode a; b ← decode b; c ← decode c; d ← decode d;
                  e ← decode e; f ← decode f; g ← decode g; h ← decode h;
                  i ← decode i;
                  Some (mkBlock a b c d e f g h i)
              | _ => None
              end)
    ltac:(by intros []; cbn; rewrite !decode_encode).
#[local] Instance Thread_countable : Countable Thread :=
  inj_countable (fun t => [encode (t_Id t); encode (CreatorDid t); encode (ReplicaDids t); encode (t_N t);
      encode (t_F t); encode (EpochMs t); encode (CreatedAt t); encode (Metadata t)])
    (fun l => match l with
              | [a; b; c; d; e; f; g; h] =>
                  a ← decode a; b ← decode b; c ← decode c; d ← decode d;
                  e ← decode e; f ← decode f; g ← decode g; h ← decode h;
                  Some (mkThread a b c d e f g h)
              | _ => None
              end)
    ltac:(by intros []; cbn; rewrite !decode_encode).
#[local] Instance ThreadHead_countable : Countable ThreadHead :=
  inj_countable (fun h => [encode (h_ThreadID h); encode (h_Height h); encode (h_BlockCid h); encode
      (h_BlockHash h); encode (h_UpdatedAt h); encode (h_Thread h)])
    (fun l => match l with
              | [a; b; c; d; e; f] =>
                  a ← decode a; b ← decode b; c ← decode c; d ← decode d;
                  e ← decode e; f ← decode f;
                  Some (mkHead a b c d e f)
              | _ => None
              end)
    ltac:(by intros []; cbn; rewrite !decode_encode).
#[local] Instance Envelope_countable : Countable ThreadKeyEnvelope :=
  inj_countable (fun e => [encode (k_ThreadId e); encode (k_EncryptionEpoch e); encode (k_RecipientDid e);
      encode (k_EphemeralPublicKey e); encode (k_Nonce e); encode (k_Ciphertext e); encode (k_Recovery e);
      encode (k_AuthorSignature e)])
    (fun l => match l with
              | [a; b; c; d; e; f; g; h] =>
                  a ← decode a; b ← decode b; c ← decode c; d ← decode d;
                  e ← decode e; f ← decode f; g ← decode g; h ← decode h;
                  Some (mkEnvelope a b c d e f g h)
              | _ => None
              end)
    ltac:(by intros []; cbn; rewrite !decode_encode).

#[export] Instance net_records : RecordCodec | 0 := {|
  json_claim := json_claim (RecordCodec := toy_records); un_claim := un_claim (RecordCodec := toy_records);
  json_card := json_card (RecordCodec := toy_records); un_card := un_card (RecordCodec := toy_records);
  un_published_at := un_published_at (RecordCodec := toy_records);
  proto_card := proto_card (RecordCodec := toy_records); json_dids := json_dids (RecordCodec := toy_records);
  un_dids := un_dids (RecordCodec := toy_records);
  un_head s := option_map (fun h => (h_ThreadID h, h_BlockCid h, h_Height h)) (of_code s);
  un_envelope s := of_code s;
  cid_Decode s := negb (String.eqb s "") |}.

#[export] Instance net_codec : ArchiveCodec := {|
  proto_block b := Some (to_code b); un_block s := of_code s;
  json_head h := Some (to_code h); un_thread_head s := of_code s;
  proto_envelope e := Some (to_code e); un_key_envelope s := of_code s;
  json_rhead h := Some (to_code (rv_ThreadID h, rv_Epoch h, rv_EnvelopeCID h, rv_PublishedAt h));
  un_rhead s := option_map (fun '(a, b, c, d) => mkRHead a b c d) (of_code s);
  proto_ack a := Archive.a_BlockHash a; un_ack s := None;
  cid_text s := String "b" s |}.

#[export] Instance net_codec_laws : ArchiveCodecLaws.
Proof.
  split; simpl.
  - intros b d [= <-]. apply of_code_to_code.
  - intros h d [= <-]. apply of_code_to_code.
  - intros d h E. by rewrite E.
  - intros e d [= <-]. apply of_code_to_code.
  - done.
  - done.
  - by intros x y [= ->].
Qed.

(** The network that serves what was written to it. *)
Definition view_of (n : Net) : View :=
  mkView (fun key => match Validators.ThreadHead_Select key (values key (puts n)) with
                     | Ok i => match values key (puts n) !! i with Some d => Ok d | None => Err ErrNoRows end
                     | _ => Err (Errorf "routing: not found")
                     end)
    (fun c => match bstore n !! c with Some d => Ok d | None => Err (Errorf "ipld: could not find") end).

Lemma view_of_answers n : answers (view_of n) n.
Proof.
  split.
  - intros key i d Hs Hd. simpl. by rewrite Hs, Hd.
  - intros c d Hd. simpl. by rewrite Hd.
Qed.

Definition toy_signed : Thread :=
  match SignDescriptor toy_thread (CreatorDid toy_thread) toy_key with Ok t => t | _ => toy_thread end.
Definition toy_net : Net := db (snd (publish_all 5 toy_signed toy_chain (World (mkNet ∅ [] []) []))).
Definition toy_config : ArchiveWorker.Config :=
  ArchiveWorker.mkConfig true true true true true (Some (CreatorDid toy_thread, toy_key)).
Definition toy_worker : ArchiveWorker.State :=
  ArchiveWorker.mkState (mkStore ThreadStore.empty_db Membership.empty_db (Keys.mkKeysDB ∅ ∅ ∅) ConsensusStore.empty_cdb)
    (Archive.mkArchiveDB ∅ ∅ []) (mkNet ∅ [] []) ∅ ∅ ∅ ∅ ∅ [].
Definition toy_sync : outcome Archive.Acknowledgement * world ArchiveWorker.State :=
  ArchiveWorker.Sync toy_config 9 (view_of toy_net) (view_of toy_net) "T" (World toy_worker []).

Definition result_or {A} (d : A) (r : outcome A) : A := match r with Ok a => a | _ => d end.
Lemma is_ok_result {A} (d : A) r : is_ok r = true -> r = Ok (result_or d r).
Proof. by destruct r. Qed.
Definition toy_receipt : Archive.Acknowledgement := result_or (Archive.mkAck "" "" "" 0 "") (fst toy_sync).

Lemma archive_sync_sound_witness :
  fst toy_sync = Ok toy_receipt /\
    exists th chain, VerifyDescriptor (Some th) = Ok tt /\ VerifyChain (archive_kind th) chain = Ok tt /\
      threads (s_blocks (ArchiveWorker.w_store (db (snd toy_sync)))) !! "T" = Some th /\
      Archive.a_BlockHash toy_receipt = last_hash "" chain.
Proof.
  assert (E : fst toy_sync = Ok toy_receipt) by (apply is_ok_result; vm_compute; reflexivity). split; [exact E|].
  destruct (archive_sync_sound toy_config 9 (view_of toy_net) (view_of toy_net) "T" (World toy_worker []) (Ok toy_receipt)
    (snd toy_sync)) as [_ Hok].
  { rewrite <- E. apply surjective_pairing. }
  destruct (Hok toy_receipt eq_refl) as (th & chain & _ & Hd & Hc & Ht & _ & _ & Hh & _). exists th, chain. auto.
Defined.

(** A head of height 2^46 beside the honest ones. *)
Definition toy_forged : ThreadHead := mkHead "T" (2 ^ 46) "bafy" "" 9 (Some toy_signed).
Definition toy_poison : string := to_code toy_forged.
Definition toy_vals : list string := map (record_of 5 toy_signed) toy_chain ++ [toy_poison].
Definition poisoned_view : View := mkView (fun _ => Ok toy_poison) (fun _ => Err ErrNoRows).

Lemma head_code h : un_thread_head (to_code h) = Some h.
Proof. apply of_code_to_code. Qed.

Lemma toy_poison_head : un_thread_head toy_poison = Some toy_forged.
Proof. unfold toy_poison. apply head_code. Qed.

Lemma toy_vals_third : toy_vals !! 2%nat = Some toy_poison.
Proof. by apply (list_lookup_middle (map (record_of 5 toy_signed) toy_chain) [] toy_poison). Qed.

Lemma toy_heights_below : forall j d x,
  toy_vals !! j = Some d -> j <> 2%nat -> un_head d = Some x -> snd x < 2 ^ 46.
Proof.
  assert (Hall : map (fun d => option_map snd (un_head d)) toy_vals = [Some 1; Some 2; Some (2 ^ 46)])
    by (vm_compute; reflexivity).
  intros j d x Hd Hj Hx.
  assert (Hl : [Some 1; Some 2; Some (2 ^ 46)] !! j = Some (Some (snd x))).
  { rewrite <- Hall, list_lookup_fmap, Hd. change (Some (option_map snd (un_head d)) = Some (Some (snd x))).
    rewrite Hx. reflexivity. }
  destruct j as [|[|[|j]]]; [| |contradiction|discriminate]; injection Hl as <-; reflexivity.
Qed.

Lemma poisoned_view_serves : serves poisoned_view (threadHeadDHTKey "T") toy_vals.
Proof.
  intros i d Hs Hd.
  assert (Hi : Validators.ThreadHead_Select (threadHeadDHTKey "T") toy_vals = Ok 2%nat) by (vm_compute; reflexivity).
  rewrite Hi in Hs. injection Hs as <-. rewrite toy_vals_third in Hd. apply (inj Some) in Hd. by rewrite <- Hd.
Qed.

Lemma toy_signed_valid : VerifyDescriptor (Some toy_signed) = Ok tt.
Proof. vm_compute. reflexivity. Qed.

Lemma poisoned_head_panics_witness :
  Validators.ThreadHead_Validate (threadHeadDHTKey "T") toy_poison = Ok tt /\
  fst (ArchiveWorker.Sync toy_config 9 poisoned_view poisoned_view "T" (World toy_worker [])) = Panic.
Proof.
  apply (poisoned_head_panics toy_config 9 poisoned_view "T" toy_signed toy_vals 2 toy_poison toy_forged (World toy_worker [])).
  - discriminate.
  - reflexivity.
  - exact toy_vals_third.
  - exact toy_poison_head.
  - repeat split; discriminate.
  - reflexivity.
  - reflexivity.
  - exact toy_signed_valid.
  - reflexivity.
  - exact toy_heights_below.
  - exact poisoned_view_serves.
  - reflexivity.
  - eexists. reflexivity.
  - apply not_elem_of_empty.
Defined.
