(* ===== verification/RaftRun.v ===== *)
(** * Driving a Raft backend

    The blocking loop [Run] and [ProposeVoterChange] of [daemon/thread/raft.go], and the
    bridges to the gossip network ([gossip.go], [actor_gossip_bridge.go], with the
    publishing budget of [gossip_validation.go]).  The theorems: an iteration of [Run]
    does to the replica what the step functions do that actors use; a voter change
    is reported as done only after a configuration change with its token was applied.
    Also: tokens are counters of a process, so the change of another replica, or of an
    earlier start, is taken for one's own; and a message above 1 MB reaches nobody. *)

From stdpp Require Import base gmap strings list pretty.
From Stdlib Require Import ZArith Lia Ascii.
From S2P Require Import Prelude GoStd Identity ThreadStore ConsensusStore Chain Instances Raft RaftFacts Records Publisher.

Local Open Scope string_scope.
Local Open Scope Z_scope.
Local Open Scope go_scope.

Import Identity ThreadStore ConsensusStore Chain Raft.

Module RaftRun.
Section RaftRun.
Context `{Crypto} `{Codec} (applySnapshot : Snapshot -> option error).
Context (conf : entry_data -> option (list Z)) (clock : Z -> Z).

(** What the select of [Run] found: a tick, a batch of the node, an inbound message.
    [hasLeader] and [proposeOk] are the node's answers. *)
Inductive event : Type :=
| Ticked (hasLeader proposeOk : bool)
| Batch (rd : Ready)
| Inbound (hasLeader proposeOk : bool).

(** One iteration: what is handed to the node; a tick of the node is [(None, p)]. *)
Definition run_once (ev : event) : M RaftState node_input :=
  match ev with
  | Ticked hl ok =>
      let! r := get_state in
      match pendingReady r with
      | Some rd => do! processReady applySnapshot conf clock rd in ret []
      | None => let! p := proposePending hl ok in ret [(None, p)]
      end
  | Batch rd => do! processReady applySnapshot conf clock rd in ret []
  | Inbound hl ok =>
      let! r := get_state in
      match inboundCh r with
      | [] => ret []
      | msg :: q => do! modify (set_inbound q) in let! i := handleInbound hl ok msg in ret [i]
      end
  end.

Definition iterate (evs : list event) : M RaftState unit := for_each evs (fun ev => log_err (run_once ev)).

(** [during]: what the loop does until the caller is woken or its context ends. *)
Definition ProposeVoterChange (isLeader proposeOk : bool) (did : string) (during : list event) : M RaftState unit :=
  let! token := beginVoterChange isLeader proposeOk did in
  do! iterate during in
  let! r := get_state in
  if decide (token ∈ completed r) then ret tt else throw (Errorf "context deadline exceeded").

End RaftRun.
End RaftRun.

Module Bridge.
Section Bridge.

Definition maxInFlightPublishesPerThread : nat := 32.

(** The message handed to pubsub, and the publications in flight: the engine's bridge, and
    the actor's when it has no executor to publish with. *)
Definition publish (data : option string) (slots : nat) : option string * nat :=
  match data with
  | None => (None, slots)
  | Some d => if (slots <? maxInFlightPublishesPerThread)%nat then (Some d, S slots) else (None, slots)
  end.

(** A publication ends. *)
Definition published (slots : nat) : nat := Nat.pred slots.

(** [BroadcastFunc] of the engine's bridge delivers to its own engine first. *)
Definition BroadcastFunc {A} (deliver : A -> A) (data : option string) (slots : nat) (a : A)
    : A * option string * nat :=
  let '(out, slots) := publish data slots in (deliver a, out, slots).

(** A message of the subscription, given to [deliver] when it is for the thread. *)
Definition on_message {A} (un_consensus : string -> option (string * bool)) (threadID : string)
    (deliver : string -> A -> A) (data : string) (a : A) : A :=
  match Publisher.decodeConsensusMsg un_consensus threadID data with
  | Ok (Some _) => deliver data a
  | _ => a
  end.

End Bridge.
End Bridge.

Import RaftRun Bridge.

Section Facts.
Context `{Crypto} `{Codec} (applySnapshot : Snapshot -> option error).
Context (conf : entry_data -> option (list Z)) (clock : Z -> Z).

(** ** What the backend does to waiting voter changes *)

Definition waiting (r : RaftState) := (completed r, pendingReady r).

Lemma blocks_waiting {A} F (m : M BlocksDB A) : preserves (fun r => waiting r = F) (on_blocks m).
Proof. apply preserves_zoom; [|by intros []]. intros r Hr w Hw. by destruct (m w). Qed.
Lemma consensus_waiting {A} F (m : M ConsensusDB A) : preserves (fun r => waiting r = F) (on_consensus m).
Proof. apply preserves_zoom; [|by intros []]. intros r Hr w Hw. by destruct (m w). Qed.
Lemma state_waiting F : preserves (fun r => waiting r = F) get_state.
Proof. by intros w. Qed.
#[local] Hint Resolve blocks_waiting consensus_waiting state_waiting : molt_ops.

Lemma add_observers_waiting es c r : waiting (snd (add_observers es c r)) = waiting r.
Proof.
  revert c r. induction es as [|e es IH]; intros c r; simpl; [done|].
  destruct (negb _); [apply IH|]. destruct (String.eqb _ _); [apply IH|]. destruct (peerIDs r !! _); [apply IH|]. by rewrite IH.
Qed.

Lemma sign_waiting F : preserves (fun r => waiting r = F) sign_and_save.
Proof. unfold sign_and_save. go_preserves; done. Qed.
Lemma members_waiting F es : preserves (fun r => waiting r = F) (applyMembershipEntries es).
Proof.
  intros w Hw. unfold applyMembershipEntries, bind, get_state. pose proof (add_observers_waiting es false (db w)) as Hadd.
  destruct (add_observers es false (db w)) as [c r']. simpl in *.
  destruct c; [apply sign_waiting|]; simpl; by rewrite Hadd.
Qed.
Lemma voters_waiting F n : preserves (fun r => waiting r = F) (persistVoterCount n).
Proof. unfold persistVoterCount. pose proof sign_waiting. go_preserves; done. Qed.
Lemma hard_waiting F hs : preserves (fun r => waiting r = F) (persistHardState hs).
Proof. unfold persistHardState. go_preserves; done. Qed.
Lemma send_waiting F m : preserves (fun r => waiting r = F) (sendRaftMsg m).
Proof. unfold sendRaftMsg. go_preserves; done. Qed.
Lemma propose_waiting F hl ok : preserves (fun r => waiting r = F) (proposePending hl ok).
Proof. unfold proposePending. go_preserves; done. Qed.
#[local] Hint Resolve sign_waiting members_waiting voters_waiting hard_waiting send_waiting propose_waiting : molt_ops.
Lemma commit_waiting F now term es ids owner : preserves (fun r => waiting r = F) (commitBlock now term es ids owner).
Proof. unfold commitBlock. go_preserves; done. Qed.
Lemma committed_waiting F b : preserves (fun r => waiting r = F) (applyCommittedBlock b).
Proof. unfold applyCommittedBlock. go_preserves; done. Qed.
#[local] Hint Resolve commit_waiting committed_waiting : molt_ops.
Lemma inbound_waiting F hl ok msg : preserves (fun r => waiting r = F) (handleInbound hl ok msg).
Proof. unfold handleInbound. go_preserves; done. Qed.
#[local] Hint Resolve inbound_waiting : molt_ops.

(** ** The loop and the step functions *)

(** An iteration of [Run] does to the replica what a tick, a batch or an inbound message
    does through the functions actors call. *)
Theorem run_matches_steps ev w :
  match ev with
  | Ticked hl ok =>
      snd (run_once applySnapshot conf clock ev w) =
      snd ((do! Tick hl ok in TryReady applySnapshot conf clock None)%go w)
  | Batch rd =>
      pendingReady (db w) = None ->
      snd (run_once applySnapshot conf clock ev w) = snd (TryReady applySnapshot conf clock (Some rd) w)
  | Inbound hl ok => snd (run_once applySnapshot conf clock ev w) = snd (TryDrainInbound hl ok w)
  end.
Proof.
  destruct ev as [hl ok|rd|hl ok].
  - unfold run_once, Tick, TryReady, bind, get_state. destruct (pendingReady (db w)) as [rd|] eqn:Hp.
    + cbn [db ret]. unfold ret. rewrite Hp. by destruct (processReady _ _ _ _ w) as [[b|x|] w1].
    + pose proof (propose_waiting (waiting (db w)) hl ok w eq_refl) as Hw.
      destruct (proposePending hl ok w) as [[q|x|] w1]; cbn [snd fst] in *; [|done..]. unfold ret.
      unfold waiting in Hw. rewrite Hp in Hw. injection Hw as _ ->. done.
  - intros Hp. unfold run_once, TryReady, bind, get_state. rewrite Hp.
    by destruct (processReady _ _ _ _ w) as [[b|x|] w1].
  - unfold run_once, TryDrainInbound, bind, get_state. destruct (inboundCh (db w)) as [|msg q]; [done|].
    unfold modify. by destruct (handleInbound hl ok msg _) as [[i|x|] w1].
Qed.

(** ** Completed voter changes *)

(** The tokens of the configuration changes among committed entries. *)
Definition token_of_entry (e : RaftEntry) : option string :=
  match re_Type e, re_Data e with EntryConfChangeV2, DataConfChange t _ _ => Some t | _, _ => None end.
Definition tokens (rd : Ready) : list string := omap token_of_entry (rd_Committed rd).

(** Completed changes are old ones or had their token in a batch of [allowed], and
    only such a batch waits to be retried. *)
Definition accounted (base : list string) (allowed : list Ready) (r : RaftState) : Prop :=
  (forall t, t ∈ completed r -> t ∈ base \/ exists rd, rd ∈ allowed /\ t ∈ tokens rd) /\
  (forall rd, pendingReady r = Some rd -> rd ∈ allowed).

Section Accounted.
Variables (base : list string) (allowed : list Ready).
Notation ok := (accounted base allowed).

Lemma waiting_accounted {A} (m : M RaftState A) :
  (forall F, preserves (fun r => waiting r = F) m) -> preserves ok m.
Proof.
  intros Hm w Hw. pose proof (Hm (waiting (db w)) w eq_refl) as E. unfold waiting, accounted in *.
  destruct (m w) as [r w']. cbn [snd db] in *. injection E as -> ->. exact Hw.
Qed.

Lemma entry_accounted rd e : rd ∈ allowed -> e ∈ rd_Committed rd -> preserves ok (apply_entry conf clock e).
Proof.
  intros Hrd He. unfold apply_entry. apply preserves_bind; [by apply preserves_modify|]. intros _. cbv zeta.
  assert (Hconf : preserves ok (match conf (re_Data e) with
    | Some vs => (do! modify (set_voters vs) in persistVoterCount (llen vs))%go | None => ret tt end)).
  { destruct (conf _) as [vs|]; [|apply preserves_ret]. apply preserves_bind; [by apply preserves_modify|].
    intros _. apply waiting_accounted. auto with molt_ops. }
  assert (Hcommit : forall now term es ids owner, preserves ok (commitBlock now term es ids owner)).
  { intros. apply waiting_accounted. auto with molt_ops. }
  assert (Ht : forall t, token_of_entry e = Some t -> preserves ok (completeVoterChange t)).
  { intros t Hte. unfold completeVoterChange. destruct (String.eqb t ""); [apply preserves_ret|].
    apply preserves_modify. intros r [Hc Hp]. split; [|exact Hp]. simpl. case_decide; [|exact Hc].
    intros x [Hx|Hx]%elem_of_app; [by apply Hc|]. apply list_elem_of_singleton in Hx as ->. right. exists rd.
    split; [done|]. apply list_elem_of_omap. by exists e. }
  unfold token_of_entry in Ht.
  destruct (re_Type e), (re_Data e); try apply preserves_ret; try exact Hconf.
  all: try (apply preserves_bind; [by intros ?|intros ?]; apply Hcommit).
  apply preserves_bind; [exact Hconf|]. intros _. by apply Ht.
Qed.

Lemma handle_accounted rd : rd ∈ allowed -> preserves ok (handleReady applySnapshot conf clock rd).
Proof.
  intros Hrd. unfold handleReady. apply preserves_bind; [by intros ?|]. intros r0. cbv zeta.
  assert (Hc : forall A (m : M ConsensusDB A), preserves ok (on_consensus m)).
  { intros A m. apply waiting_accounted. auto with molt_ops. }
  apply preserves_catch; [apply Hc|]. intros [?|?|]; [|apply preserves_ret..].
  apply preserves_bind.
  - destruct (IsEmptySnap _); [apply preserves_ret|]. apply preserves_catch; [apply Hc|].
    intros [?|?|]; [|apply preserves_ret..]. destruct (applySnapshot _); [apply preserves_ret|].
    apply preserves_bind; [by apply preserves_modify|]. intros _. apply preserves_bind; [by apply preserves_modify|].
    intros _. apply preserves_ret.
  - intros b. destruct (negb b); [apply preserves_ret|]. apply preserves_bind.
    { destruct (IsEmptyHardState _); [apply preserves_ret|]. apply waiting_accounted. auto with molt_ops. }
    intros _. apply preserves_bind.
    { apply preserves_for_each. intros m. apply waiting_accounted. auto with molt_ops. }
    intros _. apply preserves_bind; [|intros _; apply preserves_ret].
    apply preserves_for_each_in. intros e He. by eapply entry_accounted.
Qed.

Lemma process_accounted rd : rd ∈ allowed -> preserves ok (processReady applySnapshot conf clock rd).
Proof.
  intros Hrd. unfold processReady. apply preserves_bind; [by apply handle_accounted|]. intros [];
    (apply preserves_bind; [apply preserves_modify|intros _; apply preserves_ret]); intros r [Hc Hp]; (split; [exact Hc|]); simpl.
  - done.
  - by intros ? [= <-].
Qed.

Lemma run_accounted evs : (forall rd, Batch rd ∈ evs -> rd ∈ allowed) -> preserves ok (iterate applySnapshot conf clock evs).
Proof.
  intros Hb. unfold iterate. apply preserves_for_each_in. intros ev Hev. apply preserves_log_err.
  destruct ev as [hl okp|rd|hl okp]; unfold run_once.
  - intros w Hw. unfold bind at 1, get_state. destruct (pendingReady (db w)) as [rd|] eqn:Hp.
    + assert (Hm : preserves ok (do! processReady applySnapshot conf clock rd in @ret RaftState node_input [])%go).
      { apply preserves_bind; [|intros; apply preserves_ret]. apply process_accounted. by apply (proj2 Hw). }
      by apply Hm.
    + assert (Hm : preserves ok (let! p := proposePending hl okp in @ret RaftState node_input [(None, p)])%go).
      { apply preserves_bind; [|intros; apply preserves_ret]. apply waiting_accounted. auto with molt_ops. }
      by apply Hm.
  - apply preserves_bind; [|intros; apply preserves_ret]. apply process_accounted, Hb. done.
  - apply preserves_bind; [by intros ?|]. intros r. destruct (inboundCh r) as [|msg q]; [apply preserves_ret|].
    apply preserves_bind; [by apply preserves_modify|]. intros _. apply preserves_bind; [|intros; apply preserves_ret].
    apply waiting_accounted. auto with molt_ops.
Qed.
End Accounted.
End Facts.

Section Voters.
Context `{Crypto} `{Codec} (applySnapshot : Snapshot -> option error).
Context (conf : entry_data -> option (list Z)) (clock : Z -> Z).
Notation Propose := (ProposeVoterChange applySnapshot conf clock).

(** The token of the next change. *)
Definition next_token (r : RaftState) : string := token_of (uint64 (changeSeq r + 1)).

Lemma begin_ok il okp did w t w' : beginVoterChange il okp did w = (Ok t, w') ->
  t = next_token (db w) /\ il = true /\ default 0 (peerIDs (db w) !! did) <> 0 /\
  waiting (db w') = waiting (db w).
Proof.
  unfold beginVoterChange, bind, get_state. cbn [db]. destruct il; [|discriminate].
  destruct (Z.eqb_spec (default 0 (peerIDs (db w) !! did)) 0) as [|Hd]; [discriminate|].
  unfold modify. cbn [db negb]. destruct okp; [|discriminate]. by intros [= <- <-].
Qed.

(** C39: A voter change that is reported as done was proposed by the leader for a known
    replica, and a configuration change with its token was committed and handed to
    this replica in the meantime. *)
Theorem voter_change_applied il okp did during w w' :
  Propose il okp did during w = (Ok tt, w') -> next_token (db w) ∉ completed (db w) ->
  il = true /\ default 0 (peerIDs (db w) !! did) <> 0 /\
  exists rd, (Batch rd ∈ during \/ pendingReady (db w) = Some rd) /\ next_token (db w) ∈ tokens rd.
Proof.
  intros (t & w1 & (-> & Hil & Hd & Hw)%begin_ok & E)%bind_ok Hfresh. split; [done|]. split; [done|].
  apply bind_ok in E as ([] & w2 & E & E2).
  set (allowed := omap (fun ev => match ev with Batch rd => Some rd | _ => None end) during).
  set (pend := match pendingReady (db w) with Some rd => [rd] | None => [] end).
  assert (Hall : forall rd, rd ∈ (allowed ++ pend)%list -> Batch rd ∈ during \/ pendingReady (db w) = Some rd).
  { intros rd [Hrd|Hrd]%elem_of_app.
    - left. apply list_elem_of_omap in Hrd as (ev & Hev & Hrd). destruct ev; simplify_eq. done.
    - right. unfold pend in Hrd. destruct (pendingReady (db w)); [|by apply elem_of_nil in Hrd].
      by apply list_elem_of_singleton in Hrd as ->. }
  unfold waiting in Hw. injection Hw as Hc Hp.
  assert (Hacc : accounted (completed (db w)) (allowed ++ pend) (db w2)).
  { refine (preserves_use (accounted (completed (db w)) (allowed ++ pend)) _ _ _ _
      (run_accounted applySnapshot conf clock _ _ during _) E _).
    - intros rd Hrd. apply elem_of_app. left. apply list_elem_of_omap. by exists (Batch rd).
    - split; [rewrite Hc; by left|]. intros rd. rewrite Hp. intros Hrd. apply elem_of_app. right. unfold pend.
      rewrite Hrd. by left. }
  unfold bind, get_state in E2. case_decide as Ht; [|discriminate].
  destruct (proj1 Hacc _ Ht) as [|(rd & Hrd & Htok)]; [done|]. exists rd. split; [by apply Hall|done].
Qed.

Lemma persist_runs n r : exists r', persistVoterCount n (World r []) = (Ok tt, World r' []) /\
  voters r' = voters r /\ changes r' = changes r /\ completed r' = completed r.
Proof.
  unfold persistVoterCount, sign_and_save, bind, get_state, modify, log_err, catch, on_blocks, zoom, ret. cbn [db faults].
  destruct (_ || _); [by exists r|]. cbn. destruct (negb _); [by eexists|].
  destruct (SignDescriptor _ _ _) as [t|x|]; [|by eexists..]. cbn. by eexists.
Qed.

(** A committed entry that carries the token, whoever proposed it and for whatever
    replica. *)
Definition other_change (token : string) (add : bool) (node : Z) : RaftEntry :=
  mkRaftEntry 2 7 EntryConfChangeV2 (DataConfChange token add node).
Definition batch_with (e : RaftEntry) : Ready := mkReady emptyHardState [] emptySnapshot [] [e].

Lemma run_bind {A B} (m : M RaftState A) (k : A -> M RaftState B) w a w1 : m w = (Ok a, w1) -> bind m k w = k a w1.
Proof. unfold bind. by intros ->. Qed.

Lemma change_runs token add node vs r : token <> "" -> conf (DataConfChange token add node) = Some vs ->
  token ∈ changes r ->
  exists r', apply_entry conf clock (other_change token add node) (World r []) = (Ok tt, World r' []) /\
    voters r' = vs /\ token ∈ completed r'.
Proof.
  intros Ht Hconf Hin. unfold apply_entry, other_change. cbn [re_Type re_Data re_Index re_Term].
  rewrite (run_bind _ _ _ tt (World (set_applied 7 2 r) [])) by done. rewrite Hconf. cbv zeta.
  destruct (persist_runs (llen vs) (set_voters vs (set_applied 7 2 r))) as (r3 & E3 & Hv & Hch & Hco).
  rewrite (run_bind _ _ _ tt (World r3 [])).
  - unfold completeVoterChange. destruct (String.eqb_spec token "") as [|_]; [done|]. eexists. split; [reflexivity|].
    split; [exact Hv|]. cbn. rewrite Hch, Hco. cbn. rewrite decide_True by done. apply elem_of_app. right. by left.
  - by rewrite (run_bind _ _ _ tt (World (set_voters vs (set_applied 7 2 r)) [])).
Qed.

(** A batch of one entry, on a database that does not fail. *)
Lemma batch_runs e r r' : apply_entry conf clock e (World (set_cdb (cdb r) r) []) = (Ok tt, World r' []) ->
  iterate applySnapshot conf clock [Batch (batch_with e)] (World r []) = (Ok tt, World (set_pending None r') []).
Proof.
  intros He. unfold iterate, for_each. rewrite (run_bind _ _ _ tt (World (set_pending None r') [])); [done|].
  unfold log_err, catch, run_once. rewrite (run_bind _ _ _ true (World (set_pending None r') [])); [done|].
  unfold processReady. rewrite (run_bind _ _ _ true (World r' [])); [done|].
  unfold handleReady. rewrite (run_bind _ _ _ r (World r [])) by done. cbv zeta. unfold catch at 1.
  change (on_consensus (SaveRaftReady (t_Id (thread r)) (rd_HardState (batch_with e)) (rd_Entries (batch_with e))) (World r []))
    with (Ok tt, World (set_cdb (cdb r) r) []). cbv beta iota.
  rewrite (run_bind _ _ _ true (World (set_cdb (cdb r) r) [])) by done. cbn [negb].
  rewrite (run_bind _ _ _ tt (World (set_cdb (cdb r) r) [])) by done.
  rewrite (run_bind _ _ _ tt (World (set_cdb (cdb r) r) [])) by done.
  rewrite (run_bind _ _ _ tt (World r' [])); [done|]. cbn [rd_Committed batch_with for_each].
  by rewrite (run_bind _ _ _ tt (World r' [])).
Qed.

(** Tokens are the numbers a process counts from 1, so the pending change of one replica
    has the token of the change another one proposed before it, or the same one before
    a restart.  When that change commits, the caller is told that its own change was
    applied, with the voters the other change leaves. *)
Theorem voter_change_misattributed okp did i r add node vs :
  okp = true -> peerIDs r !! did = Some i -> i <> 0 -> next_token r <> "" ->
  conf (DataConfChange (next_token r) add node) = Some vs ->
  exists r', Propose true okp did [Batch (batch_with (other_change (next_token r) add node))] (World r []) =
      (Ok tt, World r' []) /\ voters r' = vs.
Proof.
  intros -> Hdid Hi Ht Hconf.
  set (r1 := set_changes (uint64 (changeSeq r + 1)) ({[next_token r]} ∪ changes r) (completed r) r).
  assert (Eb : beginVoterChange true true did (World r []) = (Ok (next_token r), World r1 [])).
  { unfold beginVoterChange, bind, get_state. cbn [db]. rewrite Hdid. change (default 0 (Some i)) with i.
    destruct (Z.eqb_spec i 0) as [|_]; [done|reflexivity]. }
  destruct (change_runs (next_token r) add node vs (set_cdb (cdb r1) r1)) as (r4 & E4 & Hv4 & Hc4); [done..|set_solver|].
  apply batch_runs in E4. exists (set_pending None r4). unfold ProposeVoterChange.
  rewrite (run_bind _ _ _ _ _ Eb), (run_bind _ _ _ _ _ E4). unfold bind, get_state. cbn [db]. by rewrite decide_True.
Qed.
End Voters.

(** ** The bridges *)

(** What a replica publishes within the size limit passes the validator of every other
    replica that counts it among the thread's, and is handed to the backend there. *)
Lemma gossip_reaches `{Crypto} {A} un_consensus th key data (deliver : string -> A -> A) a :
  0 < slen data <= Publisher.maxConsensusMessageSize -> DIDFromPubBytes key ∈ ReplicaDids th ->
  un_consensus data = Some (t_Id th, true) ->
  Publisher.consensus_validator un_consensus th (Some key) data = true /\
  on_message un_consensus (t_Id th) deliver data a = deliver data a.
Proof.
  intros Hs Hin Hu. unfold Publisher.consensus_validator, on_message, Publisher.decodeConsensusMsg.
  rewrite Hu, bool_decide_eq_true_2 by done. cbn [fst snd negb]. rewrite String.eqb_refl.
  destruct (Z.eqb_spec (slen data) 0); [lia|]. by destruct (Z.ltb_spec Publisher.maxConsensusMessageSize (slen data)); [lia|].
Qed.

(** A larger message is refused by everybody, whoever sends it again; and nothing bounds
    the entries a proposal carries ([RpcThreads.AppendEntry] takes any payload). *)
Lemma oversized_reaches_nobody `{Crypto} un_consensus th author data :
  Publisher.maxConsensusMessageSize < slen data -> Publisher.consensus_validator un_consensus th author data = false.
Proof.
  intros Hs. unfold Publisher.consensus_validator.
  destruct (Z.ltb_spec Publisher.maxConsensusMessageSize (slen data)); [|lia]. by rewrite orb_true_r.
Qed.

(** At most 32 publications of a thread are in flight. *)
Lemma publish_bounded data slots :
  (slots <= maxInFlightPublishesPerThread)%nat -> (snd (publish data slots) <= maxInFlightPublishesPerThread)%nat.
Proof.
  intros Hs. unfold publish. destruct data as [d|]; [|done].
  destruct (Nat.ltb_spec slots maxInFlightPublishesPerThread); simpl; lia.
Qed.

(** ** A concrete change *)

Definition toy_waiting : RaftState :=
  set_peers {["did:x" := 3]} {[3 := "did:x"]} (toy_state "did:b").

Lemma voter_change_applied_witness :
  exists w', ProposeVoterChange (fun _ => None) (fun _ => Some [1; 2; 3]) (fun i => i) true true "did:x"
      [Batch (batch_with (other_change "1" true 3))] (World toy_waiting []) = (Ok tt, w') /\
    exists rd, "1" ∈ tokens rd.
Proof.
  eexists. split; [vm_compute; reflexivity|].
  destruct (voter_change_applied (fun _ => None) (fun _ => Some [1; 2; 3]) (fun i => i) true true "did:x"
    [Batch (batch_with (other_change "1" true 3))] (World toy_waiting []) _ ltac:(vm_compute; reflexivity))
    as (_ & _ & rd & _ & Ht); [apply not_elem_of_nil|]. exists rd. exact Ht.
Defined.

(** The change of the waiting replica was to add node 3; the one applied removes node 2. *)
Lemma voter_change_misattributed_witness :
  exists r', ProposeVoterChange (fun _ => None) (fun _ => Some [1]) (fun i => i) true true "did:x"
      [Batch (batch_with (other_change (next_token toy_waiting) false 2))] (World toy_waiting []) =
      (Ok tt, World r' []) /\ voters r' = [1].
Proof.
  apply (voter_change_misattributed (fun _ => None) (fun _ => Some [1]) (fun i => i) true "did:x" 3 toy_waiting false 2 [1]);
    [reflexivity|vm_compute; reflexivity|discriminate|vm_compute; discriminate|reflexivity].
Defined.
