(* ===== verification/RpcThreads.v ===== *)
(** * RPC handlers of threads ([daemon/rpc/server_threads.go])

    The handlers on the state of the whole node: the components behind the RPC server
    and the thread manager ([Deliver.Daemon]), and what the node writes to the network
    ([Net]).  The thread manager is the actor manager, which implements every optional
    interface the handlers ask for; a type assertion fails only on a nil manager. *)

From stdpp Require Import base gmap strings list pretty.
From Stdlib Require Import ZArith Lia Ascii.
From S2P Require Import Prelude GoStd Identity Session Mail ThreadStore Tasks Rpc ConsensusStore Membership Chain ThreadCrypto Records Manager Deliver Publisher.

Local Open Scope string_scope.
Local Open Scope Z_scope.
Local Open Scope go_scope.

Import Identity ThreadStore Membership Chain Keys Publisher.

(** [pb.ThreadInvitation], [pb.ThreadCatchupProof], [pb.ThreadMembershipChange],
    [pb.ThreadCatchupState]. *)
Record ThreadInvitation : Type := mkInvitation {
  i_ThreadId : string; i_InviterDid : string; i_InviteeDid : string; i_Role : Role;
  i_ExpiresAt : Z; i_Nonce : string; i_Signature : string }.

Record ThreadCatchupProof : Type := mkProof {
  p_ThreadId : string; p_ObserverDid : string; p_CommittedHeight : Z; p_HeadBlockHash : string;
  p_IssuedAt : Z; p_Signature : string }.

Record ThreadMembershipChange : Type := mkChange {
  ch_ThreadId : string; ch_MembershipEpoch : Z; ch_Member : option ThreadMember; ch_Invitation : string }.

Record ThreadCatchupState : Type := mkCatchup {
  cs_ThreadId : string; cs_ObserverDid : string; cs_CommittedHeight : Z; cs_HeadBlockHash : string }.

(** Requests. *)
Record InviteRequest : Type := mkInviteReq {
  ir_ThreadId : string; ir_InviteeDid : string; ir_Role : Role; ir_ExpiresAt : Z; ir_Nonce : string;
  ir_Signature : string }.
Record AppendEntryRequest : Type := mkAppendReq {
  ae_ThreadId : string; ae_Payload : string; ae_Kind : string; ae_EncryptedEntry : option ThreadEntry }.

Class ThreadsCodec : Type := {
  marshal_invitation : ThreadInvitation -> option string;
  unmarshal_invitation : string -> option ThreadInvitation;
  marshal_proof : ThreadCatchupProof -> option string;
  unmarshal_proof : string -> option ThreadCatchupProof;
  marshal_thread : Thread -> option string }.

Module RpcThreads.
Section RpcThreads.
Context `{Crypto} `{Codec} `{TaskCodec} `{ThreadManager} `{ActorBackend} `{Cipher} `{RecordCodec} `{ArchiveCodec}
  `{ThreadsCodec}.

(** The node: the daemon's components, and what it writes to the network. *)
Record Node : Type := mkNode { daemon : Deliver.Daemon; net : Net }.

Definition on_daemon {A} (m : M Deliver.Daemon A) : M Node A :=
  zoom daemon (fun d n => mkNode d (net n)) m.
Definition on_rpc {A} (m : M Rpc.Server A) : M Node A := on_daemon (Deliver.on_server m).
Definition on_mgr {A} (m : M Manager.State A) : M Node A := on_daemon (Deliver.on_manager m).
Definition on_store {A} (m : M Store A) : M Node A := on_mgr (Manager.on_store m).
Definition on_net {A} (m : M Net A) : M Node A := zoom net (fun x n => mkNode (daemon n) x) m.

(** The server's key, and which of its fields are set: outbox, the node's DHT,
    Bitswap and block store. *)
Record Config : Type := mkConfig {
  c_sk : string; c_outbox : bool; c_dht : bool; c_bitswap : bool; c_blockstore : bool }.

Definition self : M Node Rpc.Server := on_rpc Rpc.self.

(** [s.threads == nil]: a method call panics, a type assertion fails. *)
Definition threads_call {A} (m : M Node A) : M Node A :=
  let! s := self in if Rpc.hasThreads s then m else panic.
Definition threads_as {A} (msg : string) (m : M Node A) : M Node A :=
  let! s := self in if Rpc.hasThreads s then m else throw (Errorf msg).

Definition scopedOwner (now : Z) (c : Rpc.ctx) : M Node string := on_rpc (Rpc.scopedOwner now c).
Definition agentDID (now : Z) (c : Rpc.ctx) : M Node string := on_rpc (Rpc.agentDID now c).

Definition get_thread (threadID : string) : M Node Thread := on_store (on_blocks (ThreadStore.GetThread threadID)).
Definition list_members (threadID : string) : M Node (list ThreadMember) := on_store (on_members (ListMembers threadID)).

Definition is_member (did : string) (l : list ThreadMember) : bool := existsb (fun m => String.eqb (Did m) did) l.

(** ** Waking replicas *)

Definition wake_message (uuid self : string) (payload : string) (thread : Thread) (did : string) (sentAt : Z)
    : Message :=
  mkMessage uuid self did (t_Id thread) "" KIND_THREAD_INVITE payload sentAt "".

(** The loop over the replicas from index [i]; whether an enqueue failed. *)
Fixpoint wake_loop (clk : nat -> Z) (uid : nat -> string) (selfDID payload : string) (thread : Thread)
    (i : nat) (dids : list string) : M Node bool :=
  match dids with
  | [] => ret false
  | did :: rest =>
      if String.eqb did selfDID then wake_loop clk uid selfDID payload thread (S i) rest else
      catch (on_rpc (Rpc.on_outbox (Outbox.Enqueue (clk 8%nat) (clk 9%nat)
               (wake_message (uid i) selfDID payload thread did (Tasks.UnixMilli (clk 7%nat))))))
        (fun r =>
           let! failed := wake_loop clk uid selfDID payload thread (S i) rest in
           ret (negb (is_ok r) || failed))
  end.

Definition enqueueThreadWake (cfg : Config) (clk : nat -> Z) (uid : nat -> string) (thread : Thread) : M Node unit :=
  if negb (c_outbox cfg) then throw (Errorf "outbox not available") else
  match marshal_thread thread with
  | None => throw (Errorf "proto: invalid UTF-8")
  | Some payload =>
      let! s := self in
      let! failed := wake_loop clk uid (Rpc.did s) payload thread 0 (ReplicaDids thread) in
      if failed : bool then throw (Errorf "wake") else ret tt
  end.

(** ** Creating and reading threads *)

Definition creator_of (req : option CreateThreadRequest) : string :=
  match req with Some r => q_CreatorDid r | None => "" end.

Definition CreateThread (cfg : Config) (c : Rpc.ctx) (clk : nat -> Z) (uid : nat -> string) (uuid : string)
    (req : option CreateThreadRequest) : M Node Thread :=
  threads_as "thread manager not available" (
    let! owner := scopedOwner (clk 0%nat) c in
    do! (if negb (String.eqb owner "") then
           guard! match req with Some r => String.eqb (q_CreatorDid r) owner | None => false end
             else Errorf "signed thread creator must match authenticated agent" in ret tt
         else
           guard! String.eqb (creator_of req) ""
             else Errorf "signed thread creation requires an agent session" in ret tt) in
    let! s := self in
    let! thread := on_mgr (Manager.CreateThread uuid (Tasks.UnixMilli (clk 1%nat)) (Rpc.did s) (c_sk cfg) req) in
    do! log_err (enqueueThreadWake cfg clk uid thread) in
    ret thread).

Definition GetThread (req : option string) : M Node Thread :=
  threads_as "thread manager not available"
    (match req with None => panic | Some id => get_thread id end).

Definition entry_text (author payload kind : string) (at_ : Z) : ThreadEntry :=
  mkEntry author payload kind "" at_ 0 0 "" 0 0 "" "".

(** ** Replicas and members *)

(** The poll of AddThreadReplica: [evolve k]: what happened to the node before tick
    [k]; [n]: the ticks left before the deadline. *)
Fixpoint await_replica (cfg : Config) (clk : nat -> Z) (uid : nat -> string) (evolve : nat -> Node -> Node)
    (threadID did : string) (k n : nat) : M Node Thread :=
  match n with
  | O => throw (Errorf "context deadline exceeded")
  | S n' =>
      do! modify (evolve k) in
      let! updated := get_thread threadID in
      if existsb (fun d => String.eqb d did) (ReplicaDids updated) then
        do! enqueueThreadWake cfg clk uid updated in ret updated
      else await_replica cfg clk uid evolve threadID did (S k) n'
  end.

(** 15 seconds of ticks of 50 milliseconds. *)
Definition max_ticks : nat := 300.

(** [ticks]: the ticks seen before the context is done. *)
Definition AddThreadReplica (cfg : Config) (c : Rpc.ctx) (clk : nat -> Z) (uid : nat -> string)
    (evolve : nat -> Node -> Node) (ticks : nat) (req : option (string * string)) : M Node Thread :=
  match req with
  | None => throw (Errorf "thread_id and replica_did are required")
  | Some (threadID, replicaDID) =>
      guard! negb (String.eqb threadID "" || String.eqb replicaDID "")
        else Errorf "thread_id and replica_did are required" in
      threads_call (
        let! th := get_thread threadID in
        let! owner := scopedOwner (clk 0%nat) c in
        let! s := self in
        let creator := if String.eqb owner "" then Rpc.did s else owner in
        guard! String.eqb (CreatorDid th) creator else Errorf "only the thread creator may add an observer" in
        if existsb (fun d => String.eqb d replicaDID) (ReplicaDids th) then ret th else
        do! on_mgr (Manager.AppendEntry (Tasks.UnixMilli (clk 2%nat)) (t_Id th)
              (entry_text creator replicaDID "membership:add-observer" (Tasks.UnixMilli (clk 1%nat)))) in
        let! epoch := catch (on_store (on_members (MembershipEpochOf (t_Id th)))) (fun r =>
          ret (match r with Ok e => if 0 <? e then e else 1 | _ => 1 end)) in
        do! on_store (on_members (SaveMember (t_Id th) (Some (mkMember replicaDID OBSERVER epoch)))) in
        await_replica cfg clk uid evolve (t_Id th) replicaDID 0 (Nat.min ticks max_ticks))
  end.

Definition InviteThreadMember (cfg : Config) (c : Rpc.ctx) (clk : nat -> Z) (req : option InviteRequest)
    : M Node ThreadMembershipChange :=
  match req with
  | None => throw (Errorf "invalid thread invite")
  | Some r =>
      guard! negb (String.eqb (ir_ThreadId r) "" || String.eqb (ir_InviteeDid r) "" || (slen (ir_Nonce r) =? 0))
        else Errorf "invalid thread invite" in
      guard! bool_decide (ir_Role r = OBSERVER) else Errorf "new members must start as observers" in
      threads_call (
        let! th := get_thread (ir_ThreadId r) in
        let! owner := scopedOwner (clk 0%nat) c in
        guard! String.eqb owner "" || String.eqb owner (CreatorDid th)
          else Errorf "only thread creator may invite members" in
        let inviter := if String.eqb owner "" then CreatorDid th else owner in
        let invite := mkInvitation (ir_ThreadId r) inviter (ir_InviteeDid r) (ir_Role r) (ir_ExpiresAt r)
                        (ir_Nonce r) "" in
        match marshal_invitation invite with
        | None => throw (Errorf "proto: invalid UTF-8")
        | Some unsigned =>
            let! signature := (if String.eqb owner "" then ret (ed25519_sign (c_sk cfg) unsigned)
                               else match VerifyDID owner unsigned (ir_Signature r) with
                                    | Ok true => ret (ir_Signature r)
                                    | Panic => panic
                                    | _ => throw (Errorf "invalid invite signature")
                                    end) in
            do! on_store (on_members (SaveInvite (Tasks.UnixMilli (clk 1%nat)) (ir_ThreadId r) (ir_InviteeDid r)
                  (ir_Role r) (ir_Nonce r) (ir_ExpiresAt r))) in
            match marshal_invitation (mkInvitation (ir_ThreadId r) inviter (ir_InviteeDid r) (ir_Role r)
                    (ir_ExpiresAt r) (ir_Nonce r) signature) with
            | None => throw (Errorf "proto: invalid UTF-8")
            | Some wire =>
                ret (mkChange (ir_ThreadId r) 0 (Some (mkMember (ir_InviteeDid r) (ir_Role r) 0)) wire)
            end
        end)
  end.

(** [req]: the thread and the encoded invitation. *)
Definition AcceptThreadInvite (c : Rpc.ctx) (clk : nat -> Z) (req : option (string * string)) : M Node Thread :=
  match req with
  | None => throw (Errorf "thread id required")
  | Some (threadID, raw) =>
      guard! negb (String.eqb threadID "") else Errorf "thread id required" in
      match unmarshal_invitation raw with
      | None => throw (Errorf "proto")
      | Some invite =>
          guard! String.eqb (i_ThreadId invite) threadID && negb (i_ExpiresAt invite <=? Tasks.UnixMilli (clk 0%nat))
            else Errorf "invalid or expired invite" in
          match marshal_invitation (mkInvitation (i_ThreadId invite) (i_InviterDid invite) (i_InviteeDid invite)
                  (i_Role invite) (i_ExpiresAt invite) (i_Nonce invite) "") with
          | None => throw (Errorf "proto: invalid UTF-8")
          | Some unsigned =>
              match VerifyDID (i_InviterDid invite) unsigned (i_Signature invite) with
              | Panic => panic
              | Ok true =>
                  let! invitee := agentDID (clk 1%nat) c in
                  guard! String.eqb invitee (i_InviteeDid invite) else Errorf "invitee does not match session" in
                  threads_as "thread manager cannot accept invites" (
                    let! _ := on_store (on_members (AcceptInviteWithEpoch (Tasks.UnixMilli (clk 2%nat))
                                (Tasks.UnixMilli (clk 3%nat)) threadID invitee (i_Nonce invite))) in
                    get_thread threadID)
              | _ => throw (Errorf "invalid invite signature")
              end
          end
      end
  end.

(** [during], [committed]: what happens while a voter change commits, and its result. *)
Definition RemoveThreadMember (c : Rpc.ctx) (clk : nat -> Z) (during : Manager.State -> Manager.State)
    (committed : outcome unit) (req : option (string * string)) : M Node ThreadMembershipChange :=
  match req with
  | None => throw (Errorf "thread_id and member_did are required")
  | Some (threadID, memberDID) =>
      guard! negb (String.eqb threadID "" || String.eqb memberDID "")
        else Errorf "thread_id and member_did are required" in
      threads_call (
        let! th := get_thread threadID in
        let! owner := scopedOwner (clk 0%nat) c in
        guard! String.eqb owner "" || String.eqb owner (CreatorDid th)
          else Errorf "only thread creator may remove members" in
        let! members := list_members threadID in
        do! (if existsb (fun m => String.eqb (Did m) memberDID && votes (MRole m)) members then
               catch (on_mgr (Manager.ProposeVoterChange (Tasks.UnixMilli (clk 1%nat)) during committed threadID
                                memberDID false)) (fun r =>
                 match r with Ok _ => ret tt | _ => throw (Errorf "commit voter removal") end)
             else ret tt) in
        let! epoch := on_store (on_members (RemoveMemberWithEpoch threadID memberDID)) in
        ret (mkChange threadID epoch (Some (mkMember memberDID ROLE_UNSPECIFIED 0)) ""))
  end.

Definition Minute : Z := 60000000000.

Definition verifyCatchupProof (clk : nat -> Z) (threadID observerDID raw : string) : M Node unit :=
  match unmarshal_proof raw with
  | None => throw (Errorf "unmarshal catchup proof")
  | Some proof =>
      guard! negb (negb (String.eqb (p_ThreadId proof) threadID) || negb (String.eqb (p_ObserverDid proof) observerDID)
                   || (p_IssuedAt proof <=? 0) || (slen (p_Signature proof) =? 0))
        else Errorf "invalid catchup proof" in
      let age := clk 1%nat - p_IssuedAt proof * 1000000 in
      guard! negb ((age <? - Minute) || (Minute <? age)) else Errorf "catchup proof is expired" in
      match marshal_proof (mkProof (p_ThreadId proof) (p_ObserverDid proof) (p_CommittedHeight proof)
              (p_HeadBlockHash proof) (p_IssuedAt proof) "") with
      | None => throw (Errorf "proto: invalid UTF-8")
      | Some data =>
          match VerifyDID observerDID data (p_Signature proof) with
          | Panic => panic
          | Ok true =>
              threads_as "thread manager cannot verify committed head" (
                let! head := on_store (on_blocks (CommittedHead threadID)) in
                guard! (p_CommittedHeight proof =? fst head) && String.eqb (p_HeadBlockHash proof) (snd head)
                  else Errorf "observer catchup proof does not match current committed head" in
                ret tt)
          | _ => throw (Errorf "invalid catchup proof signature")
          end
      end
  end.

(** [req]: the thread, the member and the encoded proof. *)
Definition PromoteThreadMember (cfg : Config) (c : Rpc.ctx) (clk : nat -> Z) (uid : nat -> string)
    (during : Manager.State -> Manager.State) (committed : outcome unit)
    (req : option (string * string * string)) : M Node ThreadMembershipChange :=
  match req with
  | None => throw (Errorf "thread_id, member_did, and catchup_proof are required")
  | Some (threadID, memberDID, proof) =>
      guard! negb (String.eqb threadID "" || String.eqb memberDID "" || (slen proof =? 0))
        else Errorf "thread_id, member_did, and catchup_proof are required" in
      threads_call (
        let! th := get_thread threadID in
        let! owner := scopedOwner (clk 0%nat) c in
        guard! String.eqb owner "" || String.eqb owner (CreatorDid th)
          else Errorf "only thread creator may promote members" in
        let! members := list_members threadID in
        guard! existsb (fun m => String.eqb (Did m) memberDID && bool_decide (MRole m = OBSERVER)) members
          else Errorf "only an existing observer may be promoted" in
        do! verifyCatchupProof clk threadID memberDID proof in
        do! catch (on_mgr (Manager.ProposeVoterChange (Tasks.UnixMilli (clk 2%nat)) during committed threadID
                             memberDID true)) (fun r =>
              match r with Ok _ => ret tt | _ => throw (Errorf "commit voter promotion") end) in
        do! catch (get_thread threadID) (fun r =>
              match r with
              | Ok updated => catch (enqueueThreadWake cfg clk uid updated) (fun r =>
                  match r with Ok _ => ret tt | _ => throw (Errorf "re-send descriptor after promotion") end)
              | _ => ret tt
              end) in
        let! m := on_store (on_members (PromoteMemberWithEpoch threadID memberDID)) in
        ret (mkChange threadID (snd m) (Some (fst m)) ""))
  end.

Definition GetThreadCatchupState (c : Rpc.ctx) (clk : nat -> Z) (req : option string) : M Node ThreadCatchupState :=
  match req with
  | None => throw (Errorf "thread id required")
  | Some threadID =>
      guard! negb (String.eqb threadID "") else Errorf "thread id required" in
      let! owner := scopedOwner (clk 0%nat) c in
      let! s := self in
      let observer := if String.eqb owner "" then Rpc.did s else owner in
      threads_as "thread manager cannot authorize catchup state" (
        let! members := list_members threadID in
        guard! is_member observer members else Errorf "catchup state requires current thread membership" in
        let! head := on_store (on_blocks (CommittedHead threadID)) in
        ret (mkCatchup threadID observer (fst head) (snd head)))
  end.

Definition LeaveThread (c : Rpc.ctx) (clk : nat -> Z) (req : option string) : M Node ThreadMembershipChange :=
  match req with
  | None => throw (Errorf "thread id required")
  | Some threadID =>
      guard! negb (String.eqb threadID "") else Errorf "thread id required" in
      let! owner := agentDID (clk 0%nat) c in
      threads_as "thread manager cannot remove members" (
        let! epoch := on_store (on_members (RemoveMemberWithEpoch threadID owner)) in
        ret (mkChange threadID epoch (Some (mkMember owner ROLE_UNSPECIFIED 0)) ""))
  end.

Definition ListThreadMembers (req : option string) : M Node (list ThreadMember) :=
  match req with
  | None => throw (Errorf "thread id is required")
  | Some threadID =>
      guard! negb (String.eqb threadID "") else Errorf "thread id is required" in
      threads_as "thread manager cannot list members" (list_members threadID)
  end.

(** ** Recovery *)

Definition CreateThreadWithRecovery (cfg : Config) (c : Rpc.ctx) (clk : nat -> Z) (uid : nat -> string)
    (rnd : outcome string) (uuid : string) (req : option CreateThreadRequest)
    : M Node (Thread * ThreadRecoveryHandle) :=
  let! owner := scopedOwner (clk 0%nat) c in
  guard! String.eqb owner "" || match req with Some r => String.eqb (q_CreatorDid r) owner | None => false end
    else Errorf "signed thread creator must match authenticated agent" in
  threads_as "thread manager cannot create recovery capabilities" (
    let! s := self in
    let! th := on_mgr (Manager.CreateThreadWithRecovery rnd uuid (Tasks.UnixMilli (clk 1%nat)) (Rpc.did s)
                         (c_sk cfg) req) in
    do! log_err (enqueueThreadWake cfg clk uid (fst th)) in
    ret th).

(** [v]: the network. *)
Definition authorizeRecoveryHandle (cfg : Config) (v : View) (handle : ThreadRecoveryHandle) : M Node bool :=
  threads_as "thread manager cannot authorize recovery capabilities" (
    let! allowed := on_store (on_keys (AuthorizeRecoveryCapability (rh_ThreadId handle) (rh_RecoverySecret handle))) in
    if allowed : bool then ret true else
    if negb (c_dht cfg) then ret false else
    match ResolveHead v (rh_ThreadId handle) with
    | Panic => panic
    | Err _ => ret false
    | Ok head =>
        match h_Thread head with
        | None => ret false
        | Some th =>
            if negb (String.eqb (t_Id th) (rh_ThreadId handle)) then ret false else
            match VerifyDescriptor (Some th) with
            | Panic => panic
            | Err _ => ret false
            | Ok _ => ret (ThreadCrypto.MatchesRecoveryCommitment (rh_RecoverySecret handle)
                (default "" (Metadata th !! ThreadCrypto.RecoveryCommitmentMetadataKey)))
            end
        end
    end).

(** Connecting to the archive providers found only primes Bitswap. *)
Definition recoverThreadHistory (cfg : Config) (v1 v2 : View) (threadID : string) : M Node Thread :=
  guard! negb (String.eqb threadID "") else Errorf "thread id is required" in
  guard! c_dht cfg && c_bitswap cfg else Errorf "thread recovery requires DHT and Bitswap" in
  let! tc := lift (resolve_history v1 v2 threadID) in
  threads_as "thread manager cannot import history" (
    do! on_store (on_blocks (ImportHistory (Some (fst tc)) (snd tc))) in
    ret (fst tc)).

Definition valid_handle (req : option (option ThreadRecoveryHandle)) : option ThreadRecoveryHandle :=
  match req with
  | Some (Some h) =>
      if String.eqb (rh_ThreadId h) "" || negb (rh_Version h =? 1) || negb (slen (rh_RecoverySecret h) =? 32)
      then None else Some h
  | _ => None
  end.

(** Access is always read-only. *)
Definition RecoverThreadWithHandle (cfg : Config) (v0 v1 v2 : View) (req : option (option ThreadRecoveryHandle))
    : M Node Thread :=
  match valid_handle req with
  | None => throw (Errorf "valid recovery handle required")
  | Some handle =>
      let! allowed := authorizeRecoveryHandle cfg v0 handle in
      guard! allowed else Errorf "recovery capability is invalid" in
      recoverThreadHistory cfg v1 v2 (rh_ThreadId handle)
  end.

Definition RecoverThread : M Node Thread :=
  throw (Errorf "bare-ID recovery is retired; use RecoverThreadWithHandle").

(** ** Entries *)

(** The checks on an encrypted entry. *)
Definition authorize_encrypted (threadID author : string) (entry : ThreadEntry) : M Node unit :=
  guard! String.eqb (AuthorDid entry) author && (EncodingVersion entry =? 2) && (slen (Nonce entry) =? 24)
         && negb (slen (AuthorSignature entry) =? 0)
    else Errorf "invalid encrypted thread entry" in
  let! members := list_members threadID in
  guard! is_member author members else Errorf "encrypted entry author is not a current thread member" in
  let! epoch := on_store (on_members (MembershipEpochOf threadID)) in
  guard! (MembershipEpoch entry =? epoch) && (EncryptionEpoch entry =? epoch)
    else Errorf "encrypted entry must use current membership and encryption epoch" in
  let! public := lift (PubKeyFromDID (AuthorDid entry)) in
  match ThreadCrypto.Verify public (ThreadCrypto.mkHeader threadID (Sequence entry) (PreviousBlockHash entry) (AuthorDid entry) (Kind entry)
          (MembershipEpoch entry) (EncryptionEpoch entry) (Nonce entry)) (Payload entry) (AuthorSignature entry) with
  | Ok true => ret tt
  | Panic => panic
  | _ => throw (Errorf "invalid encrypted thread entry signature")
  end.

Definition stamp (at_ : Z) (e : ThreadEntry) : ThreadEntry :=
  mkEntry (AuthorDid e) (Payload e) (Kind e) (AuthorSig e) at_ (EncodingVersion e) (Sequence e)
    (PreviousBlockHash e) (MembershipEpoch e) (EncryptionEpoch e) (Nonce e) (AuthorSignature e).

(** Answers the entry's id. *)
Definition AppendEntry (cfg : Config) (c : Rpc.ctx) (clk : nat -> Z) (uid : nat -> string)
    (req : option AppendEntryRequest) : M Node string :=
  threads_as "thread manager not available" (
    let! owner := scopedOwner (clk 0%nat) c in
    let! s := self in
    let author := if String.eqb owner "" then Rpc.did s else owner in
    match req with
    | None => panic
    | Some r =>
        let! entry := match ae_EncryptedEntry r with
                      | None => ret (entry_text author (ae_Payload r) (ae_Kind r) (Tasks.UnixMilli (clk 1%nat)))
                      | Some e =>
                          do! authorize_encrypted (ae_ThreadId r) author e in
                          ret (stamp (Tasks.UnixMilli (clk 2%nat)) e)
                      end in
        do! on_mgr (Manager.AppendEntry (Tasks.UnixMilli (clk 3%nat)) (ae_ThreadId r) entry) in
        let! thread := get_thread (ae_ThreadId r) in
        do! catch (enqueueThreadWake cfg clk uid thread) (fun r =>
              match r with
              | Ok _ => ret tt
              | _ => throw (Errorf "entry is durable locally but replica wake enqueue failed")
              end) in
        ret (ae_ThreadId r +:+ ":" +:+ pretty (SubmittedAt entry))
    end).

(** ** Key envelopes *)

Definition PutThreadKeyEnvelope (cfg : Config) (c : Rpc.ctx) (clk : nat -> Z) (envelope : option ThreadKeyEnvelope)
    : M Node unit :=
  match envelope with
  | None => throw (Errorf "valid thread key envelope required")
  | Some e =>
      guard! negb (String.eqb (k_ThreadId e) "" || (negb (k_Recovery e) && String.eqb (k_RecipientDid e) ""))
        else Errorf "valid thread key envelope required" in
      threads_call (
        let! th := get_thread (k_ThreadId e) in
        let! owner := scopedOwner (clk 0%nat) c in
        guard! String.eqb owner "" || String.eqb owner (CreatorDid th)
          else Errorf "only thread creator may distribute epoch keys" in
        let! epoch := on_store (on_members (MembershipEpochOf (k_ThreadId e))) in
        guard! k_EncryptionEpoch e =? epoch else Errorf "key envelope must use current encryption epoch" in
        if k_Recovery e then
          do! lift (VerifyRecoveryKeyEnvelopeCreator (CreatorDid th) (Some e)) in
          do! on_store (on_keys (SaveRecoveryKeyEnvelope (Some e))) in
          do! (if c_dht cfg && c_blockstore cfg then
                 catch (on_net (PublishRecoveryEnvelope (c_dht cfg) (c_blockstore cfg) (c_bitswap cfg)
                                  (Tasks.UnixMilli (clk 1%nat)) (Some e))) (fun r =>
                   match r with Ok _ => ret tt | _ => throw (Errorf "publish replayable recovery envelope") end)
               else ret tt) in
          let! s := self in
          if negb (Rpc.hasGossip s) then ret tt else
          match proto_envelope e with
          | None => throw (Errorf "proto: invalid UTF-8")
          | Some raw =>
              catch (on_rpc (Rpc.publish (RecoveryEnvelopeTopic (k_ThreadId e)) raw)) (fun r =>
                match r with Ok _ => ret tt | _ => throw (Errorf "replicate recovery key envelope") end)
          end
        else
          let! members := list_members (k_ThreadId e) in
          guard! is_member (k_RecipientDid e) members else Errorf "key-envelope recipient is not a thread member" in
          on_store (on_keys (SaveKeyEnvelope (Some e))))
  end.

Definition thCreatorDID (threadID : string) : M Node string :=
  catch (get_thread threadID) (fun r => ret (match r with Ok th => CreatorDid th | _ => "" end)).

(** The replay loop of GetRecoveryThreadKeyEnvelopes over the epochs [todo]. *)
Fixpoint replay_envelopes (v : View) (threadID : string) (todo : list Z) (acc : list ThreadKeyEnvelope)
    : M Node (list ThreadKeyEnvelope) :=
  match todo with
  | [] => ret acc
  | epoch :: rest =>
      match ResolveRecoveryEnvelope v threadID epoch with
      | Panic => panic
      | Err _ => replay_envelopes v threadID rest acc
      | Ok head =>
          match FetchRecoveryEnvelope true v (rv_EnvelopeCID head) with
          | Panic => panic
          | Err _ => replay_envelopes v threadID rest acc
          | Ok e =>
              if negb (String.eqb (k_ThreadId e) threadID) || negb (k_EncryptionEpoch e =? epoch)
              then replay_envelopes v threadID rest acc else
              let! creator := thCreatorDID threadID in
              match VerifyRecoveryKeyEnvelopeCreator creator (Some e) with
              | Panic => panic
              | Err _ => replay_envelopes v threadID rest acc
              | Ok _ =>
                  catch (on_store (on_keys (SaveRecoveryKeyEnvelope (Some e)))) (fun r =>
                    replay_envelopes v threadID rest (match r with Ok _ => acc ++ [e] | _ => acc end)%list)
              end
          end
      end
  end.

Definition GetRecoveryThreadKeyEnvelopes (cfg : Config) (v0 v : View) (req : option (option ThreadRecoveryHandle))
    : M Node (list ThreadKeyEnvelope) :=
  match valid_handle req with
  | None => throw (Errorf "valid recovery handle required")
  | Some handle =>
      let! allowed := authorizeRecoveryHandle cfg v0 handle in
      guard! allowed else Errorf "recovery capability is invalid" in
      let! envelopes := on_store (on_keys (RecoveryKeyEnvelopes (rh_ThreadId handle))) in
      if c_dht cfg && c_bitswap cfg then
        let seen := map k_EncryptionEpoch envelopes in
        let missing := filter (fun e => e ∉ seen) (Z.of_nat <$> seq 1 64) in
        replay_envelopes v (rh_ThreadId handle) missing envelopes
      else ret envelopes
  end.

(** [req]: the thread and the epoch. *)
Definition GetThreadKeyEnvelopes (c : Rpc.ctx) (clk : nat -> Z) (req : option (string * Z))
    : M Node (list ThreadKeyEnvelope) :=
  match req with
  | None => throw (Errorf "thread_id and encryption_epoch are required")
  | Some (threadID, epoch) =>
      guard! negb (String.eqb threadID "" || (epoch =? 0))
        else Errorf "thread_id and encryption_epoch are required" in
      let! recipient := agentDID (clk 0%nat) c in
      threads_as "thread manager cannot retrieve key envelopes"
        (on_store (on_keys (KeyEnvelopes threadID epoch recipient)))
  end.

(** ** Reading entries *)

(** The entries sent before [stream.Send] fails, and the result. *)
Fixpoint send_all (send : ThreadEntryWithPos -> bool) (l : list ThreadEntryWithPos) : list ThreadEntryWithPos * bool :=
  match l with
  | [] => ([], true)
  | ep :: rest => if send ep then let '(sent, ok) := send_all send rest in (ep :: sent, ok) else ([], false)
  end.

(** [req]: the thread, the height to start after and the limit. *)
Definition GetThreadEntries (send : ThreadEntryWithPos -> bool) (req : option (string * Z * Z))
    : M Node (list ThreadEntryWithPos * bool) :=
  threads_as "thread manager not available" (
    match req with
    | None => panic
    | Some (threadID, since, limit) =>
        let! entries := on_store (Manager.GetEntries threadID since limit) in
        ret (send_all send entries)
    end).

(** The first half of SubscribeThread: the entries flushed, then the subscription to
    the thread's actor.  [between]: what the node does between the two. *)
Definition SubscribeThread (send : ThreadEntryWithPos -> bool) (now : Z) (chanID : nat)
    (between : Manager.State -> Manager.State) (threadID : string) (since : Z)
    : M Node (list ThreadEntryWithPos * bool) :=
  threads_as "thread manager not available" (
    let! entries := on_store (Manager.GetEntries threadID since 0) in
    let '(sent, ok) := send_all send entries in
    if negb ok then ret (sent, false) else
    do! on_mgr (modify between) in
    do! log_err (on_mgr (Manager.EngineSubscribe now chanID threadID)) in
    ret (sent, true)).

End RpcThreads.
End RpcThreads.
