(* ===== verification/RpcThreadsFacts.v ===== *)
(** * Properties of the RPC handlers of threads

    Who may promote a member and on what evidence; that an accepted entry is durable
    and wakes every replica; that waiting for a replica ends; that epoch keys reach
    their recipient only; that a published history is recovered with its secret.
    Also: what a forged head does to the check of recovery secrets, and the gap
    between the history and the stream of a subscription. *)

From stdpp Require Import base gmap strings list pretty sorting.
From Stdlib Require Import ZArith Lia Ascii.
From S2P Require Import Prelude GoStd Identity Session Mail ThreadStore Tasks Rpc ConsensusStore Membership MembershipFacts Chain Instances ChainFacts ThreadCrypto Records Manager ManagerFacts Deliver DeliverFacts Publisher PublisherFacts RpcThreads.

Local Open Scope string_scope.
Local Open Scope Z_scope.

Import Identity ThreadStore Membership Chain Keys Publisher RpcThreads.

Section Threads.
Context `{Crypto} `{Codec} `{TaskCodec} `{ThreadManager} `{ActorBackend} `{Cipher} `{RecordCodec} `{ArchiveCodec}
  `{ThreadsCodec}.

(** ** The parts of the node *)

Definition store_of (n : Node) : Store := Manager.store (Deliver.manager (daemon n)).
Definition sessions_of (n : Node) : Session.Manager := Rpc.sessions (Deliver.server (daemon n)).
Definition outbox_of (n : Node) : Outbox.state := Rpc.outbox (Deliver.server (daemon n)).
Definition did_of (n : Node) : string := Rpc.did (Deliver.server (daemon n)).

(** Everything but the sessions, which every call may prune. *)
Definition rest (n : Node) := (but_sessions (daemon n), did_of n, Rpc.hasThreads (Deliver.server (daemon n)), net n).

Lemma self_run w : self w = (Ok (Deliver.server_view (daemon (db w))), w).
Proof.
  unfold self, on_rpc, on_daemon, Deliver.on_server, zoom, Rpc.self. simpl. do 2 f_equal.
  destruct w as [[[[] [[] ? ? ?]] ?] fs]. done.
Qed.

Lemma threads_call_ok {A} (m : M Node A) w a w' :
  threads_call m w = (Ok a, w') -> Rpc.hasThreads (Deliver.server (daemon (db w))) = true /\ m w = (Ok a, w').
Proof.
  unfold threads_call, bind. rewrite self_run. simpl. by destruct (Rpc.hasThreads _).
Qed.

Lemma threads_as_ok {A} msg (m : M Node A) w a w' :
  threads_as msg m w = (Ok a, w') -> Rpc.hasThreads (Deliver.server (daemon (db w))) = true /\ m w = (Ok a, w').
Proof. unfold threads_as, bind. rewrite self_run. simpl. by destruct (Rpc.hasThreads _). Qed.

Lemma threads_as_run {A} msg (m : M Node A) w :
  Rpc.hasThreads (Deliver.server (daemon (db w))) = true -> threads_as msg m w = m w.
Proof. intros Ht. unfold threads_as, bind. rewrite self_run. simpl. by rewrite Ht. Qed.

(** A call into the store. *)
Lemma on_store_ok {A} (m : M Store A) w a w' :
  on_store m w = (Ok a, w') ->
  exists w1, m (World (store_of (db w)) (faults w)) = (Ok a, w1) /\ faults w' = faults w1 /\
    store_of (db w') = db w1 /\ sessions_of (db w') = sessions_of (db w) /\ outbox_of (db w') = outbox_of (db w) /\
    did_of (db w') = did_of (db w) /\ net (db w') = net (db w).
Proof.
  intros (w1 & (w2 & (w3 & E & Hd3 & Hf3)%zoom_ok & Hd2 & Hf2)%zoom_ok & Hd1 & Hf1)%zoom_ok.
  exists w3. split; [exact E|]. split; [congruence|].
  unfold store_of, sessions_of, outbox_of, did_of. rewrite Hd1. simpl. rewrite Hd2. simpl. rewrite Hd3. done.
Qed.

(** A read of the store. *)
Lemma on_store_read {A} (m : M Store A) w a w' :
  readonly m -> on_store m w = (Ok a, w') ->
  m (World (store_of (db w)) (faults w)) = (Ok a, World (store_of (db w)) (faults w')) /\ db w' = db w.
Proof.
  intros Hr E. unfold on_store, on_mgr, on_daemon, Deliver.on_manager, Manager.on_store, zoom in E.
  simpl in E. specialize (Hr (World (store_of (db w)) (faults w))). unfold store_of in *.
  destruct (m _) as [r [s f]]. simpl in *. injection E as -> <-. subst s. split; [done|]. simpl.
  by destruct w as [[[? []] ?] fs].
Qed.

Lemma query_readonly {S A} (f : S -> outcome A) : readonly (query f).
Proof. intros w. apply query_db. Qed.
Lemma zoom_readonly {S T A} (get : T -> S) (put : S -> T -> T) (m : M S A) :
  (forall t, put (get t) t = t) -> readonly m -> readonly (zoom get put m).
Proof.
  intros Hp Hm w. unfold zoom. specialize (Hm (World (get (db w)) (faults w))).
  destruct (m _) as [r w1]. simpl in *. by rewrite Hm.
Qed.
Lemma on_blocks_readonly {A} (m : M BlocksDB A) : readonly m -> readonly (on_blocks m).
Proof. apply zoom_readonly. by intros []. Qed.
Lemma on_members_readonly {A} (m : M MemberDB A) : readonly m -> readonly (on_members m).
Proof. apply zoom_readonly. by intros []. Qed.

Lemma get_thread_ok T w th w' :
  get_thread T w = (Ok th, w') -> threads (s_blocks (store_of (db w))) !! T = Some th /\ db w' = db w.
Proof.
  intros E. apply on_store_read in E as [E Hdb]; [|apply on_blocks_readonly, query_readonly].
  split; [|done]. apply zoom_ok in E as (w1 & [E _]%query_ok & _). simpl in E.
  destruct (threads _ !! T); [by injection E as ->|done].
Qed.

Lemma list_members_ok T w l w' :
  list_members T w = (Ok l, w') ->
  (forall m, m ∈ l <-> members (s_members (store_of (db w))) !! (T, Did m) = Some (MRole m, JoinedEpoch m)) /\ db w' = db w.
Proof.
  intros E. apply on_store_read in E as [E Hdb]; [|apply on_members_readonly, query_readonly].
  split; [|done]. apply zoom_ok in E as (w1 & [E _]%query_ok & _). simpl in E. injection E as <-.
  intros m. rewrite merge_sort_Permutation. apply thread_members_in.
Qed.

Lemma scopedOwner_ok now c w o w' :
  scopedOwner now c w = (Ok o, w') ->
  fst (Rpc.scopedOwner now c (World (Deliver.server (daemon (db w))) [])) = Ok o /\
  store_of (db w') = store_of (db w) /\ net (db w') = net (db w) /\ did_of (db w') = did_of (db w) /\
  outbox_of (db w') = outbox_of (db w) /\ Deliver.manager (daemon (db w')) = Deliver.manager (daemon (db w)).
Proof.
  intros (w1 & (w2 & E & Hd2 & _)%zoom_ok & Hd1 & _)%zoom_ok.
  unfold store_of, did_of, outbox_of. rewrite Hd1. cbn [daemon net]. rewrite Hd2. clear Hd1 Hd2.
  cbn [db faults] in E. unfold Rpc.scopedOwner, Rpc.agentDID, Rpc.on_sessions, bind in *. cbn [db faults] in *.
  change (Rpc.sessions (Deliver.server_view (daemon (db w)))) with (Rpc.sessions (Deliver.server (daemon (db w)))) in E.
  destruct (String.eqb _ _).
  - destruct (Session.MultipleAgents _ _) as [b m]. destruct b; [done|]. injection E as <- <-. simpl.
    by destruct (Deliver.manager _) as [[] ? ? ?].
  - destruct (Session.Authenticate _ _ _) as [r m]. injection E as -> <-. simpl.
    by destruct (Deliver.manager _) as [[] ? ? ?].
Qed.

(** ** Promotion *)

Lemma bind_readonly {S A B} (m : M S A) (k : A -> M S B) :
  readonly m -> (forall a, readonly (k a)) -> readonly (bind m k).
Proof.
  intros Hm Hk w. unfold bind. specialize (Hm w). destruct (m w) as [[a|e|] w1]; [|done..]. simpl in Hm. by rewrite Hk.
Qed.

Lemma CommittedHead_readonly T : readonly (CommittedHead T).
Proof.
  unfold CommittedHead, GetCommittedHeight. apply bind_readonly; [apply query_readonly|]. intros h.
  destruct (h =? 0); [by intros w|]. apply bind_readonly; [apply query_readonly|by intros b w].
Qed.

Lemma CommittedHead_ok T w x w' :
  CommittedHead T w = (Ok x, w') -> fst (CommittedHead T (World (db w) [])) = Ok x.
Proof.
  unfold CommittedHead, GetCommittedHeight. intros (h & w1 & [Eh Hd]%query_ok & E)%bind_ok.
  injection Eh as <-. unfold bind, query, stmt. cbn [faults db fst snd].
  destruct (_ =? 0); [by injection E as <-|].
  apply bind_ok in E as (b & w2 & E & Hr). injection Hr as <-. apply query_ok in E as [E _]. rewrite Hd in E.
  unfold GetBlock, query, stmt. cbn [faults db]. by rewrite E.
Qed.

(** The evidence an observer must present. *)
Record caught_up (clk : nat -> Z) (T did raw : string) (n : Node) (proof : ThreadCatchupProof) : Prop := {
  cu_decoded : unmarshal_proof raw = Some proof;
  cu_names : p_ThreadId proof = T /\ p_ObserverDid proof = did;
  cu_fresh : - Minute <= clk 1%nat - p_IssuedAt proof * 1000000 <= Minute;
  cu_signed : exists data, marshal_proof (mkProof (p_ThreadId proof) (p_ObserverDid proof) (p_CommittedHeight proof)
      (p_HeadBlockHash proof) (p_IssuedAt proof) "") = Some data /\ VerifyDID did data (p_Signature proof) = Ok true;
  cu_head : fst (CommittedHead T (World (s_blocks (store_of n)) [])) =
      Ok (p_CommittedHeight proof, p_HeadBlockHash proof) }.

Lemma verifyCatchupProof_ok clk T did raw w w' :
  verifyCatchupProof clk T did raw w = (Ok tt, w') -> (exists proof, caught_up clk T did raw (db w) proof) /\ db w' = db w.
Proof.
  unfold verifyCatchupProof. destruct (unmarshal_proof raw) as [proof|] eqn:Hu; [|done].
  destruct (String.eqb_spec (p_ThreadId proof) T) as [HT|]; [|done].
  destruct (String.eqb_spec (p_ObserverDid proof) did) as [Hdid|]; [|done].
  destruct (p_IssuedAt proof <=? 0); [done|]. destruct (slen (p_Signature proof) =? 0); [done|]. cbn [negb orb].
  cbv zeta. destruct (_ <? - Minute) eqn:Ha; [done|]. destruct (Minute <? _) eqn:Hb; [done|]. cbn [negb orb].
  destruct (marshal_proof _) as [data|] eqn:Hm; [|done].
  destruct (VerifyDID did data (p_Signature proof)) as [[]|e|] eqn:Hv; [|done..].
  intros [_ (head & w1 & E & Hg)%bind_ok]%threads_as_ok.
  apply on_store_read in E as [E Hdb]; [|apply on_blocks_readonly, CommittedHead_readonly].
  apply zoom_ok in E as (w2 & E%CommittedHead_ok & _). simpl in E.
  destruct (Z.eqb_spec (p_CommittedHeight proof) (fst head)) as [Hh|]; [|done].
  destruct (String.eqb_spec (p_HeadBlockHash proof) (snd head)) as [Hs|]; [|done].
  injection Hg as <-. split; [|done]. exists proof. split; [done|done|lia|by exists data|].
  rewrite E, Hh, Hs. by destruct head.
Qed.

Lemma PromoteMember_ok T did w m w' :
  PromoteMemberWithEpoch T did w = (Ok m, w') -> exists e, members (db w') !! (T, did) = Some (VOTER, e).
Proof.
  unfold PromoteMemberWithEpoch. destruct (_ || _); [done|].
  intros (w1 & w2 & _ & E & Hd)%tx_ok. rewrite Hd.
  apply bind_ok in E as (row & w3 & [E3 Hd3]%query_ok & E). case_bool_decide; [|done].
  apply bind_ok in E as ([] & w4 & E4%exec_ok & E). apply bind_ok in E as (ep & w5 & E & Hr). injection Hr as _ <-.
  pose proof (preserves_use (fun s => exists e, members s !! (T, did) = Some (VOTER, e)) _ _ _ _
    (advance_members (fun m => exists e, m !! (T, did) = Some (VOTER, e)) T) E) as Hp. apply Hp.
  rewrite E4, Hd3. simpl. unfold select_member in E3. destruct (members (db w1) !! (T, did)) as [r|] eqn:Hr; [|done].
  exists (snd r). rewrite lookup_alter_eq, Hr. done.
Qed.
End Threads.

(** C15: Who becomes a voter, and on what evidence: PromoteThreadMember succeeds only
    when the caller is the thread's creator (or the call is unscoped on a daemon with
    one agent), the member's row is an observer's, the proof is signed by that member
    for this thread, at most a minute old or ahead, and names exactly the head this
    node has committed, and the change of the voter set committed; the member's row is
    then a voter's. *)
Theorem promotion_authorized `{Crypto} `{Codec} `{TaskCodec} `{ThreadManager} `{ActorBackend} `{Cipher} `{RecordCodec}
    `{ArchiveCodec} `{ThreadsCodec} cfg c clk uid during committed T did raw w ch w' :
  PromoteThreadMember cfg c clk uid during committed (Some (T, did, raw)) w = (Ok ch, w') ->
  exists th owner proof e e',
    threads (s_blocks (store_of (db w))) !! T = Some th /\
    fst (Rpc.scopedOwner (clk 0%nat) c (World (Deliver.server (daemon (db w))) [])) = Ok owner /\
    (owner = "" \/ owner = CreatorDid th) /\
    members (s_members (store_of (db w))) !! (T, did) = Some (OBSERVER, e) /\
    caught_up clk T did raw (db w) proof /\ committed = Ok tt /\
    members (s_members (store_of (db w'))) !! (T, did) = Some (VOTER, e').
Proof.
  unfold PromoteThreadMember. destruct (negb _); [|done].
  intros [_ (th & w1 & [Hth Hd1]%get_thread_ok & E)%bind_ok]%threads_call_ok.
  apply bind_ok in E as (owner & w2 & [Ho [Hs2 _]]%scopedOwner_ok & E). rewrite Hd1 in Ho, Hs2.
  destruct (String.eqb owner "" || String.eqb owner (CreatorDid th)) eqn:Hown; [|done].
  apply bind_ok in E as (l & w3 & [Hl Hd3]%list_members_ok & E). rewrite Hs2 in Hl.
  destruct (existsb _ l) eqn:Hobs; [|done].
  apply bind_ok in E as ([] & w4 & [[proof Hp] Hd4]%verifyCatchupProof_ok & E).
  apply bind_ok in E as ([] & w5 & E5 & E). apply bind_ok in E as ([] & w6 & _ & E).
  apply bind_ok in E as (m & w7 & E7 & Hr). injection Hr as _ <-.
  apply on_store_ok in E7 as (w8 & E8 & _ & Hs7 & _). apply zoom_ok in E8 as (w9 & E9%PromoteMember_ok & Hd8 & _).
  destruct E9 as [e' He']. apply existsb_exists in Hobs as (mb & Hmb & Hb).
  apply andb_true_iff in Hb as [Hdid%String.eqb_eq Hrole%bool_decide_eq_true].
  apply list_elem_of_In, Hl in Hmb. rewrite Hdid, Hrole in Hmb.
  exists th, owner, proof, (JoinedEpoch mb), e'. split; [done|]. split; [done|]. split.
  { apply orb_true_iff in Hown as [?%String.eqb_eq|?%String.eqb_eq]; auto. }
  split; [done|]. split.
  { destruct Hp as [H1' H2' H3' H4' H5']. rewrite Hd3, Hs2 in H5'. by split. }
  split; [|by rewrite Hs7, Hd8].
  unfold catch in E5. destruct (on_mgr _ w4) as [[[]|er|] w10] eqn:Ev; [|done..].
  apply zoom_ok in Ev as (w11 & Ev & _). apply zoom_ok in Ev as (w12 & Ev & _).
  unfold Manager.ProposeVoterChange in Ev. apply bind_ok in Ev as ([] & w13 & _ & Ev).
  apply bind_ok in Ev as ([] & w14 & _ & Ev). apply bind_ok in Ev as (r & w15 & _ & Ev).
  destruct r as [|[[]|er|]|]; [done| |done..]. apply bind_ok in Ev as ([] & w16 & _ & Ev).
  destruct committed as [[]|er|]; done.
Qed.

(** ** Appending *)

Section Append.
Context `{Crypto} `{Codec} `{TaskCodec} `{ThreadManager} `{ActorBackend} `{Cipher} `{RecordCodec} `{ArchiveCodec}
  `{ThreadsCodec}.

(** A call into the outbox. *)
Lemma on_outbox_ok {A} (m : M Outbox.state A) w r w' :
  on_rpc (Rpc.on_outbox m) w = (r, w') ->
  exists w1, m (World (outbox_of (db w)) (faults w)) = (r, w1) /\ outbox_of (db w') = db w1 /\
    faults w' = faults w1 /\ did_of (db w') = did_of (db w) /\ store_of (db w') = store_of (db w).
Proof.
  unfold on_rpc, on_daemon, Deliver.on_server, Rpc.on_outbox, zoom. simpl.
  change (Rpc.outbox (Deliver.server_view (daemon (db w)))) with (outbox_of (db w)).
  destruct (m _) as [r1 w1]. simpl. intros [= <- <-]. exists w1. split; [done|]. split; [done|].
  split; [done|]. split; [done|]. unfold store_of. simpl. by destruct (Deliver.manager _) as [[] ? ? ?].
Qed.

(** The rows the wake-up of a thread adds to the outbox. *)
Definition wake_row (clk : nat -> Z) (uid : nat -> string) (self payload : string) (th : Thread) (i : nat)
    (did : string) : Outbox.row :=
  Outbox.mkRow (uid i) self did (t_Id th) "" (Some (wake_message (uid i) self payload th did (Tasks.UnixMilli (clk 7%nat))))
    (Outbox.UnixMilli (clk 9%nat)) (Outbox.UnixMilli (clk 8%nat + Outbox.defaultTTL)) 0 None Outbox.pending true.

Fixpoint wake_rows (clk : nat -> Z) (uid : nat -> string) (self payload : string) (th : Thread) (i : nat)
    (dids : list string) : list Outbox.row :=
  match dids with
  | [] => []
  | did :: rest =>
      if String.eqb did self then wake_rows clk uid self payload th (S i) rest
      else wake_row clk uid self payload th i did :: wake_rows clk uid self payload th (S i) rest
  end.

Lemma wake_loop_ok clk uid self payload th (Huid : Inj (=) (=) uid) dids : forall i w w',
  (forall k, (i <= k)%nat -> uid k ∉ Outbox.o_id <$> Outbox.rows (outbox_of (db w))) ->
  wake_loop clk uid self payload th i dids w = (Ok false, w') ->
  Outbox.rows (outbox_of (db w')) = (Outbox.rows (outbox_of (db w)) ++ wake_rows clk uid self payload th i dids)%list /\
  store_of (db w') = store_of (db w).
Proof.
  induction dids as [|d dids IH]; intros i w w' Hnew; cbn [wake_loop wake_rows].
  { intros [= <-]. by rewrite app_nil_r. }
  destruct (String.eqb d self); [intros E; apply (IH (S i)); [intros k Hk; apply Hnew; lia|done]|].
  unfold catch. destruct (on_rpc _ w) as [r w1] eqn:E1. apply on_outbox_ok in E1 as (w2 & E2 & Ho & _ & _ & Hs).
  destruct r as [[]|e|]; [| |done].
  - intros (f & w3 & E3 & Hr)%bind_ok. injection Hr as -> <-.
    assert (Hrows : Outbox.rows (outbox_of (db w1)) =
      (Outbox.rows (outbox_of (db w)) ++ [wake_row clk uid self payload th i d])%list).
    { rewrite Ho. unfold Outbox.Enqueue, Outbox.EnqueueForOwner, Outbox.enqueue in E2.
      apply bind_ok in E2 as ([] & w4 & E4%exec_ok & E5). injection E5 as <-. simpl. rewrite E4. simpl.
      unfold Outbox.insert_or_ignore. rewrite bool_decide_eq_false_2; [done|]. apply Hnew. lia. }
    apply IH in E3 as [Hr3 Hs3].
    + rewrite Hr3, Hrows, Hs3, Hs. by rewrite <- app_assoc.
    + intros k Hk. rewrite Hrows, fmap_app, not_elem_of_app. split; [apply Hnew; lia|].
      intros [= E]%list_elem_of_singleton. apply Huid in E. lia.
  - intros (f & w3 & E3 & Hr)%bind_ok. by injection Hr.
Qed.

Lemma enqueueThreadWake_ok cfg clk uid th w w' (Huid : Inj (=) (=) uid) :
  (forall k, uid k ∉ Outbox.o_id <$> Outbox.rows (outbox_of (db w))) ->
  enqueueThreadWake cfg clk uid th w = (Ok tt, w') ->
  exists payload, marshal_thread th = Some payload /\
    Outbox.rows (outbox_of (db w')) = (Outbox.rows (outbox_of (db w)) ++
      wake_rows clk uid (did_of (db w)) payload th 0 (ReplicaDids th))%list /\
    store_of (db w') = store_of (db w).
Proof.
  intros Hnew. unfold enqueueThreadWake. destruct (negb _); [done|].
  destruct (marshal_thread th) as [payload|]; [|done].
  unfold bind at 1. rewrite self_run. intros (f & w1 & E & Hf)%bind_ok. destruct f; [done|]. injection Hf as <-.
  apply wake_loop_ok in E; [|done|intros; apply Hnew]. exists payload. by split.
Qed.

(** What an encrypted entry must satisfy. *)
Record encrypted_by (T author : string) (e : ThreadEntry) (n : Node) : Prop := {
  en_author : AuthorDid e = author;
  en_member : is_Some (members (s_members (store_of n)) !! (T, author));
  en_epoch : MembershipEpoch e = visible T (s_members (store_of n)) /\ EncryptionEpoch e = MembershipEpoch e;
  en_signed : exists pk, PubKeyFromDID author = Ok pk /\
    ThreadCrypto.Verify pk (ThreadCrypto.mkHeader T (Sequence e) (PreviousBlockHash e) author (Kind e) (MembershipEpoch e)
      (EncryptionEpoch e) (Nonce e)) (Payload e) (AuthorSignature e) = Ok true }.

Lemma MembershipEpochOf_readonly T : readonly (MembershipEpochOf T).
Proof.
  intros w. unfold MembershipEpochOf, catch. pose proof (query_db (select_epoch T) w) as Hq.
  destruct (query _ w) as [[e|[]|] w1]; done.
Qed.

Lemma MembershipEpochOf_ok T w e w' : MembershipEpochOf T w = (Ok e, w') -> e = visible T (db w).
Proof.
  unfold MembershipEpochOf, catch, visible. destruct (query _ w) as [r w1] eqn:E.
  destruct r as [x|er|]; [| |done].
  - apply query_ok in E as [E _]. unfold select_epoch in E. destruct (epochs (db w) !! T); [|done].
    injection E as ->. by intros [= <-].
  - apply query_err in E as [[->|E] _]; [done|]. unfold select_epoch in E.
    destruct (epochs (db w) !! T); [done|]. injection E as <-. by intros [= <-].
Qed.

Lemma authorize_encrypted_ok T author e w w' :
  authorize_encrypted T author e w = (Ok tt, w') -> encrypted_by T author e (db w) /\ db w' = db w.
Proof.
  unfold authorize_encrypted. destruct (String.eqb_spec (AuthorDid e) author) as [Ha|]; [|done].
  destruct (_ && _ && _ && _); [|done]. intros (l & w1 & [Hl Hd1]%list_members_ok & E)%bind_ok.
  destruct (is_member author l) eqn:Hm; [|done].
  apply bind_ok in E as (ep & w2 & E2 & E). apply on_store_read in E2 as [E2 Hd2];
    [|apply on_members_readonly, MembershipEpochOf_readonly].
  apply zoom_ok in E2 as (w3 & Hep%MembershipEpochOf_ok & _). simpl in Hep.
  destruct (Z.eqb_spec (MembershipEpoch e) ep) as [Hme|]; [|done].
  destruct (Z.eqb_spec (EncryptionEpoch e) ep) as [Hee|]; [|done]. cbn [andb] in E.
  apply bind_ok in E as (pk & w4 & E4 & E). unfold lift in E4. rewrite Ha in E4, E.
  destruct (PubKeyFromDID author) as [k|er|] eqn:Hk; [|done..]. injection E4 as -> <-.
  destruct (ThreadCrypto.Verify _ _ _ _) as [[]|er|] eqn:Hv; [|done..]. injection E as <-.
  split; [|congruence]. rewrite Hd1 in Hep. split; [done| |split; congruence|by exists pk].
  unfold is_member in Hm. apply existsb_exists in Hm as (m & Hm%list_elem_of_In%Hl & Hd%String.eqb_eq).
  rewrite <- Hd, Hm. eauto.
Qed.
End Append.

(** C16: What the success of AppendEntry means, under any failures on the way: an
    entry is queued durably that carries the identity the call was authenticated as
    and the payload and kind of the request, every other field empty but the time of
    submission, or, when the request holds an encrypted entry, all that entry's
    fields with the time of submission replaced; the encrypted one was signed by a
    current member under the current membership and encryption epoch; the answer
    names thread and submission time; and the outbox has gained exactly one durable
    wake-up with the stored descriptor for every replica but this node, in their
    order. *)
Theorem append_accepted `{Crypto} `{Codec} `{TaskCodec} `{ThreadManager} `{ActorBackendLaws} `{Cipher} `{RecordCodec}
    `{ArchiveCodec} `{ThreadsCodec} cfg c clk uid r w id w' :
  Inj (=) (=) uid -> (forall k, uid k ∉ Outbox.o_id <$> Outbox.rows (outbox_of (db w))) ->
  AppendEntry cfg c clk uid (Some r) w = (Ok id, w') ->
  exists owner author entry th payload n at_,
    fst (Rpc.scopedOwner (clk 0%nat) c (World (Deliver.server (daemon (db w))) [])) = Ok owner /\
    author = (if String.eqb owner "" then did_of (db w) else owner) /\
    entry = match ae_EncryptedEntry r with
            | None => mkEntry author (ae_Payload r) (ae_Kind r) "" (Tasks.UnixMilli (clk 1%nat)) 0 0 "" 0 0 "" ""
            | Some e =>
                mkEntry author (Payload e) (Kind e) (AuthorSig e) (Tasks.UnixMilli (clk 2%nat))
                  (EncodingVersion e) (Sequence e) (PreviousBlockHash e) (MembershipEpoch e)
                  (EncryptionEpoch e) (Nonce e) (AuthorSignature e)
            end /\
    mkPending n (ae_ThreadId r) (Some entry) at_ ∈ pending (s_blocks (store_of (db w'))) /\
    id = ae_ThreadId r +:+ ":" +:+ pretty (SubmittedAt entry) /\
    (forall e, ae_EncryptedEntry r = Some e -> encrypted_by (ae_ThreadId r) author e (db w)) /\
    threads (s_blocks (store_of (db w'))) !! ae_ThreadId r = Some th /\ marshal_thread th = Some payload /\
    Outbox.rows (outbox_of (db w')) = (Outbox.rows (outbox_of (db w)) ++
      wake_rows clk uid (did_of (db w)) payload th 0 (ReplicaDids th))%list.
Proof.
  intros Huid Hnew [_ (owner & w1 & (Ho & Hs1 & _ & Hdid & Hob & _)%scopedOwner_ok & E)%bind_ok]%threads_as_ok.
  unfold bind at 1 in E. rewrite self_run in E. cbv zeta in E. simpl Rpc.did in E.
  change (Rpc.did (Deliver.server (daemon (db w1)))) with (did_of (db w1)) in E. rewrite Hdid in E.
  set (author := if String.eqb owner "" then _ else _) in E.
  apply bind_ok in E as (entry & w2 & E2 & E).
  assert (Hen : entry = match ae_EncryptedEntry r with
            | None => mkEntry author (ae_Payload r) (ae_Kind r) "" (Tasks.UnixMilli (clk 1%nat)) 0 0 "" 0 0 "" ""
            | Some e =>
                mkEntry author (Payload e) (Kind e) (AuthorSig e) (Tasks.UnixMilli (clk 2%nat))
                  (EncodingVersion e) (Sequence e) (PreviousBlockHash e) (MembershipEpoch e)
                  (EncryptionEpoch e) (Nonce e) (AuthorSignature e)
            end /\ db w2 = db w1 /\
    forall e, ae_EncryptedEntry r = Some e -> encrypted_by (ae_ThreadId r) author e (db w1)).
  { destruct (ae_EncryptedEntry r) as [e|]; [|by injection E2 as <- <-].
    apply bind_ok in E2 as ([] & w3 & [He Hd]%authorize_encrypted_ok & Hr). injection Hr as <- <-.
    split; [unfold stamp; by destruct He as [-> _ _ _]|]. split; [done|]. by intros ? [= <-]. }
  destruct Hen as (Hentry & Hd2 & Henc).
  apply bind_ok in E as ([] & w3 & E3 & E).
  apply zoom_ok in E3 as (w4 & E4 & Hd3 & _). apply zoom_ok in E4 as (w5 & E5 & Hd4 & _).
  apply append_entry_durable in E5 as [[[? _]|[n Hn]] _]; [done|].
  assert (Hs3 : store_of (db w3) = Manager.store (db w5)) by (unfold store_of; by rewrite Hd3; simpl; rewrite Hd4).
  assert (Ho3 : outbox_of (db w3) = outbox_of (db w) /\ did_of (db w3) = did_of (db w)).
  { unfold outbox_of, did_of in *. rewrite Hd3. simpl. rewrite Hd4. simpl. by rewrite Hd2. }
  destruct Ho3 as [Ho3 Hdid3].
  apply bind_ok in E as (th & w6 & [Hth Hd6]%get_thread_ok & E). apply bind_ok in E as ([] & w7 & E7 & Hr).
  injection Hr as <- <-. unfold catch in E7. destruct (enqueueThreadWake cfg clk uid th w6) as [[[]|er|] w8] eqn:E8; [|done..].
  injection E7 as <-. apply enqueueThreadWake_ok in E8 as (payload & Hp & Hrows & Hs8); [|done|by rewrite Hd6, Ho3].
  exists owner, author, entry, th, payload, n, (Tasks.UnixMilli (clk 3%nat)).
  rewrite Hs8, Hd6, Hs3. rewrite Hd6, Ho3, Hdid3 in Hrows. rewrite Hs3 in Hth.
  do 5 (split; [done|]). split; [|done].
  intros e He. destruct (Henc e He) as [H1' H2' H3' H4']. rewrite Hs1 in H2', H3'. by split.
Qed.

(** ** Running without failures *)

Section Runs.
Context `{Crypto} `{Codec} `{TaskCodec} `{ThreadManager} `{ActorBackend} `{Cipher} `{RecordCodec} `{ArchiveCodec}
  `{ThreadsCodec}.

Definition set_store (st : Store) (n : Node) : Node :=
  mkNode (Deliver.mkDaemon (Deliver.server (daemon n)) (Manager.with_store st (Deliver.manager (daemon n)))) (net n).

Lemma set_store_same n : set_store (store_of n) n = n.
Proof. by destruct n as [[? []] ?]. Qed.

Lemma on_store_run {A} (m : M Store A) n r st :
  m (World (store_of n) []) = (r, World st []) -> on_store m (World n []) = (r, World (set_store st n) []).
Proof.
  intros E. unfold on_store, on_mgr, on_daemon, Deliver.on_manager, Manager.on_store, zoom. simpl.
  unfold store_of in E. by rewrite E.
Qed.

Lemma Authorize_run T secret k :
  T <> "" -> slen secret = 32 ->
  AuthorizeRecoveryCapability T secret (World k []) =
  (Ok (match capabilities k !! T with Some h => String.eqb h (Sum256 secret) | None => false end), World k []).
Proof.
  intros HT Hs. unfold AuthorizeRecoveryCapability. rewrite (proj2 (String.eqb_neq _ _) HT), Hs. simpl.
  unfold catch, query, stmt. simpl. by destruct (capabilities k !! T).
Qed.

Lemma for_each_run {S A} (f : A -> S -> S) l : forall s,
  for_each l (fun a => exec (f a)) (World s []) = (Ok tt, World (foldl (fun s a => f a s) s l) []).
Proof. induction l as [|a l IH]; intros s; [done|]. simpl. unfold bind. by rewrite <- IH. Qed.

Lemma ImportHistory_run t bs s :
  t_Id t <> "" ->
  ImportHistory (Some t) bs (World s []) =
  (Ok tt, World (foldl (fun s b => replace_block b s) (with_threads (<[t_Id t := t]>) s) bs) []).
Proof.
  intros Hid. unfold ImportHistory. rewrite (proj2 (String.eqb_neq _ _) Hid). simpl.
  rewrite (tx_nofault _ s (Ok tt) (World (foldl (fun s b => replace_block b s) (with_threads (<[t_Id t := t]>) s) bs) []));
    [done| |done]. unfold bind. simpl. apply for_each_run.
Qed.

(** The signed descriptor the DHT serves authorizes its secret. *)
Lemma authorize_by_descriptor cfg v handle n head th :
  Rpc.hasThreads (Deliver.server (daemon n)) = true -> c_dht cfg = true ->
  rh_ThreadId handle <> "" -> slen (rh_RecoverySecret handle) = 32 ->
  ResolveHead v (rh_ThreadId handle) = Ok head -> h_Thread head = Some th -> t_Id th = rh_ThreadId handle ->
  VerifyDescriptor (Some th) = Ok tt ->
  ThreadCrypto.MatchesRecoveryCommitment (rh_RecoverySecret handle)
    (default "" (Metadata th !! ThreadCrypto.RecoveryCommitmentMetadataKey)) = true ->
  authorizeRecoveryHandle cfg v handle (World n []) = (Ok true, World n []).
Proof.
  intros Ht Hd HT Hs Hr Hth Hid Hv Hm. unfold authorizeRecoveryHandle. rewrite threads_as_run by done.
  unfold bind at 1. erewrite on_store_run.
  2: { unfold on_keys, zoom. cbn [db faults]. rewrite Authorize_run by done. cbn [db faults]. reflexivity. }
  replace (with_s_keys (s_keys (store_of n)) (store_of n)) with (store_of n) by (by destruct (store_of n)).
  rewrite set_store_same.
  destruct (if capabilities (s_keys (store_of n)) !! rh_ThreadId handle is Some h
            then String.eqb h (Sum256 (rh_RecoverySecret handle)) else false); [done|].
  by rewrite Hd, Hr, Hth, Hid, String.eqb_refl, Hv, Hm.
Qed.

Lemma valid_handle_ok T secret :
  T <> "" -> slen secret = 32 -> valid_handle (Some (Some (mkRecovery T secret 1))) = Some (mkRecovery T secret 1).
Proof. intros HT Hs. unfold valid_handle. simpl. by rewrite (proj2 (String.eqb_neq _ _) HT), Hs. Qed.
End Runs.

(** C12: Recovery from nothing but the secret.  Let one node have published the blocks of a
    verified chain of at most 2^45 blocks, all encodable, of a thread whose id has no
    slash, and nobody else anything; let all of it have been stored, and let the
    network answer every lookup with what was put and every block request with the
    block.  Then a node that never took part in the thread, whose database does not
    fail, and that is given the handle whose secret the signed descriptor commits to,
    gets the descriptor, and its store holds the thread and every block of the
    history.  Against other publishers nothing of the kind holds
    ([poisoned_head_panics]). *)
Theorem recovery_end_to_end `{CryptoLaws} `{Codec} `{TaskCodec} `{ThreadManager} `{ActorBackend} `{Cipher}
    `{ArchiveCodecLaws} `{ThreadsCodec} now th bs v n cfg secret commitment s :
  VerifyDescriptor (Some th) = Ok tt -> no_char "/" (t_Id th) = true -> bs <> [] ->
  VerifyChain (archive_kind th) bs = Ok tt -> Forall (fun b => ThreadId b = t_Id th) bs ->
  llen bs <= max_pointers -> Forall (encodable now th) bs ->
  publish_all now th bs (World (mkNet ∅ [] []) []) = (Ok tt, World n []) -> answers v n ->
  slen secret = 32 -> slen commitment = 64 -> ThreadCrypto.RecoveryCommitment secret = Ok commitment ->
  Metadata th !! ThreadCrypto.RecoveryCommitmentMetadataKey = Some commitment ->
  c_dht cfg && c_bitswap cfg = true -> Rpc.hasThreads (Deliver.server (daemon s)) = true ->
  exists s', RecoverThreadWithHandle cfg v v v (Some (Some (mkRecovery (t_Id th) secret 1))) (World s []) =
      (Ok th, World s' []) /\
    threads (s_blocks (store_of s')) !! t_Id th = Some th /\
    forall b, b ∈ bs -> blocks (s_blocks (store_of s')) !! (t_Id th, Height b) = Some (block_to_row b).
Proof.
  intros Hver Hslash Hne Hchain HT Hlen Henc Hpub Hans Hs Hc Hcom Hmeta Hcfg Hth.
  pose proof (resolve_published now th bs v n Hver Hslash Hne Hchain HT Hlen Henc Hpub Hans) as Hres.
  pose proof (VerifyDescriptor_id th Hver) as Hid. apply andb_true_iff in Hcfg as [Hdht Hbsw].
  assert (Hhead : exists head, ResolveHead v (t_Id th) = Ok head /\ h_Thread head = Some th).
  { unfold resolve_history in Hres. destruct (ResolveHead v (t_Id th)) as [head|e|]; [|done..].
    exists head. split; [done|]. destruct (h_Thread head) as [t|]; [|done].
    destruct (negb _); [done|]. destruct (VerifyDescriptor (Some t)) as [[]|e|]; [|done..].
    destruct (VerifyChainFromHead _ _ _ _ _); [|done..]. by injection Hres as ->. }
  destruct Hhead as (head & Hhead & Hht).
  unfold RecoverThreadWithHandle. rewrite valid_handle_ok by done. unfold bind at 1.
  rewrite (authorize_by_descriptor cfg v _ s head th); try done.
  2: { simpl. rewrite Hmeta. simpl. unfold ThreadCrypto.MatchesRecoveryCommitment.
       rewrite Hcom, Hc. simpl. apply String.eqb_refl. }
  unfold recoverThreadHistory. cbn [rh_ThreadId]. rewrite (proj2 (String.eqb_neq _ _) Hid), Hdht, Hbsw, Hres.
  cbn [negb andb]. unfold bind at 1, lift, ret at 1. rewrite threads_as_run by done. unfold bind.
  erewrite on_store_run.
  2: { unfold on_blocks, zoom. cbn [db faults]. rewrite ImportHistory_run by done. cbn [db faults]. reflexivity. }
  eexists. split; [reflexivity|]. unfold store_of at 1 3. cbn. split.
  - rewrite replace_blocks_threads. simpl. by rewrite lookup_insert_eq.
  - intros b [i Hi]%list_elem_of_lookup. rewrite VerifyChain_loop in Hchain by done.
    rewrite Forall_lookup in HT. pose proof (HT i b Hi) as HTb. simpl in HTb. rewrite <- HTb.
    exact (replace_blocks_lookup (archive_kind th) bs 0 "" _ i b Hchain Hi).
Qed.

(** ** Secrets forged *)

Section Forged.
Context `{Crypto} `{Codec} `{TaskCodec} `{ThreadManager} `{ActorBackend} `{Cipher} `{ArchiveCodecLaws} `{ThreadsCodec}.

Lemma replay_nothing v T todo acc w :
  (forall key, exists e, GetValue v key = Err e) -> replay_envelopes v T todo acc w = (Ok acc, w).
Proof.
  intros Hv. induction todo as [|e todo IH]; [done|]. cbn [replay_envelopes]. unfold ResolveRecoveryEnvelope.
  destruct (Hv (recoveryEnvelopeDHTKey T e)) as [er ->]. exact IH.
Qed.
End Forged.

(** The check of recovery secrets does not protect a thread's recovery envelopes:
    authorizeRecoveryHandle also accepts a secret when the head record the DHT serves
    for the thread id carries a descriptor that commits to it and verifies, and any
    key may sign a descriptor that names itself the creator.  Whoever puts such a
    record, with a height above the honest ones so that the DHT serves it, is handed
    the envelopes the node stores for the thread, although the node holds the digest
    of another secret and a thread by another creator. *)
Theorem recovery_authorization_forged `{Crypto} `{Codec} `{TaskCodec} `{ThreadManager} `{ActorBackend} `{Cipher}
    `{ArchiveCodecLaws} `{ThreadsCodec} cfg v0 v vals k d h forged T honest secret commitment digest s :
  T <> "" -> no_char "/" T = true -> slen secret = 32 -> slen commitment = 64 ->
  ThreadCrypto.RecoveryCommitment secret = Ok commitment ->
  vals !! k = Some d -> un_thread_head d = Some h -> good_head T h -> h_Thread h = Some forged ->
  (forall j d' x, vals !! j = Some d' -> j <> k -> un_head d' = Some x -> snd x < h_Height h) ->
  serves v0 (threadHeadDHTKey T) vals -> (forall key, exists e, GetValue v key = Err e) ->
  t_Id forged = T -> VerifyDescriptor (Some forged) = Ok tt ->
  Metadata forged !! ThreadCrypto.RecoveryCommitmentMetadataKey = Some commitment ->
  threads (s_blocks (store_of s)) !! T = Some honest -> CreatorDid honest <> CreatorDid forged ->
  capabilities (s_keys (store_of s)) !! T = Some digest -> digest <> Sum256 secret ->
  c_dht cfg = true -> Rpc.hasThreads (Deliver.server (daemon s)) = true ->
  exists l, GetRecoveryThreadKeyEnvelopes cfg v0 v (Some (Some (mkRecovery T secret 1))) (World s []) =
      (Ok l, World s []) /\
    forall e, e ∈ l <-> exists ep, recovery_envelopes (s_keys (store_of s)) !! (T, ep) = Some e.
Proof.
  intros HT Hslash Hs Hc Hcom Hk Hd Hg Hth Hmax Hserve Hv Hid Hver Hmeta _ _ _ _ Hdht Hthr.
  pose proof (head_valid T h d HT Hslash Hd Hg) as Hval.
  pose proof (Hserve k d (select_max _ vals k d h Hk Hval Hd Hmax) Hk) as Hget.
  assert (Hhead : ResolveHead v0 T = Ok h).
  { destruct Hg as (HhT & Hcid & _). unfold ResolveHead. by rewrite Hget, Hd, HhT, String.eqb_refl, Hcid. }
  unfold GetRecoveryThreadKeyEnvelopes. rewrite valid_handle_ok by done. unfold bind at 1.
  rewrite (authorize_by_descriptor cfg v0 _ s h forged); try done.
  2: { simpl. rewrite Hmeta. simpl. unfold ThreadCrypto.MatchesRecoveryCommitment.
       rewrite Hcom, Hc. simpl. apply String.eqb_refl. }
  unfold bind. erewrite on_store_run.
  2: { unfold on_keys, zoom. cbn [db faults]. unfold RecoveryKeyEnvelopes, query, stmt. cbn [db faults]. reflexivity. }
  cbn [rh_ThreadId].
  replace (with_s_keys (s_keys (store_of s)) (store_of s)) with (store_of s) by (by destruct (store_of s)).
  rewrite set_store_same. eexists. split.
  - destruct (c_dht cfg && c_bitswap cfg); [|reflexivity]. by rewrite replay_nothing.
  - intros e. rewrite merge_sort_Permutation, list_elem_of_fmap. split.
    + intros ([[T' ep] e'] & -> & [HT' Hin]%list_elem_of_filter). simpl in *. subst T'.
      exists ep. by apply elem_of_map_to_list in Hin.
    + intros [ep Hep]. exists (T, ep, e). split; [done|]. apply list_elem_of_filter. split; [done|].
      by apply elem_of_map_to_list.
Qed.

(** ** Epoch keys *)

(** Envelopes are filed under their thread, epoch and recipient. *)
Definition keys_filed (k : KeysDB) : Prop := forall T ep d e,
  envelopes k !! (T, ep, d) = Some e -> k_ThreadId e = T /\ k_EncryptionEpoch e = ep /\ k_RecipientDid e = d.

Section Keys.
Context `{Crypto} `{Codec} `{TaskCodec} `{ThreadManager} `{ActorBackend} `{Cipher} `{RecordCodec} `{ArchiveCodec}
  `{ThreadsCodec}.

Lemma agentDID_ok now c w d w' :
  agentDID now c w = (Ok d, w') ->
  fst (Session.Authenticate now (Rpc.bearerToken c) (sessions_of (db w))) = Ok d /\ store_of (db w') = store_of (db w).
Proof.
  intros (w1 & (w2 & E & Hd2 & _)%zoom_ok & Hd1 & _)%zoom_ok. unfold store_of, sessions_of. rewrite Hd1. simpl.
  rewrite Hd2. unfold Rpc.agentDID, Rpc.on_sessions in E. cbn [db faults] in E.
  change (Rpc.sessions (Deliver.server_view (daemon (db w)))) with (Rpc.sessions (Deliver.server (daemon (db w)))) in E.
  destruct (Session.Authenticate _ _ _) as [r m]. injection E as -> <-. simpl.
  by destruct (Deliver.manager _) as [[] ? ? ?].
Qed.

Lemma SaveKeyEnvelope_ok e w w' :
  SaveKeyEnvelope (Some e) w = (Ok tt, w') -> keys_filed (db w) ->
  keys_filed (db w') /\
  envelopes (db w') !! (k_ThreadId e, k_EncryptionEpoch e, k_RecipientDid e) = Some (strip_signature e).
Proof.
  unfold SaveKeyEnvelope. destruct (_ || _ || _ || _); [done|]. destruct (_ || _ || _); [done|].
  intros E%exec_ok Hf. rewrite E. simpl. split; [|by rewrite lookup_insert_eq]. intros T' ep' d' x. simpl.
  destruct (decide ((k_ThreadId e, k_EncryptionEpoch e, k_RecipientDid e) = (T', ep', d'))) as [Heq|Hne].
  - rewrite Heq, lookup_insert_eq. intros [= <-]. by injection Heq.
  - rewrite lookup_insert_ne by done. apply Hf.
Qed.

(** What a caller is given for an epoch. *)
Lemma GetThreadKeyEnvelopes_ok c clk T ep w l w' :
  GetThreadKeyEnvelopes c clk (Some (T, ep)) w = (Ok l, w') ->
  exists agent, fst (Session.Authenticate (clk 0%nat) (Rpc.bearerToken c) (sessions_of (db w))) = Ok agent /\
    l = match envelopes (s_keys (store_of (db w))) !! (T, ep, agent) with Some x => [x] | None => [] end.
Proof.
  unfold GetThreadKeyEnvelopes. destruct (negb _); [|done]. intros (agent & w1 & [Ha Hs]%agentDID_ok & E)%bind_ok.
  apply threads_as_ok in E as [_ E]. exists agent. split; [done|].
  apply on_store_ok in E as (w2 & E & _ & _). apply zoom_ok in E as (w3 & [E _]%query_ok & _). simpl in E.
  rewrite Hs in E. by injection E.
Qed.
End Keys.

(** C26: Epoch keys: PutThreadKeyEnvelope stores a member's envelope only for the
    creator of the thread (or an unscoped call), for a current member and the current
    epoch, and from then on every authenticated caller that asks for that epoch gets
    envelopes addressed to itself only, this one exactly when it is the recipient. *)
Theorem key_envelope_delivery `{Crypto} `{Codec} `{TaskCodec} `{ThreadManager} `{ActorBackend} `{Cipher} `{RecordCodec}
    `{ArchiveCodec} `{ThreadsCodec} cfg c clk e w w' :
  k_Recovery e = false -> keys_filed (s_keys (store_of (db w))) ->
  PutThreadKeyEnvelope cfg c clk (Some e) w = (Ok tt, w') ->
  (exists th owner, threads (s_blocks (store_of (db w))) !! k_ThreadId e = Some th /\
     fst (Rpc.scopedOwner (clk 0%nat) c (World (Deliver.server (daemon (db w))) [])) = Ok owner /\
     (owner = "" \/ owner = CreatorDid th)) /\
  is_Some (members (s_members (store_of (db w))) !! (k_ThreadId e, k_RecipientDid e)) /\
  k_EncryptionEpoch e = visible (k_ThreadId e) (s_members (store_of (db w))) /\
  keys_filed (s_keys (store_of (db w'))) /\
  forall c2 clk2 w1 l w2, s_keys (store_of (db w1)) = s_keys (store_of (db w')) ->
    GetThreadKeyEnvelopes c2 clk2 (Some (k_ThreadId e, k_EncryptionEpoch e)) w1 = (Ok l, w2) ->
    exists agent, fst (Session.Authenticate (clk2 0%nat) (Rpc.bearerToken c2) (sessions_of (db w1))) = Ok agent /\
      (forall x, x ∈ l -> k_RecipientDid x = agent) /\
      (strip_signature e ∈ l <-> agent = k_RecipientDid e).
Proof.
  intros Hrec Hfiled. unfold PutThreadKeyEnvelope. rewrite Hrec. destruct (negb _); [|done].
  intros [_ (th & w1 & [Hth Hd1]%get_thread_ok & E)%bind_ok]%threads_call_ok.
  apply bind_ok in E as (owner & w2 & [Ho [Hs2 _]]%scopedOwner_ok & E). rewrite Hd1 in Ho, Hs2.
  destruct (String.eqb owner "" || String.eqb owner (CreatorDid th)) eqn:Hown; [|done].
  apply bind_ok in E as (ep & w3 & E3 & E). apply on_store_read in E3 as [E3 Hd3];
    [|apply on_members_readonly, MembershipEpochOf_readonly].
  apply zoom_ok in E3 as (w4 & Hep%MembershipEpochOf_ok & _). simpl in Hep.
  destruct (Z.eqb_spec (k_EncryptionEpoch e) ep) as [He|]; [|done].
  apply bind_ok in E as (l & w5 & [Hl Hd5]%list_members_ok & E). rewrite Hd3 in Hl. rewrite Hs2 in Hl, Hep.
  destruct (is_member (k_RecipientDid e) l) eqn:Hm; [|done].
  apply on_store_ok in E as (w6 & E6 & _ & Hs6 & _). rewrite Hd5, Hd3, Hs2 in E6.
  apply zoom_ok in E6 as (w7 & [Hf' Hsaved]%SaveKeyEnvelope_ok & Hd6 & _); [|done].
  assert (Hk : s_keys (store_of (db w')) = db w7) by (by rewrite Hs6, Hd6).
  split; [exists th, owner; split; [done|]; split; [done|]|].
  { apply orb_true_iff in Hown as [?%String.eqb_eq|?%String.eqb_eq]; auto. }
  split.
  { unfold is_member in Hm. apply existsb_exists in Hm as (m & Hm%list_elem_of_In%Hl & Hdid%String.eqb_eq).
    rewrite <- Hdid, Hm. eauto. }
  split; [congruence|]. rewrite Hk. split; [done|].
  intros c2 clk2 wa l2 wb Hka (agent & Hag & ->)%GetThreadKeyEnvelopes_ok. exists agent. split; [done|]. rewrite Hka.
  destruct (envelopes (db w7) !! (k_ThreadId e, k_EncryptionEpoch e, agent)) as [x|] eqn:Hx.
  - pose proof (Hf' _ _ _ _ Hx) as (_ & _ & Hrx). split; [intros y Hy%list_elem_of_singleton; by subst|].
    rewrite list_elem_of_singleton. split; [intros <-; done|]. intros ->. rewrite Hsaved in Hx. by injection Hx.
  - split; [by intros y Hy%elem_of_nil|]. split; [by intros Hy%elem_of_nil|]. intros ->. by rewrite Hsaved in Hx.
Qed.

(** ** Subscriptions *)

Section Subscribe.
Context `{Crypto} `{Codec} `{TaskCodec} `{ThreadManager} `{ActorBackend} `{Cipher} `{RecordCodec} `{ArchiveCodec}
  `{ThreadsCodec}.

(** A commit by the thread's actor. *)
Definition commit_block (b : ThreadBlock) (m : Manager.State) : Manager.State :=
  Manager.mkState (with_s_blocks (replace_block b (s_blocks (Manager.store m))) (Manager.store m))
    (alter (Manager.handleCommit b) (ThreadId b) (Manager.pids m)) (Manager.strays m) (Manager.cancels m)
    (Manager.passivateAfter m) (Manager.hasPubSub m) (Manager.suspendedRuns m).

Lemma send_all_true l : send_all (fun _ => true) l = (l, true).
Proof. induction l as [|e l IH]; [done|]. simpl. by rewrite IH. Qed.

(** An entry listed is one of a stored block of its height. *)
Lemma listed_stored T since limit s ep :
  ep ∈ Manager.entriesFromBlocks (blocks_since T since limit s) -> is_Some (blocks s !! (T, e_Height ep)).
Proof.
  unfold Manager.entriesFromBlocks. rewrite list_elem_of_In. intros (l & Hl & Hep)%in_concat.
  apply list_elem_of_In in Hl, Hep. apply list_elem_of_fmap in Hl as (b & -> & Hb).
  assert (Hh : e_Height ep = Height b).
  { unfold Manager.positions in Hep. apply elem_of_lookup_imap in Hep as (i & y & -> & _). done. }
  rewrite Hh. clear Hh Hep ep. unfold blocks_since in Hb.
  assert (Hin : b ∈ (fun p => scanBlock (T, fst p) (snd p)) <$> merge_sort height_le (filter (fun p => since < fst p) (committed T s))).
  { destruct (0 <? limit); [|done]. rewrite <- (take_drop (Z.to_nat limit) (_ <$> _)), elem_of_app. by left. }
  apply list_elem_of_fmap in Hin as ([h r] & -> & Hin). rewrite merge_sort_Permutation in Hin.
  apply list_elem_of_filter in Hin as [_ Hin]. unfold committed in Hin.
  apply list_elem_of_fmap in Hin as ([[T' h'] r'] & [= -> ->] & Hin).
  apply list_elem_of_filter in Hin as [[HT _] Hin]. simpl in *. subst T'.
  apply elem_of_map_to_list in Hin. eauto.
Qed.

Lemma EngineSubscribe_run now ch T m a :
  Manager.pids m !! T = Some a -> Manager.a_running a = true ->
  exists m', Manager.EngineSubscribe now ch T (World m []) = (Ok tt, World m' []) /\
    Manager.store m' = Manager.store m /\
    Manager.pids m' !! T =
      Some (Manager.with_subscribers (Manager.Subscribe ch (Manager.a_subscribers a)) a).
Proof.
  intros Ha Hr. eexists. split.
  - unfold Manager.EngineSubscribe, Manager.activate, Manager.PID, Manager.get_state, bind. simpl. rewrite Ha, Hr. reflexivity.
  - simpl. by rewrite lookup_alter_eq, Ha.
Qed.
End Subscribe.

(** SubscribeThread can lose entries: it flushes the stored history first and
    subscribes to the thread's actor afterwards, so the entries of a block committed in
    between are neither in the history sent nor in the channel, whose buffer starts
    empty after that commit; the subscriber is never sent them. *)
Theorem subscribe_gap `{Crypto} `{Codec} `{TaskCodec} `{ThreadManager} `{ActorBackend} `{Cipher} `{RecordCodec}
    `{ArchiveCodec} `{ThreadsCodec} now ch b T since a s :
  Rpc.hasThreads (Deliver.server (daemon s)) = true ->
  Manager.pids (Deliver.manager (daemon s)) !! T = Some a -> Manager.a_running a = true ->
  ThreadId b = T -> blocks (s_blocks (store_of s)) !! (T, Height b) = None ->
  exists s' sent a', SubscribeThread (fun _ => true) now ch (commit_block b) T since (World s []) =
      (Ok (sent, true), World s' []) /\
    blocks (s_blocks (store_of s')) !! (T, Height b) = Some (block_to_row b) /\
    (forall ep, ep ∈ sent -> e_Height ep <> Height b) /\
    Manager.pids (Deliver.manager (daemon s')) !! T = Some a' /\ Manager.mkChan ch [] ∈ Manager.a_subscribers a'.
Proof.
  intros Hth Ha Hr HT Hnew. unfold SubscribeThread. rewrite threads_as_run by done.
  assert (Eg : on_store (Manager.GetEntries T since 0) (World s []) =
    (Ok (Manager.entriesFromBlocks (blocks_since T since 0 (s_blocks (store_of s)))), World s [])).
  { erewrite on_store_run; [|reflexivity]. cbn [s_blocks]. do 2 f_equal.
    unfold set_store. simpl. by destruct s as [[? [[] ? ? ?]] ?]. }
  unfold bind at 1. rewrite Eg, send_all_true. cbn [negb]. unfold bind.
  set (m1 := commit_block b (Deliver.manager (daemon s))).
  assert (Ha1 : Manager.pids m1 !! T = Some (Manager.handleCommit b a)).
  { unfold m1, commit_block. simpl. by rewrite HT, lookup_alter_eq, Ha. }
  destruct (EngineSubscribe_run now ch T m1 _ Ha1 Hr) as (m2 & E2 & Hs2 & Ha2).
  eexists (mkNode (Deliver.mkDaemon (Deliver.server (daemon s)) m2) (net s)), _, _. split; [|split; [|split; [|split]]].
  - unfold on_mgr at 1, on_daemon, Deliver.on_manager, zoom, modify. cbn [db faults].
    unfold log_err, catch, on_mgr, on_daemon, Deliver.on_manager, zoom. cbn [db faults Deliver.manager daemon].
    fold m1. rewrite E2. reflexivity.
  - unfold store_of. cbn [daemon Deliver.manager]. rewrite Hs2. unfold m1, commit_block. simpl.
    by rewrite HT, lookup_insert_eq.
  - intros ep Hep%listed_stored E. rewrite E, Hnew in Hep. by destruct Hep.
  - exact Ha2.
  - simpl. apply elem_of_app. right. left.
Qed.

(** ** Waiting for a replica *)

Section Await.
Context `{Crypto} `{Codec} `{TaskCodec} `{ThreadManager} `{ActorBackend} `{Cipher} `{RecordCodec} `{ArchiveCodec}
  `{ThreadsCodec}.

(** The node after the ticks [k], ..., [k + j]. *)
Fixpoint evolved (evolve : nat -> Node -> Node) (k j : nat) (s : Node) : Node :=
  match j with O => evolve k s | S j' => evolved evolve (S k) j' (evolve k s) end.

(** Whether the stored thread lists the replica. *)
Definition lists (T did : string) (s : Node) : bool :=
  match threads (s_blocks (store_of s)) !! T with
  | Some th => existsb (fun d => String.eqb d did) (ReplicaDids th)
  | None => false
  end.

Lemma get_thread_run T s :
  get_thread T (World s []) =
  (match threads (s_blocks (store_of s)) !! T with Some th => Ok th | None => Err (Errorf "thread not found") end, World s []).
Proof.
  unfold get_thread.
  rewrite (on_store_run _ s (match threads (s_blocks (store_of s)) !! T with Some th => Ok th | None => Err (Errorf "thread not found") end)
    (store_of s)); [by rewrite set_store_same|].
  unfold on_blocks, zoom, ThreadStore.GetThread, query, stmt. cbn [db faults].
  destruct (store_of s) as [b m k c]. cbn. by destruct (threads b !! T).
Qed.
End Await.

(** The wait of AddThreadReplica ends: with the thread stored throughout, it
    polls at most the ticks left before the deadline (300 at most), answers at the
    first poll that finds the replica in the committed descriptor, with that descriptor
    once the wake-ups are queued, and fails with the deadline's error exactly when no
    poll finds it. *)
Theorem replica_poll_terminates `{Crypto} `{Codec} `{TaskCodec} `{ThreadManager} `{ActorBackend} `{Cipher} `{RecordCodec}
    `{ArchiveCodec} `{ThreadsCodec} cfg clk uid evolve T did n : forall k s,
  (forall j, (j < n)%nat -> is_Some (threads (s_blocks (store_of (evolved evolve k j s))) !! T)) ->
  (exists j th, (j < n)%nat /\ (forall i, (i < j)%nat -> lists T did (evolved evolve k i s) = false) /\
     threads (s_blocks (store_of (evolved evolve k j s))) !! T = Some th /\ did ∈ ReplicaDids th /\
     await_replica cfg clk uid evolve T did k n (World s []) =
       bind (enqueueThreadWake cfg clk uid th) (fun _ => ret th) (World (evolved evolve k j s) [])) \/
  ((forall i, (i < n)%nat -> lists T did (evolved evolve k i s) = false) /\
     fst (await_replica cfg clk uid evolve T did k n (World s [])) = Err (Errorf "context deadline exceeded")).
Proof.
  induction n as [|n IH]; intros k s Hst; [right; split; [intros; lia|done]|].
  destruct (Hst 0%nat ltac:(lia)) as [th Hth]. simpl in Hth.
  assert (Hb : forall A (K : Thread -> M Node A), bind (modify (evolve k)) (fun _ => bind (get_thread T) K) (World s []) =
    K th (World (evolve k s) [])).
  { intros A K. unfold bind, modify. cbn [db faults]. by rewrite get_thread_run, Hth. }
  cbn [await_replica]. rewrite Hb. destruct (existsb _ (ReplicaDids th)) eqn:Hl.
  - left. exists 0%nat, th. split; [lia|]. split; [intros; lia|]. split; [done|]. split; [|done].
    apply existsb_exists in Hl as (x & Hx & Hd%String.eqb_eq). subst x. by apply list_elem_of_In.
  - assert (Hl0 : lists T did (evolved evolve k 0 s) = false) by (unfold lists; simpl; by rewrite Hth).
    destruct (IH (S k) (evolve k s)) as [(j & t & Hj & Hno & Ht & Hin & E)|[Hno E]].
    + intros j Hj. apply (Hst (S j)). lia.
    + left. exists (S j), t. split; [lia|]. split; [|done]. intros [|i] Hi; [done|]. apply Hno. lia.
    + right. split; [|done]. intros [|i] Hi; [done|]. apply Hno. lia.
Qed.

(** ** A concrete node *)

#[local] Existing Instance DeliverFacts.toy_task_codec.
#[local] Existing Instance ThreadHead_eq_dec.
#[local] Existing Instance ThreadHead_countable.

Definition toy_observer : string := DIDFromPubBytes other_key.
Definition toy_proof : ThreadCatchupProof := mkProof "T" toy_observer 0 "" 1 (other_key +:+ "proof").

#[local] Instance toy_threads_codec : ThreadsCodec := {|
  marshal_invitation _ := Some "invitation"; unmarshal_invitation _ := None;
  marshal_proof _ := Some "proof"; unmarshal_proof b := if String.eqb b "signed" then Some toy_proof else None;
  marshal_thread _ := Some "thread" |}.

(** A backend whose voter changes begin. *)
#[local] Instance voting_backend : ActorBackend := {|
  Backend := unit;
  new_backend _ _ := ret tt;
  Tick _ := ret (tt, []);
  StepInbound _ _ := ret (tt, []);
  Pump _ := ret (tt, []);
  BeginVoterChange := Some (fun _ _ _ => ret tt);
  Snapshot_ := None |}.

#[local] Instance voting_backend_laws : ActorBackendLaws.
Proof.
  split; try done; intros; try apply preserves_ret.
  match goal with E : BeginVoterChange = Some _ |- _ => injection E as <- end. apply preserves_ret.
Qed.

Definition toy_creator : string := DIDFromPubBytes toy_key.
Definition toy_shared : Thread := mkThread "T" toy_creator [toy_creator; toy_observer] 1 0 1000 5 ∅.
Definition toy_actor_of (th : Thread) : Manager.ThreadActor := Manager.mkActor th tt [] 0 0 1000 true [] false.

Definition toy_node (th : Thread) (k : KeysDB) : Node :=
  mkNode (Deliver.mkDaemon
      (Rpc.mkServer toy_creator true true Tasks.empty_db (Outbox.mkState [] false) Inbox.empty (Session.New "node")
         ThreadStore.empty_db [])
      (Manager.mkState
         (mkStore (ThreadStore.mkDB {[t_Id th := th]} ∅ [] 0 ∅)
            (Membership.mkDB {[("T", toy_creator) := (ADMIN, 1); ("T", toy_observer) := (OBSERVER, 1)]} ∅ ∅) k
            ConsensusStore.empty_cdb)
         {[t_Id th := toy_actor_of th]} ∅ {[t_Id th]} 1000 true false))
    (mkNet ∅ [] []).

Definition no_keys : KeysDB := mkKeysDB ∅ ∅ ∅.
Definition toy_cfg : RpcThreads.Config := RpcThreads.mkConfig toy_key true true true true.
Definition toy_clk (n : nat) : Z := 1000000.
Definition toy_uid (n : nat) : string := pretty n.
Definition toy_promotion : outcome ThreadMembershipChange * world Node :=
  PromoteThreadMember toy_cfg None toy_clk toy_uid (fun m => m) (Ok tt) (Some ("T", toy_observer, "signed"))
    (World (toy_node toy_shared no_keys) []).

Lemma promotion_authorized_witness :
  is_ok (fst toy_promotion) = true /\
  exists th e, threads (s_blocks (store_of (toy_node toy_shared no_keys))) !! "T" = Some th /\
    members (s_members (store_of (db (snd toy_promotion)))) !! ("T", toy_observer) = Some (VOTER, e).
Proof.
  assert (Hok : is_ok (fst toy_promotion) = true) by (vm_compute; reflexivity). split; [exact Hok|].
  destruct toy_promotion as [r w'] eqn:E. destruct r as [ch|e|]; [|discriminate..]. unfold toy_promotion in E.
  destruct (promotion_authorized toy_cfg None toy_clk toy_uid (fun m => m) (Ok tt) "T" toy_observer "signed"
    (World (toy_node toy_shared no_keys) []) ch w' E) as (th & o & p & e & e' & Hth & _ & _ & _ & _ & _ & Hv).
  exists th, e'. split; [exact Hth|exact Hv].
Defined.

Lemma append_accepted_witness :
  let res := AppendEntry toy_cfg None toy_clk toy_uid (Some (mkAppendReq "T" "hello" "text" None))
               (World (toy_node toy_shared no_keys) []) in
  is_ok (fst res) = true /\
  exists n at_, mkPending n "T"
      (Some (mkEntry toy_creator "hello" "text" "" (Tasks.UnixMilli (toy_clk 1%nat)) 0 0 "" 0 0 "" "")) at_
    ∈ pending (s_blocks (store_of (db (snd res)))).
Proof.
  intros res. assert (Hok : is_ok (fst res) = true) by (vm_compute; reflexivity). split; [exact Hok|].
  destruct res as [r w'] eqn:E. destruct r as [id|e|]; [|discriminate..].
  destruct (append_accepted toy_cfg None toy_clk toy_uid (mkAppendReq "T" "hello" "text" None)
    (World (toy_node toy_shared no_keys) []) id w') as (o & author & entry & th & p & n & at_ & Ho & Ha & He & Hp & _).
  - intros x y Hxy. apply (inj pretty) in Hxy. exact Hxy.
  - intros k. apply not_elem_of_nil.
  - exact E.
  - exists n, at_. injection Ho as <-. simpl in Ha, He. rewrite Ha in He. rewrite He in Hp. exact Hp.
Defined.

(** *** Recovery *)

(** A thread that commits to a secret, signed by a key. *)
Definition committed_thread (sk secret : string) : Thread :=
  result_or toy_thread (SignDescriptor
    (mkThread "T" (DIDFromPubBytes sk) [] 1 0 1000 5 {[ThreadCrypto.RecoveryCommitmentMetadataKey := hex_encode secret]})
    (DIDFromPubBytes sk) sk).

Definition fresh_node : Node := set_store empty_store (toy_node toy_shared no_keys).

Lemma toy_encodable th : Forall (encodable 5 th) toy_chain.
Proof. by repeat constructor; eexists. Qed.

Lemma recovery_end_to_end_witness :
  exists n s', publish_all 5 (committed_thread toy_key other_key) toy_chain (World (mkNet ∅ [] []) []) =
      (Ok tt, World n []) /\
    RecoverThreadWithHandle toy_cfg (view_of n) (view_of n) (view_of n) (Some (Some (mkRecovery "T" other_key 1)))
      (World fresh_node []) = (Ok (committed_thread toy_key other_key), World s' []) /\
    threads (s_blocks (store_of s')) !! "T" = Some (committed_thread toy_key other_key).
Proof.
  destruct (publish_all_run 5 (committed_thread toy_key other_key) toy_chain (mkNet ∅ [] []) (toy_encodable _))
    as (n & E & _).
  destruct (recovery_end_to_end 5 (committed_thread toy_key other_key) toy_chain (view_of n) n toy_cfg other_key
    (hex_encode other_key) fresh_node) as (s' & Hr & Ht & _).
  - vm_compute. reflexivity.
  - reflexivity.
  - discriminate.
  - vm_compute. reflexivity.
  - repeat constructor.
  - vm_compute. discriminate.
  - apply toy_encodable.
  - exact E.
  - apply view_of_answers.
  - reflexivity.
  - reflexivity.
  - reflexivity.
  - vm_compute. reflexivity.
  - reflexivity.
  - reflexivity.
  - exists n, s'. split; [exact E|]. split; [exact Hr|exact Ht].
Defined.

Definition toy_forged_thread : Thread := committed_thread other_key toy_key.
Definition toy_forged_head : ThreadHead := mkHead "T" 7 "bafy" "" 9 (Some toy_forged_thread).
Definition toy_envelope : ThreadKeyEnvelope := mkEnvelope "T" 1 "" toy_key "" "cipher" true "".
Definition toy_kept : KeysDB := mkKeysDB ∅ {[("T", 1) := toy_envelope]} {["T" := "digest"]}.
Definition forged_view : View := mkView (fun _ => Ok (to_code toy_forged_head)) (fun _ => Err ErrNoRows).
Definition silent_view : View := mkView (fun _ => Err ErrNoRows) (fun _ => Err ErrNoRows).

Lemma forged_serves : serves forged_view (threadHeadDHTKey "T") [to_code toy_forged_head].
Proof.
  intros i d Hs Hd. assert (Hi : i = 0%nat) by (apply lookup_lt_Some in Hd; cbn [length] in Hd; lia).
  subst i. apply (inj Some) in Hd. by rewrite <- Hd.
Qed.

Lemma recovery_authorization_forged_witness :
  exists l, GetRecoveryThreadKeyEnvelopes toy_cfg forged_view silent_view (Some (Some (mkRecovery "T" toy_key 1)))
      (World (toy_node toy_shared toy_kept) []) = (Ok l, World (toy_node toy_shared toy_kept) []) /\
    toy_envelope ∈ l.
Proof.
  destruct (recovery_authorization_forged toy_cfg forged_view silent_view [to_code toy_forged_head] 0
    (to_code toy_forged_head) toy_forged_head toy_forged_thread "T" toy_shared toy_key (hex_encode toy_key) "digest"
    (toy_node toy_shared toy_kept)) as (l & Hl & Hin).
  - discriminate.
  - reflexivity.
  - reflexivity.
  - reflexivity.
  - reflexivity.
  - reflexivity.
  - apply head_code.
  - repeat split; discriminate.
  - reflexivity.
  - intros j d' x Hd Hj _. exfalso. apply lookup_lt_Some in Hd. cbn [length] in Hd. lia.
  - exact forged_serves.
  - intros key. exists ErrNoRows. reflexivity.
  - vm_compute. reflexivity.
  - vm_compute. reflexivity.
  - vm_compute. reflexivity.
  - vm_compute. reflexivity.
  - vm_compute. discriminate.
  - reflexivity.
  - discriminate.
  - reflexivity.
  - reflexivity.
  - exists l. split; [exact Hl|]. apply Hin. exists 1. reflexivity.
Defined.

(** *** Epoch keys, subscriptions, replicas *)

Definition toy_key_envelope : ThreadKeyEnvelope :=
  mkEnvelope "T" 1 toy_observer toy_key (String.substring 0 24 toy_key) "cipher" false "sig".
Definition toy_put : outcome unit * world Node :=
  PutThreadKeyEnvelope toy_cfg None toy_clk (Some toy_key_envelope) (World (toy_node toy_shared no_keys) []).

Lemma key_envelope_delivery_witness :
  fst toy_put = Ok tt /\ keys_filed (s_keys (store_of (db (snd toy_put)))) /\
  is_Some (members (s_members (store_of (toy_node toy_shared no_keys))) !! ("T", toy_observer)).
Proof.
  assert (Hok : fst toy_put = Ok tt) by (vm_compute; reflexivity). split; [exact Hok|].
  destruct toy_put as [r w'] eqn:E. simpl in Hok. subst r. unfold toy_put in E.
  destruct (key_envelope_delivery toy_cfg None toy_clk toy_key_envelope (World (toy_node toy_shared no_keys) []) w')
    as (_ & Hm & _ & Hf & _).
  - reflexivity.
  - intros T ep d x Hx. discriminate Hx.
  - exact E.
  - split; [exact Hf|exact Hm].
Defined.

Lemma subscribe_gap_witness :
  exists s' sent a', SubscribeThread (fun _ => true) 9 4 (commit_block toy_b1) "T" 0 (World (toy_node toy_shared no_keys) []) =
      (Ok (sent, true), World s' []) /\
    blocks (s_blocks (store_of s')) !! ("T", 1) = Some (block_to_row toy_b1) /\
    (forall ep, ep ∈ sent -> e_Height ep <> 1) /\
    Manager.pids (Deliver.manager (daemon s')) !! "T" = Some a' /\ Manager.mkChan 4 [] ∈ Manager.a_subscribers a'.
Proof.
  apply (subscribe_gap 9 4 toy_b1 "T" 0 (toy_actor_of toy_shared) (toy_node toy_shared no_keys)); reflexivity.
Defined.

(** A node on which the replica is listed from the third poll on. *)
Definition toy_evolve (k : nat) (n : Node) : Node :=
  if Nat.eqb k 2 then toy_node toy_shared no_keys else n.

Lemma replica_poll_terminates_witness :
  let alone := mkThread "T" toy_creator [toy_creator] 1 0 1000 5 ∅ in
  exists j th, (j < 5)%nat /\ threads (s_blocks (store_of (evolved toy_evolve 0 j (toy_node alone no_keys)))) !! "T" = Some th /\
    toy_observer ∈ ReplicaDids th.
Proof.
  intros alone.
  destruct (replica_poll_terminates toy_cfg toy_clk toy_uid toy_evolve "T" toy_observer 5 0 (toy_node alone no_keys))
    as [(j & th & Hj & _ & Hth & Hin & _)|[Hno _]].
  - intros [|[|[|[|[|j]]]]] Hj; [eexists; reflexivity..|lia].
  - exists j, th. auto.
  - specialize (Hno 2%nat ltac:(lia)). discriminate Hno.
Defined.
