(* ===== verification/Actors.v ===== *)
(** * Serial actors ([daemon/actors/executor.go])

    Every store and service of the daemon is reached through an executor: callers put
    operations in the mailbox of one actor, which keeps them in a queue and runs one at
    a time on a goroutine of its own ([PipeTo]); the goroutine posts its result back to
    the mailbox and the actor hands it to the caller.  The actor system delivers the
    messages of a mailbox in the order of their arrival.

    The theorems show what the other files rely on when they treat an operation of a
    store as one step: whatever the interleaving of callers, deliveries and goroutines,
    the service goes through the states of the operations run one after the other in
    the order in which they were told, each caller gets the result of its own one, and
    every operation is performed. *)

From stdpp Require Import base list gmap strings.
From Stdlib Require Import ZArith Lia.
From S2P Require Import Prelude Tasks TasksFacts.

Section SerialActor.
(** The state of the service, and what an operation returns (a value or an error). *)
Context {S V : Type}.

(** [reply] names the caller's channel; casts and scheduled work have none. *)
Record operation : Type := mkOperation { work : S -> V * S; op_reply : option nat }.

Inductive message : Type :=
| Operation (op : operation)
| Completed (op : operation) (result : V)
| Unknown.

Record SerialActor : Type := mkActor { queue : list operation; busy : bool }.

(** The second component is the operation handed to [ctx.PipeTo]. *)
Definition start (a : SerialActor) : SerialActor * option operation :=
  if busy a then (a, None) else
  match queue a with
  | [] => (a, None)
  | op :: rest => (mkActor rest true, Some op)
  end.

(** The third component is what is sent on a reply channel. *)
Definition Receive (msg : message) (a : SerialActor) : SerialActor * option operation * option (nat * V) :=
  match msg with
  | Operation op => (start (mkActor (queue a ++ [op]) (busy a)), None)
  | Completed op result => (start (mkActor (queue a) false), option_map (fun ch => (ch, result)) (op_reply op))
  | Unknown => (a, None, None)
  end.

(** ** The actor in its system *)

(** The mailbox, the goroutines started by [PipeTo] that have not run yet, the state
    of the service, and what was sent on the reply channels. *)
Record config : Type := mkConfig {
  actor : SerialActor;
  mailbox : list message;
  piped : list operation;
  service : S;
  replies : list (nat * V) }.

Definition idle (s : S) : config := mkConfig (mkActor [] false) [] [] s [].

(** [Tell] of an operation, by [Call], [Cast] or a schedule. *)
Definition tell (op : operation) (c : config) : config :=
  mkConfig (actor c) (mailbox c ++ [Operation op]) (piped c) (service c) (replies c).

Definition deliver (msg : message) (rest : list message) (c : config) : config :=
  let '(a, p, r) := Receive msg (actor c) in
  mkConfig a rest (piped c ++ option_list p) (service c) (replies c ++ option_list r).

(** A goroutine runs its operation and posts the result. *)
Definition finish (before : list operation) (op : operation) (after : list operation) (c : config) : config :=
  let '(v, s) := work op (service c) in
  mkConfig (actor c) (mailbox c ++ [Completed op v]) (before ++ after) s (replies c).

(** What happens without a new call. *)
Inductive silent : config -> config -> Prop :=
| silent_deliver msg rest c : mailbox c = msg :: rest -> silent c (deliver msg rest c)
| silent_finish before op after c : piped c = before ++ op :: after -> silent c (finish before op after c).

(** The configurations reached from an idle actor while the operations [told] were told. *)
Inductive reached (s0 : S) : list operation -> config -> Prop :=
| reached_idle : reached s0 [] (idle s0)
| reached_tell told c op : reached s0 told c -> reached s0 (told ++ [op]) (tell op c)
| reached_silent told c c' : reached s0 told c -> silent c c' -> reached s0 told c'.

Inductive silent_run : nat -> config -> config -> Prop :=
| silent_nil c : silent_run 0 c c
| silent_cons n c c' c'' : silent c c' -> silent_run n c' c'' -> silent_run (Datatypes.S n) c c''.

(** ** The sequential specification *)

Fixpoint run_all (ops : list operation) (s : S) : list (option nat * V) * S :=
  match ops with
  | [] => ([], s)
  | op :: rest => let '(v, s1) := work op s in let '(vs, s2) := run_all rest s1 in ((op_reply op, v) :: vs, s2)
  end.

(** The answers among the results: those of the operations with a reply channel. *)
Definition answers (rs : list (option nat * V)) : list (nat * V) :=
  omap (fun '(ch, v) => option_map (fun c => (c, v)) ch) rs.

Definition state_after (ops : list operation) (s : S) : S := snd (run_all ops s).
Definition answers_of (ops : list operation) (s : S) : list (nat * V) := answers (fst (run_all ops s)).

Lemma run_all_snoc ops op s :
  run_all (ops ++ [op]) s =
  (fst (run_all ops s) ++ [(op_reply op, fst (work op (state_after ops s)))], snd (work op (state_after ops s))).
Proof.
  unfold state_after. revert s. induction ops as [|o ops IH]; intros s; simpl; [by destruct (work op s)|].
  destruct (work o s) as [v s1]. rewrite IH. by destruct (run_all ops s1).
Qed.

Lemma state_after_snoc ops op s : state_after (ops ++ [op]) s = snd (work op (state_after ops s)).
Proof. unfold state_after at 1. by rewrite run_all_snoc. Qed.

Lemma answers_of_snoc ops op s :
  answers_of (ops ++ [op]) s =
  answers_of ops s ++ option_list (option_map (fun ch => (ch, fst (work op (state_after ops s)))) (op_reply op)).
Proof.
  unfold answers_of, answers. rewrite run_all_snoc. simpl. rewrite omap_app. simpl. by destruct (op_reply op).
Qed.

(** ** The invariant *)

Definition told_of (m : message) : option operation := match m with Operation op => Some op | _ => None end.
Definition completed_of (m : message) : option (operation * V) :=
  match m with Completed op v => Some (op, v) | _ => None end.

(** Where the operation being performed is: nowhere, on its goroutine, or back in the
    mailbox with its result. *)
Inductive phase (s0 : S) (ops : list operation) (c : config) : list operation -> Prop :=
| phase_idle : busy (actor c) = false -> queue (actor c) = [] -> piped c = [] ->
    omap completed_of (mailbox c) = [] -> service c = state_after ops s0 -> phase s0 ops c []
| phase_running op : busy (actor c) = true -> piped c = [op] -> omap completed_of (mailbox c) = [] ->
    service c = state_after ops s0 -> phase s0 ops c [op]
| phase_finished op : busy (actor c) = true -> piped c = [] ->
    omap completed_of (mailbox c) = [(op, fst (work op (state_after ops s0)))] ->
    service c = state_after (ops ++ [op]) s0 -> phase s0 ops c [op].

(** [ops] have been answered, [cur] is being performed, the others wait. *)
Definition inv (s0 : S) (told ops cur : list operation) (c : config) : Prop :=
  phase s0 ops c cur /\ replies c = answers_of ops s0 /\
  told = ops ++ cur ++ queue (actor c) ++ omap told_of (mailbox c).

(** Starting the next operation of an actor that is not busy. *)
Lemma inv_start s0 told ops q rest p s r a p' :
  start (mkActor q false) = (a, p') -> p = [] -> omap completed_of rest = [] ->
  s = state_after ops s0 -> r = answers_of ops s0 -> told = ops ++ q ++ omap told_of rest ->
  exists cur, inv s0 told ops cur (mkConfig a rest (p ++ option_list p') s r).
Proof.
  intros Hs -> Hc -> -> ->. destruct q as [|op q]; simpl in Hs; injection Hs as <- <-.
  - exists []. split; [by constructor|done].
  - exists [op]. split; [by apply phase_running|done].
Qed.

Lemma inv_deliver s0 told ops cur c msg rest :
  inv s0 told ops cur c -> mailbox c = msg :: rest -> exists ops' cur', inv s0 told ops' cur' (deliver msg rest c).
Proof.
  intros (Hph & Hr & ->) Hm. unfold deliver. rewrite Hm in *. destruct msg as [op|op v|]; simpl.
  - exists ops. destruct Hph as [Hb Hq Hp Hc Hs|o Hb Hp Hc Hs|o Hb Hp Hc Hs]; rewrite Hm in Hc; simpl in Hc.
    + rewrite Hb, Hq. destruct (start _) as [a p'] eqn:Est. rewrite app_nil_r.
      by apply (inv_start _ _ _ _ _ _ _ _ _ _ Est).
    + exists [o]. rewrite Hb. simpl. rewrite !app_nil_r. split; [by apply phase_running|].
      split; [done|]. simpl. by rewrite <- app_assoc.
    + exists [o]. rewrite Hb. simpl. rewrite !app_nil_r. split; [by apply phase_finished|].
      split; [done|]. simpl. by rewrite <- app_assoc.
  - destruct Hph as [Hb Hq Hp Hc Hs|o Hb Hp Hc Hs|o Hb Hp Hc Hs]; rewrite Hm in Hc; simpl in Hc; [done..|].
    injection Hc as -> -> Hc. exists (ops ++ [o]). destruct (start _) as [a p'] eqn:Est.
    apply (inv_start _ _ _ _ _ _ _ _ _ _ Est); [done..| |].
    + by rewrite answers_of_snoc, Hr.
    + by rewrite <- app_assoc.
  - exists ops, cur. rewrite !app_nil_r. split; [|done].
    destruct Hph as [Hb Hq Hp Hc Hs|o Hb Hp Hc Hs|o Hb Hp Hc Hs]; rewrite Hm in Hc; simpl in Hc.
    + by apply phase_idle.
    + by apply phase_running.
    + by apply phase_finished.
Qed.

Lemma inv_finish s0 told ops cur c before op after :
  inv s0 told ops cur c -> piped c = before ++ op :: after -> inv s0 told ops cur (finish before op after c).
Proof.
  intros (Hph & Hr & Ht) Hpi. unfold finish.
  destruct Hph as [Hb Hq Hp Hc Hs|o Hb Hp Hc Hs|o Hb Hp Hc Hs]; rewrite Hpi in Hp.
  - by destruct before.
  - destruct before as [|b before]; [|by destruct before]. simpl in Hp. injection Hp as -> ->.
    destruct (work o (service c)) as [v s] eqn:Hw. rewrite Hs in Hw. split; [|split; [done|]].
    + apply phase_finished; simpl; [done|done| |].
      * by rewrite omap_app, Hc, Hw.
      * by rewrite state_after_snoc, Hw.
    + simpl. rewrite Ht, omap_app. simpl. by rewrite app_nil_r.
  - by destruct before.
Qed.

Lemma reached_inv s0 told c : reached s0 told c -> exists ops cur, inv s0 told ops cur c.
Proof.
  induction 1 as [|told c op _ (ops & cur & Hph & Hr & ->)|told c c' _ (ops & cur & Hi) Hs].
  - exists [], []. split; [by apply phase_idle|done].
  - exists ops, cur. split; [|split; [done|]].
    + assert (Hc : omap completed_of (mailbox (tell op c)) = omap completed_of (mailbox c)).
      { simpl. rewrite omap_app. simpl. by rewrite app_nil_r. }
      destruct Hph; [apply phase_idle|apply phase_running|apply phase_finished]; by rewrite ?Hc.
    + simpl. rewrite omap_app. simpl. by rewrite <- !app_assoc.
  - destruct Hs as [msg rest c Hm|b op a c Hp]; [by eapply inv_deliver|]. exists ops, cur. by apply inv_finish.
Qed.

(** ** Termination *)

Definition weight (m : message) : nat := match m with Operation _ => 3 | _ => 1 end.

(** The number of steps until every operation told has been answered. *)
Definition pending (c : config) : nat :=
  sum_list_with weight (mailbox c) + 2 * length (queue (actor c)) + 2 * length (piped c).

Lemma start_pending q b : let '(a, p) := start (mkActor q b) in
  (length (queue a) + length (option_list p) = length q)%nat.
Proof. by destruct b, q as [|op q]; simpl; rewrite ?Nat.add_0_r, ?Nat.add_1_r. Qed.

(** Every step counts down. *)
Lemma silent_pending c c' : silent c c' -> pending c = Datatypes.S (pending c').
Proof.
  intros [msg rest c1 Hm|b op a c1 Hp]; unfold pending.
  - rewrite Hm. unfold deliver. destruct msg as [op|op v|]; simpl.
    + pose proof (start_pending (queue (actor c1) ++ [op]) (busy (actor c1))) as E.
      destruct (start _) as [a p]. simpl. rewrite length_app in *. simpl in *. lia.
    + pose proof (start_pending (queue (actor c1)) false) as E.
      destruct (start _) as [a p]. simpl. rewrite length_app. lia.
    + rewrite app_nil_r. lia.
  - rewrite Hp. unfold finish. destruct (work op (service c1)). simpl.
    rewrite sum_list_with_app, !length_app. simpl. lia.
Qed.

Definition quiet (c : config) : Prop := mailbox c = [] /\ piped c = [].

Lemma silent_or_quiet c : quiet c \/ exists c', silent c c'.
Proof.
  destruct (mailbox c) as [|msg rest] eqn:Hm; [|right; eexists; by apply silent_deliver].
  destruct (piped c) as [|op rest] eqn:Hp; [by left|]. right. eexists. by apply (silent_finish [] op rest).
Qed.

(** What holds when nothing is left to do. *)
Lemma quiet_done s0 told c :
  reached s0 told c -> quiet c -> service c = state_after told s0 /\ replies c = answers_of told s0.
Proof.
  intros (ops & cur & Hph & Hr & Ht)%reached_inv [Hm Hp]. rewrite Hm in Ht.
  destruct Hph as [Hb Hq _ _ Hs|o _ Hp' _ _|o _ _ Hc _].
  - rewrite Hq in Ht. simpl in Ht. rewrite app_nil_r in Ht. by subst.
  - by rewrite Hp in Hp'.
  - by rewrite Hm in Hc.
Qed.

Lemma quiet_pending s0 told c : reached s0 told c -> quiet c <-> pending c = 0%nat.
Proof.
  intros (ops & cur & Hph & _ & _)%reached_inv. unfold quiet, pending. split.
  - intros [Hm Hp]. rewrite Hm, Hp. destruct Hph as [_ Hq _ _ _|o _ Hp' _ _|o _ _ Hc _].
    + by rewrite Hq.
    + by rewrite Hp in Hp'.
    + by rewrite Hm in Hc.
  - destruct (mailbox c) as [|[| |] ?]; simpl; [|lia..]. destruct (piped c); simpl; [done|lia].
Qed.

Lemma silent_run_pending n c c' : silent_run n c c' -> pending c = (n + pending c')%nat.
Proof. induction 1 as [|n c1 c2 c3 Hs _ IH]; [done|]. rewrite (silent_pending _ _ Hs), IH. lia. Qed.

Lemma silent_run_reached s0 told n c c' : reached s0 told c -> silent_run n c c' -> reached s0 told c'.
Proof. intros Hr Hs. induction Hs; [done|]. apply IHHs. by eapply reached_silent. Qed.

Lemma silent_run_exists s0 told c : reached s0 told c -> exists c', silent_run (pending c) c c'.
Proof.
  remember (pending c) as n eqn:Hn. revert c Hn. induction n as [|n IH]; intros c Hn Hr; [exists c; constructor|].
  destruct (silent_or_quiet c) as [Hq|[c1 Hs]].
  - apply (quiet_pending _ _ _ Hr) in Hq. lia.
  - pose proof (silent_pending _ _ Hs). destruct (IH c1) as [c2 Hrun]; [lia|by eapply reached_silent|].
    exists c2. by econstructor.
Qed.

Lemma silent_run_done s0 told c c' :
  reached s0 told c -> silent_run (pending c) c c' ->
  quiet c' /\ service c' = state_after told s0 /\ replies c' = answers_of told s0.
Proof.
  intros Hr Hs. pose proof (silent_run_reached _ _ _ _ _ Hr Hs) as Hr'. apply silent_run_pending in Hs.
  assert (quiet c') by (apply (quiet_pending _ _ _ Hr'); lia). split; [done|]. by apply quiet_done.
Qed.

(** C18: The executor serializes: in every configuration reached while [told] were told, in
    whatever order messages are delivered and goroutines run, at most one operation is
    being performed; the service is in the state after a prefix of [told] run one by
    one, and the callers have been sent the results of a prefix, in order.  Every run
    without further calls takes at most [pending c] steps, one that takes that many
    exists, and it ends with every operation performed and every caller answered. *)
Theorem executor_serializes s0 told c :
  reached s0 told c ->
  (length (piped c) <= 1)%nat /\
  (exists ops, ops `prefix_of` told /\ service c = state_after ops s0) /\
  (exists ops, ops `prefix_of` told /\ replies c = answers_of ops s0) /\
  (forall n c', silent_run n c c' -> (n <= pending c)%nat) /\
  (exists c', silent_run (pending c) c c') /\
  (forall c', silent_run (pending c) c c' -> service c' = state_after told s0 /\ replies c' = answers_of told s0).
Proof.
  intros Hr. pose proof (reached_inv _ _ _ Hr) as (ops & cur & Hph & Hrep & Ht).
  split; [destruct Hph as [_ _ Hp _ _|o _ Hp _ _|o _ Hp _ _]; rewrite Hp; simpl; lia|]. split.
  { destruct Hph as [_ _ _ _ Hs|o _ _ _ Hs|o _ _ _ Hs].
    - exists ops. split; [by eexists|done].
    - exists ops. split; [by eexists|done].
    - exists (ops ++ [o]). split; [|done]. rewrite Ht, app_assoc. by eexists. }
  split; [exists ops; split; [by eexists|done]|].
  split; [intros n c' E; apply silent_run_pending in E; lia|].
  split; [by eapply silent_run_exists|]. intros c' E. by eapply silent_run_done.
Qed.

(** ** Calls *)

(** The actor system left to itself: messages first, then goroutines. *)
Fixpoint settle (n : nat) (c : config) : config :=
  match n with
  | O => c
  | Datatypes.S n' =>
      match mailbox c, piped c with
      | msg :: rest, _ => settle n' (deliver msg rest c)
      | [], op :: rest => settle n' (finish [] op rest c)
      | [], [] => c
      end
  end.

Lemma settle_run s0 told c : reached s0 told c -> silent_run (pending c) c (settle (pending c) c).
Proof.
  remember (pending c) as n eqn:Hn. revert c Hn. induction n as [|n IH]; intros c Hn Hr; simpl; [constructor|].
  destruct (mailbox c) as [|msg rest] eqn:Hm.
  - destruct (piped c) as [|op rest] eqn:Hp.
    + assert (Hq : quiet c) by done. apply (quiet_pending _ _ _ Hr) in Hq. lia.
    + assert (Hs : silent c (finish [] op rest c)) by (by apply silent_finish).
      econstructor; [done|]. apply IH; [|by eapply reached_silent]. pose proof (silent_pending _ _ Hs). lia.
  - assert (Hs : silent c (deliver msg rest c)) by (by apply silent_deliver).
    econstructor; [done|]. apply IH; [|by eapply reached_silent]. pose proof (silent_pending _ _ Hs). lia.
Qed.

End SerialActor.

Arguments operation : clear implicits.
Arguments config : clear implicits.

(** ** The facade *)

Section Executor.
Context {S A : Type}.

(** A Go function that returns a value and an error. *)
Definition Work : Type := S -> outcome A * S.

(** [Call]: [started] is whether the executor and its PID are there, [told] the result
    of [Tell]; [ch] is the fresh reply channel.  The caller waits for the reply, since
    its context has no deadline. *)
Definition Call (started : bool) (told : outcome unit) (ch : nat) (w : Work) (c : config S (outcome A))
    : outcome A * config S (outcome A) :=
  if negb started then (Err (Errorf "actor executor is not started"), c) else
  match told with
  | Err e => (Err e, c)
  | Panic => (Panic, c)
  | Ok _ =>
      let c1 := tell (mkOperation w (Some ch)) c in
      let c2 := settle (pending c1) c1 in
      match find (fun r => Nat.eqb (fst r) ch) (replies c2) with
      | Some r => (snd r, c2)
      | None => (Err (Errorf "context canceled"), c2)
      end
  end.

(** [Cast] does not wait. *)
Definition Cast (told : outcome unit) (w : Work) (c : config S (outcome A)) : outcome unit * config S (outcome A) :=
  match told with
  | Ok _ => (Ok tt, tell (mkOperation w None) c)
  | r => (r, c)
  end.

(** [Dispatch], [DispatchErr] and [DispatchVoid]: without an executor the work runs on
    the spot. *)
Definition Dispatch (exec : option (config S (outcome A))) (started : bool) (told : outcome unit) (ch : nat)
    (w : Work) (s : S) : outcome A * S :=
  match exec with
  | None => w s
  | Some c => let '(r, c') := Call started told ch w c in (r, service c')
  end.

Lemma answers_of_fresh ops ch s :
  (forall op, op ∈ ops -> op_reply op <> Some ch) ->
  find (fun r => Nat.eqb (fst r) ch) (@answers_of S (outcome A) ops s) = None.
Proof.
  unfold answers_of. revert s. induction ops as [|op ops IH]; intros s Hf; [done|].
  simpl. destruct (work op s) as [v s1]. specialize (IH s1). destruct (run_all ops s1) as [vs s2]. simpl in *.
  destruct (op_reply op) as [k|] eqn:Hk; simpl.
  - destruct (Nat.eqb_spec k ch) as [->|_].
    + destruct (Hf op); [by left|done].
    + apply IH. intros o Ho. apply Hf. by right.
  - apply IH. intros o Ho. apply Hf. by right.
Qed.

Lemma find_app {B} (f : B -> bool) l1 l2 :
  find f l1 = None -> find f (l1 ++ l2) = find f l2.
Proof. induction l1 as [|x l1 IH]; simpl; [done|]. destruct (f x); [done|apply IH]. Qed.

(** Going through the actor is the same as calling the service: whatever was told to
    the actor before, by whom and however far it has got, a call that is told on a
    fresh channel returns what the work returns on the state left by all operations
    told before, run one after the other, and leaves the state the work leaves. *)
Theorem dispatch_transparent s0 told c ch (w : Work) :
  reached s0 told c -> (forall op, op ∈ told -> op_reply op <> Some ch) ->
  Dispatch (Some c) true (Ok tt) ch w (service c) = Dispatch None true (Ok tt) ch w (state_after told s0).
Proof.
  intros Hr Hf. unfold Dispatch, Call. simpl.
  set (op := mkOperation w (Some ch)). pose proof (reached_tell _ _ _ op Hr) as Hr1.
  destruct (silent_run_done _ _ _ _ Hr1 (settle_run _ _ _ Hr1)) as (_ & Hs & Hrep).
  rewrite Hrep, answers_of_snoc, find_app by (by apply answers_of_fresh). simpl. rewrite Nat.eqb_refl. simpl.
  rewrite Hs, state_after_snoc. simpl. by destruct (w (state_after told s0)).
Qed.
End Executor.

(** ** Two workers claim a task at once *)

Import Tasks.

Definition claim_b : operation (world TasksDB) (outcome TaskLease) :=
  mkOperation (Claim 1000 "tok" "t1" "did:b" 0) (Some 1%nat).
Definition claim_c : operation (world TasksDB) (outcome TaskLease) :=
  mkOperation (Claim 1001 "tok2" "t1" "did:c" 0) (Some 2%nat).
Definition both_told : config (world TasksDB) (outcome TaskLease) :=
  tell claim_c (tell claim_b (idle (World example_db []))).

Lemma both_reached : reached (World example_db []) [claim_b; claim_c] both_told.
Proof. apply (reached_tell _ [claim_b]), (reached_tell _ []), reached_idle. Qed.

Lemma executor_serializes_witness :
  pending both_told = 6%nat /\
  exists c', silent_run 6 both_told c' /\
    replies c' = [(1%nat, Ok (mkLease "t1" "tok" 31000 1)); (2%nat, Err ErrLeaseConflict)].
Proof.
  split; [reflexivity|].
  destruct (executor_serializes _ _ _ both_reached) as (_ & _ & _ & _ & [c' Hrun] & Hdone).
  exists c'. split; [exact Hrun|]. destruct (Hdone c' Hrun) as [_ ->]. vm_compute. reflexivity.
Defined.

Lemma dispatch_transparent_witness :
  fst (Dispatch (Some both_told) true (Ok tt) 3 (Claim 1002 "tok3" "t1" "did:b" 0) (World example_db [])) =
  Ok (mkLease "t1" "tok" 31000 1).
Proof.
  change (World example_db []) with (service both_told).
  rewrite (dispatch_transparent _ _ _ 3 _ both_reached); [vm_compute; reflexivity|].
  intros op Hop. repeat (apply elem_of_cons in Hop as [->|Hop]; [discriminate|]). by apply not_elem_of_nil in Hop.
Defined.
