(* ===== verification/Gossip.v ===== *)
(** * Gossip topics ([daemon/gossip/gossip.go])

    The manager that lets the daemon's parts share the topics of one GossipSub router:
    a table of joined topics with reference counts, publishing, and subscriptions whose
    goroutine gives the topic back when it ends.  The router is libp2p's: a class with
    the calls the manager makes and, as laws, what its documentation says of them. *)

From stdpp Require Import base gmap strings list.
From Stdlib Require Import ZArith Lia.
From S2P Require Import Prelude GoStd Identity Tasks Records Rpc.

Local Open Scope string_scope.
Local Open Scope Z_scope.

(** ** The router *)

(** Topic handles and subscriptions are numbers.  [ps_joined] are the topics with an
    open handle, [ps_subs] the active subscriptions of a handle. *)
Class PubSub : Type := {
  ps_state : Type;
  ps_Join : string -> ps_state -> outcome nat * ps_state;
  ps_Subscribe : nat -> ps_state -> outcome nat * ps_state;
  ps_Publish : nat -> string -> ps_state -> outcome unit * ps_state;
  ps_Cancel : nat -> ps_state -> ps_state;
  ps_Close : nat -> ps_state -> outcome unit * ps_state;
  ps_joined : ps_state -> gmap string nat;
  ps_subs : ps_state -> nat -> gset nat }.

(** From the documentation of go-libp2p-pubsub: "Only one Topic handle should exist per
    topic, and Join will error if the Topic handle already exists"; "Close closes down
    the topic. Will return an error unless there are no active event handlers or
    subscriptions". *)
Class PubSubLaws `{PubSub} : Prop := {
  ps_join_spec : forall n p, match ps_Join n p with
    | (Ok h, p') => ps_joined p !! n = None /\ (forall k, ps_joined p !! k <> Some h) /\
                    ps_joined p' = <[n := h]> (ps_joined p)
    | (_, p') => ps_joined p' = ps_joined p
    end;
  ps_subscribe_spec : forall h p, match ps_Subscribe h p with
    | (Ok s, p') => ps_joined p' = ps_joined p /\ s ∈ ps_subs p' h
    | (_, p') => ps_joined p' = ps_joined p
    end;
  ps_publish_spec : forall h d p, ps_joined (snd (ps_Publish h d p)) = ps_joined p;
  ps_cancel_spec : forall s p, ps_joined (ps_Cancel s p) = ps_joined p;
  ps_close_spec : forall h p, match ps_Close h p with
    | (Ok _, p') => ps_subs p h = ∅ /\ ps_joined p' = filter (fun kv => kv.2 <> h) (ps_joined p)
    | (_, p') => ps_joined p' = ps_joined p
    end }.

Module Gossip.

Definition PresenceTopic (did : string) : string := "a2a/agents/" ++ did ++ "/presence".
Definition CapabilityTopic (namespace : string) : string := "a2a/capabilities/" ++ namespace.

Section Gossip.
Context `{PubSub}.

Record managedTopic : Type := mkTopic { topic : nat; refs : Z }.

Record Manager : Type := mkManager { topics : gmap string managedTopic; ps : ps_state }.

Definition with_ps (p : ps_state) (m : Manager) : Manager := mkManager (topics m) p.

Definition acquireTopic (name : string) (m : Manager) : outcome nat * Manager :=
  match topics m !! name with
  | Some entry => (Ok (topic entry), mkManager (<[name := mkTopic (topic entry) (refs entry + 1)]> (topics m)) (ps m))
  | None =>
      match ps_Join name (ps m) with
      | (Ok t, p) => (Ok t, mkManager (<[name := mkTopic t 1]> (topics m)) p)
      | (Err _, p) => (Err (Errorf "join topic"), with_ps p m)
      | (Panic, p) => (Panic, with_ps p m)
      end
  end.

(** The function made by [releaseTopicFunc], which [once] lets run a single time.  The
    error of [Close] is dropped. *)
Definition releaseTopic (name : string) (t : nat) (m : Manager) : Manager :=
  match topics m !! name with
  | Some entry =>
      if Nat.eqb (topic entry) t then
        if refs entry - 1 =? 0
        then mkManager (delete name (topics m)) (snd (ps_Close t (ps m)))
        else mkManager (<[name := mkTopic t (refs entry - 1)]> (topics m)) (ps m)
      else m
  | None => m
  end.

Definition publishRaw (name data : string) (m : Manager) : outcome unit * Manager :=
  match Rpc.validateTopicAndPayload name data with
  | Some e => (Err e, m)
  | None =>
      match acquireTopic name m with
      | (Ok t, m1) =>
          let '(r, p) := ps_Publish t data (ps m1) in (r, releaseTopic name t (with_ps p m1))
      | (Err e, m1) => (Err e, m1)
      | (Panic, m1) => (Panic, m1)
      end
  end.

(** [subscribeRaw]: the topic handle and the subscription its goroutine reads. *)
Definition subscribeRaw (name : string) (m : Manager) : outcome (nat * nat) * Manager :=
  match acquireTopic name m with
  | (Ok t, m1) =>
      match ps_Subscribe t (ps m1) with
      | (Ok s, p) => (Ok (t, s), with_ps p m1)
      | (Err _, p) => (Err (Errorf "subscribe to"), releaseTopic name t (with_ps p m1))
      | (Panic, p) => (Panic, with_ps p m1)
      end
  | (Err e, m1) => (Err e, m1)
  | (Panic, m1) => (Panic, m1)
  end.

Definition subscribeTopic (name : string) (m : Manager) : outcome (nat * nat) * Manager :=
  match Rpc.validateTopicAndPayload name "" with
  | Some e => (Err e, m)
  | None => subscribeRaw name m
  end.

(** The end of a subscription's goroutine: its deferred calls run in reverse order, so
    the topic is given back before the subscription is cancelled. *)
Definition unsubscribe (name : string) (t s : nat) (m : Manager) : Manager :=
  let m1 := releaseTopic name t m in with_ps (ps_Cancel s (ps m1)) m1.

(** A message on a task's topic reaches the handler when it decodes and is for that
    task; an agent card when its check passes. *)
Definition on_task_event {E} (decode : string -> option E) (id_of : E -> string) (taskID data : string) : option E :=
  match decode data with
  | Some e => if String.eqb (id_of e) taskID then Some e else None
  | None => None
  end.

Definition on_capability `{Crypto} `{RecordCodec} (decode : string -> option AgentCard) (now : Z) (data : string)
    : outcome (option AgentCard) :=
  match decode data with
  | None => Ok None
  | Some card =>
      match Registry.verifyCard now card with
      | Ok _ => Ok (Some card)
      | Err _ => Ok None
      | Panic => Panic
      end
  end.

Definition PublishPresence `{Crypto} `{RecordCodec} (marshal : AgentCard -> option string) (now : Z) (did : string)
    (card : option AgentCard) (m : Manager) : outcome unit * Manager :=
  match card with
  | None => (Err (Errorf "presence card DID does not match topic"), m)
  | Some card =>
      if negb (String.eqb (a_Did card) did) then (Err (Errorf "presence card DID does not match topic"), m) else
      match Registry.verifyCard now card with
      | Err _ => (Err (Errorf "invalid presence card"), m)
      | Panic => (Panic, m)
      | Ok _ =>
          match marshal card with
          | None => (Err (Errorf "proto: invalid UTF-8"), m)
          | Some data => publishRaw (PresenceTopic did) data m
          end
      end
  end.

(** ** Interleavings *)

(** A call that holds a topic: the name, the handle, and its subscription. *)
Record holder : Type := mkHolder { h_name : string; h_topic : nat; h_sub : option nat }.

(** The steps of concurrent callers: the table is locked only while a topic is taken
    or given back.  [cancelling] are subscriptions whose topic was given back already. *)
Inductive step : Manager * list holder * list nat -> Manager * list holder * list nat -> Prop :=
| step_acquire name t m m' hs cs : acquireTopic name m = (Ok t, m') ->
    step (m, hs, cs) (m', hs ++ [mkHolder name t None], cs)%list
| step_refused name e m m' hs cs : acquireTopic name m = (Err e, m') -> step (m, hs, cs) (m', hs, cs)
| step_publish h data m hs cs : h ∈ hs ->
    step (m, hs, cs) (with_ps (snd (ps_Publish (h_topic h) data (ps m))) m, hs, cs)
| step_subscribe l1 h l2 s p m cs : h_sub h = None -> ps_Subscribe (h_topic h) (ps m) = (Ok s, p) ->
    step (m, l1 ++ h :: l2, cs)%list (with_ps p m, l1 ++ mkHolder (h_name h) (h_topic h) (Some s) :: l2, cs)%list
| step_subscribe_fails h e p m hs cs : h ∈ hs -> ps_Subscribe (h_topic h) (ps m) = (Err e, p) ->
    step (m, hs, cs) (with_ps p m, hs, cs)
| step_release l1 h l2 m cs :
    step (m, l1 ++ h :: l2, cs)%list (releaseTopic (h_name h) (h_topic h) m, l1 ++ l2, option_list (h_sub h) ++ cs)%list
| step_cancel l1 s l2 m hs : step (m, hs, l1 ++ s :: l2)%list (with_ps (ps_Cancel s (ps m)) m, hs, l1 ++ l2)%list.

Inductive reached (x : Manager * list holder * list nat) : Manager * list holder * list nat -> Prop :=
| reached_refl : reached x x
| reached_step y z : reached x y -> step y z -> reached x z.

End Gossip.
End Gossip.

Import Gossip.

(** ** Reference counts *)

Section Facts.
Context `{PubSubLaws}.

Definition holds (name : string) (t : nat) (h : holder) : bool := String.eqb (h_name h) name && Nat.eqb (h_topic h) t.
Definition holders (name : string) (t : nat) (hs : list holder) : nat := length (List.filter (holds name t) hs).

(** The table counts the holders exactly, every holder's topic is in it, and every
    topic in it is joined. *)
Record counted (m : Manager) (hs : list holder) : Prop := mkCounted {
  ct_refs : forall name e, topics m !! name = Some e ->
    refs e = Z.of_nat (holders name (topic e) hs) /\ 1 <= refs e /\ ps_joined (ps m) !! name = Some (topic e);
  ct_held : forall h, h ∈ hs -> exists e, topics m !! h_name h = Some e /\ topic e = h_topic h;
  ct_inj : forall n1 n2 e1 e2, topics m !! n1 = Some e1 -> topics m !! n2 = Some e2 -> topic e1 = topic e2 -> n1 = n2 }.

Lemma count_app name t l1 l2 : holders name t (l1 ++ l2) = (holders name t l1 + holders name t l2)%nat.
Proof. unfold holders. by rewrite List.filter_app, length_app. Qed.

Lemma count_cons name t h l : holders name t (h :: l) = ((if holds name t h then 1 else 0) + holders name t l)%nat.
Proof. unfold holders. simpl. by destruct (holds name t h). Qed.

Lemma holds_self h : holds (h_name h) (h_topic h) h = true.
Proof. unfold holds. by rewrite String.eqb_refl, Nat.eqb_refl. Qed.

Lemma holds_true name t h : holds name t h = true -> h_name h = name /\ h_topic h = t.
Proof. unfold holds. intros [->%String.eqb_eq ->%Nat.eqb_eq]%andb_prop. done. Qed.

Lemma count_in name t l : (1 <= holders name t l)%nat <-> exists h, h ∈ l /\ h_name h = name /\ h_topic h = t.
Proof.
  unfold holders. split.
  - intros Hl. destruct (List.filter (holds name t) l) as [|h r] eqn:E; [simpl in Hl; lia|].
    assert (Hin : In h (List.filter (holds name t) l)) by (rewrite E; by left).
    apply filter_In in Hin as [Hin Hh]. exists h. split; [by apply list_elem_of_In|by apply holds_true].
  - intros (h & Hin%list_elem_of_In & <- & <-).
    assert (Hf : In h (List.filter (holds (h_name h) (h_topic h)) l)) by (apply filter_In; split; [done|apply holds_self]).
    destruct (List.filter _ l); [done|simpl; lia].
Qed.

(** A change of the router that leaves the joined topics alone. *)
Lemma counted_ps m hs p : counted m hs -> ps_joined p = ps_joined (ps m) -> counted (with_ps p m) hs.
Proof. intros [Hr Hh Hi] E. split; simpl; [by rewrite E|done|done]. Qed.

Lemma count_snoc name t l h :
  holders name t (l ++ [h]) = (holders name t l + if holds name t h then 1 else 0)%nat.
Proof. rewrite count_app, count_cons. unfold holders at 2. simpl. lia. Qed.

Lemma holds_other name t h : h_name h <> name -> holds name t h = false.
Proof. intros Hn. unfold holds. by rewrite (proj2 (String.eqb_neq _ _)). Qed.

(** A table in which one entry's count changed. *)
Lemma counted_recount m hs hs' name e r :
  counted m hs -> topics m !! name = Some e ->
  r = Z.of_nat (holders name (topic e) hs') -> 1 <= r ->
  (forall n t, n <> name -> holders n t hs' = holders n t hs) ->
  (forall h, h ∈ hs' -> h ∈ hs \/ (h_name h = name /\ h_topic h = topic e)) ->
  counted (mkManager (<[name := mkTopic (topic e) r]> (topics m)) (ps m)) hs'.
Proof.
  intros [Hr Hh Hi] He Hc Hpos Hother Hin. split; simpl.
  - intros n e' Hn. destruct (decide (n = name)) as [->|Hne].
    + rewrite lookup_insert_eq in Hn. injection Hn as <-. destruct (Hr name e He) as (_ & _ & Hj). done.
    + rewrite lookup_insert_ne in Hn by done. rewrite Hother by done. by apply Hr.
  - intros h Hh'. destruct (decide (h_name h = name)) as [Hn|Hn].
    + rewrite Hn, lookup_insert_eq. eexists. split; [done|]. destruct (Hin h Hh') as [Hold|[_ Ht]]; [|done].
      destruct (Hh h Hold) as (e' & He' & Ht). simpl. rewrite Hn, He in He'. by injection He' as ->.
    + rewrite lookup_insert_ne by done. destruct (Hin h Hh') as [Hold|[? _]]; [by apply Hh|done].
  - assert (Hold : forall n e', <[name := mkTopic (topic e) r]> (topics m) !! n = Some e' ->
      exists e0, topics m !! n = Some e0 /\ topic e0 = topic e').
    { intros n e'. destruct (decide (n = name)) as [->|?]; [rewrite lookup_insert_eq|rewrite lookup_insert_ne by done].
      - intros [= <-]. by exists e.
      - by exists e'. }
    intros n1 n2 e1 e2 (a & Ha & Hta)%Hold (b & Hb & Htb)%Hold Ht. apply (Hi n1 n2 a b); [done|done|congruence].
Qed.

(** A topic joined anew. *)
Lemma counted_join m hs name t p s :
  counted m hs -> topics m !! name = None -> ps_Join name (ps m) = (Ok t, p) ->
  counted (mkManager (<[name := mkTopic t 1]> (topics m)) p) (hs ++ [mkHolder name t s]).
Proof.
  intros [Hr Hh Hi] He Hjoin. pose proof (ps_join_spec name (ps m)) as Hj. rewrite Hjoin in Hj.
  destruct Hj as (Hnone & Hfresh & Hj).
  assert (Hno : holders name t hs = 0%nat).
  { destruct (holders name t hs) eqn:E; [done|]. destruct (proj1 (count_in name t hs)) as (h & Hin & Hn & _); [lia|].
    destruct (Hh h Hin) as (e & He' & _). rewrite Hn in He'. congruence. }
  split; simpl.
  - intros n e' Hn. rewrite Hj, count_snoc. destruct (decide (n = name)) as [->|Hne].
    + rewrite lookup_insert_eq in Hn. injection Hn as <-. simpl.
      rewrite (holds_self (mkHolder name t s) : holds name t _ = true), lookup_insert_eq, Hno. done.
    + rewrite lookup_insert_ne in Hn by done. rewrite holds_other, lookup_insert_ne by done.
      rewrite Nat.add_0_r. by apply Hr.
  - intros h [Hin| ->%list_elem_of_singleton]%elem_of_app; simpl; [|rewrite lookup_insert_eq; by eexists].
    destruct (Hh h Hin) as (e' & He' & Ht). rewrite lookup_insert_ne by congruence. by exists e'.
  - intros n1 n2 e1 e2 [[<- <-]|[N1 H1]]%lookup_insert_Some [[<- <-]|[N2 H2]]%lookup_insert_Some Ht; simpl in Ht;
      [done| | |by eapply Hi].
    + destruct (Hr _ _ H2) as (_ & _ & Hc). by rewrite <- Ht in Hc; apply Hfresh in Hc.
    + destruct (Hr _ _ H1) as (_ & _ & Hc). by rewrite Ht in Hc; apply Hfresh in Hc.
Qed.

Lemma counted_acquire m hs name t m' s :
  counted m hs -> acquireTopic name m = (Ok t, m') -> counted m' (hs ++ [mkHolder name t s]).
Proof.
  intros Hc. unfold acquireTopic. destruct (topics m !! name) as [e|] eqn:He.
  - intros [= <- <-]. destruct (ct_refs _ _ Hc name e He) as (Href & Hpos & _).
    apply (counted_recount m hs); [done|done| |lia| |].
    + rewrite count_snoc, (holds_self (mkHolder name (topic e) s) : holds name (topic e) _ = true). lia.
    + intros n t Hn. rewrite count_snoc, holds_other by done. lia.
    + intros h [Hin| ->%list_elem_of_singleton]%elem_of_app; auto.
  - destruct (ps_Join name (ps m)) as [[t'| |] p] eqn:Hj; [|discriminate..]. intros [= <- <-]. by apply counted_join.
Qed.

Lemma acquire_refused m hs name e m' : counted m hs -> acquireTopic name m = (Err e, m') -> counted m' hs.
Proof.
  intros Hc. unfold acquireTopic. destruct (topics m !! name); [discriminate|].
  pose proof (ps_join_spec name (ps m)) as Hj. destruct (ps_Join name (ps m)) as [[| |] p]; [discriminate| |discriminate].
  intros [= _ <-]. by apply counted_ps.
Qed.

(** Giving a topic back. *)
Lemma counted_release m l1 h l2 :
  counted m (l1 ++ h :: l2) -> counted (releaseTopic (h_name h) (h_topic h) m) (l1 ++ l2).
Proof.
  intros Hc. destruct (ct_held _ _ Hc h) as (e & He & Ht); [apply elem_of_app; right; by left|].
  destruct (ct_refs _ _ Hc _ _ He) as (Href & Hpos & Hj).
  unfold releaseTopic. rewrite He, Ht, Nat.eqb_refl. rewrite Ht in Href, Hj.
  assert (Hcount : Z.of_nat (holders (h_name h) (h_topic h) (l1 ++ l2)) = refs e - 1).
  { rewrite Href, !count_app, count_cons, holds_self. lia. }
  assert (Hother : forall n t, n <> h_name h -> holders n t (l1 ++ l2) = holders n t (l1 ++ h :: l2)).
  { intros n t Hn. rewrite !count_app, count_cons, holds_other by done. lia. }
  assert (Hin : forall x, x ∈ (l1 ++ l2)%list -> x ∈ (l1 ++ h :: l2)%list).
  { intros x [?|?]%elem_of_app; apply elem_of_app; [by left|right; by right]. }
  destruct (Z.eqb_spec (refs e - 1) 0) as [Hz|Hz].
  - assert (Hgone : forall x, x ∈ (l1 ++ l2)%list -> h_name x <> h_name h).
    { intros x Hx Hn. destruct (ct_held _ _ Hc x (Hin x Hx)) as (e' & He' & Ht'). rewrite Hn, He in He'. injection He' as <-.
      pose proof (proj2 (count_in (h_name h) (h_topic h) (l1 ++ l2))) as E.
      assert (1 <= holders (h_name h) (h_topic h) (l1 ++ l2))%nat by (apply E; exists x; split; [done|]; split; congruence).
      lia. }
    split; simpl.
    + intros n e' [Hne Hn]%lookup_delete_Some. rewrite Hother by done.
      destruct (ct_refs _ _ Hc n e' Hn) as (Hr' & Hp' & Hj'). split; [done|]. split; [done|].
      pose proof (ps_close_spec (h_topic h) (ps m)) as Hcl. destruct (ps_Close (h_topic h) (ps m)) as [[| |] p]; simpl;
        [destruct Hcl as [_ Hcl]|by rewrite Hcl..].
      rewrite Hcl. apply map_lookup_filter_Some. split; [done|]. simpl. intros Heq.
      destruct Hne. apply (ct_inj _ _ Hc (h_name h) n e e'); [done|done|congruence].
    + intros x Hx. destruct (ct_held _ _ Hc x (Hin x Hx)) as (e' & He' & Ht'). exists e'.
      split; [|done]. apply lookup_delete_Some. split; [|done]. intros E. by apply (Hgone x Hx).
    + intros n1 n2 e1 e2 [_ H1]%lookup_delete_Some [_ H2]%lookup_delete_Some. by eapply ct_inj.
  - rewrite <- Ht. apply (counted_recount m (l1 ++ h :: l2)); [done|done| |lia|done|auto]. rewrite Ht. lia.
Qed.

Lemma counted_step m hs cs m' hs' cs' : step (m, hs, cs) (m', hs', cs') -> counted m hs -> counted m' hs'.
Proof.
  intros Hs. remember (m, hs, cs) as x eqn:Hx. remember (m', hs', cs') as y eqn:Hy.
  destruct Hs as [name t m1 m2 hs1 cs1 Ha|name e m1 m2 hs1 cs1 Ha|h data m1 hs1 cs1 Hin|l1 h l2 s p m1 cs1 Hn Hsub
    |h e p m1 hs1 cs1 Hin Hsub|l1 h l2 m1 cs1|l1 s l2 m1 hs1]; injection Hx as <- <- <-; injection Hy as <- <- <-; intros Hc.
  - by eapply counted_acquire.
  - by eapply acquire_refused.
  - apply counted_ps; [done|apply ps_publish_spec].
  - pose proof (ps_subscribe_spec (h_topic h) (ps m1)) as E. rewrite Hsub in E. destruct E as [E _].
    apply counted_ps; [|done]. destruct Hc as [Hr Hh Hi]. split; [| |done].
    + intros n e He. destruct (Hr n e He) as (Href & Hp & Hj). split; [|done]. rewrite Href, !count_app, !count_cons. done.
    + intros x [Hx|[-> |Hx]%elem_of_cons]%elem_of_app; [|apply (Hh h)|];
        try (apply Hh); apply elem_of_app; [by left|right; by left|right; by right].
  - pose proof (ps_subscribe_spec (h_topic h) (ps m1)) as E. rewrite Hsub in E. by apply counted_ps.
  - by apply counted_release.
  - apply counted_ps; [done|apply ps_cancel_spec].
Qed.

Lemma counted_reached m0 m hs cs :
  topics m0 = ∅ -> reached (m0, [], []) (m, hs, cs) -> counted m hs.
Proof.
  intros Hempty Hr. remember (m, hs, cs) as y eqn:Hy. revert m hs cs Hy.
  induction Hr as [|[[m1 hs1] cs1] z _ IH Hs]; intros m hs cs Hy.
  - injection Hy as <- <- <-. split; [intros n e|intros h Hh; by apply not_elem_of_nil in Hh|intros n1 n2 e1 e2]; by rewrite Hempty.
  - subst z. eapply counted_step; [done|]. by eapply IH.
Qed.

(** C19: Topics are shared safely: whatever the interleaving of publishers and subscribers,
    a topic that anyone holds is joined (so none is closed in use), exactly the held
    topics are in the table, and each count is the number of holders. *)
Theorem topic_refcount m0 m hs cs :
  topics m0 = ∅ -> reached (m0, [], []) (m, hs, cs) ->
  (forall h, h ∈ hs -> ps_joined (ps m) !! h_name h = Some (h_topic h)) /\
  (forall name, is_Some (topics m !! name) <-> exists h, h ∈ hs /\ h_name h = name) /\
  (forall name e, topics m !! name = Some e -> refs e = Z.of_nat (holders name (topic e) hs)).
Proof.
  intros Hempty Hr. pose proof (counted_reached _ _ _ _ Hempty Hr) as Hc. split; [|split].
  - intros h Hh. destruct (ct_held _ _ Hc h Hh) as (e & He & <-). by apply (ct_refs _ _ Hc).
  - intros name. split.
    + intros [e He]. destruct (ct_refs _ _ Hc name e He) as (Href & Hp & _).
      destruct (proj1 (count_in name (topic e) hs)) as (h & Hh & Hn & _); [lia|]. by exists h.
    + intros (h & Hh & <-). destruct (ct_held _ _ Hc h Hh) as (e & He & _). by exists e.
  - intros name e He. by apply (ct_refs _ _ Hc).
Qed.

(** ** A topic that cannot be joined again *)

(** The router has the topic, the manager's table does not, and no entry of the table
    has its handle. *)
Record wedged (name : string) (t : nat) (m : Manager) : Prop := mkWedged {
  wd_table : topics m !! name = None;
  wd_joined : ps_joined (ps m) !! name = Some t;
  wd_other : forall n e, topics m !! n = Some e -> topic e <> t }.

Lemma wedged_ps name t m p : wedged name t m -> ps_joined p = ps_joined (ps m) -> wedged name t (with_ps p m).
Proof. intros [Ht Hj Ho] E. split; simpl; [done|by rewrite E|done]. Qed.

Lemma wedged_refused name t m : wedged name t m -> forall t', fst (acquireTopic name m) <> Ok t'.
Proof.
  intros [Ht Hj _] t'. unfold acquireTopic. rewrite Ht. pose proof (ps_join_spec name (ps m)) as E.
  destruct (ps_Join name (ps m)) as [[h| |] p]; [|done..]. destruct E as [E _]. congruence.
Qed.

Lemma wedged_acquire name t m n t' m' : wedged name t m -> acquireTopic n m = (Ok t', m') -> wedged name t m'.
Proof.
  intros Hw Ha. assert (Hn : n <> name).
  { intros ->. apply (wedged_refused _ _ _ Hw t'). by rewrite Ha. }
  destruct Hw as [Ht Hj Ho]. unfold acquireTopic in Ha. destruct (topics m !! n) as [e|] eqn:He.
  - injection Ha as <- <-. split; simpl; [by rewrite lookup_insert_ne|done|].
    intros k e' [[<- <-]|[_ Hk]]%lookup_insert_Some; [by apply (Ho n e)|by apply (Ho k e')].
  - pose proof (ps_join_spec n (ps m)) as E. destruct (ps_Join n (ps m)) as [[h| |] p]; [|discriminate..].
    destruct E as (_ & Hfresh & Hj'). injection Ha as <- <-. split; simpl; [by rewrite lookup_insert_ne| |].
    + rewrite Hj'. by rewrite lookup_insert_ne.
    + intros k e' [[<- <-]|[_ Hk]]%lookup_insert_Some; [|by apply (Ho k e')]. simpl. intros ->. by apply (Hfresh name).
Qed.

Lemma wedged_release name t m n k : wedged name t m -> wedged name t (releaseTopic n k m).
Proof.
  intros Hw. pose proof Hw as [Ht Hj Ho]. unfold releaseTopic. destruct (topics m !! n) as [e|] eqn:He; [|done].
  destruct (Nat.eqb_spec (topic e) k) as [<-|_]; [|done]. pose proof (Ho n e He) as Hne.
  destruct (refs e - 1 =? 0); split; simpl.
  - apply lookup_delete_None. by right.
  - pose proof (ps_close_spec (topic e) (ps m)) as E. destruct (ps_Close (topic e) (ps m)) as [[| |] p]; simpl;
      [destruct E as [_ E]|by rewrite E..]. rewrite E. apply map_lookup_filter_Some. split; [done|]. simpl. congruence.
  - intros x e' [_ Hx]%lookup_delete_Some. by apply (Ho x e').
  - rewrite lookup_insert_ne; [done|]. intros ->. congruence.
  - done.
  - intros x e' [[<- <-]|[_ Hx]]%lookup_insert_Some; [done|by apply (Ho x e')].
Qed.

Lemma wedged_step name t m hs cs m' hs' cs' :
  step (m, hs, cs) (m', hs', cs') -> wedged name t m -> wedged name t m'.
Proof.
  intros Hs. remember (m, hs, cs) as x eqn:Hx. remember (m', hs', cs') as y eqn:Hy.
  destruct Hs as [n t' m1 m2 hs1 cs1 Ha|n e m1 m2 hs1 cs1 Ha|h data m1 hs1 cs1 Hin|l1 h l2 s p m1 cs1 Hn Hsub
    |h e p m1 hs1 cs1 Hin Hsub|l1 h l2 m1 cs1|l1 s l2 m1 hs1]; injection Hx as <- <- <-; injection Hy as <- <- <-; intros Hw.
  - by eapply wedged_acquire.
  - unfold acquireTopic in Ha. destruct (topics m1 !! n); [discriminate|].
    pose proof (ps_join_spec n (ps m1)) as E. destruct (ps_Join n (ps m1)) as [[| |] p]; [discriminate| |discriminate].
    injection Ha as _ <-. by apply wedged_ps.
  - apply wedged_ps; [done|apply ps_publish_spec].
  - pose proof (ps_subscribe_spec (h_topic h) (ps m1)) as E. rewrite Hsub in E. by apply wedged_ps; [|apply E].
  - pose proof (ps_subscribe_spec (h_topic h) (ps m1)) as E. rewrite Hsub in E. by apply wedged_ps.
  - by apply wedged_release.
  - apply wedged_ps; [done|apply ps_cancel_spec].
Qed.

(** The only subscription of a topic ends. *)
Lemma unsubscribe_wedges m hs name t s m1 :
  counted m hs -> topics m !! name = None -> subscribeRaw name m = (Ok (t, s), m1) ->
  wedged name t (unsubscribe name t s m1).
Proof.
  intros Hc Hnone. unfold subscribeRaw, acquireTopic. rewrite Hnone.
  pose proof (ps_join_spec name (ps m)) as Hj. destruct (ps_Join name (ps m)) as [[t'| |] p]; [|discriminate..].
  destruct Hj as (_ & Hfresh & Hj). simpl. pose proof (ps_subscribe_spec t' p) as Hs.
  destruct (ps_Subscribe t' p) as [[s'| |] p1]; [|discriminate..]. destruct Hs as [Hsj Hsub]. intros [= <- <- <-].
  unfold unsubscribe, releaseTopic. simpl. rewrite lookup_insert_eq. simpl. rewrite Nat.eqb_refl. simpl.
  assert (Hp2 : ps_joined (snd (ps_Close t' p1)) = ps_joined p1).
  { pose proof (ps_close_spec t' p1) as Hcl. destruct (ps_Close t' p1) as [[u|x|] p2]; [|done..].
    destruct Hcl as [Hcl _]. rewrite Hcl in Hsub. by apply not_elem_of_empty in Hsub. }
  split; simpl; [by rewrite lookup_delete_eq|by rewrite ps_cancel_spec, Hp2, Hsj, Hj, lookup_insert_eq|].
  intros n e [Hne Hn]%lookup_delete_Some. rewrite lookup_insert_ne in Hn by done.
  destruct (ct_refs _ _ Hc n e Hn) as (_ & _ & Hjn). intros E. rewrite E in Hjn. by apply Hfresh in Hjn.
Qed.

(** A subscription takes its topic down with it: when the only user of a topic was a
    subscriber, its goroutine gives the topic back before it cancels the subscription,
    the router refuses to close a topic with a subscription, and the error is dropped.
    The table has forgotten the topic but the router has not: whatever happens from
    then on, no publication and no subscription of that topic succeeds again. *)
Theorem topic_wedged m0 m hs cs name t s m1 m2 hs2 cs2 data :
  topics m0 = ∅ -> reached (m0, [], []) (m, hs, cs) ->
  topics m !! name = None -> subscribeTopic name m = (Ok (t, s), m1) ->
  reached (unsubscribe name t s m1, hs, cs) (m2, hs2, cs2) ->
  fst (publishRaw name data m2) <> Ok tt /\ (forall x, fst (subscribeTopic name m2) <> Ok x).
Proof.
  intros Hempty Hr Hnone Hsub Hr2. pose proof (counted_reached _ _ _ _ Hempty Hr) as Hc.
  unfold subscribeTopic in Hsub. destruct (Rpc.validateTopicAndPayload name "") eqn:Hv; [discriminate|].
  pose proof (unsubscribe_wedges _ _ _ _ _ _ Hc Hnone Hsub) as Hw.
  assert (Hw2 : wedged name t m2).
  { remember (m2, hs2, cs2) as y eqn:Hy. revert m2 hs2 cs2 Hy.
    induction Hr2 as [|[[m3 hs3] cs3] z _ IH Hs]; intros m2 hs2 cs2 Hy; [by injection Hy as <- <- <-|].
    subst z. eapply wedged_step; [done|]. by eapply IH. }
  pose proof (wedged_refused _ _ _ Hw2) as Hno. unfold publishRaw, subscribeTopic, subscribeRaw. rewrite Hv. split.
  - destruct (Rpc.validateTopicAndPayload name data); [done|].
    destruct (acquireTopic name m2) as [[t'| |] m3]; [by destruct (Hno t')|done..].
  - intros x. destruct (acquireTopic name m2) as [[t'| |] m3]; [by destruct (Hno t')|done..].
Qed.
End Facts.

(** ** A router *)

(** Joined topics, subscriptions of handles, and the next number. *)
Record router : Type := mkRouter { rt_joined : gmap string nat; rt_subs : gmap nat (gset nat); rt_next : nat }.

Definition rt_fresh (r : router) : nat := fresh (map_img (SA := gset nat) (rt_joined r)).
Definition subs_of (r : router) (h : nat) : gset nat := default ∅ (rt_subs r !! h).

#[export] Instance toy_router : PubSub := {|
  ps_state := router;
  ps_Join n r :=
    match rt_joined r !! n with
    | Some _ => (Err (Errorf "topic already exists"), r)
    | None => (Ok (rt_fresh r), mkRouter (<[n := rt_fresh r]> (rt_joined r)) (rt_subs r) (rt_next r))
    end;
  ps_Subscribe h r :=
    (Ok (rt_next r), mkRouter (rt_joined r) (<[h := {[rt_next r]} ∪ subs_of r h]> (rt_subs r)) (S (rt_next r)));
  ps_Publish h d r := (Ok tt, r);
  ps_Cancel s r := mkRouter (rt_joined r) ((fun x => x ∖ {[s]}) <$> rt_subs r) (rt_next r);
  ps_Close h r :=
    if bool_decide (subs_of r h = ∅)
    then (Ok tt, mkRouter (filter (fun kv => kv.2 <> h) (rt_joined r)) (rt_subs r) (rt_next r))
    else (Err (Errorf "cannot close topic: outstanding event handlers or subscriptions"), r);
  ps_joined := rt_joined;
  ps_subs := subs_of |}.

#[export] Instance toy_router_laws : PubSubLaws.
Proof.
  split; simpl.
  - intros n r. destruct (rt_joined r !! n) eqn:Hn; simpl; [done|]. split; [done|]. split; [|done].
    intros k Hk. apply (is_fresh (map_img (SA := gset nat) (rt_joined r))). by eapply elem_of_map_img_2.
  - intros h r. split; [done|]. unfold subs_of at 1. simpl. rewrite lookup_insert_eq. simpl. set_solver.
  - done.
  - done.
  - intros h r. case_bool_decide; done.
Qed.

Definition lone : Manager := mkManager ∅ (mkRouter ∅ ∅ 0).
Definition first_sub : outcome (nat * nat) * Manager := subscribeTopic "a2a/networks/n/broadcast" lone.

Lemma topic_refcount_witness :
  exists m t, reached (lone, [], []) (m, [mkHolder "a2a/x" t None; mkHolder "a2a/x" t None], []) /\
    ps_joined (ps m) !! "a2a/x" = Some t /\ option_map refs (topics m !! "a2a/x") = Some 2.
Proof.
  set (m1 := snd (acquireTopic "a2a/x" lone)). set (m2 := snd (acquireTopic "a2a/x" m1)).
  assert (Hr : reached (lone, [], []) (m2, [mkHolder "a2a/x" 0 None; mkHolder "a2a/x" 0 None], [])).
  { eapply (reached_step _ (m1, [mkHolder "a2a/x" 0 None], [])); [eapply (reached_step _ (lone, [], [])); [apply reached_refl|]|].
    - by apply (step_acquire "a2a/x" 0 lone m1 [] []).
    - by apply (step_acquire "a2a/x" 0 m1 m2 [mkHolder "a2a/x" 0 None] []). }
  exists m2, 0%nat. split; [exact Hr|].
  destruct (topic_refcount lone m2 _ _ eq_refl Hr) as (Hheld & _ & Hcount). split.
  - apply (Hheld (mkHolder "a2a/x" 0 None)). by left.
  - destruct (topics m2 !! "a2a/x") as [e|] eqn:He; [|vm_compute in He; discriminate].
    simpl. rewrite (Hcount _ _ He). vm_compute in He. injection He as <-. reflexivity.
Defined.

(** One subscriber comes and goes; nobody can publish to the network any more. *)
Lemma topic_wedged_witness :
  fst first_sub = Ok (0, 0)%nat /\
  fst (publishRaw "a2a/networks/n/broadcast" "hello" (unsubscribe "a2a/networks/n/broadcast" 0 0 (snd first_sub))) <> Ok tt.
Proof.
  assert (E : fst first_sub = Ok (0, 0)%nat) by (vm_compute; reflexivity). split; [exact E|].
  refine (proj1 (topic_wedged lone lone [] [] "a2a/networks/n/broadcast" 0 0 (snd first_sub) _ [] [] "hello"
    eq_refl (reached_refl _) eq_refl _ (reached_refl _))).
  change (first_sub = (Ok (0, 0)%nat, snd first_sub)). rewrite <- E. apply surjective_pairing.
Defined.
