(* ===== verification/Network.v ===== *)
(** * Networks ([daemon/network/network.go])

    Named groups of agents: the store of networks and their members (Module Store) and
    the manager that broadcasts to a network over its gossip topic (Module Network).
    The store refines an abstract specification in which a network is a name, a creator
    and a set of members. *)

From stdpp Require Import base gmap strings list sorting.
From Stdlib Require Import ZArith Lia.
From S2P Require Import Prelude GoStd Rpc Gossip.

Local Open Scope string_scope.
Local Open Scope Z_scope.
Local Open Scope go_scope.

(** The [Metadata] of a network is never stored. *)
Record Network : Type := mkNetwork { n_ID : string; n_Name : string; n_CreatorDID : string; n_CreatedAt : Z }.
Record Member : Type := mkMember { m_NetworkID : string; m_DID : string; m_JoinedAt : Z }.

#[export] Instance Network_eq_dec : EqDecision Network.
Proof. solve_decision. Defined.
#[export] Instance Member_eq_dec : EqDecision Member.
Proof. solve_decision. Defined.

Module Store.

(** Tables [networks] (id is the primary key, name is unique) and [network_members]
    (network and DID are the primary key), in insertion order.  The foreign key of the
    latter is not enforced: connections are opened without it. *)
Record NetDB : Type := mkNetDB { networks : list Network; members : list Member }.

Definition empty_db : NetDB := mkNetDB [] [].

Definition key (m : Member) : string * string := (m_NetworkID m, m_DID m).
Definition is_member (networkID did : string) (s : NetDB) : bool :=
  bool_decide ((networkID, did) ∈ key <$> members s).

Definition insert_network (n : Network) : M NetDB unit :=
  stmt (fun s =>
    if bool_decide (n_ID n ∈ n_ID <$> networks s) || bool_decide (n_Name n ∈ n_Name <$> networks s)
    then (Err ErrUnique, s) else (Ok tt, mkNetDB (networks s ++ [n]) (members s))).

(** [INSERT OR IGNORE]. *)
Definition add_member (networkID did : string) (now : Z) (s : NetDB) : NetDB :=
  if is_member networkID did s then s else mkNetDB (networks s) (members s ++ [mkMember networkID did now]).
Definition addMember (networkID did : string) (now : Z) : M NetDB unit :=
  exec (add_member networkID did now).

Definition find_network (f : Network -> bool) : M NetDB Network :=
  catch (query (fun s => match List.find f (networks s) with Some n => Ok n | None => Err ErrNoRows end))
    (fun r => match r with
              | Ok n => ret n
              | Err e => throw (if bool_decide (e = ErrNoRows) then Errorf "network not found" else e)
              | Panic => panic
              end).

Definition get (id : string) : M NetDB Network := find_network (fun n => String.eqb (n_ID n) id).
Definition getByName (name : string) : M NetDB Network := find_network (fun n => String.eqb (n_Name n) name).

Definition create (uuid : string) (now : Z) (name creatorDID : string) : M NetDB Network :=
  do! insert_network (mkNetwork uuid name creatorDID now) in
  do! addMember uuid creatorDID now in
  get uuid.

Definition join (now : Z) (networkID did : string) : M NetDB unit :=
  do! get networkID in
  addMember networkID did now.

Definition leave (networkID did : string) : M NetDB unit :=
  exec (fun s => mkNetDB (networks s) (filter (fun m => key m <> (networkID, did)) (members s))).

Definition created_ge (a b : Network) : Prop := n_CreatedAt b <= n_CreatedAt a.
#[export] Instance created_ge_dec : RelDecision created_ge.
Proof. intros a b. unfold created_ge. apply _. Defined.
#[export] Instance created_ge_total : Total created_ge.
Proof. intros a b. unfold created_ge. lia. Qed.
#[export] Instance created_ge_trans : Transitive created_ge.
Proof. intros a b c. unfold created_ge. lia. Qed.

Definition joined_le (a b : Member) : Prop := m_JoinedAt a <= m_JoinedAt b.
#[export] Instance joined_le_dec : RelDecision joined_le.
Proof. intros a b. unfold joined_le. apply _. Defined.
#[export] Instance joined_le_total : Total joined_le.
Proof. intros a b. unfold joined_le. lia. Qed.
#[export] Instance joined_le_trans : Transitive joined_le.
Proof. intros a b c. unfold joined_le. lia. Qed.

(** The join of the two tables; a member is in a network at most once. *)
Definition list_networks (memberDID : string) : M NetDB (list Network) :=
  query (fun s => Ok (merge_sort created_ge (filter (fun n => is_member (n_ID n) memberDID s = true) (networks s)))).

Definition list_members (networkID : string) : M NetDB (list Member) :=
  query (fun s => Ok (merge_sort joined_le (filter (fun m => m_NetworkID m = networkID) (members s)))).

Definition isMember (networkID did : string) : M NetDB bool :=
  query (fun s => Ok (0 <? llen (filter (fun m => key m = (networkID, did)) (members s)))).

End Store.

Definition BroadcastTopic (networkID : string) : string := "a2a/networks/" ++ networkID ++ "/broadcast".

Module Networks.
Section Networks.
Context `{PubSub}.
Import Store.

(** The store and the gossip manager that publishes for it. *)
Record Manager : Type := mkManager { store : NetDB; publisher : Gossip.Manager }.

Definition on_store {A} (m : M NetDB A) : M Manager A :=
  zoom store (fun s x => mkManager s (publisher x)) m.
Definition on_gossip {A} (f : Gossip.Manager -> outcome A * Gossip.Manager) : M Manager A := fun w =>
  let '(r, g) := f (publisher (db w)) in (r, World (mkManager (store (db w)) g) (faults w)).

(** [Publish] of the gossip manager checks topic and payload, and [publishRaw] again. *)
Definition Publish (topic data : string) (g : Gossip.Manager) : outcome unit * Gossip.Manager :=
  match Rpc.validateTopicAndPayload topic data with
  | Some e => (Err e, g)
  | None => Gossip.publishRaw topic data g
  end.

Definition as_member {A} (networkID memberDID : string) (m : M Manager A) : M Manager A :=
  let! ok := on_store (isMember networkID memberDID) in
  guard! ok else Errorf "DID is not a member of network" in m.

Definition Broadcast (networkID memberDID data : string) : M Manager unit :=
  as_member networkID memberDID (on_gossip (Publish (BroadcastTopic networkID) data)).

Definition SubscribeBroadcast (networkID memberDID : string) : M Manager (nat * nat) :=
  as_member networkID memberDID (on_gossip (Gossip.subscribeTopic (BroadcastTopic networkID))).

End Networks.
End Networks.

(** ** The store and its specification *)

Section StoreFacts.
Import Store.

Record wf (s : NetDB) : Prop := mkWf {
  wf_ids : NoDup (n_ID <$> networks s);
  wf_names : NoDup (n_Name <$> networks s);
  wf_keys : NoDup (key <$> members s);
  wf_refs : forall m, m ∈ members s -> m_NetworkID m ∈ n_ID <$> networks s }.

(** The abstract state: networks by id, and who joined what when. *)
Record Spec : Type := mkSpec { sp_nets : gmap string Network; sp_members : gmap (string * string) Z }.

Definition abs (s : NetDB) : Spec :=
  mkSpec (list_to_map ((fun n => (n_ID n, n)) <$> networks s))
    (list_to_map ((fun m => (key m, m_JoinedAt m)) <$> members s)).

(** The calls of the store. *)
Inductive op : Type :=
| OpCreate (uuid : string) (now : Z) (name did : string)
| OpJoin (now : Z) (id did : string)
| OpLeave (id did : string)
| OpGet (id : string)
| OpGetByName (name : string)
| OpList (did : string)
| OpMembers (id : string)
| OpIsMember (id did : string).

Inductive reply : Type :=
| RNet (n : Network) | RDone | RNets (l : list Network) | RMembers (l : list Member) | RMember (b : bool).

Definition call (o : op) : M NetDB reply :=
  match o with
  | OpCreate uuid now name did => let! n := create uuid now name did in ret (RNet n)
  | OpJoin now id did => do! join now id did in ret RDone
  | OpLeave id did => do! leave id did in ret RDone
  | OpGet id => let! n := get id in ret (RNet n)
  | OpGetByName name => let! n := getByName name in ret (RNet n)
  | OpList did => let! l := list_networks did in ret (RNets l)
  | OpMembers id => let! l := list_members id in ret (RMembers l)
  | OpIsMember id did => let! b := isMember id did in ret (RMember b)
  end.

Definition name_taken (a : Spec) (name : string) : Prop :=
  exists n, sp_nets a !! n_ID n = Some n /\ n_Name n = name.

(** Who joins twice keeps the time of the first. *)
Definition spec_join (id did : string) (now : Z) (m : gmap (string * string) Z) : gmap (string * string) Z :=
  match m !! (id, did) with Some _ => m | None => <[(id, did) := now]> m end.

(** What a call makes of the state, and what it may answer: the listings hold
    each thing once, networks by decreasing time of creation and members by
    time of joining, in any order at equal times. *)
Definition spec_step (o : op) (a : Spec) (r : outcome reply) (a' : Spec) : Prop :=
  match o with
  | OpCreate uuid now name did =>
      (is_Some (sp_nets a !! uuid) \/ name_taken a name) /\ r = Err ErrUnique /\ a' = a \/
      sp_nets a !! uuid = None /\ ~ name_taken a name /\
      r = Ok (RNet (mkNetwork uuid name did now)) /\
      a' = mkSpec (<[uuid := mkNetwork uuid name did now]> (sp_nets a)) (spec_join uuid did now (sp_members a))
  | OpJoin now id did =>
      is_Some (sp_nets a !! id) /\ r = Ok RDone /\ a' = mkSpec (sp_nets a) (spec_join id did now (sp_members a)) \/
      sp_nets a !! id = None /\ r = Err (Errorf "network not found") /\ a' = a
  | OpLeave id did => r = Ok RDone /\ a' = mkSpec (sp_nets a) (delete (id, did) (sp_members a))
  | OpGet id =>
      a' = a /\ r = match sp_nets a !! id with Some n => Ok (RNet n) | None => Err (Errorf "network not found") end
  | OpGetByName name =>
      a' = a /\ ((exists n, sp_nets a !! n_ID n = Some n /\ n_Name n = name /\ r = Ok (RNet n)) \/
                 ~ name_taken a name /\ r = Err (Errorf "network not found"))
  | OpList did =>
      a' = a /\ exists l, r = Ok (RNets l) /\ StronglySorted created_ge l /\ NoDup l /\
        forall n, n ∈ l <-> sp_nets a !! n_ID n = Some n /\ is_Some (sp_members a !! (n_ID n, did))
  | OpMembers id =>
      a' = a /\ exists l, r = Ok (RMembers l) /\ StronglySorted joined_le l /\ NoDup l /\
        forall m, m ∈ l <-> m_NetworkID m = id /\ sp_members a !! (id, m_DID m) = Some (m_JoinedAt m)
  | OpIsMember id did => a' = a /\ r = Ok (RMember (bool_decide (is_Some (sp_members a !! (id, did)))))
  end.

(** A run of the specification with the answers it gives. *)
Inductive spec_run : list op -> Spec -> list (outcome reply) -> Spec -> Prop :=
| spec_done a : spec_run [] a [] a
| spec_call o ops a r a1 rs a2 :
    spec_step o a r a1 -> spec_run ops a1 rs a2 -> spec_run (o :: ops) a (r :: rs) a2.

Lemma lookup_member s m : NoDup (key <$> members s) ->
  m ∈ members s <-> sp_members (abs s) !! key m = Some (m_JoinedAt m).
Proof.
  intros Hnd. simpl. rewrite <- elem_of_list_to_map by (by rewrite <- list_fmap_compose).
  rewrite list_elem_of_fmap. split; [by exists m|]. intros (m' & [= E1 E2 E3] & Hm). by destruct m, m'; simplify_eq/=.
Qed.

Lemma is_member_spec id did s : is_member id did s = bool_decide (is_Some (sp_members (abs s) !! (id, did))).
Proof.
  unfold is_member. apply bool_decide_ext. rewrite <- not_eq_None_Some. simpl.
  rewrite <- not_elem_of_list_to_map, <- list_fmap_compose.
  change (fst ∘ _) with key. destruct (decide ((id, did) ∈ key <$> members s)); tauto.
Qed.

Lemma abs_lookup s id n : NoDup (n_ID <$> networks s) ->
  sp_nets (abs s) !! id = Some n <-> n ∈ networks s /\ n_ID n = id.
Proof.
  intros Hnd. simpl. rewrite <- elem_of_list_to_map.
  - rewrite list_elem_of_fmap. split.
    + intros (x & [= -> ->] & Hx). done.
    + intros [Hn <-]. by exists n.
  - rewrite <- list_fmap_compose. exact Hnd.
Qed.

Lemma abs_none s id : NoDup (n_ID <$> networks s) ->
  sp_nets (abs s) !! id = None <-> id ∉ n_ID <$> networks s.
Proof.
  intros Hnd. rewrite eq_None_not_Some. apply not_iff_compat. rewrite list_elem_of_fmap. split.
  - intros [n Hn]. apply abs_lookup in Hn as [Hn <-]; [|done]. by exists n.
  - intros (n & -> & Hn). exists n. by apply abs_lookup.
Qed.

Lemma names_spec s name : NoDup (n_ID <$> networks s) -> name_taken (abs s) name <-> name ∈ n_Name <$> networks s.
Proof.
  intros Hnd. unfold name_taken. rewrite list_elem_of_fmap. split.
  - intros (n & Hn & <-). apply abs_lookup in Hn as [Hn _]; [|done]. by exists n.
  - intros (n & -> & Hn). exists n. by rewrite abs_lookup.
Qed.

Lemma find_network_spec s id :
  NoDup (n_ID <$> networks s) -> List.find (fun n => String.eqb (n_ID n) id) (networks s) = sp_nets (abs s) !! id.
Proof.
  intros Hnd. destruct (List.find _ _) as [n|] eqn:E; symmetry.
  - apply find_some in E as [Hin Hid]. apply abs_lookup; [done|]. split; [by apply list_elem_of_In|by apply String.eqb_eq].
  - apply eq_None_not_Some. intros [n Hn]. apply abs_lookup in Hn as [Hn Hid]; [|done].
    apply list_elem_of_In in Hn. apply (find_none _ _ E) in Hn. apply String.eqb_neq in Hn. done.
Qed.

Lemma find_run s id : NoDup (n_ID <$> networks s) ->
  get id (World s []) =
  (match sp_nets (abs s) !! id with Some n => Ok n | None => Err (Errorf "network not found") end, World s []).
Proof.
  intros Hnd. unfold get, find_network, catch, query, stmt. simpl. rewrite find_network_spec by done.
  by destruct (_ !! id).
Qed.

Lemma find_name_run s name : NoDup (n_ID <$> networks s) ->
  exists r, getByName name (World s []) = (r, World s []) /\
    ((exists n, sp_nets (abs s) !! n_ID n = Some n /\ n_Name n = name /\ r = Ok n) \/
     ~ name_taken (abs s) name /\ r = Err (Errorf "network not found")).
Proof.
  intros Hnd. unfold getByName, find_network, catch, query, stmt. simpl.
  destruct (List.find _ _) as [n|] eqn:E; (eexists; split; [reflexivity|]).
  - left. exists n. apply find_some in E as [Hin%list_elem_of_In Hname%String.eqb_eq].
    split; [by apply abs_lookup|done].
  - right. split; [|done]. intros (n & -> & Hn%list_elem_of_In)%(names_spec s name Hnd)%list_elem_of_fmap.
    apply (find_none _ _ E), String.eqb_neq in Hn. done.
Qed.

(** What the two listings return. *)
Lemma list_networks_exact did s : NoDup (n_ID <$> networks s) ->
  exists l, list_networks did (World s []) = (Ok l, World s []) /\ StronglySorted created_ge l /\ NoDup l /\
    forall n, n ∈ l <-> sp_nets (abs s) !! n_ID n = Some n /\ is_Some (sp_members (abs s) !! (n_ID n, did)).
Proof.
  intros Hi. eexists. split; [done|]. split; [apply StronglySorted_merge_sort; apply _|]. split.
  - rewrite merge_sort_Permutation. apply NoDup_filter. by apply NoDup_fmap_1 in Hi.
  - intros n. rewrite merge_sort_Permutation, list_elem_of_filter, is_member_spec, bool_decide_eq_true, abs_lookup by done.
    tauto.
Qed.

Lemma list_members_exact id s : NoDup (key <$> members s) ->
  exists l, list_members id (World s []) = (Ok l, World s []) /\ StronglySorted joined_le l /\ NoDup l /\
    forall m, m ∈ l <-> m_NetworkID m = id /\ sp_members (abs s) !! (id, m_DID m) = Some (m_JoinedAt m).
Proof.
  intros Hk. eexists. split; [done|]. split; [apply StronglySorted_merge_sort; apply _|]. split.
  - rewrite merge_sort_Permutation. apply NoDup_filter. by apply NoDup_fmap_1 in Hk.
  - intros m. rewrite merge_sort_Permutation, list_elem_of_filter, lookup_member by done.
    split; (intros [<- Hm]; split; [done|exact Hm]).
Qed.

(** *** Well-formedness, whatever statements fail *)

Lemma wf_add s id did now : wf s -> id ∈ n_ID <$> networks s -> wf (add_member id did now s).
Proof.
  intros Hw Hin. pose proof Hw as [Hi Hn Hk Hr]. unfold add_member, is_member. case_bool_decide as Hm; [done|].
  split; simpl; [done|done| |].
  - rewrite fmap_app. apply NoDup_app. split; [done|]. split; [|by apply NoDup_singleton].
    intros k Hk1 Hk2. simpl in Hk2. apply list_elem_of_singleton in Hk2 as ->. done.
  - intros m [Hm'| ->%list_elem_of_singleton]%elem_of_app; [by apply Hr|done].
Qed.

Lemma wf_insert s n :
  wf s -> n_ID n ∉ n_ID <$> networks s -> n_Name n ∉ n_Name <$> networks s ->
  wf (mkNetDB (networks s ++ [n]) (members s)).
Proof.
  intros [Hi Hn Hk Hr] Hid Hname.
  assert (Hsnoc : forall (f : Network -> string), NoDup (f <$> networks s) -> f n ∉ f <$> networks s ->
    NoDup (f <$> (networks s ++ [n])%list)).
  { intros f Hf Hni. rewrite fmap_app. apply NoDup_app. split; [done|]. split; [|apply NoDup_singleton].
    intros x Hx Hx2. simpl in Hx2. apply list_elem_of_singleton in Hx2 as ->. done. }
  split; simpl; [by apply Hsnoc|by apply Hsnoc|done|].
  intros m Hm. rewrite fmap_app. apply elem_of_app. left. by apply Hr.
Qed.

Lemma wf_leave s id did : wf s -> wf (mkNetDB (networks s) (filter (fun m => key m <> (id, did)) (members s))).
Proof.
  intros [Hi Hn Hk Hr]. split; simpl; [done|done| |].
  - eapply sublist_NoDup; [exact Hk|]. apply fmap_sublist, sublist_filter.
  - intros m [_ Hm]%list_elem_of_filter. by apply Hr.
Qed.

Lemma get_in id : hoare wf (get id) (fun r s => wf s /\ (is_ok r = true -> id ∈ n_ID <$> networks s)).
Proof.
  intros w Hw. unfold get, find_network, catch.
  destruct (query _ w) as [[n|e|] w1] eqn:E; simpl.
  - apply query_ok in E as [E ->]. destruct (List.find _ (networks (db w))) as [x|] eqn:F; [|discriminate].
    injection E as ->. apply find_some in F as [Hin Hid]. apply String.eqb_eq in Hid as <-.
    split; [done|]. intros _. apply list_elem_of_fmap. exists n. split; [done|]. by apply list_elem_of_In.
  - apply query_err in E as [_ ->]. done.
  - assert (db w1 = db w) as -> by (pose proof (query_db (fun s => match List.find (fun n => String.eqb (n_ID n) id) (networks s)
      with Some n => Ok n | None => Err ErrNoRows end) w) as Q; by rewrite E in Q). done.
Qed.

Lemma call_preserves o : preserves wf (call o).
Proof.
  destruct o as [uuid now name did|now id did|id did|id|name|did|id|id did]; simpl;
    (apply preserves_bind; [|intros; apply preserves_ret]).
  - unfold create. apply (hoare_bind _ (fun _ s => wf s /\ uuid ∈ n_ID <$> networks s)).
    + intros w Hw. unfold insert_network, stmt.
      destruct (faults w) as [|[] fs]; [|done|];
        (destruct (bool_decide _ || bool_decide _) eqn:B; simpl; [done|];
         apply orb_false_iff in B as [B1%bool_decide_eq_false B2%bool_decide_eq_false]; simpl in *;
         split; [by apply wf_insert|]; rewrite fmap_app; apply elem_of_app; right; by left).
    + intros []. apply (hoare_bind _ (fun _ s => wf s)).
      * intros w [Hw Hin]. unfold addMember, exec, stmt. destruct (faults w) as [|[] fs]; simpl; [|done|]; by apply wf_add.
      * intros []. intros w Hw. by apply (get_in uuid w).
  - unfold join. apply (hoare_bind _ (fun _ s => wf s /\ id ∈ n_ID <$> networks s)).
    + intros w Hw. destruct (get_in id w Hw) as [Hw1 Hin]. destruct (get id w) as [[n|e|] w1]; simpl in *; auto.
    + intros n w [Hw Hin]. unfold addMember, exec, stmt. destruct (faults w) as [|[] fs]; simpl; [|done|]; by apply wf_add.
  - apply preserves_exec. intros s. apply wf_leave.
  - intros w Hw. by apply (get_in id w).
  - unfold getByName, find_network. go_preserves.
  - apply preserves_query.
  - apply preserves_query.
  - apply preserves_query.
Qed.

Fixpoint calls (ops : list op) (w : world NetDB) : list (outcome reply) * world NetDB :=
  match ops with
  | [] => ([], w)
  | o :: rest => let '(r, w1) := call o w in let '(rs, w2) := calls rest w1 in (r :: rs, w2)
  end.

(** *** Refinement *)

Lemma abs_add s id did now :
  abs (add_member id did now s) = mkSpec (sp_nets (abs s)) (spec_join id did now (sp_members (abs s))).
Proof.
  unfold add_member, spec_join. rewrite is_member_spec.
  destruct (sp_members (abs s) !! (id, did)) as [t|] eqn:E; [done|]. unfold abs. simpl. f_equal.
  rewrite fmap_app, list_to_map_app. simpl. rewrite insert_empty, map_union_comm;
    [by rewrite insert_union_singleton_l|]. by apply map_disjoint_singleton_r.
Qed.

Lemma abs_insert s n : n_ID n ∉ n_ID <$> networks s ->
  abs (mkNetDB (networks s ++ [n]) (members s)) = mkSpec (<[n_ID n := n]> (sp_nets (abs s))) (sp_members (abs s)).
Proof.
  intros Hn. unfold abs. simpl. f_equal. rewrite fmap_app, list_to_map_app. simpl.
  rewrite insert_empty, map_union_comm; [by rewrite insert_union_singleton_l|].
  apply map_disjoint_singleton_r. apply not_elem_of_list_to_map. by rewrite <- list_fmap_compose.
Qed.

Lemma abs_leave s id did :
  abs (mkNetDB (networks s) (filter (fun m => key m <> (id, did)) (members s))) =
  mkSpec (sp_nets (abs s)) (delete (id, did) (sp_members (abs s))).
Proof.
  unfold abs. cbn [sp_nets sp_members networks members]. f_equal.
  induction (members s) as [|m l IH]; [symmetry; apply delete_empty|].
  rewrite filter_cons, fmap_cons. destruct (decide (key m <> (id, did))) as [Hk|Hk];
    rewrite ?fmap_cons; cbn [list_to_map foldr fst snd curry uncurry].
  - etrans; [|symmetry; by apply delete_insert_ne]. f_equal. exact IH.
  - apply dec_stable in Hk. rewrite Hk. etrans; [exact IH|]. symmetry. apply delete_insert_eq.
Qed.

Lemma isMember_run s id did :
  isMember id did (World s []) = (Ok (bool_decide (is_Some (sp_members (abs s) !! (id, did)))), World s []).
Proof.
  rewrite <- is_member_spec. unfold isMember, is_member, query, stmt. simpl. do 2 f_equal.
  destruct (filter _ (members s)) as [|m l] eqn:E; symmetry.
  - apply bool_decide_eq_false. rewrite list_elem_of_fmap. intros (m & Hk & Hm).
    assert (Hf : m ∈ filter (fun x => key x = (id, did)) (members s)) by (by apply list_elem_of_filter).
    rewrite E in Hf. by apply not_elem_of_nil in Hf.
  - rewrite (proj2 (Z.ltb_lt _ _)) by (unfold llen; simpl; lia). apply bool_decide_eq_true.
    assert (Hf : m ∈ filter (fun x => key x = (id, did)) (members s)) by (rewrite E; by left).
    apply list_elem_of_filter in Hf as [<- Hm]. apply list_elem_of_fmap. by exists m.
Qed.

Lemma create_refines uuid now name did s : wf s ->
  exists r s', call (OpCreate uuid now name did) (World s []) = (r, World s' []) /\
    spec_step (OpCreate uuid now name did) (abs s) r (abs s').
Proof.
  intros Hw. pose proof Hw as [Hi Hn Hk Hr]. cbn [call spec_step]. unfold create, insert_network, bind.
  rewrite stmt_nofault. cbn [n_ID n_Name].
  destruct (bool_decide _ || bool_decide _) eqn:B.
  - do 2 eexists. split; [reflexivity|]. left. split; [|done].
    apply orb_true_iff in B as [B%bool_decide_eq_true|B%bool_decide_eq_true].
    + left. rewrite <- not_eq_None_Some. intros HN. by apply (abs_none s uuid Hi) in HN.
    + right. by apply (names_spec s name Hi).
  - apply orb_false_iff in B as [B1%bool_decide_eq_false B2%bool_decide_eq_false].
    set (n := mkNetwork uuid name did now). set (s1 := mkNetDB (networks s ++ [n]) (members s)).
    assert (Hw1 : wf s1) by (by apply wf_insert).
    assert (Ha : abs (add_member uuid did now s1) =
      mkSpec (<[uuid := n]> (sp_nets (abs s))) (spec_join uuid did now (sp_members (abs s)))).
    { rewrite abs_add. unfold s1. by rewrite (abs_insert s n B1). }
    exists (Ok (RNet n)), (add_member uuid did now s1). split.
    + unfold addMember, exec. rewrite stmt_nofault. cbv beta iota zeta.
      change (mkNetDB (networks s ++ [mkNetwork uuid name did now]) (members s)) with s1.
      rewrite (find_run (add_member uuid did now s1)), Ha.
      * cbn [sp_nets]. by rewrite lookup_insert_eq.
      * apply (wf_add s1 uuid did now Hw1), list_elem_of_fmap. exists n.
        split; [done|]. apply elem_of_app. right. by left.
    + right. split; [by apply abs_none|]. split; [by rewrite names_spec|]. by split.
Qed.

Lemma call_refines o s : wf s ->
  exists r s', call o (World s []) = (r, World s' []) /\ spec_step o (abs s) r (abs s').
Proof.
  intros Hw. pose proof Hw as [Hi Hn Hk Hr].
  destruct o as [uuid now name did|now id did|id did|id|name|did|id|id did]; [by apply create_refines|..];
    cbn [call spec_step]; unfold bind.
  - unfold join, bind. rewrite find_run by done. destruct (sp_nets (abs s) !! id) as [n|] eqn:E.
    + do 2 eexists. split; [reflexivity|]. left. split; [by eexists|]. split; [done|]. apply abs_add.
    + do 2 eexists. split; [reflexivity|]. by right.
  - do 2 eexists. split; [reflexivity|]. split; [done|]. apply abs_leave.
  - rewrite find_run by done.
    destruct (sp_nets (abs s) !! id); do 2 eexists; (split; [reflexivity|by split]).
  - destruct (find_name_run s name Hi) as (r & -> & [(n & ? & ? & ->)|[? ->]]);
      do 2 eexists; (split; [reflexivity|]); (split; [done|]); [left; by exists n|right; by split].
  - destruct (list_networks_exact did s Hi) as (l & -> & ?). do 2 eexists. split; [reflexivity|].
    split; [done|]. by exists l.
  - destruct (list_members_exact id s Hk) as (l & -> & ?). do 2 eexists. split; [reflexivity|].
    split; [done|]. by exists l.
  - rewrite isMember_run. by do 2 eexists.
Qed.

Lemma calls_refine ops s : wf s ->
  exists rs s', calls ops (World s []) = (rs, World s' []) /\ spec_run ops (abs s) rs (abs s').
Proof.
  revert s. induction ops as [|o ops IH]; intros s Hw; simpl; [do 2 eexists; split; [reflexivity|constructor]|].
  destruct (call_refines o s Hw) as (r & s1 & Hc & Ha). pose proof (call_preserves o (World s []) Hw) as Hw1.
  rewrite Hc in *. destruct (IH s1 Hw1) as (rs & s2 & -> & Hr). do 2 eexists. split; [reflexivity|].
  by econstructor.
Qed.

Lemma wf_empty : wf empty_db.
Proof. split; [apply NoDup_nil_2..|]. intros m Hm. by apply not_elem_of_nil in Hm. Qed.

Lemma calls_wf ops w : wf (db w) -> wf (db (snd (calls ops w))).
Proof.
  revert w. induction ops as [|o ops IH]; intros w Hw; simpl; [done|].
  pose proof (call_preserves o w Hw) as H1. destruct (call o w) as [r w1]. specialize (IH w1 H1).
  by destruct (calls ops w1).
Qed.

(** C17: The network store implements its specification: on a database that does not
    fail every sequence of its calls (Create, Join, Leave, Get, GetByName, List,
    Members, IsMember) is answered as the specification allows, with networks as an
    id, a unique name and the members with the time each joined, the listings exact,
    without repetition and in the order asked for, and ends in a state that stands for
    the specification's; and under any failures ids, names and memberships stay unique
    and every membership is of an existing network. *)
Theorem network_refines ops fs :
  (exists rs s', calls ops (World empty_db []) = (rs, World s' []) /\
     spec_run ops (mkSpec ∅ ∅) rs (abs s')) /\
  wf (db (snd (calls ops (World empty_db fs)))).
Proof.
  split.
  - by apply (calls_refine ops empty_db), wf_empty.
  - apply calls_wf, wf_empty.
Qed.

(** A creation that fails after its first statement: the network is there without a
    member, and its name is taken for good. *)
Lemma create_orphans uuid now name did uuid2 did2 :
  let w := snd (create uuid now name did (World empty_db [false; true])) in
  fst (create uuid now name did (World empty_db [false; true])) = Err ErrIO /\
  members (db w) = [] /\ fst (create uuid2 now name did2 w) = Err ErrUnique.
Proof.
  simpl. split; [done|]. split; [done|].
  unfold create, insert_network, bind, stmt. simpl. by rewrite (bool_decide_eq_true_2 (name ∈ [name])), orb_true_r by (by left).
Qed.
End StoreFacts.

(** ** Broadcasts *)

Section BroadcastFacts.
Context `{PubSubLaws}.
Import Store Networks.

Lemma as_member_ok {A} id did (m : M Manager A) w a w' :
  as_member id did m w = (Ok a, w') ->
  exists w1, m w1 = (Ok a, w') /\ db w1 = db w /\ is_Some (sp_members (abs (store (db w))) !! (id, did)).
Proof.
  unfold as_member, bind at 1. destruct (on_store _ w) as [[b|e|] w1] eqn:E; [|discriminate..].
  apply zoom_ok in E as (w2 & E & Hdb & _). apply query_ok in E as [E Hs]. simpl in *. injection E as E.
  destruct b; [|discriminate]. intros Hm. exists w1. split; [done|].
  assert (Hx : db w1 = db w) by (rewrite Hdb, Hs; by destruct (db w)). split; [done|].
  pose proof (isMember_run (store (db w)) id did) as R. unfold isMember, query, stmt in R. simpl in R.
  rewrite E in R. injection R as R. symmetry in R. by apply bool_decide_eq_true in R.
Qed.

(** Networks fall silent: when the subscription to a network's broadcasts that was the
    only use of its topic ends (an RPC client disconnects), no member on this daemon can
    broadcast to the network or subscribe to it again, whatever happens on other topics,
    until the daemon restarts. *)
Theorem broadcast_wedged g0 x cs hs id did t s x1 fs fs1 g2 hs2 cs2 db2 did2 data fs2 :
  Gossip.topics g0 = ∅ -> Gossip.reached (g0, [], []) (publisher x, hs, cs) ->
  Gossip.topics (publisher x) !! BroadcastTopic id = None ->
  SubscribeBroadcast id did (World x fs) = (Ok (t, s), World x1 fs1) ->
  Gossip.reached (Gossip.unsubscribe (BroadcastTopic id) t s (publisher x1), hs, cs) (g2, hs2, cs2) ->
  fst (Broadcast id did2 data (World (mkManager db2 g2) fs2)) <> Ok tt /\
  (forall r, fst (SubscribeBroadcast id did2 (World (mkManager db2 g2) fs2)) <> Ok r).
Proof.
  intros Hempty Hr Hnone Hsub Hr2. unfold SubscribeBroadcast in Hsub.
  apply as_member_ok in Hsub as (w1 & Hsub & Hdb & _). unfold on_gossip in Hsub. rewrite Hdb in Hsub. simpl in Hsub.
  destruct (Gossip.subscribeTopic (BroadcastTopic id) (publisher x)) as [r g1] eqn:Hg. injection Hsub as -> <- _.
  destruct (topic_wedged _ _ _ _ _ _ _ _ _ _ _ data Hempty Hr Hnone Hg Hr2) as [Hpub Hno]. split.
  - intros E. destruct (Broadcast _ _ _ _) as [r w2] eqn:Hb. simpl in E. subst r.
    apply as_member_ok in Hb as (w3 & Hb & Hdb3 & _). unfold on_gossip in Hb. rewrite Hdb3 in Hb. simpl in Hb.
    unfold Publish in Hb. destruct (Rpc.validateTopicAndPayload _ data); [discriminate|].
    destruct (Gossip.publishRaw _ data g2) as [r g3]. injection Hb as -> _. by apply Hpub.
  - intros y E. destruct (SubscribeBroadcast _ _ _) as [r w2] eqn:Hb. simpl in E. subst r.
    apply as_member_ok in Hb as (w3 & Hb & Hdb3 & _). unfold on_gossip in Hb. rewrite Hdb3 in Hb. simpl in Hb.
    destruct (Gossip.subscribeTopic _ g2) as [r g3]. injection Hb as -> _. by apply (Hno y).
Qed.
End BroadcastFacts.

(** ** A network of one *)

Import Store Networks.

Definition one_net : NetDB := mkNetDB [mkNetwork "n" "team" "did:a" 1] [mkMember "n" "did:a" 1].
Definition lone_node : Manager := mkManager one_net lone.
Definition subscribed : outcome (nat * nat) * world Manager := SubscribeBroadcast "n" "did:a" (World lone_node []).

(** The member can broadcast before, not after. *)
Lemma broadcast_wedged_witness :
  is_ok (fst (Broadcast "n" "did:a" "hello" (World lone_node []))) = true /\
  fst (Broadcast "n" "did:a" "hello" (World (mkManager one_net
    (Gossip.unsubscribe (BroadcastTopic "n") 0 0 (publisher (db (snd subscribed))))) [])) <> Ok tt.
Proof.
  split; [vm_compute; reflexivity|].
  refine (proj1 (broadcast_wedged lone lone_node [] [] "n" "did:a" 0 0 (db (snd subscribed)) [] []
    _ [] [] one_net "did:a" "hello" [] eq_refl (Gossip.reached_refl _) eq_refl _ (Gossip.reached_refl _))).
  vm_compute. reflexivity.
Defined.
