(* ===== verification/Webhook.v ===== *)
(** * Webhooks ([daemon/webhook/webhook.go])

    The dispatcher that posts events to the URL an owner configured: which URLs it
    takes, whose URL and secret an event is posted with, and how often it tries.  URL
    parsing, name resolution and the HTTP client are arguments; addresses are the byte
    lists of [net.IP] and their classes are written out. *)

From stdpp Require Import base gmap strings list.
From Stdlib Require Import ZArith Lia Ascii.
From S2P Require Import Prelude GoStd.

Local Open Scope string_scope.
Local Open Scope Z_scope.

Module Webhook.

(** ** Addresses ([net.IP]) *)

Definition IP : Type := list Z.

(** [To4]: four bytes, or sixteen that map them into IPv6. *)
Definition To4 (ip : IP) : option (Z * Z * Z * Z) :=
  match ip with
  | [a; b; c; d] => Some (a, b, c, d)
  | [0; 0; 0; 0; 0; 0; 0; 0; 0; 0; 255; 255; a; b; c; d] => Some (a, b, c, d)
  | _ => None
  end.

Definition is_v6 (ip : IP) : bool := (length ip =? 16)%nat.
Definition nth_byte (n : nat) (ip : IP) : Z := nth n ip 0.

Definition IsLoopback (ip : IP) : bool :=
  match To4 ip with
  | Some (a, _, _, _) => a =? 127
  | None => bool_decide (ip = [0; 0; 0; 0; 0; 0; 0; 0; 0; 0; 0; 0; 0; 0; 0; 1])
  end.

Definition IsPrivate (ip : IP) : bool :=
  match To4 ip with
  | Some (a, b, _, _) => (a =? 10) || ((a =? 172) && (Z.land b 240 =? 16)) || ((a =? 192) && (b =? 168))
  | None => is_v6 ip && (Z.land (nth_byte 0 ip) 254 =? 252)
  end.

Definition IsLinkLocalUnicast (ip : IP) : bool :=
  match To4 ip with
  | Some (a, b, _, _) => (a =? 169) && (b =? 254)
  | None => is_v6 ip && (nth_byte 0 ip =? 254) && (Z.land (nth_byte 1 ip) 192 =? 128)
  end.

Definition IsLinkLocalMulticast (ip : IP) : bool :=
  match To4 ip with
  | Some (a, b, c, _) => (a =? 224) && (b =? 0) && (c =? 0)
  | None => is_v6 ip && (nth_byte 0 ip =? 255) && (Z.land (nth_byte 1 ip) 15 =? 2)
  end.

(** [ip.Equal(net.ParseIP("169.254.169.254"))]. *)
Definition is_metadata (ip : IP) : bool := bool_decide (To4 ip = Some (169, 254, 169, 254)).

Definition internal (ip : IP) : bool :=
  IsLoopback ip || IsPrivate ip || IsLinkLocalUnicast ip || IsLinkLocalMulticast ip.

(** ** URLs *)

(** The loop over the addresses; [None] is one that [net.ParseIP] rejects. *)
Fixpoint check_ips (ips : list (option IP)) : outcome unit :=
  match ips with
  | [] => Ok tt
  | None :: rest => check_ips rest
  | Some ip :: rest =>
      if internal ip then Err (Errorf "host resolves to private/internal IP")
      else if is_metadata ip then Err (Errorf "host resolves to cloud metadata IP")
      else check_ips rest
  end.

(** [parse]: scheme and host name of the URL; [lookup]: the addresses of a host. *)
Definition validateWebhookURL (parse : string -> option (string * string)) (lookup : string -> option (list (option IP)))
    (rawURL : string) : outcome unit :=
  match parse rawURL with
  | None => Err (Errorf "parse URL")
  | Some (scheme, host) =>
      if negb (String.eqb scheme "https") && negb (String.eqb scheme "http")
      then Err (Errorf "scheme not allowed, use http or https") else
      if String.eqb (lower host) "localhost" || String.eqb (lower host) "metadata.google.internal"
      then Err (Errorf "host is not allowed") else
      match lookup host with
      | None => Err (Errorf "resolve host")
      | Some ips => check_ips ips
      end
  end.

(** ** The dispatcher *)

Record config : Type := mkConfig { c_url : string; c_secret : string }.

(** [url] and [secret] mirror the configuration of the owner with the empty name. *)
Record Dispatcher : Type := mkDispatcher { configs : gmap string config; url : string; secret : string }.

Definition New : Dispatcher := mkDispatcher ∅ "" "".

Definition set (parse : string -> option (string * string)) (lookup : string -> option (list (option IP)))
    (owner rawURL sec : string) (d : Dispatcher) : outcome unit * Dispatcher :=
  match validateWebhookURL parse lookup rawURL with
  | Ok _ =>
      let m := <[owner := mkConfig rawURL sec]> (configs d) in
      (Ok tt, if String.eqb owner "" then mkDispatcher m rawURL sec else mkDispatcher m (url d) (secret d))
  | Err _ => (Err (Errorf "invalid webhook URL"), d)
  | Panic => (Panic, d)
  end.

Definition clear (owner : string) (d : Dispatcher) : Dispatcher :=
  let m := delete owner (configs d) in
  if String.eqb owner "" then mkDispatcher m "" "" else mkDispatcher m (url d) (secret d).

Definition currentURL (owner : string) (d : Dispatcher) : string :=
  match configs d !! owner with
  | Some cfg => c_url cfg
  | None => if String.eqb owner "" then url d else ""
  end.

(** A POST request: URL, the event header, the secret header when it is set, body. *)
Record Request : Type := mkRequest { rq_url : string; rq_event : string; rq_secret : option string; rq_body : string }.

Definition maxRetries : nat := 3.
Definition retryBaseWait : Z := 500.

Definition success (r : outcome Z) : bool :=
  match r with Ok code => (200 <=? code) && (code <? 300) | _ => false end.

(** [post n]: the status of the n-th attempt.  Returned are the requests with the wait
    before each, in milliseconds, and whether one was answered with success. *)
Fixpoint deliver_loop (post : nat -> outcome Z) (req : Request) (left attempt : nat) (wait : Z)
    : list (Z * Request) * bool :=
  match left with
  | O => ([], false)
  | S left' =>
      let before := match attempt with O => 0 | S _ => wait end in
      if success (post attempt) then ([(before, req)], true) else
      let '(rest, ok) := deliver_loop post req left' (S attempt) (match attempt with O => wait | S _ => wait * 2 end) in
      ((before, req) :: rest, ok)
  end.

(** [body]: the JSON of the event, [None] when it cannot be encoded; [requestable]:
    whether [http.NewRequest] accepts the URL. *)
Definition deliver (post : nat -> outcome Z) (requestable : string -> bool) (u sec kind : string) (body : option string)
    : list (Z * Request) * bool :=
  match body with
  | None => ([], false)
  | Some b =>
      if negb (requestable u) then ([], false) else
      deliver_loop post (mkRequest u kind (if String.eqb sec "" then None else Some sec) b) maxRetries 0 retryBaseWait
  end.

Definition send (post : nat -> outcome Z) (requestable : string -> bool) (owner kind : string) (body : option string)
    (d : Dispatcher) : list (Z * Request) * bool :=
  let '(u, sec) := match configs d !! owner with
                   | Some cfg => (c_url cfg, c_secret cfg)
                   | None => if String.eqb owner "" then (url d, secret d) else ("", "")
                   end in
  if String.eqb u "" then ([], false) else deliver post requestable u sec kind body.

End Webhook.

Import Webhook.

(** ** Addresses *)

(** An IPv4 address as a number, and membership in a block of addresses. *)
Definition v4 (a b c d : Z) : Z := ((a * 256 + b) * 256 + c) * 256 + d.
Definition in_block (base bits n : Z) : Prop := n / 2 ^ (32 - bits) = base / 2 ^ (32 - bits).

Definition byte (z : Z) : Prop := 0 <= z < 256.

Lemma land_240 b : byte b -> Z.land b 240 = 16 <-> 16 <= b < 32.
Proof.
  intros Hb. unfold byte in Hb.
  assert (H : forallb (fun n => Bool.eqb (Z.land (Z.of_nat n) 240 =? 16) ((16 <=? Z.of_nat n) && (Z.of_nat n <? 32))) (seq 0 256) = true)
    by (vm_compute; reflexivity).
  rewrite forallb_forall in H. specialize (H (Z.to_nat b)). rewrite Z2Nat.id in H by lia.
  apply Bool.eqb_prop in H; [|apply in_seq; lia]. rewrite <- Z.eqb_eq, H, andb_true_iff, Z.leb_le, Z.ltb_lt. done.
Qed.

Section Blocks.
Context (a b c d : Z) (Ha : byte a) (Hb : byte b) (Hc : byte c) (Hd : byte d).

(** The leading bytes of an address, by division. *)
Lemma v4_div24 : v4 a b c d / 256 = (a * 256 + b) * 256 + c.
Proof. unfold v4, byte in *. rewrite Z.div_add_l by lia. rewrite (Z.div_small d) by lia. lia. Qed.

Lemma v4_div16 : v4 a b c d / 65536 = a * 256 + b.
Proof.
  unfold byte in *. change 65536 with (256 * 256). rewrite <- Z.div_div, v4_div24 by lia.
  rewrite Z.div_add_l by lia. rewrite (Z.div_small c) by lia. lia.
Qed.

Lemma v4_div8 : v4 a b c d / 16777216 = a.
Proof.
  unfold byte in *. change 16777216 with (65536 * 256). rewrite <- Z.div_div, v4_div16 by lia.
  rewrite Z.div_add_l by lia. rewrite (Z.div_small b) by lia. lia.
Qed.

Lemma v4_div12 : v4 a b c d / 1048576 = a * 16 + b / 16.
Proof.
  unfold byte in *. change 1048576 with (65536 * 16). rewrite <- Z.div_div, v4_div16 by lia.
  replace (a * 256 + b) with (a * 16 * 16 + b) by lia. by rewrite Z.div_add_l by lia.
Qed.

Lemma block8 x : in_block (v4 x 0 0 0) 8 (v4 a b c d) <-> a = x.
Proof.
  unfold in_block. change (2 ^ (32 - 8)) with 16777216. rewrite v4_div8.
  replace (v4 x 0 0 0) with (x * 16777216) by (unfold v4; lia). by rewrite Z.div_mul by lia.
Qed.

Lemma block16 x y : byte y -> in_block (v4 x y 0 0) 16 (v4 a b c d) <-> a = x /\ b = y.
Proof.
  intros Hy. unfold in_block. change (2 ^ (32 - 16)) with 65536. rewrite v4_div16.
  replace (v4 x y 0 0) with ((x * 256 + y) * 65536) by (unfold v4; lia). rewrite Z.div_mul by lia.
  unfold byte in *. lia.
Qed.

Lemma block24 x : in_block (v4 x 0 0 0) 24 (v4 a b c d) <-> a = x /\ b = 0 /\ c = 0.
Proof.
  unfold in_block. change (2 ^ (32 - 24)) with 256. rewrite v4_div24.
  replace (v4 x 0 0 0) with (x * 65536 * 256) by (unfold v4; lia). rewrite Z.div_mul by lia.
  unfold byte in *. lia.
Qed.

Lemma block12 : in_block (v4 172 16 0 0) 12 (v4 a b c d) <-> a = 172 /\ 16 <= b < 32.
Proof.
  unfold in_block. change (2 ^ (32 - 12)) with 1048576. rewrite v4_div12. change (v4 172 16 0 0 / 1048576) with 2753.
  unfold byte in *. pose proof (Z.div_mod b 16 ltac:(lia)). pose proof (Z.mod_pos_bound b 16 ltac:(lia)). lia.
Qed.
End Blocks.

(** The addresses the dispatcher refuses are the loopback, private (RFC 1918),
    link-local and local multicast blocks. *)
Lemma internal_v4 ip a b c d : To4 ip = Some (a, b, c, d) -> byte a -> byte b -> byte c -> byte d ->
  internal ip = true <->
    in_block (v4 127 0 0 0) 8 (v4 a b c d) \/ in_block (v4 10 0 0 0) 8 (v4 a b c d) \/
    in_block (v4 172 16 0 0) 12 (v4 a b c d) \/ in_block (v4 192 168 0 0) 16 (v4 a b c d) \/
    in_block (v4 169 254 0 0) 16 (v4 a b c d) \/ in_block (v4 224 0 0 0) 24 (v4 a b c d).
Proof.
  intros H4 Ha Hb Hc Hd. unfold internal, IsLoopback, IsPrivate, IsLinkLocalUnicast, IsLinkLocalMulticast. rewrite H4.
  rewrite !orb_true_iff, !andb_true_iff, !Z.eqb_eq, (land_240 b Hb).
  rewrite !block8, !block16, block24, block12 by (done || unfold byte; lia). tauto.
Qed.

(** The address that means this host is not among them. *)
Example unspecified_accepted parse :
  parse "http://0.0.0.0:8080/" = Some ("http", "0.0.0.0") ->
  validateWebhookURL parse (fun _ => Some [Some [0; 0; 0; 0]]) "http://0.0.0.0:8080/" = Ok tt.
Proof. intros E. unfold validateWebhookURL. rewrite E. reflexivity. Qed.

Lemma check_ips_ok ips : check_ips ips = Ok tt ->
  Forall (fun o => match o with Some ip => internal ip = false /\ is_metadata ip = false | None => True end) ips.
Proof.
  induction ips as [|[ip|] ips IH]; simpl; [by constructor| |by constructor; auto].
  destruct (internal ip) eqn:Hi; [discriminate|]. destruct (is_metadata ip) eqn:Hm; [discriminate|]. constructor; auto.
Qed.

(** ** Owners *)

Inductive op : Type :=
| OpSet (parse : string -> option (string * string)) (lookup : string -> option (list (option IP)))
    (owner rawURL sec : string)
| OpClear (owner : string).

Definition run_op (o : op) (d : Dispatcher) : Dispatcher :=
  match o with
  | OpSet parse lookup owner rawURL sec => snd (set parse lookup owner rawURL sec d)
  | OpClear owner => clear owner d
  end.

(** What an owner has configured: the last URL it set that was accepted, unless it
    cleared it since. *)
Definition configure (owner : string) (o : op) (cur : option config) : option config :=
  match o with
  | OpSet parse lookup o' rawURL sec =>
      if String.eqb o' owner && is_ok (validateWebhookURL parse lookup rawURL) then Some (mkConfig rawURL sec) else cur
  | OpClear o' => if String.eqb o' owner then None else cur
  end.

Definition run_ops (ops : list op) : Dispatcher := fold_left (fun d o => run_op o d) ops New.
Definition configured (owner : string) (ops : list op) : option config :=
  fold_left (fun c o => configure owner o c) ops None.

(** The table says what is configured, and the mirror repeats the default owner's. *)
Definition agrees (d : Dispatcher) (spec : string -> option config) : Prop :=
  (forall owner, configs d !! owner = spec owner) /\
  (url d, secret d) = match spec "" with Some c => (c_url c, c_secret c) | None => ("", "") end.

Lemma run_op_agrees o d spec : agrees d spec -> agrees (run_op o d) (fun owner => configure owner o (spec owner)).
Proof.
  intros [Hc Hm]. destruct o as [parse lookup o rawURL sec|o]; simpl.
  - unfold set. destruct (validateWebhookURL parse lookup rawURL) as [[]|e|]; simpl;
      [|split; simpl; [intros owner|]; by rewrite andb_false_r..].
    split; simpl.
    + intros owner. rewrite andb_true_r. destruct (String.eqb_spec o ""); simpl;
        (destruct (String.eqb_spec o owner) as [->|?]; [by rewrite lookup_insert_eq|by rewrite lookup_insert_ne]).
    + rewrite andb_true_r. by destruct (String.eqb o "").
  - unfold clear. split; simpl.
    + intros owner. destruct (String.eqb_spec o ""); simpl;
        (destruct (String.eqb_spec o owner) as [->|?]; [by rewrite lookup_delete_eq|by rewrite lookup_delete_ne]).
    + by destruct (String.eqb o "").
Qed.

Lemma run_ops_agree ops : agrees (run_ops ops) (fun owner => configured owner ops).
Proof.
  unfold run_ops, configured. induction ops as [|o ops IH] using rev_ind; [by split|].
  rewrite fold_left_app. simpl. pose proof (run_op_agrees o _ _ IH) as [Hc Hm].
  split; [intros owner|]; rewrite fold_left_app; simpl; [apply Hc|apply Hm].
Qed.

Lemma configured_set owner ops c : configured owner ops = Some c ->
  exists parse lookup, OpSet parse lookup owner (c_url c) (c_secret c) ∈ ops /\
    validateWebhookURL parse lookup (c_url c) = Ok tt.
Proof.
  unfold configured. induction ops as [|o ops IH] using rev_ind; [discriminate|]. rewrite fold_left_app. simpl.
  assert (Hold : fold_left (fun c0 o0 => configure owner o0 c0) ops None = Some c ->
    exists parse lookup, OpSet parse lookup owner (c_url c) (c_secret c) ∈ (ops ++ [o])%list /\
      validateWebhookURL parse lookup (c_url c) = Ok tt).
  { intros E. destruct (IH E) as (p & l & Hin & Hv). exists p, l. split; [|done]. apply elem_of_app. by left. }
  destruct o as [parse lookup o rawURL sec|o]; simpl.
  - destruct (String.eqb_spec o owner) as [->|_]; simpl; [|exact Hold].
    destruct (validateWebhookURL parse lookup rawURL) as [[]|e|] eqn:Hv; simpl; [|exact Hold..].
    intros [= <-]. exists parse, lookup. split; [|done]. apply elem_of_app. right. by left.
  - destruct (String.eqb o owner); [discriminate|exact Hold].
Qed.

Lemma deliver_loop_requests post req left attempt wait w r :
  (w, r) ∈ fst (deliver_loop post req left attempt wait) -> r = req.
Proof.
  revert attempt wait. induction left as [|left IH]; intros attempt wait; simpl; [by intros ?%not_elem_of_nil|].
  destruct (success (post attempt)); simpl; [by intros [= _ ->]%list_elem_of_singleton|].
  specialize (IH (S attempt) (match attempt with O => wait | S _ => wait * 2 end)).
  destruct (deliver_loop _ _ _ _ _) as [rest ok]. simpl in *. intros [[= _ ->]|Hin]%elem_of_cons; [done|by apply IH].
Qed.

(** Owners are kept apart: after any settings and clearings by any owners, an owner
    sees the URL it set last, and every request made for it goes to that URL with the
    secret that came with it; the URL was set by that owner and passed the check then,
    and after a clearing nothing is posted. *)
Theorem webhook_isolation ops owner kind body post requestable :
  currentURL owner (run_ops ops) = default "" (c_url <$> configured owner ops) /\
  forall w r, (w, r) ∈ fst (send post requestable owner kind body (run_ops ops)) ->
    exists c parse lookup, configured owner ops = Some c /\ rq_url r = c_url c /\
      rq_secret r = (if String.eqb (c_secret c) "" then None else Some (c_secret c)) /\ rq_event r = kind /\
      OpSet parse lookup owner (c_url c) (c_secret c) ∈ ops /\ validateWebhookURL parse lookup (c_url c) = Ok tt.
Proof.
  pose proof (run_ops_agree ops) as [Hc Hm]. unfold currentURL, send. rewrite !Hc.
  destruct (configured owner ops) as [c|] eqn:Hconf; simpl.
  - split; [done|]. intros w r Hin. destruct (configured_set _ _ _ Hconf) as (parse & lookup & Hset & Hv).
    exists c, parse, lookup. split; [done|]. destruct (String.eqb (c_url c) ""); [by apply not_elem_of_nil in Hin|].
    unfold deliver in Hin. destruct body as [b|]; [|by apply not_elem_of_nil in Hin].
    destruct (negb (requestable (c_url c))); [by apply not_elem_of_nil in Hin|].
    apply deliver_loop_requests in Hin as ->. done.
  - destruct (String.eqb_spec owner "") as [->|_]; simpl.
    + rewrite Hconf in Hm. injection Hm as Hu Hs. rewrite Hu, Hs. simpl. split; [done|].
      intros w r Hin. by apply not_elem_of_nil in Hin.
    + split; [done|]. intros w r Hin. by apply not_elem_of_nil in Hin.
Qed.

(** Delivery is bounded: one to three identical requests are made, after waits of 0,
    500 and 1000 milliseconds; they stop at the first that is answered with success,
    and all three are made when none is. *)
Theorem webhook_attempts post requestable u sec kind b l ok :
  requestable u = true -> deliver post requestable u sec kind (Some b) = (l, ok) ->
  (1 <= length l <= 3)%nat /\ fst <$> l = take (length l) [0; 500; 1000] /\
  (forall p q, p ∈ l -> q ∈ l -> snd p = snd q) /\
  (forall i, (i < length l - 1)%nat -> success (post i) = false) /\
  (if ok then success (post (length l - 1)%nat) = true
   else length l = 3%nat /\ forall i, (i < 3)%nat -> success (post i) = false).
Proof.
  intros Hr. unfold deliver. rewrite Hr. simpl.
  destruct (success (post 0%nat)) eqn:H0; [|destruct (success (post 1%nat)) eqn:H1; [|destruct (success (post 2%nat)) eqn:H2]];
    intros [= <- <-]; simpl;
    (split; [lia|]; split; [reflexivity|]; split;
     [intros p q Hp Hq; repeat (apply elem_of_cons in Hp as [->|Hp]); try (by apply not_elem_of_nil in Hp);
      repeat (apply elem_of_cons in Hq as [->|Hq]); try (by apply not_elem_of_nil in Hq); done|]).
  - split; [intros i Hi; lia|done].
  - split; [intros [|i] Hi; [done|lia]|done].
  - split; [intros [|[|i]] Hi; [done|done|lia]|done].
  - split; [intros [|[|i]] Hi; [done|done|lia]|]. split; [done|]. intros [|[|[|i]]] Hi; [done..|lia].
Qed.

Lemma webhook_attempts_witness :
  let l := fst (deliver (fun n => match n with O => Ok 503 | 1%nat => Err ErrIO | _ => Ok 204 end) (fun _ => true)
    "https://example.org/hook" "s" "message" (Some "{}")) in
  length l = 3%nat /\ fst <$> l = take (length l) [0; 500; 1000].
Proof.
  set (d := deliver _ _ _ _ _ _).
  destruct (webhook_attempts (fun n => match n with O => Ok 503 | 1%nat => Err ErrIO | _ => Ok 204 end) (fun _ => true)
    "https://example.org/hook" "s" "message" "{}" (fst d) (snd d) eq_refl (surjective_pairing d)) as (_ & Hw & _).
  split; [reflexivity|exact Hw].
Defined.

(** Two owners; one of them clears its own URL, the other is still served. *)
Definition two_owners : list op :=
  let public := fun _ : string => Some [Some [93; 184; 215; 14]] in
  [OpSet (fun _ => Some ("https", "a.example")) public "did:a" "https://a.example/hook" "ka";
   OpSet (fun _ => Some ("https", "b.example")) public "did:b" "https://b.example/hook" "kb"; OpClear "did:b"].

Lemma webhook_isolation_witness :
  currentURL "did:a" (run_ops two_owners) = "https://a.example/hook" /\
  exists w r, (w, r) ∈ fst (send (fun _ => Ok 200) (fun _ => true) "did:a" "message" (Some "{}") (run_ops two_owners)) /\
    exists c, configured "did:a" two_owners = Some c /\ rq_url r = c_url c.
Proof.
  destruct (webhook_isolation two_owners "did:a" "message" (Some "{}") (fun _ => Ok 200) (fun _ => true)) as [Hu Hr].
  split; [exact Hu|]. exists 0, (mkRequest "https://a.example/hook" "message" (Some "ka") "{}").
  assert (Hin : (0, mkRequest "https://a.example/hook" "message" (Some "ka") "{}") ∈
    fst (send (fun _ => Ok 200) (fun _ => true) "did:a" "message" (Some "{}") (run_ops two_owners)))
    by (vm_compute; left).
  split; [exact Hin|]. destruct (Hr _ _ Hin) as (c & p & l & Hc & Hq & _). exists c. split; [exact Hc|exact Hq].
Defined.
