(* ===== verification/RpcExt.v ===== *)
(** * The other handlers of the RPC server

    Files ([server_files.go]), identity and registry ([server_registry.go]), the streams
    of messages ([server_messaging.go]), publish-subscribe, webhooks, networks and names
    ([ext.go]), over the components modelled in the files before.  What DHT, block
    exchange, name resolution and HTTP answer are arguments. *)

From stdpp Require Import base gmap strings list.
From Stdlib Require Import ZArith Lia Ascii.
From S2P Require Import Prelude GoStd Identity Session Mail ThreadStore Tasks Rpc ConsensusStore Membership Chain Records Manager Publisher Gossip Network Webhook.

Local Open Scope string_scope.
Local Open Scope Z_scope.
Local Open Scope go_scope.

(** [pb.Artifact] and [pb.FileChunk]. *)
Record FileArtifact : Type := mkFileArtifact {
  f_Cid : string; f_Name : string; f_MimeType : string; f_Size : Z; f_Inline : string; f_Uri : string }.
Record FileChunk : Type := mkChunk { k_Data : string; k_Offset : Z; k_Total : Z }.

(** A failed publication is reported in the result, not as an error. *)
Record PublishResult : Type := mkResult { pr_Success : bool; pr_Error : option error }.

Record NodeIdentity : Type := mkNodeId { ni_NodeId : string; ni_PeerId : string; ni_Multiaddrs : list string }.
Record NetworkInfo : Type := mkNetInfo { ni_Id : string; ni_Name : string; ni_CreatorDid : string; ni_CreatedAt : Z }.
Record NameClaimResponse : Type := mkNameResp { nr_Name : string; nr_Did : string; nr_PublishedAt : Z; nr_ExpiresAt : Z }.

Module RpcFiles.
Section RpcFiles.
Context `{Crypto} `{Codec} `{RecordCodec} `{ArchiveCodec}.

Definition fileChunkSize : Z := 32768.
Definition inlineMax : Z := 65536.

Record SendFileRequest : Type := mkSendFile { sf_Data : string; sf_Name : string; sf_MimeType : string }.

(** [hasNode], [hasBitswap]: which fields are set. *)
Definition SendFile (hasNode hasBitswap : bool) (req : SendFileRequest) : M Net FileArtifact :=
  guard! negb (slen (sf_Data req) =? 0) else Errorf "file data is empty" in
  guard! hasNode else Errorf "file storage not available (node not initialised)" in
  let c := Publisher.CIDv1Block (sf_Data req) in
  do! catch (Publisher.bs_Put c (sf_Data req)) (fun r =>
        match r with Ok _ => ret tt | _ => throw (Errorf "store block") end) in
  do! (if hasBitswap then log_err Publisher.NotifyNewBlocks else ret tt) in
  let size := slen (sf_Data req) in
  ret (if size <=? inlineMax
       then mkFileArtifact c (sf_Name req) (sf_MimeType req) size (sf_Data req) ""
       else mkFileArtifact c (sf_Name req) (sf_MimeType req) size "" ("ipfs://" ++ c)).

(** The chunks of [data] from [offset] on, [n] bounding their number. *)
Fixpoint chunks (n : nat) (data : string) (offset total : Z) : list FileChunk :=
  match n with
  | O => []
  | S n' =>
      if total <=? offset then [] else
      let size := Z.to_nat (Z.min fileChunkSize (total - offset)) in
      mkChunk (take_str size data) offset total
        :: chunks n' (drop_str size data) (offset + fileChunkSize) total
  end.

(** One iteration per chunk. *)
Definition chunk_count (data : string) : nat := Z.to_nat ((slen data + fileChunkSize - 1) / fileChunkSize).

(** [decode]: the CID a text stands for, in the text form of the block store; [fetch]:
    what Bitswap gets for a CID the block store does not have, after a connection to
    the provider was tried. *)
Definition FetchFile (hasNode : bool) (decode : string -> option string) (fetch : string -> outcome string)
    (send : FileChunk -> bool) (cid : string) : M Net (list FileChunk * bool) :=
  guard! negb (String.eqb cid "") else Errorf "cid is required" in
  guard! hasNode else Errorf "file storage not available (node not initialised)" in
  match decode cid with
  | None => throw (Errorf "invalid CID")
  | Some c =>
      let! data := catch (query (fun n => match bstore n !! c with Some d => Ok d | None => Err ErrNoRows end)) (fun r =>
        match r with
        | Ok d => ret d
        | _ => match fetch c with Ok d => ret d | Err _ => throw (Errorf "fetch block") | Panic => panic end
        end) in
      ret (stream_all send (chunks (chunk_count data) data 0 (slen data)))
  end.
End RpcFiles.
End RpcFiles.

Module RpcRegistry.
Section RpcRegistry.
Context `{Crypto} `{TaskCodec} `{ThreadManager} `{RecordCodec}.

(** The server's sessions and the registry. *)
Record State : Type := mkState { rpc : Rpc.Server; registry : Registry.Registry }.

Definition on_rpc {A} (m : M Rpc.Server A) : M State A := zoom rpc (fun s x => mkState s (registry x)) m.
Definition on_registry {A} (m : M Registry.Registry A) : M State A := zoom registry (fun r x => mkState (rpc x) r) m.

Definition GetNodeIdentity (peerID : option string) (addrs : list string) : M State NodeIdentity :=
  let! s := on_rpc Rpc.self in ret (mkNodeId (Rpc.did s) (default "" peerID) addrs).

Definition failed (e : error) : PublishResult := mkResult false (Some e).
Definition succeeded : PublishResult := mkResult true None.

(** Runs a publication and reports its error in the result. *)
Definition reported (m : M Registry.Registry unit) (k : M State PublishResult) : M State PublishResult :=
  catch (on_registry m) (fun r => match r with Ok _ => k | Err e => ret (failed e) | Panic => panic end).

(** [peerID]: this daemon's, when it has a host; [sk], [pub]: its key; [get]: the DHT.
    [clk]: readings of the clock. *)
Definition PublishAgentCard (c : Rpc.ctx) (clk : nat -> Z) (peerID : option string) (pub sk : string)
    (get : string -> option string) (card : AgentCard) : M State PublishResult :=
  let! owner := on_rpc (Rpc.scopedOwner (clk 0%nat) c) in
  if negb (String.eqb owner "") then
    if negb (String.eqb (a_Did card) owner)
    then ret (failed (Errorf "agent card DID must match authenticated session")) else
    if match peerID with Some p => negb (String.eqb (a_NodePeerId card) p) | None => false end
    then ret (failed (Errorf "agent card node peer ID must match this daemon")) else
    let! bound := on_rpc (Rpc.on_sessions (Session.IdentityOf (clk 1%nat) (Rpc.bearerToken c))) in
    if negb (String.eqb (a_EncryptionPublicKey card) (Session.EncryptionPublicKey bound))
    then ret (failed (Errorf "agent card encryption key must match authenticated session")) else
    reported (Registry.publishSigned (Tasks.UnixMilli (clk 2%nat)) get (default "" peerID) card) (ret succeeded)
  else
    let! s := on_rpc Rpc.self in
    reported (Registry.publish (Rpc.did s) pub sk (Tasks.UnixMilli (clk 2%nat)) (Tasks.UnixMilli (clk 3%nat)) card)
      (do! for_each (a_Skills card) (fun skill => log_err (on_registry (Registry.advertiseCapability (sk_Id skill)))) in
       ret succeeded).

Definition GetAgentCard (clk : nat -> Z) (get : string -> option string) (did : string) : outcome AgentCard :=
  match Registry.resolve get (Tasks.UnixMilli (clk 0%nat)) (Tasks.UnixMilli (clk 1%nat)) did with
  | Ok card => Ok card
  | Err _ => Err (Errorf "resolve")
  | Panic => Panic
  end.

(** [locals]: the cards published here, in the order the map is walked. *)
Definition FindAgents (clk : nat -> Z) (self : string) (get : string -> option string)
    (provs : Z -> list Registry.Provider) (locals : list (string * AgentCard)) (send : AgentCard -> bool)
    (capability : string) (limit : Z) (r : Registry.Registry) : outcome (list AgentCard * bool) :=
  let limit := if limit =? 0 then 10 else limit in
  match Registry.findByCapability r locals self get (Tasks.UnixMilli (clk 0%nat)) (Tasks.UnixMilli (clk 1%nat)) (provs limit) capability limit with
  | Ok cards => Ok (stream_all send cards)
  | Err e => Err e
  | Panic => Panic
  end.
End RpcRegistry.
End RpcRegistry.

Module RpcStreams.
Section RpcStreams.
Context `{Crypto} `{TaskCodec} `{ThreadManager}.
Import Rpc.

(** The live part of SubscribeInbox: what of the arrivals is sent on. *)
Definition wanted (threadID taskID : string) (m : Message) : bool :=
  (String.eqb threadID "" || String.eqb (m_ThreadId m) threadID)
  && (String.eqb taskID "" || String.eqb (m_TaskId m) taskID).

(** The stored messages are flushed, then the caller is subscribed; [between] is what
    happens in between.  The result is what was sent and the channel, if any. *)
Definition SubscribeInbox (c : ctx) (clk : nat -> Z) (send : Message -> bool) (between : Inbox.state -> Inbox.state)
    (threadID taskID : string) : M Server (list Message * option nat) :=
  let! owner := scopedOwner (clk 0%nat) c in
  let! msgs := on_inbox (Inbox.get owner threadID taskID false 100 0) in
  let '(sent, ok) := stream_all send msgs in
  if negb ok then ret (sent, None) else
  do! on_inbox (modify between) in
  let! ch := on_inbox (Inbox.subscribe owner) in
  ret (sent, Some ch).

(** One arrival on the channel: sent when it passes the filters. *)
Definition SubscribeInbox_next (ch : nat) (send : Message -> bool) (threadID taskID : string)
    : M Server (option Message * bool) :=
  let! m := on_inbox (Inbox.receive ch) in
  match m with
  | None => ret (None, true)
  | Some m => if wanted threadID taskID m then ret (if send m then (Some m, true) else (None, false)) else ret (None, true)
  end.

Definition status_of (s : string) : option Outbox.status :=
  if String.eqb s "" || String.eqb s "pending" then Some Outbox.pending
  else if String.eqb s "processing" then Some Outbox.processing
  else if String.eqb s "delivered" then Some Outbox.delivered
  else if String.eqb s "failed" then Some Outbox.failed
  else if String.eqb s "expired" then Some Outbox.expired
  else if String.eqb s "dead_letter" then Some Outbox.dead_letter
  else None.

(** No row has a status that is not one of these. *)
Definition GetOutbox (c : ctx) (clk : nat -> Z) (send : Message -> bool) (status : string) (limit : Z)
    : M Server (list Message * bool) :=
  let! owner := scopedOwner (clk 0%nat) c in
  match status_of status with
  | Some st => let! msgs := on_outbox (Outbox.list_messages owner st limit) in ret (stream_all send msgs)
  | None => do! on_outbox (query (fun _ => Ok tt)) in ret ([], true)
  end.
End RpcStreams.
End RpcStreams.

(** ** [ext.go] *)

Module RpcExt.
Section RpcExt.
Context `{Crypto} `{TaskCodec} `{ThreadManager} `{RecordCodec} `{Unicode} `{PubSub}.

(** The server, the networks with the gossip manager, webhooks and names.  The requests
    the webhook actor has made, by owner. *)
Record State : Type := mkState {
  rpc : Rpc.Server;
  networks : Networks.Manager;
  webhooks : Webhook.Dispatcher;
  nameReg : Names.Registry;
  posted : list (string * (Z * Webhook.Request)) }.

Definition on_rpc {A} (m : M Rpc.Server A) : M State A :=
  zoom rpc (fun s x => mkState s (networks x) (webhooks x) (nameReg x) (posted x)) m.
Definition on_networks {A} (m : M Networks.Manager A) : M State A :=
  zoom networks (fun n x => mkState (rpc x) n (webhooks x) (nameReg x) (posted x)) m.
Definition on_netstore {A} (m : M Store.NetDB A) : M State A := on_networks (Networks.on_store m).
Definition on_names {A} (m : M Names.Registry A) : M State A :=
  zoom nameReg (fun r x => mkState (rpc x) (networks x) (webhooks x) r (posted x)) m.
Definition on_webhooks {A} (f : Webhook.Dispatcher -> outcome A * Webhook.Dispatcher) : M State A := fun w =>
  let '(r, d) := f (webhooks (db w)) in
  (r, World (mkState (rpc (db w)) (networks (db w)) d (nameReg (db w)) (posted (db w))) (faults w)).

(** *** Publish and subscribe *)

Definition Publish (topic payload : string) : M State string :=
  guard! negb (String.eqb topic "") else Errorf "topic is required" in
  do! on_networks (Networks.on_gossip (Networks.Publish topic payload)) in
  ret topic.

(** A stream of a topic: [during] is what else happens on the gossip manager while it
    is open, [arrivals] the payloads read from its channel until the client goes away;
    then the goroutine's subscription ends.  The result is what was sent. *)
Definition topic_stream (subscribe : M State (nat * nat)) (topic : string) (send : string -> bool)
    (during : Gossip.Manager -> Gossip.Manager) (arrivals : list string) : M State (list string * bool) :=
  let! ts := subscribe in
  let result := stream_all send arrivals in
  do! on_networks (Networks.on_gossip (fun g => (Ok tt, Gossip.unsubscribe topic (fst ts) (snd ts) (during g)))) in
  ret result.

Definition SubscribeTopic (topic : string) (send : string -> bool) (during : Gossip.Manager -> Gossip.Manager)
    (arrivals : list string) : M State (list string * bool) :=
  guard! negb (String.eqb topic "") else Errorf "topic is required" in
  topic_stream (on_networks (Networks.on_gossip (Gossip.subscribeTopic topic))) topic send during arrivals.

(** *** Webhooks *)

Definition SetWebhook (c : Rpc.ctx) (clk : nat -> Z) (parse : string -> option (string * string))
    (lookup : string -> option (list (option Webhook.IP))) (url secret : string) : M State string :=
  guard! negb (String.eqb url "") else Errorf "url is required" in
  let! owner := on_rpc (Rpc.scopedOwner (clk 0%nat) c) in
  do! on_webhooks (Webhook.set parse lookup owner url secret) in
  ret url.

Definition ClearWebhook (c : Rpc.ctx) (clk : nat -> Z) : M State unit :=
  let! owner := on_rpc (Rpc.scopedOwner (clk 0%nat) c) in
  on_webhooks (fun d => (Ok tt, Webhook.clear owner d)).

Definition GetWebhook (c : Rpc.ctx) (clk : nat -> Z) : M State string :=
  let! owner := on_rpc (Rpc.scopedOwner (clk 0%nat) c) in
  on_webhooks (fun d => (Ok (Webhook.currentURL owner d), d)).

(** [SendForOwner]: the webhook actor delivers the event. *)
Definition SendForOwner (post : nat -> outcome Z) (requestable : string -> bool) (owner kind : string)
    (body : option string) : M State unit := fun w =>
  let s := db w in
  let reqs := fst (Webhook.send post requestable owner kind body (webhooks s)) in
  (Ok tt, World (mkState (rpc s) (networks s) (webhooks s) (nameReg s) (posted s ++ ((fun r => (owner, r)) <$> reqs)))
             (faults w)).

(** [WebhookMessage] of server_messaging.go. *)
Definition WebhookMessage (post : nat -> outcome Z) (requestable : string -> bool) (json : Message -> option string)
    (msg : Message) : M State unit :=
  SendForOwner post requestable (m_ToDid msg) "message" (json msg).

(** *** Networks *)

Definition networkToProto (n : Network) : NetworkInfo :=
  mkNetInfo (n_ID n) (n_Name n) (n_CreatorDID n) (n_CreatedAt n).

(** The handlers act for the daemon, whoever calls. *)
Definition CreateNetwork (uuid : string) (now : Z) (name : string) : M State NetworkInfo :=
  guard! negb (String.eqb name "") else Errorf "name is required" in
  let! s := on_rpc Rpc.self in
  let! n := on_netstore (Store.create uuid now name (Rpc.did s)) in
  ret (networkToProto n).

Definition JoinNetwork (now : Z) (networkID : string) : M State NetworkInfo :=
  guard! negb (String.eqb networkID "") else Errorf "network_id is required" in
  let! s := on_rpc Rpc.self in
  do! on_netstore (Store.join now networkID (Rpc.did s)) in
  let! n := on_netstore (Store.get networkID) in
  ret (networkToProto n).

Definition LeaveNetwork (networkID : string) : M State unit :=
  guard! negb (String.eqb networkID "") else Errorf "network_id is required" in
  let! s := on_rpc Rpc.self in
  on_netstore (Store.leave networkID (Rpc.did s)).

Definition ListNetworks : M State (list NetworkInfo) :=
  let! s := on_rpc Rpc.self in
  let! nets := on_netstore (Store.list_networks (Rpc.did s)) in
  ret (networkToProto <$> nets).

Definition NetworkMembers (networkID : string) : M State (list (string * Z)) :=
  guard! negb (String.eqb networkID "") else Errorf "network_id is required" in
  let! ms := on_netstore (Store.list_members networkID) in
  ret ((fun m => (m_DID m, m_JoinedAt m)) <$> ms).

(** The membership test of the two handlers, which the manager makes again. *)
Definition own_member {A} (networkID : string) (k : string -> M State A) : M State A :=
  guard! negb (String.eqb networkID "") else Errorf "network_id is required" in
  let! s := on_rpc Rpc.self in
  let! ok := on_netstore (Store.isMember networkID (Rpc.did s)) in
  guard! ok else Errorf "not a member of network" in k (Rpc.did s).

Definition BroadcastNetwork (post : nat -> outcome Z) (requestable : string -> bool)
    (json : string -> string -> option string) (networkID payload : string) : M State unit :=
  own_member networkID (fun did =>
    do! on_networks (Networks.Broadcast networkID did payload) in
    SendForOwner post requestable "" "pubsub" (json networkID payload)).

Definition SubscribeNetwork (networkID : string) (send : string -> bool)
    (during : Gossip.Manager -> Gossip.Manager) (arrivals : list string) : M State (list string * bool) :=
  own_member networkID (fun did =>
    topic_stream (on_networks (Networks.SubscribeBroadcast networkID did)) (BroadcastTopic networkID) send during arrivals).

(** *** Names *)

Definition claimToProto (c : Claim) : NameClaimResponse :=
  mkNameResp (c_Name c) (c_DID c) (c_PublishedAt c) (c_ExpiresAt c).

(** [hasNames]: whether the name registry is set; [found]: the DHT's records. *)
Definition ClaimName (hasNames : bool) (sk : string) (found : string -> option (list (Z * string))) (clk : nat -> Z)
    (name : string) : M State NameClaimResponse :=
  guard! negb (String.eqb name "") else Errorf "name is required" in
  guard! hasNames else Errorf "name registry not initialised" in
  let! s := on_rpc Rpc.self in
  let! c := on_names (Names.claim (Rpc.did s) sk found (Tasks.UnixMilli (clk 0%nat)) (Tasks.UnixMilli (clk 1%nat)) (Tasks.UnixMilli (clk 2%nat)) name) in
  ret (claimToProto c).

Definition ResolveName (hasNames : bool) (found : string -> option (list (Z * string))) (name : string)
    : M State NameClaimResponse :=
  guard! negb (String.eqb name "") else Errorf "name is required" in
  guard! hasNames else Errorf "name registry not initialised" in
  let! c := Names.lift (Names.resolve found name) in
  ret (claimToProto c).

End RpcExt.
End RpcExt.
