(* ===== verification/RpcExtFacts.v ===== *)
(** * Properties of the other RPC handlers

    Files come back in chunks as they were sent; an agent can only publish its own
    card; a subscription to the inbox starts with the oldest hundred messages. *)

From stdpp Require Import base gmap strings list pretty.
From Stdlib Require Import ZArith Lia Ascii.
From S2P Require Import Prelude GoStd Identity Session Mail ThreadStore Tasks Rpc RpcFacts ConsensusStore Membership Chain Instances Records RecordsFacts Manager Publisher PublisherFacts Gossip Network Webhook RpcExt.

Local Open Scope string_scope.
Local Open Scope Z_scope.

(** ** Files *)

Section Files.
Context `{CryptoLaws} `{Codec} `{ArchiveCodecLaws}.
Import RpcFiles.

Fixpoint concat_str (l : list string) : string :=
  match l with [] => "" | s :: l' => s ++ concat_str l' end.

(** What the loop over the chunks sends. *)
Lemma chunks_spec n data offset total :
  0 <= offset -> slen data = total - offset \/ (total <= offset /\ data = "") -> total - offset <= Z.of_nat n * fileChunkSize ->
  let cs := chunks n data offset total in
  concat_str (k_Data <$> cs) = data /\
  Forall (fun c => 1 <= slen (k_Data c) <= fileChunkSize /\ k_Total c = total) cs /\
  (forall i c, cs !! i = Some c -> k_Offset c = offset + Z.of_nat i * fileChunkSize).
Proof.
  unfold fileChunkSize. revert data offset. induction n as [|n IH]; intros data offset Hoff Hlen Hn; simpl.
  - split; [|split; [constructor|done]]. destruct Hlen as [Hlen|[_ ->]]; [|done].
    destruct data; [done|]. unfold slen in Hlen. simpl in Hlen. lia.
  - destruct (Z.leb_spec total offset) as [Hle|Hlt]; simpl.
    + split; [|split; [constructor|done]]. destruct Hlen as [Hlen|[_ ->]]; [|done].
      destruct data; [done|]. unfold slen in Hlen. simpl in Hlen. lia.
    + destruct Hlen as [Hlen|[? _]]; [|lia]. unfold fileChunkSize in *. set (size := Z.to_nat (Z.min 32768 (total - offset))).
      destruct (IH (drop_str size data) (offset + 32768)) as (Hc & Hf & Ho); [lia| |lia|].
      { unfold slen in *. rewrite drop_str_length. destruct (Z.leb_spec total (offset + 32768)) as [Hend|Hmore].
        - right. split; [lia|]. assert (Hz : String.length (drop_str size data) = 0%nat) by (rewrite drop_str_length; lia).
          by destruct (drop_str size data).
        - left. lia. }
      split; [|split].
      * change (take_str size data ++ concat_str (k_Data <$> chunks n (drop_str size data) (offset + 32768) total) = data).
        rewrite Hc. apply take_drop_str.
      * constructor; [|done]. simpl. split; [|done]. unfold slen in *. rewrite take_str_length. lia.
      * intros [|i] c Hi; simpl in Hi; [injection Hi as <-; simpl; lia|]. rewrite (Ho i c Hi). lia.
Qed.

Lemma chunk_count_enough data : slen data <= Z.of_nat (chunk_count data) * fileChunkSize.
Proof.
  unfold chunk_count, fileChunkSize. pose proof (slen_nonneg data). rewrite Z2Nat.id by (apply Z.div_pos; lia).
  Z.div_mod_to_equations. lia.
Qed.

(** C20: A stored file comes back: SendFile answers with the content's identifier, its size
    and, up to 64 KB, the data itself; as long as the block store keeps the block,
    FetchFile of that identifier streams chunks of 1 to 32768 bytes that start at
    consecutive multiples of 32768, carry the total size and put together are the
    file. *)
Theorem file_roundtrip bitswap req n decode fetch :
  sf_Data req <> "" -> (forall d, decode (Publisher.CIDv1Block d) = Some (Publisher.CIDv1Block d)) ->
  exists art n', SendFile true bitswap req (World n []) = (Ok art, World n' []) /\
    f_Size art = slen (sf_Data req) /\ f_Inline art = (if f_Size art <=? inlineMax then sf_Data req else "") /\
    forall n2, bstore n2 !! f_Cid art = bstore n' !! f_Cid art ->
    exists cs, FetchFile true decode fetch (fun _ => true) (f_Cid art) (World n2 []) = (Ok (cs, true), World n2 []) /\
      concat_str (k_Data <$> cs) = sf_Data req /\
      Forall (fun c => 1 <= slen (k_Data c) <= fileChunkSize /\ k_Total c = f_Size art) cs /\
      (forall i c, cs !! i = Some c -> k_Offset c = Z.of_nat i * fileChunkSize).
Proof.
  intros Hne Hdec. unfold SendFile.
  assert (Hlen : slen (sf_Data req) =? 0 = false).
  { apply Z.eqb_neq. unfold slen. destruct (sf_Data req); [done|]. simpl. lia. }
  rewrite Hlen. simpl. set (c := Publisher.CIDv1Block (sf_Data req)).
  exists (if slen (sf_Data req) <=? inlineMax then mkFileArtifact c (sf_Name req) (sf_MimeType req) (slen (sf_Data req)) (sf_Data req) ""
          else mkFileArtifact c (sf_Name req) (sf_MimeType req) (slen (sf_Data req)) "" ("ipfs://" ++ c)),
    (mkNet (<[c := sf_Data req]> (bstore n)) (puts n) (provided n)).
  split; [by destruct bitswap|].
  assert (Hart : forall b : bool, f_Cid (if b then mkFileArtifact c (sf_Name req) (sf_MimeType req) (slen (sf_Data req)) (sf_Data req) ""
          else mkFileArtifact c (sf_Name req) (sf_MimeType req) (slen (sf_Data req)) "" ("ipfs://" ++ c)) = c) by (by intros []).
  rewrite !Hart. split; [by destruct (_ <=? _)|]. split; [by destruct (slen (sf_Data req) <=? inlineMax) eqn:E; simpl; rewrite E|].
  intros n2 Hb. simpl in Hb. rewrite lookup_insert_eq in Hb.
  exists (chunks (chunk_count (sf_Data req)) (sf_Data req) 0 (slen (sf_Data req))).
  destruct (chunks_spec (chunk_count (sf_Data req)) (sf_Data req) 0 (slen (sf_Data req))) as (Hc & Hf & Ho);
    [lia|left; lia|pose proof (chunk_count_enough (sf_Data req)); lia|].
  split; [|split; [exact Hc|split; [by destruct (_ <=? _)|exact Ho]]].
  unfold FetchFile. rewrite (proj2 (String.eqb_neq c "")) by apply cid_text_nonempty. simpl.
  unfold c at 1. rewrite Hdec. fold c. unfold bind, catch, query, stmt. simpl. rewrite Hb. simpl.
  by rewrite stream_all_ok by (by apply Forall_true).
Qed.
End Files.

(** ** Agent cards *)

Section Cards.
Context `{Crypto} `{TaskCodec} `{ThreadManager} `{RecordCodec}.
Import RpcRegistry.

Lemma advertise_cards X cap : preserves (fun r => Registry.r_cards r = X) (Registry.advertiseCapability cap).
Proof.
  intros w Hw. unfold Registry.advertiseCapability. destruct (_ && _); [done|].
  exact (preserves_exec (fun r => Registry.r_cards r = X) (Registry.provide cap) (fun s E => E) w Hw).
Qed.

Lemma put_agent_cards X get peer cap did :
  preserves (fun r => Registry.r_cards r = X) (Registry.putCapabilityAgent get peer cap did).
Proof.
  unfold Registry.putCapabilityAgent. destruct (existsb _ _); [apply preserves_ret|]. by apply preserves_exec.
Qed.

(** A signed card is stored only after its check, and under its own DID. *)
Lemma publishSigned_cards now get peer card w r w' :
  Registry.publishSigned now get peer card w = (r, w') ->
  (forall d, d <> a_Did card -> Registry.r_cards (db w') !! d = Registry.r_cards (db w) !! d) /\
  (r = Ok tt -> Registry.verifyCard now card = Ok tt /\ Registry.r_cards (db w') !! a_Did card = Some card).
Proof.
  unfold Registry.publishSigned, Names.lift.
  destruct (Registry.verifyCard now card) as [[]|e|]; [|intros [= <- <-]; done..].
  unfold bind at 1. simpl. unfold bind at 1. unfold exec at 1.
  destruct (stmt _ w) as [[u|e|] w1] eqn:E1.
  - apply stmt_ok in E1. injection E1 as _ E1. unfold bind, modify.
    set (w2 := World (Registry.store_card (a_Did card) card (db w1)) (faults w1)). intros E.
    assert (Hl : preserves (fun r => Registry.r_cards r = Registry.r_cards (db w2))
      (for_each (a_Skills card) (fun skill => bind (Registry.putCapabilityAgent get peer (sk_Id skill) (a_Did card))
         (fun _ => Registry.advertiseCapability (sk_Id skill))))).
    { apply preserves_for_each. intros sk. apply preserves_bind; [apply put_agent_cards|intros; apply advertise_cards]. }
    specialize (Hl w2 eq_refl). unfold bind in Hl. rewrite E in Hl. simpl in Hl. rewrite Hl, <- E1. simpl. split.
    + intros d Hd. by rewrite lookup_insert_ne.
    + intros _. by rewrite lookup_insert_eq.
  - unfold stmt in E1. destruct (faults w) as [|[] fs]; simpl in E1; try discriminate; injection E1 as <- <-;
      intros [= <- <-]; done.
  - unfold stmt in E1. destruct (faults w) as [|[] fs]; discriminate.
Qed.

Lemma on_sessions_run {A} (f : Session.Manager -> outcome A * Session.Manager) w :
  on_rpc (Rpc.on_sessions f) w =
  (fst (f (Rpc.sessions (rpc (db w)))),
   World (mkState (Rpc.with_sessions (snd (f (Rpc.sessions (rpc (db w))))) (rpc (db w))) (registry (db w))) (faults w)).
Proof. unfold on_rpc, zoom, Rpc.on_sessions. simpl. by destruct (f _). Qed.

Lemma reported_cases m k w r w' :
  reported m k w = (Ok r, w') ->
  exists r1 w1, on_registry m w = (r1, w1) /\ ((r1 = Ok tt /\ k w1 = (Ok r, w')) \/ (exists e, r1 = Err e /\ r = failed e /\ w' = w1)).
Proof.
  unfold reported, catch. destruct (on_registry m w) as [[[]|e|] w1]; [|intros [= <- <-]|discriminate]; eauto 10.
Qed.

(** C21: Agents publish as themselves only: a call with a session token to PublishAgentCard
    leaves the cards of all other agents alone, and succeeds only for a card that names
    the agent the token authenticates, this daemon's peer ID and the encryption key the
    session was opened with, and whose signature and dates are valid; that card is then
    the agent's.  Under any failures of the DHT. *)
Theorem card_published_by_owner c clk peer pub sk get card w r w' :
  let auth := Session.Authenticate (clk 0%nat) (Rpc.bearerToken c) (Rpc.sessions (rpc (db w))) in
  Rpc.bearerToken c <> "" -> fst auth <> Ok "" ->
  PublishAgentCard c clk (Some peer) pub sk get card w = (Ok r, w') ->
  exists owner, fst auth = Ok owner /\
    (forall d, d <> owner -> Registry.r_cards (registry (db w')) !! d = Registry.r_cards (registry (db w)) !! d) /\
    (pr_Success r = true -> a_Did card = owner /\ a_NodePeerId card = peer /\
       Registry.verifyCard (Tasks.UnixMilli (clk 2%nat)) card = Ok tt /\ Registry.r_cards (registry (db w')) !! owner = Some card /\
       exists bound, fst (Session.IdentityOf (clk 1%nat) (Rpc.bearerToken c) (snd auth)) = Ok bound /\
         a_EncryptionPublicKey card = Session.EncryptionPublicKey bound).
Proof.
  intros auth Htok Hne. unfold PublishAgentCard. rewrite scopedOwner_scoped by done. unfold Rpc.agentDID, bind at 1.
  rewrite on_sessions_run. fold auth. destruct (fst auth) as [owner|e|] eqn:Ha; [|discriminate..].
  assert (Ho : owner <> "") by congruence. rewrite (proj2 (String.eqb_neq _ _) Ho). cbn [negb]. intros E.
  exists owner. split; [done|]. set (w1 := World _ _) in E. assert (Hreg : registry (db w1) = registry (db w)) by done.
  destruct (String.eqb_spec (a_Did card) owner) as [Hd|_]; cbn [negb] in E; [|injection E as <- <-; by rewrite Hreg].
  destruct (String.eqb_spec (a_NodePeerId card) peer) as [Hp|_]; cbn [negb] in E; [|injection E as <- <-; by rewrite Hreg].
  unfold bind at 1 in E. rewrite on_sessions_run in E. change (Rpc.sessions (rpc (db w1))) with (snd auth) in E.
  destruct (fst (Session.IdentityOf _ _ (snd auth))) as [bound|e|] eqn:Hb; [|discriminate..].
  set (w2 := World _ _) in E. assert (Hreg2 : registry (db w2) = registry (db w)) by done.
  destruct (String.eqb_spec (a_EncryptionPublicKey card) (Session.EncryptionPublicKey bound)) as [Hk|_]; cbn [negb] in E;
    [|injection E as <- <-; by rewrite Hreg2].
  apply reported_cases in E as (r1 & w3 & Ereg & Hcase). unfold on_registry, zoom in Ereg. rewrite Hreg2 in Ereg.
  destruct (Registry.publishSigned _ _ _ _ _) as [r2 w4] eqn:Ep. injection Ereg as -> <-.
  apply publishSigned_cards in Ep as [Hother Hok]. simpl in Hother. rewrite Hd in Hother, Hok.
  destruct Hcase as [[-> Ek]|(e & -> & -> & ->)].
  - injection Ek as <- <-. simpl. split; [done|]. intros _. destruct (Hok eq_refl) as [Hv Hc]. eauto 10.
  - simpl. split; [done|]. discriminate.
Qed.
End Cards.

(** ** Inbox streams *)

Section InboxStream.
Context `{Crypto} `{TaskCodec} `{ThreadManager}.
Import Rpc RpcStreams.

Lemma ScanProtos_some l : ScanProtos (Some <$> l) = Ok l.
Proof.
  induction l as [|m l IH]; [done|].
  change (match ScanProtos (Some <$> l) with Ok ms => Ok (m :: ms) | Err e => Err e | Panic => Panic end = Ok (m :: l)).
  by rewrite IH.
Qed.

(** The flush at the start of SubscribeInbox is cut off: of the messages stored for the
    caller only the oldest hundred are sent, read ones included, and the channel of the
    subscription starts empty, so that the later ones are not sent at all, unread as
    they may be. *)
Theorem inbox_flush_truncated c clk owner msgs s :
  let rows := filter (fun r => owner = "" \/ Inbox.i_owner r = owner) (Inbox.rows (inbox s)) in
  fst (scopedOwner (clk 0%nat) c (World s [])) = Ok owner -> Inbox.i_payload <$> rows = Some <$> msgs ->
  exists ch s', SubscribeInbox c clk (fun _ => true) id "" "" (World s []) = (Ok (take 100 msgs, Some ch), World s' []) /\
    exists sub, sub ∈ Inbox.subs (inbox s') /\ Inbox.sub_ch sub = ch /\ Inbox.sub_buf sub = [].
Proof.
  intros rows Ho Hrows. unfold SubscribeInbox, bind at 1.
  destruct (scopedOwner (clk 0%nat) c (World s [])) as [r w1] eqn:Es. simpl in Ho. subst r.
  assert (Hw : inbox (db w1) = inbox s /\ faults w1 = []).
  { revert Es. unfold scopedOwner, agentDID, on_sessions, bind. destruct (String.eqb (bearerToken c) "").
    - destruct (let '(b, m') := Session.MultipleAgents (clk 0%nat) (sessions (db (World s []))) in (Ok b, m')) as [[b|e|] m'];
        [|discriminate..]. destruct b; [discriminate|]. by intros [= _ <-].
    - destruct (Session.Authenticate _ _ _) as [[a|e|] m']; [|discriminate..]. by intros [= _ <-]. }
  destruct Hw as [Hi Hf]. unfold bind at 1, on_inbox at 1, zoom at 1.
  unfold Inbox.get, query, stmt. rewrite Hf. cbn [db faults]. rewrite Hi.
  rewrite (list_filter_iff _ (fun r => owner = "" \/ Inbox.i_owner r = owner)).
  2:{ intros x. split; [by intros [? _]|]. intros Hx. do 3 (split; [by auto|]). split; [by left|left; lia]. }
  fold rows. unfold sql_limit. change (0 <? 100) with true. cbv iota. change (Z.to_nat 100) with 100%nat.
  rewrite fmap_take, Hrows, <- fmap_take, ScanProtos_some.
  rewrite stream_all_ok by (by apply Forall_true). unfold bind, on_inbox, zoom, modify, Inbox.subscribe. simpl.
  eexists _, _. split; [done|]. simpl. eexists. split; [apply elem_of_app; right; by left|done].
Qed.
End InboxStream.

(** ** Concrete runs *)

Lemma file_roundtrip_witness :
  exists art n', RpcFiles.SendFile true true (RpcFiles.mkSendFile "hello" "greeting.txt" "text/plain") (World (mkNet ∅ [] []) []) =
      (Ok art, World n' []) /\ f_Inline art = "hello" /\
    exists cs, RpcFiles.FetchFile true Some (fun _ => Err ErrIO) (fun _ => true) (f_Cid art) (World n' []) = (Ok (cs, true), World n' []) /\
      concat_str (k_Data <$> cs) = "hello".
Proof.
  destruct (file_roundtrip true (RpcFiles.mkSendFile "hello" "greeting.txt" "text/plain") (mkNet ∅ [] []) Some (fun _ => Err ErrIO))
    as (art & n' & Hs & Hsize & Hin & Hf); [discriminate|reflexivity|].
  exists art, n'. split; [exact Hs|]. split; [rewrite Hin, Hsize; reflexivity|].
  destruct (Hf n' eq_refl) as (cs & Hc & Hdata & _). exists cs. split; [exact Hc|exact Hdata].
Defined.

Section ToyPublish.
#[local] Existing Instance ascii_crypto.

Definition card_session : Session.Manager :=
  Session.mkManager "node" 0 0 ∅
    {[Sum256 "tok" := Session.mkSession RecordsFacts.toy_did 9000000000 (Session.mkIdentity RecordsFacts.toy_did "" [] "" "")]}.
Definition card_state : RpcRegistry.State :=
  RpcRegistry.mkState (Rpc.with_sessions card_session (toy_server Tasks.empty_db)) (Registry.mkRegistry None ∅ [] []).
Definition card_clk (n : nat) : Z := 9000000.
Definition card_published : outcome PublishResult * world RpcRegistry.State :=
  RpcRegistry.PublishAgentCard (Some ["Bearer tok"]) card_clk (Some "peer-a") toy_key toy_key (fun _ => None) toy_card
    (World card_state []).

Lemma card_published_by_owner_witness :
  fst card_published = Ok RpcRegistry.succeeded /\
  Registry.r_cards (RpcRegistry.registry (db (snd card_published))) !! RecordsFacts.toy_did = Some toy_card.
Proof.
  assert (E : fst card_published = Ok RpcRegistry.succeeded) by (vm_compute; reflexivity). split; [exact E|].
  destruct (card_published_by_owner (Some ["Bearer tok"]) card_clk "peer-a" toy_key toy_key (fun _ => None) toy_card
    (World card_state []) RpcRegistry.succeeded (snd card_published)) as (owner & Ha & _ & Hok).
  - vm_compute. discriminate.
  - vm_compute. discriminate.
  - rewrite <- E. apply surjective_pairing.
  - destruct (Hok eq_refl) as (<- & _ & _ & Hc & _). exact Hc.
Defined.
End ToyPublish.

(** A hundred and one messages, the last of them unread. *)
Definition note (n : nat) : Message :=
  mkMessage (pretty (Z.of_nat n)) "did:b" "did:a" "" "" KIND_TEXT "" 0 "".
Definition note_row (n : nat) : Inbox.row :=
  Inbox.mkRow (pretty (Z.of_nat n)) "did:a" "did:b" "" "" (Some (note n)) 0 (if (n <? 100)%nat then Some 1 else None).
Definition full_inbox : Rpc.Server :=
  Rpc.with_sessions (Session.mkManager "node" 0 0 ∅ ∅)
    (Rpc.with_inbox (Inbox.mkState (note_row <$> seq 0 101) [] 0) (toy_server Tasks.empty_db)).

Lemma inbox_flush_truncated_witness :
  exists sent ch s', RpcStreams.SubscribeInbox None card_clk (fun _ => true) id "" "" (World full_inbox []) =
      (Ok (sent, Some ch), World s' []) /\ length sent = 100%nat /\
    exists sub, sub ∈ Inbox.subs (Rpc.inbox s') /\ Inbox.sub_ch sub = ch /\ Inbox.sub_buf sub = [].
Proof.
  destruct (inbox_flush_truncated None card_clk "" (note <$> seq 0 101) full_inbox) as (ch & s' & Hs & Hsub).
  - vm_compute. reflexivity.
  - vm_compute. reflexivity.
  - exists (take 100 (note <$> seq 0 101)), ch, s'. split; [exact Hs|]. split; [vm_compute; reflexivity|exact Hsub].
Defined.
