(* ===== verification/RpcDiag.v ===== *)
(** * Task event streams, diagnostics and the key file

    The stream of a task's events ([SubscribeTaskEvents] of daemon/rpc/server_tasks.go),
    the diagnostics handlers ([daemon/rpc/diag.go]) and the identity file
    ([daemon/identity/identity.go]).  The theorems: the events sent first are those the
    task store holds, to a party of the task only, and the updates [UpdateTask]
    broadcasts reach no stream; a saved identity loads as itself. *)

From stdpp Require Import base gmap strings list pretty sorting.
From Stdlib Require Import ZArith Lia Ascii.
From S2P Require Import Prelude GoStd Identity Tasks TasksFacts Mail Session ThreadStore Records Rpc Gossip RpcExt.
From S2P Require Import SessionFacts RpcFacts.

Import Identity Tasks Rpc.

Local Open Scope string_scope.
Local Open Scope Z_scope.

Module RpcEvents.
Section RpcEvents.
Context `{Crypto} `{TaskCodec} `{ThreadManager}.

(** Up to the live part: the events sent, and whether the stream is open.  [between] is
    what happens between the query of the backlog and the subscription, [subscribed]
    its outcome. *)
Definition SubscribeTaskEvents (c : ctx) (clk : nat -> Z) (send : TaskEvent -> bool) (between : Server -> Server)
    (subscribed : outcome unit) (id : string) (after : Z) : M Server (list TaskEvent * bool) :=
  let! task := on_tasks (Get id) in
  do! authorizeTask (clk 0%nat) c task false in
  let! backlog := on_tasks (ListEvents id after) in
  let '(sent, ok) := stream_all send backlog in
  if negb ok then ret (sent, false) else
  do! modify between in
  match subscribed with
  | Ok _ => ret (sent, true)
  | Err e => throw e
  | Panic => panic
  end.

Definition channelSize : nat := 64.

(** The handler given to gossip: a full channel drops the event. *)
Definition on_event (decode : string -> option TaskEvent) (id data : string) (ch : list TaskEvent) : list TaskEvent :=
  match Gossip.on_task_event decode E_TaskId id data with
  | Some e => if (length ch <? channelSize)%nat then (ch ++ [e])%list else ch
  | None => ch
  end.

(** One turn of the loop: the rest of the channel, what is sent, whether the stream
    goes on. *)
Definition next_event (send : TaskEvent -> bool) (after : Z) (ch : list TaskEvent)
    : list TaskEvent * option TaskEvent * bool :=
  match ch with
  | [] => ([], None, true)
  | e :: rest => if E_Seq e <=? after then (rest, None, true) else (rest, Some e, send e)
  end.

End RpcEvents.
End RpcEvents.

Module RpcDiag.

Record PingResult : Type := mkPing { pg_TargetDid : string; pg_LatencyMs : Z; pg_Reachable : bool; pg_Error : string }.
Record HealthResponse : Type := mkHealthResp {
  hr_Ok : bool; hr_Version : string; hr_Did : string; hr_PeerCount : Z; hr_UptimeSecs : Z }.
Record PeerInfo : Type := mkPeerInfo { pi_PeerId : string; pi_Addrs : list string; pi_LatencyMs : Z }.
Record ConnectPeerResponse : Type := mkConnected { cp_PeerId : string; cp_Multiaddrs : list string; cp_AlreadyConnected : bool }.

(** The codes of package status. *)
Inductive status : Type := InvalidArgument | NotFound | FailedPrecondition | Internal | Unavailable.
Inductive reply (A : Type) : Type := Answer (a : A) | Status (s : status) | Panics.
Arguments Answer {A} a.
Arguments Status {A} s.
Arguments Panics {A}.

(** pkg/p2putil: the peer of a list of addresses; [parse] is [multiaddr.NewMultiaddr],
    [infos] [peer.AddrInfosFromP2pAddrs]. *)
Definition AddrsToAddrInfo {MA} (parse : string -> option MA) (infos : list MA -> outcome (list string))
    (addrs : list string) : outcome string :=
  match omap parse addrs with
  | [] => Err (Errorf "no valid multiaddrs")
  | maddrs =>
      match infos maddrs with
      | Err e => Err e
      | Panic => Panic
      | Ok [] => Err (Errorf "could not extract peer info")
      | Ok (i :: _) => Ok i
      end
  end.

Section RpcDiag.
Context {MA : Type} (parse : string -> option MA) (infos : list MA -> outcome (list string)).

(** [text] prints an error; [connect i] and [latency i] are the i-th attempt's outcome and
    duration in milliseconds. *)
Definition Ping (self : string) (resolve : string -> outcome AgentCard) (text : error -> string)
    (connect : nat -> outcome unit) (latency : nat -> Z) (target : string) (count : Z) : outcome (list PingResult) :=
  let n := Z.to_nat (if count <=? 0 then 1 else count) in
  if String.eqb target "" then Ok (replicate n (mkPing self (latency 0%nat) true ""))
  else match resolve target with
       | Panic => Panic
       | Err e => Ok [mkPing target 0 false ("could not resolve DID: " ++ text e)]
       | Ok card =>
           match AddrsToAddrInfo parse infos (a_Multiaddrs card) with
           | Panic => Panic
           | Err e => Ok [mkPing target 0 false ("bad multiaddrs: " ++ text e)]
           | Ok _ =>
               Ok ((fun i => match connect i with
                             | Err e => mkPing target (latency i) false (text e)
                             | _ => mkPing target (latency i) true ""
                             end) <$> seq 0 n)
           end
       end.

Definition Health (version self : string) (peers : list string) (uptime : Z) : HealthResponse :=
  mkHealthResp true version self (int32 (llen peers)) uptime.

(** [conns p]: the remote addresses of the connections to a peer. *)
Definition ListPeers (peers : list string) (conns : string -> list string) : list PeerInfo * Z :=
  let infos := (fun p => mkPeerInfo p (conns p) (-1)) <$> peers in (infos, int32 (llen infos)).

(** The second component is the peer [Host.Connect] or [ClosePeer] was called on. *)
Definition ConnectPeer (resolve : string -> outcome AgentCard) (connected : string -> bool)
    (connect : string -> outcome unit) (did : string) : reply ConnectPeerResponse * option string :=
  if String.eqb did "" then (Status InvalidArgument, None) else
  match resolve did with
  | Panic => (Panics, None)
  | Err _ => (Status NotFound, None)
  | Ok card =>
      if (length (a_Multiaddrs card) =? 0)%nat then (Status FailedPrecondition, None) else
      match AddrsToAddrInfo parse infos (a_Multiaddrs card) with
      | Panic => (Panics, None)
      | Err _ => (Status Internal, None)
      | Ok p =>
          if connected p then (Answer (mkConnected p (a_Multiaddrs card) true), None)
          else match connect p with
               | Ok _ => (Answer (mkConnected p (a_Multiaddrs card) false), Some p)
               | Err _ => (Status Unavailable, Some p)
               | Panic => (Panics, Some p)
               end
      end
  end.

Definition DisconnectPeer (resolve : string -> outcome AgentCard) (close : string -> outcome unit) (did : string)
    : reply unit * option string :=
  if String.eqb did "" then (Status InvalidArgument, None) else
  match resolve did with
  | Panic => (Panics, None)
  | Err _ => (Status NotFound, None)
  | Ok card =>
      match AddrsToAddrInfo parse infos (a_Multiaddrs card) with
      | Panic => (Panics, None)
      | Err _ => (Status Internal, None)
      | Ok p => match close p with
                | Ok _ => (Answer tt, Some p)
                | Err _ => (Status Internal, Some p)
                | Panic => (Panics, Some p)
                end
      end
  end.
End RpcDiag.
End RpcDiag.

Module KeyFile.
Section KeyFile.
Context `{Crypto}.

Record Identity : Type := mkIdentity { DID : string; PublicKey : string; PrivateKey : string }.

(** [wrap]: whether libp2p takes the key. *)
Definition fromKeys (wrap : string -> bool) (pub priv : string) : outcome Identity :=
  if wrap priv then Ok (mkIdentity (didKeyFromPub pub) pub priv) else Err (Errorf "wrap libp2p key").

(** [keys]: what [ed25519.GenerateKey] returns, the seed followed by the public key. *)
Definition Generate (wrap : string -> bool) (keys : option (string * string)) : outcome Identity :=
  match keys with Some (pub, priv) => fromKeys wrap pub priv | None => Err (Errorf "generate keypair") end.

(** [priv.Public()]: the 32 bytes from 32 on, zeros where there are none; a slice out of
    range panics. *)
Fixpoint zeros (n : nat) : string := match n with O => "" | S n' => String nul (zeros n') end.
Definition Public (priv : string) : outcome string :=
  if slen priv <? 32 then Panic else
  let p := take_str 32 (drop_str 32 priv) in Ok (p ++ zeros (32 - String.length p)).

(** [un_json]: the field private_key of the file. *)
Definition LoadKey (wrap : string -> bool) (un_json : string -> option string) (file : option string) : outcome Identity :=
  match file with
  | None => Err (Errorf "read identity file")
  | Some data =>
      match un_json data with
      | None => Err (Errorf "parse identity file")
      | Some field =>
          match std_decode field with
          | None => Err (Errorf "decode private key")
          | Some priv => match Public priv with
                         | Ok pub => fromKeys wrap pub priv
                         | Err e => Err e
                         | Panic => Panic
                         end
          end
      end
  end.

(** The data written; [json] prints the two fields. *)
Definition Save (json : string -> string -> option string) (id : Identity) : option string :=
  json (DID id) (std_encode (PrivateKey id)).

Definition Sign (id : Identity) (msg : string) : string := ed25519_sign (PrivateKey id) msg.
Definition Verify (id : Identity) (msg sig : string) : outcome bool := ed25519_Verify (PublicKey id) msg sig.
Definition PublicKeyBase64 (id : Identity) : string := std_encode (PublicKey id).

(** The RPC GetIdentity of the daemon with this identity. *)
Record AgentIdentity : Type := mkAgentId { ai_Did : string; ai_PublicKey : string; ai_Multiaddrs : list string }.
Definition GetIdentity (id : Identity) (addrs : list string) : AgentIdentity :=
  mkAgentId (DID id) (PublicKeyBase64 id) addrs.

End KeyFile.
End KeyFile.

Import RpcEvents KeyFile.

(** ** Streams of task events *)

Section Events.
Context `{Crypto} `{TaskCodec} `{ThreadManager}.

Lemma stream_all_prefix {A} (send : A -> bool) l : fst (stream_all send l) `prefix_of` l.
Proof.
  induction l as [|a l IH]; simpl; [done|]. destruct (send a); [|apply prefix_nil].
  destruct (stream_all send l) as [s ok]. by apply prefix_cons.
Qed.

Lemma stream_all_sent {A} (send : A -> bool) l : snd (stream_all send l) = true -> fst (stream_all send l) = l.
Proof.
  induction l as [|a l IH]; simpl; [done|]. destruct (send a); [|discriminate].
  destruct (stream_all send l) as [s ok]. simpl in *. intros Hok. by rewrite IH.
Qed.

Lemma ListEvents_ok id after w l w' : ListEvents id after w = (Ok l, w') ->
  forall e, e ∈ l -> exists n, events (db w) !! (id, n) = Some e /\ after < n.
Proof.
  intros [E _]%query_ok e He. injection E as <-. apply list_elem_of_fmap in He as ([[T n] e'] & -> & He).
  rewrite merge_sort_Permutation in He. apply list_elem_of_filter in He as [[HT Hn] He]. simpl in *. subst T.
  apply elem_of_map_to_list in He. eauto.
Qed.

(** What [UpdateTask] may do: it stores no event, and publishes on topics of finished
    tasks or events with number 0. *)
Definition unnumbered (p : publication) : Prop :=
  (exists id, pub_topic p = TaskDoneTopic id) \/
  exists e, pub_topic p = TaskEventsTopic (E_TaskId e) /\ marshal_event e = Some (pub_data p) /\ E_Seq e = 0.
Definition quiet_update (ev : gmap (string * Z) TaskEvent) (pubs : list publication) (s : Server) : Prop :=
  events (tasks_db s) = ev /\ exists extra, published s = (pubs ++ extra)%list /\ Forall unnumbered extra.

Lemma quiet_publish ev pubs topic data :
  unnumbered (mkPub topic data) -> preserves (quiet_update ev pubs) (publish topic data).
Proof.
  intros Hu. unfold publish. apply preserves_bind; [intros w Hw; exact Hw|]. intros s.
  destruct (negb _); [by intros w Hw|]. destruct (validateTopicAndPayload topic data); [by intros w Hw|].
  apply preserves_stmt. intros s' (He & extra & Hp & Hf). split; [done|]. simpl.
  exists (extra ++ [mkPub topic data])%list. rewrite Hp, app_assoc. split; [done|]. apply Forall_app. by split; [|constructor].
Qed.

Lemma quiet_tasks {A} ev pubs (m : M TasksDB A) :
  preserves (fun s => events s = ev) m -> preserves (quiet_update ev pubs) (on_tasks m).
Proof.
  intros Hm. apply preserves_zoom; [|by intros [] ?]. intros s [_ Hp] w [Hw _]. split; [|done]. exact (Hm w Hw).
Qed.

Lemma quiet_sessions {A} ev pubs (f : Session.Manager -> outcome A * Session.Manager) :
  preserves (quiet_update ev pubs) (on_sessions f).
Proof. intros w Hw. unfold on_sessions. destruct (f _) as [r m]. exact Hw. Qed.

Lemma quiet_authorize ev pubs now c t b : preserves (quiet_update ev pubs) (authorizeTask now c t b).
Proof.
  unfold authorizeTask, scopedOwner, agentDID. apply preserves_bind; [|intros o; go_preserves].
  apply preserves_if; [|apply quiet_sessions]. apply preserves_bind; [apply quiet_sessions|intros m; go_preserves].
Qed.

Lemma quiet_get ev pubs id : preserves (quiet_update ev pubs) (on_tasks (Get id)).
Proof. apply quiet_tasks. unfold Get, get, scanTask. go_preserves. Qed.

Lemma quiet_log ev pubs {A} (m : M Server A) : preserves (quiet_update ev pubs) m -> preserves (quiet_update ev pubs) (log_err m).
Proof. apply preserves_log_err. Qed.

Lemma quiet_UpdateTask c clk id st err outs ev pubs :
  preserves (quiet_update ev pubs) (UpdateTask c clk id st err outs).
Proof.
  unfold UpdateTask. apply preserves_bind; [apply quiet_get|]. intros cur.
  apply preserves_bind; [apply quiet_authorize|]. intros _. apply preserves_bind; [|intros task].
  { apply quiet_tasks. unfold UpdateStatus, updateStatus, canTransition, get, scanTask. go_preserves; done. }
  apply preserves_bind; [|intros _].
  { apply quiet_log. unfold gossip_PublishTaskEvent. apply preserves_if; [go_preserves|].
    destruct (marshal_event _) as [data|] eqn:Hm; [|go_preserves]. apply quiet_publish. right. eexists.
    split; [reflexivity|]. split; [exact Hm|reflexivity]. }
  apply preserves_bind; [|intros _; go_preserves]. apply preserves_if; [|go_preserves].
  apply quiet_log. unfold gossip_PublishTaskDone. apply preserves_if; [go_preserves|].
  destruct (marshal_task _) as [data|]; [|go_preserves]. apply quiet_publish. left. by eexists.
Qed.

(** Status updates are not streamed: whatever [UpdateTask] does, it stores no event, and
    every event it publishes has the number 0, which a stream of events drops whatever
    number it was asked to start after; so no subscriber of a task's events sees its
    status change, neither live nor on a later replay. *)
Theorem status_updates_unseen c clk id st err outs w send after :
  0 <= after ->
  let s' := db (snd (UpdateTask c clk id st err outs w)) in
  events (tasks_db s') = events (tasks_db (db w)) /\
  exists extra, published s' = (published (db w) ++ extra)%list /\
    forall p, p ∈ extra ->
      (exists t, pub_topic p = TaskDoneTopic t) \/
      exists e, pub_topic p = TaskEventsTopic (E_TaskId e) /\ marshal_event e = Some (pub_data p) /\
        forall ch, next_event send after (e :: ch) = (ch, None, true).
Proof.
  intros Ha s'.
  destruct (quiet_UpdateTask c clk id st err outs (events (tasks_db (db w))) (published (db w)) w) as (He & extra & Hp & Hf).
  { split; [done|]. exists []. by rewrite app_nil_r. }
  split; [exact He|]. exists extra. split; [exact Hp|]. intros p Hin. rewrite Forall_forall in Hf.
  destruct (Hf p Hin) as [Hd|(e & Ht & Hm & Hz)]; [by left|right]. exists e. split; [done|]. split; [done|].
  intros ch. simpl. rewrite Hz. by destruct (Z.leb_spec 0 after); [|lia].
Qed.

Lemma Get_ok id w t w' : on_tasks (Get id) w = (Ok t, w') -> db w' = db w.
Proof.
  intros (w1 & E & Hd & _)%zoom_ok. rewrite Hd. pose proof (get_readonly id (World (tasks_db (db w)) (faults w))) as Hr.
  unfold Get in E. rewrite E in Hr. simpl in Hr. rewrite Hr. by destruct (db w).
Qed.

Lemma authorize_ok now c t w w' : authorizeTask now c t false w = (Ok tt, w') ->
  exists owner, fst (scopedOwner now c w) = Ok owner /\ (owner = "" \/ owner = Initiator t \/ owner = Assignee t) /\
    tasks_db (db w') = tasks_db (db w).
Proof.
  intros (owner & w1 & E & Ha)%bind_ok. exists owner. rewrite E. split; [done|].
  assert (Hd : tasks_db (db w1) = tasks_db (db w)).
  { revert E. unfold scopedOwner, agentDID, on_sessions, bind. destruct (String.eqb (bearerToken c) "").
    - destruct (Session.MultipleAgents now _) as [[] m]; simpl; [done|]. intros [= _ <-]. done.
    - destruct (Session.Authenticate now _ _) as [r m]. intros [= _ <-]. done. }
  destruct (String.eqb_spec owner "") as [->|_]; [injection Ha as <-; auto|].
  destruct (String.eqb_spec owner (Initiator t)) as [->|_]; [injection Ha as <-; auto|]. simpl in Ha.
  destruct (String.eqb_spec owner (Assignee t)) as [->|_]; [injection Ha as <-; auto|discriminate].
Qed.

(** Whoever gets a task's events is a party of the task, or the daemon's only user; and
    what is sent before the live part are events the store holds for that task, with
    numbers after the one asked for, from the first on. *)
Theorem task_events_authorized c clk send between subscribed id after w sent opened w' :
  SubscribeTaskEvents c clk send between subscribed id after w = (Ok (sent, opened), w') ->
  exists t owner, fst (on_tasks (Get id) w) = Ok t /\
    (exists w1, fst (scopedOwner (clk 0%nat) c w1) = Ok owner /\ db w1 = db w) /\
    (owner = "" \/ owner = Initiator t \/ owner = Assignee t) /\
    (forall e, e ∈ sent -> exists n, events (tasks_db (db w)) !! (id, n) = Some e /\ after < n) /\
    (opened = true -> subscribed = Ok tt /\
       fst (ListEvents id after (World (tasks_db (db w)) [])) = Ok sent).
Proof.
  intros (t & w1 & E1 & E)%bind_ok. pose proof (Get_ok _ _ _ _ E1) as Hd1.
  apply bind_ok in E as ([] & w2 & (owner & Ho & Hown & Hd2)%authorize_ok & E).
  apply bind_ok in E as (backlog & w3 & (w4 & E3 & Hd3 & _)%zoom_ok & E).
  pose proof (ListEvents_ok _ _ _ _ _ E3) as Hl. cbn [db] in Hl. rewrite Hd2, Hd1 in Hl.
  pose proof (stream_all_prefix send backlog) as Hpre. pose proof (stream_all_sent send backlog) as Hall.
  destruct (stream_all send backlog) as [sent' ok]. cbn [fst snd] in *.
  assert (Hs : sent = sent' /\ (opened = true -> subscribed = Ok tt /\ ok = true)).
  { destruct ok; cbn [negb] in E; [|injection E as <- <- _; by split].
    apply bind_ok in E as ([] & w5 & _ & E). destruct subscribed as [[]|e|]; [|discriminate..].
    by injection E as <- <- _. }
  destruct Hs as [-> Hopen]. exists t, owner. rewrite E1. split; [done|]. split; [by exists w1|]. split; [done|]. split.
  - intros e He. apply Hl. destruct Hpre as [k ->]. apply elem_of_app. by left.
  - intros Hop. destruct (Hopen Hop) as [-> Hok]. split; [done|]. rewrite (Hall Hok).
    unfold ListEvents in E3. apply query_ok in E3 as [E3 _]. cbn [db] in E3. rewrite Hd2, Hd1 in E3.
    unfold ListEvents, query, stmt. cbn [faults db fst]. exact E3.
Qed.
End Events.

(** ** The identity file *)

Lemma take_app_exact (a b : string) : take_str (String.length a) (a ++ b) = a.
Proof.
  induction a as [|c a IH]; [by destruct b|]. change (String c (take_str (String.length a) (a ++ b)) = String c a). by rewrite IH.
Qed.

(** An identity survives its file: what was generated from a seed and its public key,
    and saved, loads as the same identity, whose signatures verify under its DID. *)
Theorem identity_file_roundtrip `{CryptoLaws} wrap seed priv json un_json id data msg :
  (forall did key d, json did key = Some d -> un_json d = Some key) ->
  priv = seed ++ ed25519_public priv -> slen seed = 32 -> slen (ed25519_public priv) = 32 ->
  Generate wrap (Some (ed25519_public priv, priv)) = Ok id -> Save json id = Some data ->
  LoadKey wrap un_json (Some data) = Ok id /\ VerifyDID (DID id) msg (Sign id msg) = Ok true.
Proof.
  intros Hj Hp Hs Hk Hg Hsave. unfold Generate, fromKeys in Hg. destruct (wrap priv) eqn:Hw; [|done]. injection Hg as <-.
  unfold Save in Hsave. apply Hj in Hsave. cbn [DID PrivateKey] in *. split.
  - unfold LoadKey. rewrite Hsave, std_roundtrip.
    assert (Hpub : Public priv = Ok (ed25519_public priv)).
    { unfold Public. set (pub := ed25519_public priv) in *. clearbody pub. subst priv.
      assert (Hlen : slen (seed ++ pub) = 64).
      { unfold slen in *. rewrite length_app_str. lia. }
      assert (Hs' : String.length seed = 32%nat) by (unfold slen in Hs; lia).
      assert (Hk' : String.length pub = 32%nat) by (unfold slen in Hk; lia).
      assert (Ed : take_str 32 (drop_str 32 (seed ++ pub)) = pub).
      { rewrite <- Hs' at 2. rewrite drop_str_app, <- (append_nil_str pub), <- Hk' at 1. apply take_app_exact. }
      rewrite Hlen. cbv zeta. rewrite Ed, Hk'. change (Ok (pub ++ "") = Ok pub). by rewrite append_nil_str. }
    rewrite Hpub. unfold fromKeys. by rewrite Hw.
  - unfold Sign. cbn [PrivateKey]. by apply VerifyDID_complete.
Qed.

(** ** A concrete update *)

#[local] Existing Instance toy_task_codec.
#[local] Existing Instance sized_crypto.

(** The agent puts its task to work: one event is published, which no stream sends. *)
Lemma status_updates_unseen_witness :
  exists s', db (snd (UpdateTask toy_ctx toy_clk "t1" WORKING "" [] (World (toy_server toy_tasks) []))) = s' /\
    published s' = [mkPub (TaskEventsTopic "t1") "event"] /\
    exists extra, published s' = ([] ++ extra)%list /\
      forall p, p ∈ extra ->
        (exists t, pub_topic p = TaskDoneTopic t) \/
        exists e, pub_topic p = TaskEventsTopic (E_TaskId e) /\ marshal_event e = Some (pub_data p) /\
          forall ch, next_event (fun _ => true) 0 (e :: ch) = (ch, None, true).
Proof.
  eexists. split; [reflexivity|]. split; [vm_compute; reflexivity|].
  destruct (status_updates_unseen toy_ctx toy_clk "t1" WORKING "" [] (World (toy_server toy_tasks) [])
    (fun _ => true) 0 ltac:(lia)) as [_ H]. exact H.
Defined.
