(* ===== verification/Format.v ===== *)
(** * Display helpers ([pkg/format/format.go])

    Labels, identifiers, addresses, sizes, times and aligned tables.  [time.Duration]
    is a number of nanoseconds; where the code goes through float64 the arithmetic is
    that of [SpecFloat].  The theorems: a table is aligned and panics exactly on a row
    that is too long; a printed size is within half a unit of its last digit. *)

From stdpp Require Import base gmap strings list pretty.
From Stdlib Require Import ZArith Lia Ascii SpecFloat.
From S2P Require Import Prelude GoStd Identity Tasks Mail Records.

Import Identity Tasks.

Local Open Scope string_scope.
Local Open Scope Z_scope.

(** ** float64 *)

Definition float64 (n : Z) : spec_float := binary_normalize 53 1024 n 0 false.
Definition fadd : spec_float -> spec_float -> spec_float := SFadd 53 1024.
Definition fdiv : spec_float -> spec_float -> spec_float := SFdiv 53 1024.

(** [int(x)]: truncation towards zero. *)
Definition int_of (x : spec_float) : Z :=
  match x with
  | S754_finite s m e =>
      let v := if 0 <=? e then Zpos m * 2 ^ e else Zpos m / 2 ^ (- e) in
      if s then - v else v
  | _ => 0
  end.

Module Format.

(** ** Strings *)

Definition rune_count (s : string) : Z := llen (runes s).

Fixpoint Repeat (s : string) (n : nat) : string :=
  match n with O => "" | S n' => s ++ Repeat s n' end.

(** [%-ns]: padded on the right to [n] runes. *)
Definition pad_right (n : Z) (s : string) : string := s ++ Repeat " " (Z.to_nat (n - rune_count s)).

(** [%0nd] of a number that is not negative. *)
Definition pad_zero (n : nat) (z : Z) : string :=
  let s := pretty z in Repeat "0" (n - String.length s) ++ s.

Definition DID (d : string) : string := Short d.
Definition Capability (capID : string) : outcome string := Capability.Short capID.

Definition shortID (id : string) : string := if slen id <=? 8 then id else take_str 8 id.

(** ** Time *)

Definition Second : Z := 1000000000.
Definition Minute : Z := 60 * Second.
Definition Hour : Z := 60 * Minute.

(** [d.Seconds()], [d.Minutes()] and [d.Hours()]: the whole units plus the rest as a
    fraction. *)
Definition in_units (unit d : Z) : spec_float :=
  fadd (float64 (Z.quot d unit)) (fdiv (float64 (Z.rem d unit)) (float64 unit)).

Definition DurationShort (d : Z) : string :=
  let d := if d <? 0 then int64 (- d) else d in
  if d <? Minute then pretty (int_of (in_units Second d)) ++ "s"
  else if d <? Hour then pretty (int_of (in_units Minute d)) ++ "m"
  else if d <? 24 * Hour then pretty (int_of (in_units Hour d)) ++ "h"
  else pretty (int_of (fdiv (in_units Hour d) (float64 24))) ++ "d".

(** The date of a day counted from 1 January 1970. *)
Definition civil (days : Z) : Z * Z * Z :=
  let z := days + 719468 in
  let era := z / 146097 in
  let doe := z mod 146097 in
  let yoe := (doe - doe / 1460 + doe / 36524 - doe / 146096) / 365 in
  let doy := doe - (365 * yoe + yoe / 4 - yoe / 100) in
  let mp := (5 * doy + 2) / 153 in
  let d := doy - (153 * mp + 2) / 5 + 1 in
  let m := if mp <? 10 then mp + 3 else mp - 9 in
  (yoe + era * 400 + (if m <=? 2 then 1 else 0), m, d).

(** A year has at least four digits after its sign. *)
Definition year_str (y : Z) : string := if y <? 0 then "-" ++ pad_zero 4 (- y) else pad_zero 4 y.

Definition UnixMs (ms : Z) : string :=
  if ms =? 0 then "-" else
  let secs := ms / 1000 in
  let '(y, m, d) := civil (secs / 86400) in
  let t := secs mod 86400 in
  year_str y ++ "-" ++ pad_zero 2 m ++ "-" ++ pad_zero 2 d ++ " "
  ++ pad_zero 2 (t / 3600) ++ ":" ++ pad_zero 2 (t / 60 mod 60) ++ ":" ++ pad_zero 2 (t mod 60) ++ " UTC".

(** [time.Since]: the difference saturates. *)
Definition since (now ms : Z) : Z := Z.max (- 2 ^ 63) (Z.min (2 ^ 63 - 1) (now - ms * 1000000)).

Definition UnixMsAgo (now ms : Z) : string :=
  if ms =? 0 then "-" else DurationShort (since now ms) ++ " ago".

Definition Uptime (secs : Z) : string :=
  let d := int64 (secs * Second) in
  let hours_ := int_of (in_units Hour d) in
  let days := Z.quot hours_ 24 in
  let hours := Z.rem hours_ 24 in
  let mins := Z.rem (int_of (in_units Minute d)) 60 in
  let s := Z.rem (int_of (in_units Second d)) 60 in
  (if 0 <? days then pretty days ++ "d " else "")
  ++ (if (0 <? hours) || (0 <? days) then pretty hours ++ "h " else "")
  ++ (if (0 <? mins) || (0 <? hours) || (0 <? days) then pretty mins ++ "m " else "")
  ++ pretty s ++ "s".

(** ** Enums *)

Definition TaskStatus (s : TaskStatus) : string :=
  match s with
  | SUBMITTED => "submitted"
  | WORKING => "working"
  | COMPLETED => "completed"
  | FAILED => "failed"
  | CANCELLED => "cancelled"
  | _ => "unknown"
  end.

Definition MessageKind (k : MessageKind) : string :=
  match k with
  | KIND_TEXT => "text"
  | KIND_TASK_REQUEST => "task-request"
  | KIND_TASK_EVENT => "task-event"
  | KIND_TASK_RESULT => "task-result"
  | KIND_TASK_CANCEL => "task-cancel"
  | KIND_ACK => "ack"
  | _ => "unknown"
  end.

(** [pb.EventKind] by its number. *)
Definition EventKind (k : Z) : string :=
  match k with
  | 1 => "token"
  | 2 => "tool-call"
  | 3 => "tool-result"
  | 4 => "status"
  | 5 => "artifact"
  | 6 => "done"
  | 7 => "error"
  | _ => "unknown"
  end.

(** ** Addresses and sizes *)

Definition Multiaddr (ma : string) : string :=
  match Split "/"%char (TrimPrefix ma "/") with
  | proto :: addr :: portProto :: port :: rest =>
      let transport := match rest with
                       | [] => portProto
                       | _ => let t := Join rest "/" in if String.eqb t "" then portProto else t
                       end in
      if String.eqb proto "ip6" then "[" ++ addr ++ "]:" ++ port ++ "/" ++ transport
      else addr ++ ":" ++ port ++ "/" ++ transport
  | _ => ma
  end.

(** [n / d] to the nearest integer, ties to even. *)
Definition round_even (n d : Z) : Z :=
  let q := n / d in
  let r := n mod d in
  if 2 * r <? d then q else if d <? 2 * r then q + 1 else if Z.even q then q else q + 1.

(** [float64(n)] for a positive [n]: 53 bits. *)
Definition round53 (n : Z) : Z :=
  let e := Z.max 0 (Z.log2 n - 52) in round_even n (2 ^ e) * 2 ^ e.

(** [%.kf] of [float64(n)/unit] for a power of two [unit]: that division is exact, and
    the decimal digits are those of the exact quotient, rounded to even. *)
Definition scaled (k : nat) (n unit : Z) : Z := round_even (round53 n * 10 ^ Z.of_nat k) unit.
Definition fixed (k : nat) (n unit : Z) : string :=
  let v := scaled k n unit in
  pretty (v / 10 ^ Z.of_nat k) ++ "." ++ pad_zero k (v mod 10 ^ Z.of_nat k).

Definition KB : Z := 1024.
Definition MB : Z := 1024 * KB.
Definition GB : Z := 1024 * MB.

Definition Bytes (n : Z) : string :=
  if n <? KB then pretty n ++ " B"
  else if n <? MB then fixed 1 n KB ++ " KB"
  else if n <? GB then fixed 1 n MB ++ " MB"
  else fixed 2 n GB ++ " GB".

(** ** Tables *)

Fixpoint widen (ws : list Z) (row : list string) : list Z :=
  match ws, row with
  | w :: ws', cell :: row' => Z.max w (rune_count cell) :: widen ws' row'
  | _, _ => ws
  end.

Definition table_widths (header : list string) (rows : list (list string)) : list Z :=
  fold_left widen rows (rune_count <$> header).

(** [writeRow] without the newline; indexing the widths panics beyond the header. *)
Fixpoint write_cols (first : bool) (ws : list Z) (cols : list string) {struct cols} : outcome string :=
  match cols with
  | [] => Ok ""
  | col :: rest =>
      match ws with
      | [] => Panic
      | w :: ws' =>
          let pad := w - rune_count col in
          match write_cols false ws' rest with
          | Ok s => Ok ((if first then "" else "  ") ++ col
                        ++ (match rest with [] => "" | _ => Repeat " " (Z.to_nat pad) end) ++ s)
          | r => r
          end
      end
  end.

Definition newline : string := String "010"%char "".

Fixpoint write_rows (ws : list Z) (rows : list (list string)) : outcome string :=
  match rows with
  | [] => Ok ""
  | row :: rows' =>
      match write_cols true ws row with
      | Ok line => match write_rows ws rows' with Ok s => Ok (line ++ newline ++ s) | r => r end
      | r => r
      end
  end.

Definition bar : string := bytes [226; 148; 128]%nat.

Definition Table (header : list string) (rows : list (list string)) : outcome string :=
  match header with
  | [] => Ok ""
  | _ =>
      let ws := table_widths header rows in
      write_rows ws (header :: ((fun w => Repeat bar (Z.to_nat w)) <$> ws) :: rows)
  end.

(** ** Summaries *)

Definition arrow : string := bytes [226; 134; 146]%nat.

Definition Message (now : Z) (m : Message) : string :=
  "[" ++ shortID (m_Id m) ++ "]  " ++ DID (m_FromDid m) ++ " " ++ arrow ++ " " ++ DID (m_ToDid m)
  ++ "  " ++ pad_right 12 (MessageKind (m_Kind m)) ++ "  " ++ UnixMsAgo now (m_SentAt m).

Definition Task (now : Z) (t : Task) : outcome string :=
  match Capability (Skill t) with
  | Ok cap =>
      Ok ("[" ++ shortID (Id t) ++ "]  " ++ pad_right 10 (TaskStatus (Status t)) ++ "  " ++ pad_right 18 cap
          ++ "  " ++ DID (Initiator t) ++ " " ++ arrow ++ " " ++ DID (Assignee t) ++ "  " ++ UnixMsAgo now (CreatedAt t))
  | Err e => Err e
  | Panic => Panic
  end.

Fixpoint skill_names (l : list Records.Skill) : outcome (list string) :=
  match l with
  | [] => Ok []
  | s :: l' =>
      match Capability (sk_Id s), skill_names l' with
      | Ok n, Ok ns => Ok (n :: ns)
      | Err e, _ | Ok _, Err e => Err e
      | _, _ => Panic
      end
  end.

Definition AgentCard (c : AgentCard) : outcome string :=
  match skill_names (a_Skills c) with
  | Ok ns =>
      let skillStr := Join ns ", " in
      Ok (pad_right 20 (a_Name c) ++ "  " ++ DID (a_Did c) ++ "  ["
          ++ (if String.eqb skillStr "" then "-" else skillStr) ++ "]")
  | Err e => Err e
  | Panic => Panic
  end.

End Format.

Import Format.

(** ** Alignment of tables *)

(** An ASCII character ends whatever precedes it. *)
Lemma runes_app_ascii s a t : byte_of a < 128 -> runes (s ++ String a t) = (runes s ++ runes (String a t))%list.
Proof.
  intros Ha.
  assert (E1 : cont (byte_of a) = false) by (unfold cont, between; lia).
  assert (E2 : between 160 (byte_of a) 191 = false) by (unfold between; lia).
  assert (E3 : between 128 (byte_of a) 159 = false) by (unfold between; lia).
  assert (E4 : between 144 (byte_of a) 191 = false) by (unfold between; lia).
  assert (E5 : between 128 (byte_of a) 143 = false) by (unfold between; lia).
  assert (Hn : exists n, (String.length s <= n)%nat) by eauto. destruct Hn as [n Hn].
  revert s Hn. induction n as [|n IH]; intros s Hn.
  { destruct s; [done|simpl in Hn; lia]. }
  destruct s as [|c1 s1]; [done|]. cbn [String.length] in Hn.
  assert (H1 : runes (s1 ++ String a t) = (runes s1 ++ runes (String a t))%list) by (apply IH; lia).
  change ((String c1 s1 ++ String a t)%string) with (String c1 (s1 ++ String a t)).
  cbn [runes]. destruct (byte_of c1 <? 128); [simpl; by rewrite H1|].
  destruct s1 as [|c2 s2].
  { change (("" ++ String a t)%string) with (String a t) in *. cbv iota.
    rewrite E1, E2, E3, E4, E5, !andb_false_r. simpl orb. destruct t as [|t1 [|t2 t]]; done. }
  assert (H2 : runes (s2 ++ String a t) = (runes s2 ++ runes (String a t))%list) by (cbn [String.length] in Hn; apply IH; lia).
  change ((String c2 s2 ++ String a t)%string) with (String c2 (s2 ++ String a t)) in *. cbv iota.
  destruct (between 194 (byte_of c1) 223 && cont (byte_of c2)); [simpl; by rewrite H2|].
  destruct s2 as [|c3 s3].
  { change (("" ++ String a t)%string) with (String a t) in *. cbv iota. rewrite E1, !andb_false_r.
    simpl orb. rewrite H1. destruct t as [|t1 t]; done. }
  assert (H3 : runes (s3 ++ String a t) = (runes s3 ++ runes (String a t))%list) by (cbn [String.length] in Hn; apply IH; lia).
  change ((String c3 s3 ++ String a t)%string) with (String c3 (s3 ++ String a t)) in *. cbv iota.
  match goal with |- context [if ?b then _ else _] => destruct b end; [simpl; by rewrite H3|].
  destruct s3 as [|c4 s4].
  { change (("" ++ String a t)%string) with (String a t) in *. cbv iota. rewrite E1, !andb_false_r. by rewrite H1. }
  assert (H4 : runes (s4 ++ String a t) = (runes s4 ++ runes (String a t))%list) by (cbn [String.length] in Hn; apply IH; lia).
  change ((String c4 s4 ++ String a t)%string) with (String c4 (s4 ++ String a t)) in *. cbv iota.
  match goal with |- context [if ?b then _ else _] => destruct b end; [by rewrite H4|by rewrite H1].
Qed.

Lemma rune_count_app s a t : byte_of a < 128 -> rune_count (s ++ String a t) = rune_count s + rune_count (String a t).
Proof. intros Ha. unfold rune_count, llen. rewrite runes_app_ascii by done. rewrite length_app. lia. Qed.

Lemma rune_count_space t : rune_count (String " "%char t) = 1 + rune_count t.
Proof. unfold rune_count, llen. change (runes (String " "%char t)) with (32 :: runes t). simpl length. lia. Qed.

Lemma rune_count_spaces n t : rune_count (Repeat " " n ++ t) = Z.of_nat n + rune_count t.
Proof.
  induction n as [|n IH]; [done|]. change (Repeat " " (S n) ++ t) with (String " "%char (Repeat " " n ++ t)).
  rewrite rune_count_space, IH. lia.
Qed.

Lemma runes_bar_app n t : runes (Repeat bar n ++ t) = (replicate n 9472 ++ runes t)%list.
Proof. induction n as [|n IH]; [done|]. simpl. by rewrite <- IH. Qed.

Lemma rune_count_bar n : rune_count (Repeat bar n) = Z.of_nat n.
Proof.
  unfold rune_count, llen. rewrite <- (append_nil_str (Repeat bar n)), runes_bar_app, app_nil_r. by rewrite length_replicate.
Qed.

(** A string of spaces followed by one that begins with a space. *)
Lemma spaces_cons n t : exists u, Repeat " " n ++ String " "%char t = String " "%char u.
Proof. destruct n as [|n]; [by eexists|]. eexists (Repeat " " n ++ String " "%char t). done. Qed.

(** Where column [i] starts, in runes. *)
Definition column (ws : list Z) (i : nat) : Z := foldr (fun w n => w + 2 + n) 0 (take i ws).

Definition fits (ws : list Z) (cols : list string) : Prop := Forall2 (fun c w => rune_count c <= w) cols (take (length cols) ws).

Lemma fits_cons ws c cols : fits ws (c :: cols) -> exists w ws', ws = w :: ws' /\ rune_count c <= w /\ fits ws' cols.
Proof.
  unfold fits. destruct ws as [|w ws']; cbn [length take]; inversion 1; subst. by exists w, ws'.
Qed.

Lemma write_cols_at first ws cols : fits ws cols ->
  exists s, write_cols first ws cols = Ok s /\
    forall i col, cols !! i = Some col -> exists pre post, s = pre ++ (col ++ post) /\
      rune_count pre = column ws i + (if first then 0 else 2) /\
      (first = false -> exists u, pre = String " "%char u).
Proof.
  revert first ws. induction cols as [|c cols IH]; intros first ws Hf; [exists ""; split; [done|]; intros [|i] col Hc; discriminate Hc|].
  apply fits_cons in Hf as (w & ws' & -> & Hw & Hf). destruct (IH false ws' Hf) as (s & Es & Hs).
  cbn [write_cols]. rewrite Es. eexists. split; [reflexivity|].
  intros [|i] col Hc; simpl in Hc.
  - injection Hc as <-. exists (if first then "" else "  "). eexists. split; [reflexivity|].
    split; [by destruct first|]. intros ->. by eexists.
  - destruct (Hs i col Hc) as (pre & post & -> & Hpre & Hsp). destruct (Hsp eq_refl) as [u ->].
    destruct cols as [|c2 cols]; [done|]. set (n := Z.to_nat (w - rune_count c)).
    exists ((if first then "" else "  ") ++ (c ++ (Repeat " " n ++ String " "%char u))), post.
    split; [by rewrite <- !append_assoc_str|].
    assert (E : rune_count (c ++ (Repeat " " n ++ String " "%char u)) = w + rune_count (String " "%char u)).
    { destruct (spaces_cons n u) as [v Ev]. rewrite Ev, rune_count_app by (vm_compute; reflexivity).
      rewrite <- Ev, rune_count_spaces. lia. }
    split; [|intros ->; by eexists].
    unfold column in *. cbn [take foldr]. destruct first.
    + change (("" ++ (c ++ (Repeat " " n ++ String " "%char u)))%string) with (c ++ (Repeat " " n ++ String " "%char u)). lia.
    + change (("  " ++ (c ++ (Repeat " " n ++ String " "%char u)))%string)
        with (String " "%char (String " "%char (c ++ (Repeat " " n ++ String " "%char u)))).
      rewrite !rune_count_space. lia.
Qed.

Lemma write_cols_long first ws cols : (length ws < length cols)%nat -> write_cols first ws cols = Panic.
Proof.
  revert first ws. induction cols as [|c cols IH]; intros first ws Hl; [simpl in Hl; lia|].
  destruct ws as [|w ws]; [done|]. simpl in *. rewrite IH by lia. done.
Qed.

Lemma widen_length ws row : length (widen ws row) = length ws.
Proof. revert row. induction ws as [|w ws IH]; intros [|c row]; simpl; auto. Qed.

Lemma widen_fits_row ws row : (length row <= length ws)%nat -> fits (widen ws row) row.
Proof.
  revert ws. induction row as [|c row IH]; intros [|w ws] Hl; simpl in *; try lia; [constructor..|].
  unfold fits. simpl. constructor; [lia|]. apply IH. lia.
Qed.

Lemma widen_fits ws row cols : fits ws cols -> fits (widen ws row) cols.
Proof.
  revert ws row. induction cols as [|c cols IH]; intros ws row Hf; [constructor|].
  apply fits_cons in Hf as (w & ws' & -> & Hw & Hf). destruct row as [|r row]; unfold fits; simpl; constructor; try lia; [done|].
  by apply IH.
Qed.

Lemma widths_fit rows ws :
  length (fold_left widen rows ws) = length ws /\
  (forall cols, fits ws cols -> fits (fold_left widen rows ws) cols) /\
  (forall row, row ∈ rows -> (length row <= length ws)%nat -> fits (fold_left widen rows ws) row).
Proof.
  revert ws. induction rows as [|r rows IH]; intros ws; simpl.
  { split; [done|]. split; [done|]. intros row Hr. by apply not_elem_of_nil in Hr. }
  destruct (IH (widen ws r)) as (Hl & Hk & Hr). rewrite widen_length in *. split; [done|]. split.
  - intros cols Hc. by apply Hk, widen_fits.
  - intros row Hin Hlen. apply elem_of_cons in Hin as [->|Hin]; [by apply Hk, widen_fits_row|by apply Hr].
Qed.

(** The rows a table writes: header, separator, data. *)
Definition table_rows (header : list string) (rows : list (list string)) : list (list string) :=
  header :: ((fun w => Repeat bar (Z.to_nat w)) <$> table_widths header rows) :: rows.

Lemma rune_count_nonneg s : 0 <= rune_count s.
Proof. unfold rune_count, llen. lia. Qed.

Lemma widths_nonneg rows ws : Forall (fun w => 0 <= w) ws -> Forall (fun w => 0 <= w) (fold_left widen rows ws).
Proof.
  revert ws. induction rows as [|r rows IH]; intros ws Hw; [done|]. simpl. apply IH.
  revert r. induction Hw as [|w ws Hw' Hws IHw]; intros [|c r]; simpl; [done|done|by constructor|].
  constructor; [lia|apply IHw].
Qed.

Lemma fits_self ws : Forall (fun w => 0 <= w) ws -> fits ws ((fun w => Repeat bar (Z.to_nat w)) <$> ws).
Proof.
  unfold fits. rewrite length_fmap, firstn_all. induction 1 as [|w ws Hw _ IH]; simpl; constructor; [|done].
  rewrite rune_count_bar. lia.
Qed.

Lemma fits_header header : fits (rune_count <$> header) header.
Proof.
  unfold fits. rewrite <- (length_fmap rune_count header), firstn_all. induction header; simpl; by constructor.
Qed.

Lemma table_rows_fit header rows : Forall (fun r => length r <= length header)%nat rows ->
  Forall (fits (table_widths header rows)) (table_rows header rows).
Proof.
  intros Hr. destruct (widths_fit rows (rune_count <$> header)) as (_ & Hk & Hrows).
  unfold table_rows. constructor; [apply Hk, fits_header|]. constructor.
  - apply fits_self, widths_nonneg, Forall_fmap, Forall_true. intros s. apply rune_count_nonneg.
  - apply Forall_forall. intros row Hin. apply Hrows; [done|]. rewrite length_fmap.
    rewrite Forall_forall in Hr. by apply Hr.
Qed.

Definition line_list (lines : list string) : string := foldr (fun l s => l ++ (newline ++ s)) "" lines.

Lemma write_rows_at ws rows : Forall (fits ws) rows ->
  exists lines, write_rows ws rows = Ok (line_list lines) /\ length lines = length rows /\
    forall k row i cell, rows !! k = Some row -> row !! i = Some cell ->
      exists line pre post, lines !! k = Some line /\ line = pre ++ (cell ++ post) /\ rune_count pre = column ws i.
Proof.
  induction 1 as [|row rows Hf _ (lines & E & Hl & IH)].
  { exists []. split; [done|]. split; [done|]. intros k row i cell Hk. by destruct k. }
  destruct (write_cols_at true ws row Hf) as (line & El & Hline).
  exists (line :: lines). simpl. rewrite El, E. split; [done|]. split; [by rewrite Hl|].
  intros [|k] row' i cell Hk Hi; simpl in Hk; [|by apply (IH k row' i cell)].
  injection Hk as <-. destruct (Hline i cell Hi) as (pre & post & Es & Hp & _).
  exists line, pre, post. split; [done|]. split; [done|]. lia.
Qed.

Lemma write_rows_long ws rows : Exists (fun r => length ws < length r)%nat rows -> Forall (fun r => is_ok (write_cols true ws r) = true \/ length ws < length r)%nat rows ->
  write_rows ws rows = Panic.
Proof.
  intros Hex. induction Hex as [row rows Hl|row rows Hex IH]; intros Hall; apply Forall_cons in Hall as [Hrow Hall]; simpl.
  - by rewrite write_cols_long.
  - rewrite IH by done. destruct Hrow as [Hok|Hl]; [|by rewrite write_cols_long].
    by destruct (write_cols true ws row).
Qed.

Lemma cols_ok_or_long first ws cols : is_ok (write_cols first ws cols) = true \/ (length ws < length cols)%nat.
Proof.
  revert first ws. induction cols as [|c cols IH]; intros first ws; [by left|]. destruct ws as [|w ws]; [right; simpl; lia|].
  simpl. destruct (IH false ws) as [Hok|Hl]; [left|right; lia]. by destruct (write_cols false ws cols).
Qed.

(** Tables are aligned: with rows of at most as many cells as the header, the table is
    one line for the header, one of rules and one per row, and in every line cell [i]
    starts after the same number of characters, whatever the cells hold; a longer row
    makes the call panic. *)
Theorem table_aligned header rows :
  header <> [] ->
  (Forall (fun r => length r <= length header)%nat rows ->
   exists lines, Table header rows = Ok (line_list lines) /\ length lines = (2 + length rows)%nat /\
     forall k row i cell, table_rows header rows !! k = Some row -> row !! i = Some cell ->
       exists line pre post, lines !! k = Some line /\ line = pre ++ (cell ++ post) /\
         rune_count pre = column (table_widths header rows) i) /\
  (Exists (fun r => length header < length r)%nat rows -> Table header rows = Panic).
Proof.
  intros Hh. assert (ET : Table header rows = write_rows (table_widths header rows) (table_rows header rows))
    by (by destruct header). rewrite ET. clear ET. split.
  - intros Hr. destruct (write_rows_at _ _ (table_rows_fit header rows Hr)) as (lines & E & Hl & Hc). by exists lines.
  - intros Hex. destruct (widths_fit rows (rune_count <$> header)) as (Hl & _). rewrite length_fmap in Hl.
    apply write_rows_long; [|apply Forall_true; intros r; apply cols_ok_or_long].
    unfold table_rows, table_widths. rewrite Hl. right. by right.
Qed.

Lemma table_aligned_witness :
  exists lines, Table ["ID"; "NAME"] [["1"; "x"]; ["22222"; "y"]] = Ok (line_list lines) /\ length lines = 4%nat.
Proof.
  destruct (table_aligned ["ID"; "NAME"] [["1"; "x"]; ["22222"; "y"]]) as [Ha _]; [discriminate|].
  destruct Ha as (lines & E & Hl & _); [by repeat constructor|]. by exists lines.
Defined.

(** ** Sizes *)

Lemma round_even_near n d : 0 < d -> 2 * Z.abs (round_even n d * d - n) <= d.
Proof.
  intros Hd. unfold round_even. pose proof (Z.div_mod n d ltac:(lia)) as E. pose proof (Z.mod_pos_bound n d Hd) as Hr.
  set (q := n / d) in *. set (r := n mod d) in *.
  destruct (Z.ltb_spec (2 * r) d); [nia|]. destruct (Z.ltb_spec d (2 * r)); [nia|]. destruct (Z.even q); nia.
Qed.

Lemma round53_small n : 0 <= n < 2 ^ 53 -> round53 n = n.
Proof.
  intros Hn. unfold round53. assert (Hl : Z.log2 n - 52 <= 0).
  { destruct (Z.eq_dec n 0) as [->|]; [simpl; lia|]. pose proof (Z.log2_lt_pow2 n 53). lia. }
  rewrite Z.max_l by lia. unfold round_even. rewrite Z.div_1_r, Z.mod_1_r. simpl. lia.
Qed.

(** A printed size is right to half a unit of its last digit: below a petabyte, the
    number before "KB", "MB" or "GB", in tenths or hundredths, differs from the exact
    quotient by at most one half. *)
Theorem bytes_precise n :
  0 <= n < 2 ^ 50 ->
  (n < KB -> Bytes n = pretty n ++ " B") /\
  (KB <= n < MB -> Bytes n = fixed 1 n KB ++ " KB" /\ 2 * Z.abs (scaled 1 n KB * KB - 10 * n) <= KB) /\
  (MB <= n < GB -> Bytes n = fixed 1 n MB ++ " MB" /\ 2 * Z.abs (scaled 1 n MB * MB - 10 * n) <= MB) /\
  (GB <= n -> Bytes n = fixed 2 n GB ++ " GB" /\ 2 * Z.abs (scaled 2 n GB * GB - 100 * n) <= GB).
Proof.
  intros Hn. unfold Bytes, scaled. rewrite round53_small by lia.
  assert (HKB : KB = 1024) by done. assert (HMB : MB = 1048576) by done. assert (HGB : GB = 1073741824) by done.
  pose proof (round_even_near (n * 10 ^ Z.of_nat 1) KB). pose proof (round_even_near (n * 10 ^ Z.of_nat 1) MB).
  pose proof (round_even_near (n * 10 ^ Z.of_nat 2) GB).
  change (10 ^ Z.of_nat 1) with 10 in *. change (10 ^ Z.of_nat 2) with 100 in *.
  destruct (Z.ltb_spec n KB), (Z.ltb_spec n MB), (Z.ltb_spec n GB); try lia;
    (split; [|split; [|split]]); intros Hr; try lia; first [reflexivity|split; [reflexivity|lia]].
Qed.

Lemma bytes_precise_witness :
  Bytes 1536000 = fixed 1 1536000 MB ++ " MB" /\ 2 * Z.abs (scaled 1 1536000 MB * MB - 10 * 1536000) <= MB.
Proof. apply (bytes_precise 1536000); [lia|]. split; [discriminate|reflexivity]. Defined.

Example sizes_and_times :
  Bytes 1536 = "1.5 KB" /\ Bytes 1048575 = "1024.0 KB" /\ Uptime 183845 = "2d 3h 4m 5s" /\
  Multiaddr "/ip6/::1/tcp/9000" = "[::1]:9000/tcp" /\ UnixMs 1700000000123 = "2023-11-14 22:13:20 UTC" /\
  DurationShort (- 2 ^ 63) = "-9223372036s".
Proof. vm_compute. done. Qed.

(** Summaries never panic: a capability that does not parse is shown as it is. *)
Lemma Parse_total c : Capability.Parse c <> Panic.
Proof.
  unfold Capability.Parse, Capability.Validate, Capability.validateName.
  destruct (SplitN ":"%char 4 c) as [|p0 [|p1 [|p2 [|p3 [|p4 l]]]]]; try done.
  by repeat match goal with |- context [if ?b then _ else _] => destruct b end.
Qed.

Lemma Capability_ok c : exists s, Capability c = Ok s.
Proof.
  unfold Capability, Capability.Short, Capability.Name. pose proof (Parse_total c).
  destruct (Capability.Parse c) as [[[? ?] name]|e|]; [| |done];
    match goal with |- context [if ?b then _ else _] => destruct b end; eauto.
Qed.

Lemma summaries_total now t card : (exists s, Task now t = Ok s) /\ exists s, AgentCard card = Ok s.
Proof.
  unfold Task, AgentCard. destruct (Capability_ok (Skill t)) as [s ->]. split; [by eexists|].
  assert (Hs : exists ns, skill_names (a_Skills card) = Ok ns).
  { induction (a_Skills card) as [|k l [ns IH]]; [by exists []|]. simpl. rewrite IH.
    destruct (Capability_ok (sk_Id k)) as [n ->]. by eexists. }
  destruct Hs as [ns ->]. by eexists.
Qed.
