(* ===== verification/Tui.v ===== *)
(** * The terminal UI ([cmd/moltmesh/tui.go])

    A program in the Elm style: [Update] takes the model and a message and returns the
    next model with commands; the Bubble Tea runtime runs the commands concurrently and
    feeds their results back as messages.  The widgets (text inputs, lists) are
    third-party code behind the class [Bubbles]; spinner frames, window sizes and the
    scroll position of the detail view only matter for rendering and are left out. *)

From stdpp Require Import base gmap strings list pretty.
From Stdlib Require Import ZArith Lia.
From S2P Require Import Prelude GoStd Identity Tasks Mail.

Import Identity Tasks.

Local Open Scope string_scope.
Local Open Scope Z_scope.

(** Colours of the status line. *)
Inductive style : Type := Success | Warning | Danger | Muted.

(** bubbles/textinput, bubbles/list and lipgloss. *)
Class Bubbles : Type := {
  Input : Type;
  i_New : Input;
  i_Value : Input -> string;
  i_SetValue : string -> Input -> Input;
  i_Focus : Input -> Input;
  i_Blur : Input -> Input;
  i_Focused : Input -> bool;
  i_Update : string -> Input -> Input;
  ListModel : Type -> Type;
  l_New : forall A, ListModel A;
  l_Items : forall A, ListModel A -> list A;
  l_SetItems : forall A, list A -> ListModel A -> ListModel A;
  l_SelectedItem : forall A, ListModel A -> option A;
  l_Update : forall A, string -> ListModel A -> ListModel A;
  Render : style -> string -> string }.
Arguments l_New {_} A.
Arguments l_Items {_ A} m.
Arguments l_SetItems {_ A} l m.
Arguments l_SelectedItem {_ A} m.
Arguments l_Update {_ A} key m.

(** A new input is empty and not focused; keys change the text of a focused input
    only, and never its focus.  Keys do not change the items of a list, and the
    selected item is one of them. *)
Class BubblesLaws `{Bubbles} : Prop := {
  i_New_spec : i_Focused i_New = false /\ i_Value i_New = "";
  i_Focused_Focus : forall i, i_Focused (i_Focus i) = true;
  i_Focused_Blur : forall i, i_Focused (i_Blur i) = false;
  i_Focused_SetValue : forall v i, i_Focused (i_SetValue v i) = i_Focused i;
  i_Focused_Update : forall k i, i_Focused (i_Update k i) = i_Focused i;
  i_Value_Focus : forall i, i_Value (i_Focus i) = i_Value i;
  i_Value_Blur : forall i, i_Value (i_Blur i) = i_Value i;
  i_Value_clear : forall i, i_Value (i_SetValue "" i) = "";
  i_Value_Update : forall k i, i_Focused i = false -> i_Value (i_Update k i) = i_Value i;
  l_Items_New : forall A, l_Items (l_New A) = [];
  l_Items_SetItems : forall A (l : list A) m, l_Items (l_SetItems l m) = l;
  l_Items_Update : forall A k (m : ListModel A), l_Items (l_Update k m) = l_Items m;
  l_Selected_in : forall A (m : ListModel A) x, l_SelectedItem m = Some x -> x ∈ l_Items m }.

Module Tui.

(** ** Text helpers *)

Definition shortDID (did : string) : string :=
  if slen did <=? 20 then did else take_str 16 did ++ ellipsis.

Definition shortPeer (id : string) : string :=
  if slen id <=? 20 then id else take_str 8 id ++ ellipsis ++ drop_str (String.length id - 8) id.

Definition truncate (s : string) (n : nat) : string :=
  if slen s <=? Z.of_nat n then s else take_str n s ++ ellipsis.

(** [%02d] for a number below 100. *)
Definition two_digits (n : Z) : string := if n <? 10 then "0" ++ pretty n else pretty n.

(** [fmtDuration]: [d] in nanoseconds, rounded to the second (halves away from zero). *)
Definition second : Z := 1000000000.
Definition round_second (d : Z) : Z :=
  let r := Z.rem d second in
  if d <? 0 then (if - r * 2 <? second then d - r else d - r - second)
  else (if r * 2 <? second then d - r else d + second - r).
Definition fmtDuration (d : Z) : string :=
  let d := round_second d in
  let h := Z.quot d (3600 * second) in
  let d := d - h * (3600 * second) in
  let min := Z.quot d (60 * second) in
  let d := d - min * (60 * second) in
  let s := Z.quot d second in
  if 0 <? h then pretty h ++ "h" ++ two_digits min ++ "m" ++ two_digits s ++ "s"
  else if 0 <? min then pretty min ++ "m" ++ two_digits s ++ "s"
  else pretty s ++ "s".

Section Labels.
Context `{Bubbles}.

Definition kindLabel (k : MessageKind) : string :=
  match k with
  | KIND_TEXT => Render Success "text"
  | KIND_TASK_REQUEST => Render Warning "task_request"
  | KIND_TASK_EVENT => Render Warning "task_event"
  | KIND_TASK_RESULT => Render Success "task_result"
  | KIND_ACK => Render Muted "ack"
  | _ => Render Muted "unknown"
  end.

Definition statusLabel (s : TaskStatus) : string :=
  match s with
  | SUBMITTED => Render Muted "submitted"
  | WORKING => Render Warning "working"
  | COMPLETED => Render Success "completed"
  | FAILED => Render Danger "failed"
  | CANCELLED => Render Muted "cancelled"
  | _ => Render Muted "unknown"
  end.
End Labels.

(** ** The model *)

(** [tab], in the order of the bar. *)
Inductive tab : Type := tabIdentity | tabInbox | tabCompose | tabTasks | tabPeers | tabFiles.
#[export] Instance tab_eq_dec : EqDecision tab.
Proof. solve_decision. Defined.

Definition tab_num (t : tab) : Z :=
  match t with tabIdentity => 0 | tabInbox => 1 | tabCompose => 2 | tabTasks => 3 | tabPeers => 4 | tabFiles => 5 end.
Definition tabNames : list string := ["Identity"; "Inbox"; "Compose"; "Tasks"; "Peers"; "Files"].
Definition tabs : list tab := [tabIdentity; tabInbox; tabCompose; tabTasks; tabPeers; tabFiles].

(** What the daemon answers to GetIdentity, Health and ListPeers. *)
Record AgentIdentity : Type := mkIdentity { id_Did : string }.
Record HealthResponse : Type := mkHealth { h_PeerCount : Z; h_UptimeSecs : Z }.
Record PeerInfo : Type := mkPeer { p_PeerId : string; p_LatencyMs : Z; p_Addrs : list string }.

(** The errors [Update] tells apart. *)
Inductive tui_error : Type := Canceled | Failure (text : string).

(** [tea.Msg]; a stream is named by a number.  [Other] is a message [Update] has no
    case for (a cursor blink). *)
Inductive Msg : Type :=
| WindowSizeMsg (width height : Z)
| KeyMsg (key : string)
| TickMsg
| Other
| tickMsg
| identityMsg (id : AgentIdentity)
| healthMsg (h : HealthResponse)
| inboxMsg (msgs : list Message)
| newMessageMsg (msg : Message) (stream : nat)
| tasksMsg (tasks : list Task)
| peersMsg (peers : list PeerInfo)
| sendResultMsg (id : string) (err : option string)
| errMsg (err : option tui_error).

(** [tea.Cmd]; [CmdWidget] is a command of a widget, [tickAfter] waits 15 s. *)
Inductive Cmd : Type :=
| fetchIdentity | fetchHealth | fetchInbox | fetchPeers | tickAfter
| subscribeInbox (stream : option nat)
| sendMessage (to text : string)
| sendFile (path : string)
| CmdWidget
| Quit.

Section Update.
Context `{Bubbles}.

Record Compose : Type := mkCompose {
  composeTo : Input; composeText : Input; composeFocus : Z; composeSending : bool }.
Record Files : Type := mkFiles {
  filePath : Input; fileCID : Input; fileFocus : Z; fileResult : string; fileBusy : bool }.
Record InboxScreen : Type := mkInbox {
  inboxList : ListModel Message; inboxMsgs : list Message; inboxSeen : gset string;
  inboxStream : option nat; selectedMsg : option Message }.

Record tuiModel : Type := mkModel {
  cancelled : bool; width : Z; height : Z; activeTab : tab; statusMsg : string; statusExpiry : Z;
  identity : option AgentIdentity; health : option HealthResponse;
  inbox : InboxScreen; compose : Compose; taskList : ListModel Task; peerList : ListModel PeerInfo;
  files : Files; showDetail : bool; loading : bool }.

Definition set_tab (t : tab) (m : tuiModel) : tuiModel :=
  mkModel (cancelled m) (width m) (height m) t (statusMsg m) (statusExpiry m) (identity m) (health m)
    (inbox m) (compose m) (taskList m) (peerList m) (files m) (showDetail m) (loading m).
Definition set_inbox (i : InboxScreen) (m : tuiModel) : tuiModel :=
  mkModel (cancelled m) (width m) (height m) (activeTab m) (statusMsg m) (statusExpiry m) (identity m) (health m)
    i (compose m) (taskList m) (peerList m) (files m) (showDetail m) (loading m).
Definition set_compose (c : Compose) (m : tuiModel) : tuiModel :=
  mkModel (cancelled m) (width m) (height m) (activeTab m) (statusMsg m) (statusExpiry m) (identity m) (health m)
    (inbox m) c (taskList m) (peerList m) (files m) (showDetail m) (loading m).
Definition set_files (f : Files) (m : tuiModel) : tuiModel :=
  mkModel (cancelled m) (width m) (height m) (activeTab m) (statusMsg m) (statusExpiry m) (identity m) (health m)
    (inbox m) (compose m) (taskList m) (peerList m) f (showDetail m) (loading m).
Definition set_lists (t : ListModel Task) (p : ListModel PeerInfo) (m : tuiModel) : tuiModel :=
  mkModel (cancelled m) (width m) (height m) (activeTab m) (statusMsg m) (statusExpiry m) (identity m) (health m)
    (inbox m) (compose m) t p (files m) (showDetail m) (loading m).
Definition set_detail (b : bool) (m : tuiModel) : tuiModel :=
  mkModel (cancelled m) (width m) (height m) (activeTab m) (statusMsg m) (statusExpiry m) (identity m) (health m)
    (inbox m) (compose m) (taskList m) (peerList m) (files m) b (loading m).
Definition set_size (w h : Z) (m : tuiModel) : tuiModel :=
  mkModel (cancelled m) w h (activeTab m) (statusMsg m) (statusExpiry m) (identity m) (health m)
    (inbox m) (compose m) (taskList m) (peerList m) (files m) (showDetail m) (loading m).
Definition set_node (i : option AgentIdentity) (h : option HealthResponse) (l : bool) (m : tuiModel) : tuiModel :=
  mkModel (cancelled m) (width m) (height m) (activeTab m) (statusMsg m) (statusExpiry m) i h
    (inbox m) (compose m) (taskList m) (peerList m) (files m) (showDetail m) l.
Definition cancel (m : tuiModel) : tuiModel :=
  mkModel true (width m) (height m) (activeTab m) (statusMsg m) (statusExpiry m) (identity m) (health m)
    (inbox m) (compose m) (taskList m) (peerList m) (files m) (showDetail m) (loading m).

(** The message is shown for four seconds. *)
Definition setStatus (now : Z) (s : string) (m : tuiModel) : tuiModel :=
  mkModel (cancelled m) (width m) (height m) (activeTab m) s (now + 4 * second) (identity m) (health m)
    (inbox m) (compose m) (taskList m) (peerList m) (files m) (showDetail m) (loading m).

Definition newTUIModel : tuiModel :=
  mkModel false 0 0 tabIdentity "" 0 None None
    (mkInbox (l_New Message) [] ∅ None None) (mkCompose i_New i_New 0 false)
    (l_New Task) (l_New PeerInfo) (mkFiles i_New i_New 0 "" false) false true.

Definition Init (m : tuiModel) : list Cmd :=
  [CmdWidget; fetchIdentity; fetchHealth; fetchInbox; fetchPeers; subscribeInbox (inboxStream (inbox m)); tickAfter].

Definition inputFocused (m : tuiModel) : bool :=
  i_Focused (composeTo (compose m)) || i_Focused (composeText (compose m))
  || i_Focused (filePath (files m)) || i_Focused (fileCID (files m)).

(** The bar shows the message until it expires, and the node's health. *)
Definition status_message (now : Z) (m : tuiModel) : string :=
  if now <? statusExpiry m then statusMsg m else "".

Definition blur_compose (focus : Z) (c : Compose) : Compose :=
  mkCompose (i_Blur (composeTo c)) (i_Blur (composeText c)) focus (composeSending c).

Definition onTabSwitch (m : tuiModel) : tuiModel * list Cmd :=
  let f := files m in
  let m1 := set_files (mkFiles (i_Blur (filePath f)) (i_Blur (fileCID f)) (-1) (fileResult f) (fileBusy f))
              (set_compose (blur_compose (-1) (compose m)) m) in
  (m1, match activeTab m with
       | tabIdentity => [fetchHealth]
       | tabInbox => [fetchInbox]
       | tabPeers => [fetchPeers]
       | _ => []
       end).

Definition applyComposeFocus (c : Compose) : Compose :=
  if composeFocus c =? 0 then mkCompose (i_Focus (composeTo c)) (i_Blur (composeText c)) (composeFocus c) (composeSending c)
  else if composeFocus c =? 1 then mkCompose (i_Blur (composeTo c)) (i_Focus (composeText c)) (composeFocus c) (composeSending c)
  else if composeFocus c =? 2 then mkCompose (i_Blur (composeTo c)) (i_Blur (composeText c)) (composeFocus c) (composeSending c)
  else c.

Definition with_focus (n : Z) (c : Compose) : Compose :=
  mkCompose (composeTo c) (composeText c) n (composeSending c).

Definition updateCompose (key : string) (c : Compose) : Compose * list Cmd :=
  if String.eqb key "tab" then
    (applyComposeFocus (with_focus (if composeFocus c <? 0 then 0 else (composeFocus c + 1) `rem` 3) c), [])
  else if String.eqb key "enter" then
    if composeFocus c <? 0 then (applyComposeFocus (with_focus 0 c), [])
    else if composeFocus c =? 0 then (applyComposeFocus (with_focus 1 c), [])
    else if (composeFocus c =? 1) || (composeFocus c =? 2) then
      let to := TrimSpace (i_Value (composeTo c)) in
      let text := TrimSpace (i_Value (composeText c)) in
      if negb (String.eqb to "") && negb (String.eqb text "") && negb (composeSending c)
      then (mkCompose (composeTo c) (composeText c) (composeFocus c) true, [CmdWidget; sendMessage to text])
      else (c, [])
    else (c, [])
  else if String.eqb key "esc" then (blur_compose (-1) c, [])
  else if composeFocus c =? 0 then
    (mkCompose (i_Update key (composeTo c)) (composeText c) (composeFocus c) (composeSending c), [CmdWidget])
  else if composeFocus c =? 1 then
    (mkCompose (composeTo c) (i_Update key (composeText c)) (composeFocus c) (composeSending c), [CmdWidget])
  else (c, []).

Definition updateFiles (key : string) (f : Files) : Files * list Cmd :=
  if String.eqb key "tab" then
    let n := (fileFocus f + 1) `rem` 4 in
    ((if n =? 0 then mkFiles (i_Focus (filePath f)) (i_Blur (fileCID f)) n (fileResult f) (fileBusy f)
      else if n =? 1 then mkFiles (i_Blur (filePath f)) (i_Blur (fileCID f)) n (fileResult f) (fileBusy f)
      else if n =? 2 then mkFiles (i_Blur (filePath f)) (i_Focus (fileCID f)) n (fileResult f) (fileBusy f)
      else if n =? 3 then mkFiles (i_Blur (filePath f)) (i_Blur (fileCID f)) n (fileResult f) (fileBusy f)
      else mkFiles (filePath f) (fileCID f) n (fileResult f) (fileBusy f)), [])
  else if String.eqb key "enter" then
    if fileFocus f =? 0 then (mkFiles (i_Blur (filePath f)) (fileCID f) 1 (fileResult f) (fileBusy f), [])
    else if fileFocus f =? 1 then
      let path := TrimSpace (i_Value (filePath f)) in
      if negb (String.eqb path "") && negb (fileBusy f)
      then (mkFiles (filePath f) (fileCID f) (fileFocus f) "" true, [CmdWidget; sendFile path])
      else (f, [])
    else if fileFocus f =? 2 then (mkFiles (filePath f) (i_Blur (fileCID f)) 3 (fileResult f) (fileBusy f), [])
    else (f, [])
  else if fileFocus f =? 0 then
    (mkFiles (i_Update key (filePath f)) (fileCID f) (fileFocus f) (fileResult f) (fileBusy f), [CmdWidget])
  else if fileFocus f =? 2 then
    (mkFiles (filePath f) (i_Update key (fileCID f)) (fileFocus f) (fileResult f) (fileBusy f), [CmdWidget])
  else (f, []).

(** The keys that move between the tabs, whatever is focused except for the arrows. *)
Definition navigate (key : string) (m : tuiModel) : tuiModel * list Cmd :=
  if String.eqb key "1" then (set_tab tabIdentity m, [fetchHealth])
  else if String.eqb key "2" then (set_tab tabInbox m, [fetchInbox])
  else if String.eqb key "3" then (set_compose (blur_compose (-1) (compose m)) (set_tab tabCompose m), [])
  else if String.eqb key "4" then (set_tab tabTasks m, [])
  else if String.eqb key "5" then (set_tab tabPeers m, [fetchPeers])
  else if String.eqb key "6" then (set_tab tabFiles m, [])
  else if String.eqb key "left" then
    if inputFocused m then (m, []) else
    if 0 <? tab_num (activeTab m)
    then onTabSwitch (set_tab (nth (Z.to_nat (tab_num (activeTab m) - 1)) tabs tabIdentity) m) else (m, [])
  else if String.eqb key "right" then
    if inputFocused m then (m, []) else
    if tab_num (activeTab m) <? llen tabNames - 1
    then onTabSwitch (set_tab (nth (Z.to_nat (tab_num (activeTab m) + 1)) tabs tabIdentity) m) else (m, [])
  else if String.eqb key "esc" then (if showDetail m then set_detail false m else m, [])
  else (m, []).

(** The key as the active tab takes it. *)
Definition screen_key (key : string) (m : tuiModel) : tuiModel * list Cmd :=
  match activeTab m with
  | tabInbox =>
      let i := inbox m in
      if String.eqb key "enter" && negb (showDetail m) then
        match l_SelectedItem (inboxList i) with
        | Some item =>
            (set_detail true (set_inbox (mkInbox (inboxList i) (inboxMsgs i) (inboxSeen i) (inboxStream i) (Some item)) m), [])
        | None => (m, [])
        end
      else if negb (showDetail m) then
        (set_inbox (mkInbox (l_Update key (inboxList i)) (inboxMsgs i) (inboxSeen i) (inboxStream i) (selectedMsg i)) m, [CmdWidget])
      else (m, [])
  | tabCompose => let '(c, cmds) := updateCompose key (compose m) in (set_compose c m, cmds)
  | tabTasks => (set_lists (l_Update key (taskList m)) (peerList m) m, [CmdWidget])
  | tabPeers => (set_lists (taskList m) (l_Update key (peerList m)) m, [CmdWidget])
  | tabFiles => let '(f, cmds) := updateFiles key (files m) in (set_files f m, cmds)
  | tabIdentity => (m, [])
  end.

Definition update_key (key : string) (m : tuiModel) : tuiModel * list Cmd :=
  if String.eqb key "ctrl+c" then (cancel m, [Quit])
  else if negb (inputFocused m) && String.eqb key "q" then (cancel m, [Quit])
  else
    let '(m1, c1) := navigate key m in
    let '(m2, c2) := screen_key key m1 in
    (m2, c1 ++ c2)%list.

Definition show_messages (msgs : list Message) (seen : gset string) (stream : option nat) (i : InboxScreen)
    : InboxScreen :=
  mkInbox (l_SetItems msgs (inboxList i)) msgs seen stream (selectedMsg i).

Definition Update (now : Z) (msg : Msg) (m : tuiModel) : tuiModel * list Cmd :=
  match msg with
  | WindowSizeMsg w h => (set_size w h m, [])
  | KeyMsg key => update_key key m
  | TickMsg => (m, [CmdWidget])
  | Other => (m, [])
  | tickMsg => (m, [fetchHealth; fetchPeers; tickAfter])
  | identityMsg id => (set_node (Some id) (health m) false m, [])
  | healthMsg h => (set_node (identity m) (Some h) (loading m) m, [])
  | inboxMsg msgs =>
      (set_inbox (show_messages msgs (list_to_set (m_Id <$> msgs)) (inboxStream (inbox m)) (inbox m)) m, [])
  | newMessageMsg msg stream =>
      let i := inbox m in
      let m1 :=
        if bool_decide (m_Id msg ∈ inboxSeen i)
        then set_inbox (mkInbox (inboxList i) (inboxMsgs i) (inboxSeen i) (Some stream) (selectedMsg i)) m
        else setStatus now (Render Success ("● New message from " ++ shortDID (m_FromDid msg)))
               (set_inbox (show_messages (msg :: inboxMsgs i) ({[m_Id msg]} ∪ inboxSeen i) (Some stream) i) m) in
      (m1, [subscribeInbox (inboxStream (inbox m1))])
  | tasksMsg ts => (set_lists (l_SetItems ts (taskList m)) (peerList m) m, [])
  | peersMsg ps => (set_lists (taskList m) (l_SetItems ps (peerList m)) m, [])
  | sendResultMsg id err =>
      let c := compose m in
      let f := files m in
      let m1 := set_files (mkFiles (filePath f) (fileCID f) (fileFocus f) (fileResult f) false)
                  (set_compose (mkCompose (composeTo c) (composeText c) (composeFocus c) false) m) in
      match err with
      | Some e => (setStatus now (Render Danger ("✗ " ++ e)) m1, [])
      | None =>
          let m2 := setStatus now (Render Success ("✓ Sent: " ++ id)) m1 in
          let m3 := if bool_decide (activeTab m = tabCompose)
                    then set_compose (mkCompose (i_Focus (i_SetValue "" (composeTo c)))
                                        (i_Blur (i_SetValue "" (composeText c))) 0 false) m2
                    else m2 in
          (if bool_decide (activeTab m = tabFiles)
           then set_files (mkFiles (filePath f) (fileCID f) (fileFocus f) id false) m3 else m3, [])
      end
  | errMsg err =>
      let m1 := match err with
                | Some (Failure e) => setStatus now (Render Danger ("✗ " ++ e)) m
                | _ => m
                end in
      (set_node (identity m1) (health m1) false m1, [])
  end.

(** ** The runtime *)

(** What a command can come back with; [None] is a nil message.  A query of the
    inbox lists messages with different ids, as the inbox stores them. *)
Inductive result : Cmd -> option Msg -> Prop :=
| result_identity i : result fetchIdentity (Some (identityMsg i))
| result_health h : result fetchHealth (Some (healthMsg h))
| result_inbox msgs : NoDup (m_Id <$> msgs) -> result fetchInbox (Some (inboxMsg msgs))
| result_peers ps : result fetchPeers (Some (peersMsg ps))
| result_error c e : c ∈ [fetchIdentity; fetchHealth; fetchInbox; fetchPeers] -> result c (Some (errMsg (Some e)))
| result_tick : result tickAfter (Some tickMsg)
| result_open msg s : result (subscribeInbox None) (Some (newMessageMsg msg s))
| result_next msg s : result (subscribeInbox (Some s)) (Some (newMessageMsg msg s))
| result_closed s : result (subscribeInbox s) None
| result_sent to text id err : result (sendMessage to text) (Some (sendResultMsg id err))
| result_file path id err : result (sendFile path) (Some (sendResultMsg id err))
| result_widget msg : msg ∈ [TickMsg; Other] -> result CmdWidget (Some msg)
| result_no_widget : result CmdWidget None.

(** The model and the commands that run; what message, if any, the step hands to
    Update. *)
Inductive handle : option Msg -> tuiModel * list Cmd -> tuiModel * list Cmd -> Prop :=
| step_input now msg m cmds :
    match msg with KeyMsg _ | WindowSizeMsg _ _ => True | _ => False end ->
    Quit ∉ cmds ->
    handle (Some msg) (m, cmds) (fst (Update now msg m), cmds ++ snd (Update now msg m))%list
| step_result now c msg m l1 l2 :
    result c (Some msg) -> Quit ∉ (l1 ++ c :: l2)%list ->
    handle (Some msg) (m, l1 ++ c :: l2)%list
      (fst (Update now msg m), (l1 ++ l2) ++ snd (Update now msg m))%list
| step_nil c m l1 l2 :
    result c None -> Quit ∉ (l1 ++ c :: l2)%list ->
    handle None (m, l1 ++ c :: l2)%list (m, l1 ++ l2)%list.

Definition start : tuiModel * list Cmd := (newTUIModel, Init newTUIModel).

(** The states reached, with the messages handled on the way. *)
Inductive handled : list Msg -> tuiModel * list Cmd -> Prop :=
| handled_start : handled [] start
| handled_step h o x y : handled h x -> handle o x y -> handled (h ++ option_list o) y.

Definition step (x y : tuiModel * list Cmd) : Prop := exists o, handle o x y.
Definition reachable (x : tuiModel * list Cmd) : Prop := rtc step start x.
End Update.
End Tui.
