(* ===== verification/TuiFacts.v ===== *)
(** * What the terminal UI keeps true ([cmd/moltmesh/tui.go])

    An invariant of all states the runtime reaches, in whatever order keys and results
    arrive, and what goes wrong because sends and uploads share one result message. *)

From stdpp Require Import base gmap strings list pretty.
From Stdlib Require Import ZArith Lia.
From S2P Require Import Prelude GoStd Identity Tasks Mail Tui.

Import Tui.

Local Open Scope string_scope.
Local Open Scope Z_scope.

Section Facts.
Context `{BubblesLaws}.

(** The focus index is in range, and an input that is focused is the one the index
    names. *)
Definition compose_ok (c : Compose) : Prop :=
  -1 <= composeFocus c <= 2 /\
  (i_Focused (composeTo c) = true -> composeFocus c = 0) /\
  (i_Focused (composeText c) = true -> composeFocus c = 1).

Definition files_ok (f : Files) : Prop :=
  -1 <= fileFocus f <= 3 /\
  (i_Focused (filePath f) = true -> fileFocus f = 0) /\
  (i_Focused (fileCID f) = true -> fileFocus f = 2).

(** The list shows the messages kept, each once, and [inboxSeen] knows exactly them. *)
Definition inbox_ok (i : InboxScreen) : Prop :=
  l_Items (inboxList i) = inboxMsgs i /\ NoDup (m_Id <$> inboxMsgs i) /\
  inboxSeen i = list_to_set (m_Id <$> inboxMsgs i).

Record model_ok (m : tuiModel) : Prop := mkOk {
  ok_compose : compose_ok (compose m);
  ok_files : files_ok (files m);
  ok_inbox : inbox_ok (inbox m);
  ok_detail : showDetail m = true -> is_Some (selectedMsg (inbox m));
  ok_tasks : l_Items (taskList m) = [] }.

Definition is_sub (c : Cmd) : bool := match c with subscribeInbox _ => true | _ => false end.

(** What is sent is not blank. *)
Definition sends (c : Cmd) : Prop :=
  match c with
  | sendMessage to text => to <> "" /\ text <> ""
  | sendFile path => path <> ""
  | _ => True
  end.

Definition plain (c : Cmd) : Prop := is_sub c = false /\ sends c.

Lemma rem3 z : -1 <= z <= 2 -> 0 <= z -> 0 <= Z.rem (z + 1) 3 <= 2.
Proof. intros. pose proof (Z.rem_bound_pos (z + 1) 3). lia. Qed.

Lemma rem4 z : -1 <= z <= 3 -> 0 <= Z.rem (z + 1) 4 <= 3.
Proof. intros. pose proof (Z.rem_bound_pos (z + 1) 4). lia. Qed.

(** Rewrites the focus of inputs with the laws, and closes what is left. *)
Ltac focus :=
  repeat first [rewrite i_Focused_Focus | rewrite i_Focused_Blur | rewrite i_Focused_Update | rewrite i_Focused_SetValue];
  split_and?; try done; try lia.

Lemma apply_focus_ok n c : 0 <= n <= 2 -> compose_ok (applyComposeFocus (with_focus n c)).
Proof.
  intros Hn. unfold applyComposeFocus. simpl.
  destruct (Z.eqb_spec n 0); [|destruct (Z.eqb_spec n 1); [|destruct (Z.eqb_spec n 2); [|lia]]];
    unfold compose_ok; simpl; focus.
Qed.

Lemma blur_ok c : compose_ok (blur_compose (-1) c).
Proof. unfold compose_ok, blur_compose. simpl. focus. Qed.

Lemma updateCompose_ok key c : compose_ok c ->
  compose_ok (fst (updateCompose key c)) /\ Forall plain (snd (updateCompose key c)).
Proof.
  intros Hc. pose proof Hc as (Hr & Ht & Hx). unfold updateCompose.
  destruct (String.eqb key "tab").
  { simpl. split; [|done]. apply apply_focus_ok. destruct (Z.ltb_spec (composeFocus c) 0); [lia|by apply rem3]. }
  destruct (String.eqb key "enter").
  { destruct (composeFocus c <? 0); [split; [by apply apply_focus_ok|done]|].
    destruct (composeFocus c =? 0); [split; [by apply apply_focus_ok|done]|].
    destruct (_ || _); [|done].
    destruct (String.eqb_spec (TrimSpace (i_Value (composeTo c))) ""); [done|].
    destruct (String.eqb_spec (TrimSpace (i_Value (composeText c))) ""); [done|]. simpl.
    destruct (composeSending c); [done|]. simpl. split; [done|]. by repeat constructor. }
  destruct (String.eqb key "esc"); [split; [apply blur_ok|done]|].
  destruct (Z.eqb_spec (composeFocus c) 0) as [E|_]; [simpl; split; [|by repeat constructor]|].
  { unfold compose_ok. simpl. focus. }
  destruct (Z.eqb_spec (composeFocus c) 1) as [E|_]; [simpl; split; [|by repeat constructor]|done].
  unfold compose_ok. simpl. focus.
Qed.

Lemma updateFiles_ok key f : files_ok f ->
  files_ok (fst (updateFiles key f)) /\ Forall plain (snd (updateFiles key f)).
Proof.
  intros Hf. pose proof Hf as (Hr & Hp & Hc). unfold updateFiles.
  destruct (String.eqb key "tab").
  { simpl. split; [|done]. pose proof (rem4 _ Hr) as Hn. set (n := Z.rem _ _) in *.
    destruct (Z.eqb_spec n 0); [|destruct (Z.eqb_spec n 1); [|destruct (Z.eqb_spec n 2); [|destruct (Z.eqb_spec n 3); [|lia]]]];
      unfold files_ok; simpl; focus. }
  destruct (String.eqb key "enter").
  { destruct (Z.eqb_spec (fileFocus f) 0).
    { split; [|done]. unfold files_ok. simpl. focus. intros E. specialize (Hc E). lia. }
    destruct (Z.eqb_spec (fileFocus f) 1).
    { destruct (String.eqb_spec (TrimSpace (i_Value (filePath f))) ""); [done|]. simpl.
      destruct (fileBusy f); [done|]. simpl. split; [done|]. by repeat constructor. }
    destruct (Z.eqb_spec (fileFocus f) 2); [|done].
    split; [|done]. unfold files_ok. simpl. focus. intros E. specialize (Hp E). lia. }
  destruct (Z.eqb_spec (fileFocus f) 0) as [E|_]; [simpl; split; [|by repeat constructor]|].
  { unfold files_ok. simpl. focus. }
  destruct (Z.eqb_spec (fileFocus f) 2) as [E|_]; [simpl; split; [|by repeat constructor]|done].
  unfold files_ok. simpl. focus.
Qed.

(** A key keeps the inbox's stream and everything of the invariant, and starts neither
    a subscription nor a blank send. *)
Definition key_ok (m : tuiModel) (r : tuiModel * list Cmd) : Prop :=
  model_ok (fst r) /\ inboxStream (inbox (fst r)) = inboxStream (inbox m) /\ Forall plain (snd r).

Lemma onTabSwitch_ok t m : model_ok m -> key_ok m (onTabSwitch (set_tab t m)).
Proof.
  intros [Hc Hf Hi Hd Ht]. split; [|split; [done|by destruct t; repeat constructor]].
  constructor; [apply blur_ok| |done..]. unfold files_ok. simpl. focus.
Qed.

Lemma navigate_ok key m : model_ok m -> key_ok m (navigate key m).
Proof.
  intros Hm. pose proof Hm as [Hc Hf Hi Hd Ht]. unfold navigate.
  repeat (destruct (String.eqb key _);
    [first [by split; [|split; [|repeat constructor]] | by apply onTabSwitch_ok
           | (split; [|split; [done|done]]; constructor; try done; apply blur_ok)
           | (destruct (inputFocused m); [by split; [|split; [|repeat constructor]]|];
              destruct (_ <? _); [by apply onTabSwitch_ok|by split; [|split; [|repeat constructor]]])
           | (destruct (showDetail m) eqn:E; split; [by constructor|done|exact Hm|done])]|]).
  by split; [|split; [|repeat constructor]].
Qed.

Lemma screen_key_ok key m : model_ok m -> key_ok m (screen_key key m).
Proof.
  intros Hm. pose proof Hm as [Hc Hf Hi Hd Ht]. unfold screen_key. destruct (activeTab m).
  - by split; [|split].
  - destruct (String.eqb key "enter" && negb (showDetail m)).
    + destruct (l_SelectedItem (inboxList (inbox m))) as [x|]; [|by split; [|split]].
      split; [|by split]. constructor; simpl; [done..| |done]. by eauto.
    + destruct (negb (showDetail m)) eqn:E; [|by split; [|split]].
      split; [|split; [done|by repeat constructor]]. constructor; simpl; [done..| |done|done].
      unfold inbox_ok. simpl. by rewrite l_Items_Update.
  - pose proof (updateCompose_ok key _ Hc) as [Hk Hs]. destruct (updateCompose key (compose m)) as [c cmds].
    by split; [constructor|split].
  - split; [|split; [done|by repeat constructor]]. constructor; simpl; [done..|]. by rewrite l_Items_Update.
  - split; [|split; [done|by repeat constructor]]. by constructor.
  - pose proof (updateFiles_ok key _ Hf) as [Hk Hs]. destruct (updateFiles key (files m)) as [f cmds].
    by split; [constructor|split].
Qed.

Lemma update_key_ok key m : model_ok m -> key_ok m (update_key key m).
Proof.
  intros Hm. unfold update_key.
  assert (Hq : key_ok m (cancel m, [Quit])) by (destruct Hm; by split; [constructor|split; [|repeat constructor]]).
  destruct (String.eqb key "ctrl+c"); [done|]. destruct (_ && _); [done|].
  destruct (navigate_ok key m Hm) as (H1 & Hs1 & Hc1). destruct (navigate key m) as [m1 c1]. simpl in *.
  destruct (screen_key_ok key m1 H1) as (H2 & Hs2 & Hc2). destruct (screen_key key m1) as [m2 c2]. simpl in *.
  split; [done|]. split; [by etrans|]. by apply Forall_app.
Qed.

(** The subscriptions that run: at most one, on the stream the model knows. *)
Definition subscriptions_ok (m : tuiModel) (cmds : list Cmd) : Prop :=
  (length (List.filter is_sub cmds) <= 1)%nat /\
  forall s, subscribeInbox s ∈ cmds -> s = inboxStream (inbox m).

Definition state_ok (x : tuiModel * list Cmd) : Prop :=
  model_ok (fst x) /\ subscriptions_ok (fst x) (snd x) /\ Forall sends (snd x).

Lemma plain_filter l : Forall plain l -> List.filter is_sub l = [].
Proof. induction 1 as [|c l [Hs _] _ IH]; [done|]. simpl. by rewrite Hs. Qed.

Lemma plain_sends l : Forall plain l -> Forall sends l.
Proof. intros Hl. eapply Forall_impl; [exact Hl|]. by intros c [_ ?]. Qed.

Lemma filter_app {A} (f : A -> bool) l1 l2 : List.filter f (l1 ++ l2)%list = (List.filter f l1 ++ List.filter f l2)%list.
Proof. apply List.filter_app. Qed.

(** Commands without a subscription may be added while the stream stays. *)
Lemma subscriptions_plain m m' l l' :
  subscriptions_ok m l -> inboxStream (inbox m') = inboxStream (inbox m) -> Forall plain l' ->
  subscriptions_ok m' (l ++ l')%list.
Proof.
  intros [Hn Hs] E Hl. split; [by rewrite filter_app, (plain_filter l'), app_nil_r|].
  intros s [Hi|Hi]%elem_of_app; [rewrite E; auto|]. rewrite Forall_forall in Hl.
  by destruct (Hl _ Hi).
Qed.

Lemma state_plain m m' l l' :
  state_ok (m, l) -> key_ok m (m', l') -> state_ok (m', l ++ l')%list.
Proof.
  intros (_ & Hsub & Hs) (Hm & E & Hl). split; [done|]. simpl in *.
  split; [by apply (subscriptions_plain m)|]. apply Forall_app. split; [done|by apply plain_sends].
Qed.

(** Taking a command out. *)
Lemma state_drop m l1 c l2 : state_ok (m, l1 ++ c :: l2)%list -> state_ok (m, l1 ++ l2)%list.
Proof.
  intros (Hm & [Hn Hs] & Ha). split; [done|]. simpl in *. split; [split|].
  - rewrite filter_app in *. simpl in Hn. rewrite !length_app in *. destruct (is_sub c); simpl in Hn; lia.
  - intros s Hi. apply Hs. apply elem_of_app in Hi as [Hi|Hi]; apply elem_of_app; [by left|right; by right].
  - apply Forall_app in Ha as [H1 H2]. apply Forall_app. split; [done|]. by apply Forall_cons in H2 as [_ H2].
Qed.

(** Messages other than those of the inbox stream. *)
Lemma update_ok now msg m : model_ok m ->
  match msg with
  | newMessageMsg _ _ | tasksMsg _ => False
  | inboxMsg msgs => NoDup (m_Id <$> msgs)
  | _ => True
  end -> key_ok m (Update now msg m).
Proof.
  intros Hm Hmsg. pose proof Hm as [Hc Hf Hi Hd Ht].
  destruct msg as [w h|key| | | |i|h|msgs|x s|ts|ps|id err|err]; simpl; try done;
    try (by split; [constructor|split; [|repeat constructor]]).
  - by apply update_key_ok.
  - split; [|by split]. constructor; simpl; [done..| |done|done].
    unfold inbox_ok. simpl. by rewrite l_Items_SetItems.
  - destruct Hc as (Hr & H1 & H2), Hf as (Hr' & H1' & H2').
    destruct err as [e|]; [by split; [constructor|split]|].
    split; [|by repeat case_bool_decide; split]. repeat case_bool_decide; constructor; simpl; try done;
      unfold compose_ok, files_ok; simpl; focus.
  - destruct err as [[|e]|]; by split; [constructor|split].
Qed.

(** A message of the stream goes in once. *)
Lemma new_message_ok now x s m : model_ok m ->
  let r := Update now (newMessageMsg x s) m in
  model_ok (fst r) /\ inboxStream (inbox (fst r)) = Some s /\ snd r = [subscribeInbox (Some s)].
Proof.
  intros [Hc Hf (Hl & Hn & Hs) Hd Ht]. simpl. case_bool_decide as Hx; simpl.
  - split; [|done]. by constructor.
  - split; [|done]. constructor; simpl; try done. unfold inbox_ok. simpl. rewrite l_Items_SetItems.
    split; [done|]. split; [|by rewrite Hs]. apply NoDup_cons. split; [|done].
    rewrite Hs, elem_of_list_to_set in Hx. done.
Qed.

(** What commands never come back with. *)
Lemma result_msg c msg : result c (Some msg) ->
  match msg with
  | newMessageMsg _ _ => is_sub c = true
  | tasksMsg _ => False
  | inboxMsg msgs => NoDup (m_Id <$> msgs)
  | _ => True
  end.
Proof.
  inversion 1 as [| | | | | | | | | | |msg' Hw|]; subst; try done.
  apply list_elem_of_In in Hw. by destruct Hw as [<-|[<-|[]]].
Qed.

Lemma step_ok x y : step x y -> state_ok x -> state_ok y.
Proof.
  intros [o Hst]. destruct Hst as [now msg m cmds Hk _|now c msg m l1 l2 Hr _|c m l1 l2 _ _]; intros Hx.
  - apply (state_plain m); [done|]. destruct Hx as [Hm _]. pose proof (update_ok now msg m Hm) as Hu.
    destruct (Update now msg m). apply Hu. by destruct msg.
  - pose proof (state_drop _ _ _ _ Hx) as Hd. apply result_msg in Hr. destruct Hx as (Hm & [Hn Hs] & _). simpl in Hm, Hn, Hs.
    destruct msg as [| | | | |i|h|msgs|msg s|ts|ps|id err|err];
      try (apply (state_plain m); [done|];
           match goal with |- context [Update now ?e m] => pose proof (update_ok now e m Hm) as Hu; destruct (Update now e m) end;
           by apply Hu).
    destruct (new_message_ok now msg s m Hm) as (Hm' & Es & Ec). destruct (Update _ _ _) as [m' c']. simpl in *. subst c'.
      assert (E0 : List.filter is_sub (l1 ++ l2)%list = []).
      { rewrite filter_app in *. simpl in Hn. rewrite Hr in Hn. rewrite length_app in Hn. simpl in Hn.
        destruct (List.filter is_sub l1), (List.filter is_sub l2); simpl in *; (done || lia). }
      split; [done|]. simpl. split; [split|].
      * rewrite filter_app, E0. simpl. lia.
      * intros s' [Hi|Hi]%elem_of_app.
        -- assert (Hf : subscribeInbox s' ∈ List.filter is_sub (l1 ++ l2)%list)
             by (by apply list_elem_of_In, filter_In; split; [apply list_elem_of_In|]).
           rewrite E0 in Hf. by apply not_elem_of_nil in Hf.
        -- apply list_elem_of_singleton in Hi. congruence.
      * apply Forall_app. split; [apply Hd|by repeat constructor].
  - by apply (state_drop _ _ c).
Qed.

Lemma steps_ok x y : rtc step x y -> state_ok x -> state_ok y.
Proof. induction 1 as [|x y z Hst _ IH]; [done|]. intros Hx. by apply IH, (step_ok x). Qed.

Lemma start_ok : state_ok start.
Proof.
  destruct i_New_spec as [Ef _]. split; [|split; [split|by repeat constructor]].
  - constructor; simpl; try apply l_Items_New; try done.
    + unfold compose_ok. simpl. rewrite Ef. split_and!; (done || lia).
    + unfold files_ok. simpl. rewrite Ef. split_and!; (done || lia).
    + unfold inbox_ok. simpl. rewrite l_Items_New. split; [done|]. split; [constructor|done].
  - simpl. lia.
  - simpl. intros s Hs. set_solver.
Qed.

(** *** What the inbox list shows *)

(** The messages shown after [msg], by the messages shown before it: a listing of
    the inbox replaces them, and a live message comes to the front unless a message
    with its id is shown already. *)
Definition shows (l : list Message) (msg : Msg) : list Message :=
  match msg with
  | inboxMsg msgs => msgs
  | newMessageMsg x _ => if bool_decide (m_Id x ∈ m_Id <$> l) then l else x :: l
  | _ => l
  end.

Lemma navigate_msgs key m : inboxMsgs (inbox (fst (navigate key m))) = inboxMsgs (inbox m).
Proof. unfold navigate. repeat (case_match; [done|]). by repeat case_match. Qed.

Lemma screen_key_msgs key m : inboxMsgs (inbox (fst (screen_key key m))) = inboxMsgs (inbox m).
Proof. unfold screen_key. by repeat case_match. Qed.

Lemma update_msgs now msg m : model_ok m ->
  inboxMsgs (inbox (fst (Update now msg m))) = shows (inboxMsgs (inbox m)) msg.
Proof.
  intros [_ _ (_ & _ & Hs) _ _].
  destruct msg as [w h|key| | | |i|h|msgs|x s|ts|ps|id err|err]; simpl; try done.
  - unfold update_key. destruct (String.eqb key "ctrl+c"); [done|]. destruct (_ && _); [done|].
    pose proof (navigate_msgs key m) as H1. destruct (navigate key m) as [m1 c1].
    pose proof (screen_key_msgs key m1) as H2. destruct (screen_key key m1) as [m2 c2].
    simpl in *. congruence.
  - rewrite Hs. rewrite (bool_decide_ext (m_Id x ∈ list_to_set (C := gset string) _) (m_Id x ∈ m_Id <$> inboxMsgs (inbox m)))
      by apply elem_of_list_to_set. by case_bool_decide.
  - by repeat case_match.
  - by repeat case_match.
Qed.

Lemma handled_reachable h x : handled h x -> reachable x.
Proof. induction 1 as [|h o x y _ IH Hst]; [apply rtc_refl|]. eapply rtc_r; [exact IH|]. by exists o. Qed.

Lemma reachable_handled x : reachable x -> exists h, handled h x.
Proof.
  assert (Hrun : forall y z, rtc step y z -> (exists h, handled h y) -> exists h, handled h z).
  { induction 1 as [|y1 y2 z [o Hst] _ IH]; [done|]. intros [h Hh]. apply IH. eexists. by econstructor. }
  intros Hr. apply (Hrun start x Hr). exists []. constructor.
Qed.

Lemma handled_shows h x : handled h x -> inboxMsgs (inbox (fst x)) = foldl shows [] h.
Proof.
  induction 1 as [|h o x y Hh IH Hst]; [done|].
  apply handled_reachable in Hh. assert (Hm : state_ok x) by (by apply (steps_ok start x), start_ok).
  rewrite foldl_app, <- IH. destruct Hm as [Hm _].
  destruct Hst; simpl in *; [by apply update_msgs..|done].
Qed.

(** C22: In every state of the UI, in whatever order keys are pressed and results arrive:
    the focus indices are in range and the input that has the focus is the one its
    index names; the inbox list shows exactly the messages of the last listing and
    those that arrived live since, newest first, each id once (a live message whose id
    is shown already changes nothing; a listing replaces what was shown), and the set
    of seen ids is theirs; a detail view shows a message; at most one read of the inbox
    stream runs, on the one stream that was opened; nothing blank is sent; and the
    Tasks tab is empty, since no command ever loads tasks. *)
Theorem tui_invariant m cmds :
  reachable (m, cmds) ->
  model_ok m /\ subscriptions_ok m cmds /\ Forall sends cmds /\
  (exists h, handled h (m, cmds)) /\
  forall h, handled h (m, cmds) -> l_Items (inboxList (inbox m)) = foldl shows [] h.
Proof.
  intros Hr. destruct (steps_ok start (m, cmds) Hr start_ok) as (Hm & Hsub & Hs). simpl in *.
  do 3 (split; [done|]). split; [by apply reachable_handled|]. intros h Hh%handled_shows. rewrite <- Hh.
  apply (ok_inbox m Hm).
Qed.

(** ** Sends and uploads share one result *)

Lemma digits_not_typed now k m : k ∈ ["1"; "2"; "3"; "4"; "5"; "6"] ->
  let m' := fst (Update now (KeyMsg k) m) in
  Some (activeTab m') = tabs !! (Z.to_nat (ParseUint64 k) - 1)%nat /\
  i_Value (composeTo (compose m')) = i_Value (composeTo (compose m)) /\
  i_Value (composeText (compose m')) = i_Value (composeText (compose m)).
Proof.
  intros Hk%list_elem_of_In.
  destruct Hk as [<-|[<-|[<-|[<-|[<-|[<-|[]]]]]]]; cbn; rewrite andb_false_r; cbn.
  all: try (destruct (showDetail m)); cbn; rewrite ?i_Value_Blur; try done.
  all: by destruct (fileFocus (files m) =? 0), (fileFocus (files m) =? 2).
Qed.

Lemma compose_enter now m : activeTab m = tabCompose -> composeFocus (compose m) = 1 \/ composeFocus (compose m) = 2 ->
  composeSending (compose m) = false ->
  TrimSpace (i_Value (composeTo (compose m))) <> "" -> TrimSpace (i_Value (composeText (compose m))) <> "" ->
  snd (Update now (KeyMsg "enter") m) =
    [CmdWidget; sendMessage (TrimSpace (i_Value (composeTo (compose m)))) (TrimSpace (i_Value (composeText (compose m))))].
Proof.
  intros Ht Hf Hs Hto Htx. cbn. rewrite andb_false_r. unfold screen_key. rewrite Ht. unfold updateCompose. cbn.
  rewrite (proj2 (String.eqb_neq _ _) Hto), (proj2 (String.eqb_neq _ _) Htx), Hs. by destruct Hf as [-> | ->].
Qed.

(** A message can be sent twice: while a message and an upload are both under way, a
    failed upload ends the state "sending" of the compose screen, whose fields are
    kept, and Enter sends the same message again although the first send has not
    returned. *)
Theorem tui_duplicate_send m cmds path :
  let to := TrimSpace (i_Value (composeTo (compose m))) in
  let text := TrimSpace (i_Value (composeText (compose m))) in
  reachable (m, cmds) -> Quit ∉ cmds -> sendFile path ∈ cmds -> sendMessage to text ∈ cmds ->
  activeTab m = tabCompose -> composeFocus (compose m) = 1 \/ composeFocus (compose m) = 2 ->
  exists m' rest, rtc step (m, cmds) (m', rest) /\
    exists l, rest ≡ₚ sendMessage to text :: sendMessage to text :: l.
Proof.
  intros to text Hr Hq Hfile Hsend Htab Hfoc.
  destruct (steps_ok start (m, cmds) Hr start_ok) as (_ & _ & Hs). simpl in Hs. rewrite Forall_forall in Hs.
  destruct (Hs _ Hsend) as [Hto Htx]. clear Hs Hr.
  apply list_elem_of_split in Hfile as (l1 & l2 & ->).
  set (m1 := fst (Update 0 (sendResultMsg "" (Some "upload failed")) m)).
  assert (Hsnd : sendMessage to text ∈ (l1 ++ l2)%list).
  { apply elem_of_app in Hsend as [Hi|Hi]; apply elem_of_app; [by left|right]. apply elem_of_cons in Hi as [Hi|Hi]; done. }
  assert (Hq2 : Quit ∉ (l1 ++ l2)%list) by (intros Hi; apply Hq; apply elem_of_app in Hi as [Hi|Hi]; apply elem_of_app;
    [by left|right; by right]).
  assert (Ec : snd (Update 0 (KeyMsg "enter") m1) = [CmdWidget; sendMessage to text])
    by (exact (compose_enter 0 m1 Htab Hfoc eq_refl Hto Htx)).
  exists (fst (Update 0 (KeyMsg "enter") m1)), ((l1 ++ l2) ++ [CmdWidget; sendMessage to text])%list. split.
  - eapply rtc_l; [eexists; apply (step_result 0 (sendFile path) (sendResultMsg "" (Some "upload failed")) m l1 l2); [constructor|done]|].
    simpl. rewrite app_nil_r. apply rtc_once. rewrite <- Ec. eexists. by apply (step_input 0 (KeyMsg "enter")).
  - apply elem_of_Permutation in Hsnd as [l Hl]. exists (l ++ [CmdWidget])%list. rewrite Hl. simpl.
    rewrite (Permutation_app_comm l [CmdWidget; _]), (Permutation_app_comm l [CmdWidget]). simpl. apply Permutation_skip, Permutation_swap.
Qed.

(** A finished upload wipes a draft: a success that arrives on the compose screen
    clears both fields, whichever command it belongs to. *)
Lemma upload_clears_draft now id m : activeTab m = tabCompose ->
  let m' := fst (Update now (sendResultMsg id None) m) in
  i_Value (composeTo (compose m')) = "" /\ i_Value (composeText (compose m')) = "".
Proof.
  intros Ht. simpl. rewrite Ht, (bool_decide_true (tabCompose = tabCompose)), (bool_decide_false (tabCompose = tabFiles)) by done. simpl.
  by rewrite i_Value_Focus, i_Value_Blur, !i_Value_clear.
Qed.

(** ** Runs on keys *)

Definition quits (l : list Cmd) : bool := existsb (fun c => match c with Quit => true | _ => false end) l.

Definition press (x : tuiModel * list Cmd) (k : string) : tuiModel * list Cmd :=
  if quits (snd x) then x else (fst (Update 0 (KeyMsg k) (fst x)), (snd x ++ snd (Update 0 (KeyMsg k) (fst x)))%list).

Lemma quits_spec l : quits l = false -> Quit ∉ l.
Proof.
  intros E Hq%list_elem_of_In. assert (E' : quits l = true) by (apply existsb_exists; exists Quit; done). congruence.
Qed.

Lemma press_reach keys x : reachable x -> reachable (foldl press x keys).
Proof.
  revert x. induction keys as [|k keys IH]; intros x Hx; [done|]. simpl. apply IH. unfold press.
  destruct (quits (snd x)) eqn:E; [done|]. destruct x as [m cmds]. simpl in *.
  eapply rtc_r; [exact Hx|]. eexists. apply (step_input 0 (KeyMsg k)); [done|by apply quits_spec].
Qed.
End Facts.

(** ** A concrete instance: inputs that append printable keys, plain lists *)

Definition type_key (k : string) (i : string * bool) : string * bool :=
  if snd i && (String.length k =? 1)%nat then (fst i ++ k, snd i) else i.

#[export] Instance toy_bubbles : Bubbles := {|
  Input := string * bool; i_New := ("", false); i_Value := fst; i_SetValue v i := (v, snd i);
  i_Focus i := (fst i, true); i_Blur i := (fst i, false); i_Focused := snd; i_Update := type_key;
  ListModel A := list A; l_New A := []; l_Items A l := l; l_SetItems A l _ := l;
  l_SelectedItem A := head; l_Update A _ l := l; Render _ s := s |}.

#[export] Instance toy_bubbles_laws : BubblesLaws.
Proof.
  constructor; simpl; try done.
  - intros k [v f]. unfold type_key. simpl. by destruct (f && _).
  - intros k [v f] Hf. simpl in Hf. subst f. done.
  - by intros A [|y l] x [= <-]; left.
Qed.

(** An upload of "f" is started, then a message to "x"; neither has returned. *)
Definition two_sends : tuiModel * list Cmd :=
  foldl press start ["6"; "tab"; "tab"; "tab"; "tab"; "f"; "enter"; "enter"; "3"; "enter"; "x"; "enter"; "y"; "enter"].

Lemma tui_invariant_witness : model_ok (fst two_sends) /\ Forall sends (snd two_sends).
Proof.
  destruct (tui_invariant (fst two_sends) (snd two_sends)) as (Hm & _ & Hs & _); [|by split].
  rewrite <- surjective_pairing. apply press_reach, rtc_refl.
Defined.

Lemma tui_duplicate_send_witness :
  exists m' rest, rtc step two_sends (m', rest) /\ exists l, rest ≡ₚ sendMessage "x" "y" :: sendMessage "x" "y" :: l.
Proof.
  rewrite (surjective_pairing two_sends). apply (tui_duplicate_send (fst two_sends) (snd two_sends) "f").
  - rewrite <- surjective_pairing. apply press_reach, rtc_refl.
  - apply quits_spec. vm_compute. reflexivity.
  - vm_compute. set_solver.
  - vm_compute. set_solver.
  - vm_compute. reflexivity.
  - left. vm_compute. reflexivity.
Defined.
