(* ===== verification/Cli.v ===== *)
(** * Configuration and command line ([pkg/config/config.go], [cmd/moltmesh])

    How a command finds its daemon: Go's flag package, moltbook.toml, the data
    directory and the file in which a daemon records its address; the commands that
    build requests; and the client's side of a promotion.  The file system, the
    environment, TOML and the daemon's answers are arguments. *)

From stdpp Require Import base gmap strings list pretty.
From Stdlib Require Import ZArith Lia Ascii.
From S2P Require Import Prelude GoStd Identity Tasks Mail ThreadStore Chain Records Rpc RpcThreads Format.

Import Identity Tasks.

Local Open Scope string_scope.
Local Open Scope Z_scope.

(** ** The flag package *)

Module Flags.

Inductive kind : Type := StringF | BoolF | IntF.

(** [strconv.ParseBool]. *)
Definition ParseBool (s : string) : option bool :=
  if bool_decide (s ∈ ["1"; "t"; "T"; "TRUE"; "true"; "True"]) then Some true
  else if bool_decide (s ∈ ["0"; "f"; "F"; "FALSE"; "false"; "False"]) then Some false else None.

(** [strconv.ParseInt] of an int64 in base 0: a sign, the prefixes 0b, 0o, 0x and 0, and
    underscores between digits ([underscoreOK], [saw] as there: ^ at the start, 0 after
    a digit, _ after an underscore, ! after anything else). *)
Definition digit_value (c : ascii) : option Z :=
  let b := byte_of (lower_char c) in
  if (48 <=? b) && (b <=? 57) then Some (b - 48)
  else if (97 <=? b) && (b <=? 122) then Some (b - 97 + 10) else None.
Fixpoint underscores (hex : bool) (saw : ascii) (s : string) : bool :=
  match s with
  | EmptyString => negb (Ascii.eqb saw "_")
  | String c s' =>
      let digit := match digit_value c with Some d => d <? (if hex then 16 else 10) | None => false end in
      if digit then underscores hex "0" s'
      else if Ascii.eqb c "_" then Ascii.eqb saw "0" && underscores hex "_" s'
      else negb (Ascii.eqb saw "_") && underscores hex "!" s'
  end.
(** The base a prefix names, and the digits after it. *)
Definition base_of (s : string) : Z * string :=
  match s with
  | String "0" rest =>
      match rest with
      | String p (String _ _ as digits) =>
          let p := lower_char p in
          if Ascii.eqb p "b" then (2, drop_str 1 rest) else if Ascii.eqb p "o" then (8, drop_str 1 rest)
          else if Ascii.eqb p "x" then (16, drop_str 1 rest) else (8, rest)
      | _ => (8, rest)
      end
  | _ => (10, s)
  end.
Definition underscoreOK (s : string) : bool :=
  match s with
  | String "0" (String p rest) =>
      let p := lower_char p in
      if Ascii.eqb p "b" || Ascii.eqb p "o" || Ascii.eqb p "x" then underscores (Ascii.eqb p "x") "0" rest
      else underscores false "^" s
  | _ => underscores false "^" s
  end.
Fixpoint digits (base : Z) (acc : Z) (s : string) : option Z :=
  match s with
  | EmptyString => Some acc
  | String c s' =>
      if Ascii.eqb c "_" then digits base acc s' else
      match digit_value c with
      | Some d => if d <? base then digits base (acc * base + d) s' else None
      | None => None
      end
  end.
Definition ParseUint (s : string) : option Z :=
  if String.eqb s "" then None else
  let '(base, ds) := base_of s in
  match digits base 0 ds with
  | Some n => if underscoreOK s && (n <? 2 ^ 64) then Some n else None
  | None => None
  end.
Definition ParseInt (s : string) : option Z :=
  match s with
  | String "-" r => match ParseUint r with Some n => if n <=? 2 ^ 63 then Some (- n) else None | None => None end
  | String "+" r => match ParseUint r with Some n => if n <? 2 ^ 63 then Some n else None | None => None end
  | _ => match ParseUint s with Some n => if n <? 2 ^ 63 then Some n else None | None => None end
  end.

(** A value as [Set] takes it. *)
Definition accepts (k : kind) (v : string) : bool :=
  match k with
  | StringF => true
  | BoolF => match ParseBool v with Some _ => true | None => false end
  | IntF => match ParseInt v with Some _ => true | None => false end
  end.

Definition char_at (n : nat) (s : string) : option ascii := String.get n s.

(** [FlagSet.Parse]: the assignments in order and the arguments that are left; [None]
    when it reports an error, after which the process exits. *)
Fixpoint parse (defs : string -> option kind) (args : list string) : option (list (string * string) * list string) :=
  match args with
  | [] => Some ([], [])
  | s :: rest =>
      if (slen s <? 2) || negb (bool_decide (char_at 0 s = Some "-"%char)) then Some ([], args) else
      let two := bool_decide (char_at 1 s = Some "-"%char) in
      if two && (slen s =? 2) then Some ([], rest) else
      let name := drop_str (if two then 2 else 1) s in
      if String.eqb name "" || HasPrefix name "-" || HasPrefix name "=" then None else
      let '(n, v) := cut "="%char name in
      let set k v rest' :=
        if accepts k v then option_map (fun r => ((n, v) :: fst r, snd r)) rest' else None in
      match defs n, v with
      | None, _ => None
      | Some k, Some v => set k v (parse defs rest)
      | Some BoolF, None => set BoolF "true" (parse defs rest)
      | Some k, None =>
          match rest with
          | [] => None
          | v :: rest' => set k v (parse defs rest')
          end
      end
  end.

(** The variable of a flag after parsing: the last assignment. *)
Definition value (n default_ : string) (assigned : list (string * string)) : string :=
  default default_ (snd <$> last (filter (fun a => fst a = n) assigned)).
Definition bool_value (n : string) (assigned : list (string * string)) : bool :=
  default false (ParseBool (value n "false" assigned)).
Definition int_value (n : string) (default_ : Z) (assigned : list (string * string)) : Z :=
  match snd <$> last (filter (fun a => fst a = n) assigned) with
  | Some v => default 0 (ParseInt v)
  | None => default_
  end.

Definition of_list (names : list (string * kind)) (n : string) : option kind :=
  snd <$> List.find (fun p => String.eqb (fst p) n) names.

End Flags.

(** ** Paths, as package filepath on Unix *)

(** [Clean]: the components of a path, "." dropped and ".." resolved; [acc] holds them
    in reverse. *)
Definition clean_step (rooted : bool) (acc : list string) (c : string) : list string :=
  if String.eqb c "" || String.eqb c "." then acc
  else if String.eqb c ".." then
    match acc with
    | [] => if rooted then [] else [".."]
    | top :: acc' => if String.eqb top ".." then ".." :: acc else acc'
    end
  else c :: acc.
Definition Clean (path : string) : string :=
  let rooted := HasPrefix path "/" in
  let cs := rev (fold_left (clean_step rooted) (Split "/"%char path) []) in
  if rooted then "/" ++ Join cs "/" else match cs with [] => "." | _ => Join cs "/" end.

Definition path_Join (elems : list string) : string :=
  match List.filter (fun e => negb (String.eqb e "")) elems with
  | [] => ""
  | l => Clean (Join l "/")
  end.

(** [Abs]; [wd] is the working directory, if it can be had. *)
Definition Abs (wd : option string) (path : string) : outcome string :=
  if HasPrefix path "/" then Ok (Clean path) else
  match wd with Some d => Ok (path_Join [d; path]) | None => Err ErrIO end.

(** ** pkg/config *)

Module Config.

Record AgentConfig : Type := mkAgent { Name : string; Description : string; Capabilities : list string }.
Record NetworkConfig : Type := mkNetwork {
  Port : string; ListenHost : string; BootstrapPeers : list string; IPFSBootstrap : option bool;
  AnnounceAddrs : list string }.
Record DaemonConfig : Type := mkDaemon {
  DataDir : string; GRPCAddr : string; Verbose : bool; ThreadPassivationSeconds : Z }.
Record Config : Type := mkConfig { Agent : AgentConfig; Network : NetworkConfig; Daemon : DaemonConfig }.

Definition Defaults : Config :=
  mkConfig (mkAgent "" "" []) (mkNetwork "" "" [] (Some true) []) (mkDaemon "" "" false 300).

(** The environment: the home and working directories, whether a path can be stated,
    the files, and [toml.Decode] into a given value. *)
Record Env : Type := mkEnv {
  home : option string; wd : option string; stat : string -> bool; files : gmap string string;
  toml_Decode : string -> Config -> option Config }.

Definition resolve (env : Env) (explicit : string) : outcome string :=
  if negb (String.eqb explicit "") then
    if stat env explicit then Ok explicit else Err (Errorf "config file not found")
  else if stat env "moltbook.toml" then Ok "moltbook.toml"
  else match home env with
       | None => Err ErrIO
       | Some h =>
           let p := path_Join [h; ".moltmesh"; "moltbook.toml"] in
           if stat env p then Ok p else Err (Errorf "no moltbook.toml found")
       end.

Definition apply_defaults (c : Config) : Config :=
  let n := Network c in
  let d := Daemon c in
  mkConfig (Agent c)
    (mkNetwork (Port n) (ListenHost n) (BootstrapPeers n)
       (match IPFSBootstrap n with None => Some true | b => b end) (AnnounceAddrs n))
    (mkDaemon (DataDir d) (GRPCAddr d) (Verbose d)
       (if ThreadPassivationSeconds d <=? 0 then 300 else ThreadPassivationSeconds d)).

Definition Load (env : Env) (path : string) : outcome Config :=
  match resolve env path with
  | Ok resolved =>
      match files env !! resolved with
      | None => Err (Errorf "read moltbook.toml")
      | Some data =>
          match toml_Decode env data Defaults with
          | None => Err (Errorf "parse moltbook.toml")
          | Some c => Ok (apply_defaults c)
          end
      end
  | _ => Ok Defaults
  end.

(** In nanoseconds; the product is an int64. *)
Definition ThreadPassivationAfter (c : Config) : Z :=
  let s := ThreadPassivationSeconds (Daemon c) in
  int64 ((if s <=? 0 then 300 else s) * 1000000000).

Definition IPFSBootstrapEnabled (c : Config) : bool :=
  match IPFSBootstrap (Network c) with None => true | Some b => b end.

End Config.

(** ** cmd/moltmesh *)

Module Cli.
Import Config.

Definition defaultDataDir (env : Env) : outcome string :=
  match home env with Some h => Ok (path_Join [h; ".moltmesh"]) | None => Err (Errorf "could not determine home directory") end.

Definition resolveDataDir (env : Env) (dataDir : string) : outcome string :=
  if String.eqb dataDir "" then
    match defaultDataDir env with Ok d => Abs (wd env) d | r => r end
  else Abs (wd env) dataDir.

Definition resolveGRPCAddr (env : Env) (grpcAddr dataDir : string) : string :=
  if negb (String.eqb grpcAddr "") then grpcAddr else
  let default_ := path_Join [dataDir; "a2a.sock"] in
  match files env !! path_Join [dataDir; "grpc-addr"] with
  | Some b => let addr := TrimSpace b in if String.eqb addr "" then default_ else addr
  | None => default_
  end.

Definition start_flags : string -> option Flags.kind :=
  Flags.of_list [("data-dir", Flags.StringF); ("port", Flags.StringF); ("listen-host", Flags.StringF);
                 ("grpc-addr", Flags.StringF); ("verbose", Flags.BoolF); ("config", Flags.StringF)].

(** A flag overrides a setting when it is not empty. *)
Definition override (flag setting : string) : string := if String.eqb flag "" then setting else flag.

(** [cmdStart] up to [runDaemon]: the configuration the daemon runs with. *)
Definition cmdStart (env : Env) (args : list string) : outcome Config :=
  match Flags.parse start_flags args with
  | None => Err (Errorf "exit status 2")
  | Some (fl, _) =>
      match Load env (Flags.value "config" "" fl) with
      | Ok cfg =>
          let n := Network cfg in
          let d := Daemon cfg in
          match resolveDataDir env (override (Flags.value "data-dir" "" fl) (DataDir d)) with
          | Ok dir =>
              Ok (mkConfig (Agent cfg)
                (mkNetwork (override (Flags.value "port" "" fl) (Port n))
                   (override (Flags.value "listen-host" "" fl) (ListenHost n)) (BootstrapPeers n) (IPFSBootstrap n)
                   (AnnounceAddrs n))
                (mkDaemon dir (override (Flags.value "grpc-addr" "" fl) (GRPCAddr d))
                   (Flags.bool_value "verbose" fl || Verbose d) (ThreadPassivationSeconds d)))
          | Err e => Err e
          | Panic => Panic
          end
      | Err _ => Err (Errorf "load config")
      | Panic => Panic
      end
  end.

(** The address [run] listens on, and the file in which it records it. *)
Definition listen_addr (cfg : Config) : string :=
  let d := Daemon cfg in if String.eqb (GRPCAddr d) "" then path_Join [DataDir d; "a2a.sock"] else GRPCAddr d.
Definition record_addr (cfg : Config) (fs : gmap string string) : gmap string string :=
  <[path_Join [DataDir (Daemon cfg); "grpc-addr"] := listen_addr cfg ++ Format.newline]> fs.

(** What [isSocketLive], [dialGRPC] and [run] take an address for. *)
Definition is_unix (addr : string) : outcome bool :=
  match addr with "" => Panic | String c _ => Ok (Ascii.eqb c "/"%char) end.
Definition dial_target (addr : string) : outcome string :=
  match is_unix addr with Ok true => Ok ("unix:" ++ addr) | Ok false => Ok addr | Err e => Err e | Panic => Panic end.

(** The target [connect] dials for the two flags every client command has. *)
Definition connect (env : Env) (dataDir grpcAddr : string) : outcome string :=
  match resolveDataDir env dataDir with
  | Ok dir => dial_target (resolveGRPCAddr env grpcAddr dir)
  | Err e => Err e
  | Panic => Panic
  end.

(** One flag of [resolveStartFlags]: the last of its forms wins; [prefix] is "--name=". *)
Fixpoint scan_flag (name : string) (args : list string) (cur : string) : string :=
  match args with
  | [] => cur
  | a :: rest =>
      let prefix := "--" ++ name ++ "=" in
      scan_flag name rest
        (if String.eqb a ("--" ++ name) || String.eqb a ("-" ++ name) then
           match rest with v :: _ => v | [] => cur end
         else if (slen prefix <? slen a) && HasPrefix a prefix then drop_str (String.length prefix) a
         else cur)
  end.

Definition resolveStartFlags (env : Env) (args : list string) : string * string :=
  let dataDir := match resolveDataDir env (scan_flag "data-dir" args "") with
                 | Ok d => d
                 | _ => path_Join [default "" (home env); ".moltmesh"]
                 end in
  (dataDir, resolveGRPCAddr env (scan_flag "grpc-addr" args "") dataDir).

(** [cmdStartBackground]'s wait: [live i] is the answer of the i-th probe, [clk i] the
    clock before it, in milliseconds; [n] bounds the probes. *)
Fixpoint wait_ready (live : nat -> bool) (clk : nat -> Z) (deadline : Z) (i n : nat) : option bool :=
  match n with
  | O => None
  | S n' =>
      if clk i <? deadline then
        if live i then Some true else wait_ready live clk deadline (S i) n'
      else Some false
  end.

(** [runDaemonChild]. *)
Definition runDaemonChild (env : Env) (args : list string) : outcome Config :=
  match args with
  | a :: rest => if String.eqb a "start" then cmdStart env rest else cmdStart env args
  | [] => cmdStart env args
  end.

(** [main]: the global flag is taken out wherever it stands. *)
Definition strip_json (args : list string) : bool * list string :=
  (existsb (fun a => String.eqb a "--json" || String.eqb a "-json") args,
   List.filter (fun a => negb (String.eqb a "--json" || String.eqb a "-json")) args).

Definition cliCommands : list string :=
  ["start"; "init"; "tui"; "version"; "help"; "status"; "info"; "identity"; "config"; "stop"; "get-identity";
   "get-agent-card"; "publish-agent-card"; "find-agents"; "send-message"; "subscribe-inbox"; "get-inbox";
   "get-outbox"; "ack-message"; "create-task"; "send-task-result"; "get-task"; "update-task"; "cancel-task";
   "publish-task-event"; "subscribe-task-events"; "send-file"; "fetch-file"; "create-thread"; "get-thread";
   "append-entry"; "get-thread-entries"; "subscribe-thread"; "add-thread-replica"; "promote-thread-member";
   "recover-thread"; "ping"; "health"; "peers"; "format"; "completion"; "publish"; "subscribe-topic";
   "set-webhook"; "clear-webhook"; "get-webhook"; "network"; "name"].

(** What [main] does with its arguments. *)
Inductive action : Type := Usage (exit : Z) | Run (cmd : string) (args : list string) (json : bool).
Definition main (args : list string) : action :=
  let '(json, args) := strip_json args in
  match args with
  | [] => Usage 1
  | a :: rest =>
      if String.eqb a "-h" || String.eqb a "--help" then Usage 0
      else if bool_decide (a ∈ cliCommands) then Run a rest json else Usage 1
  end.

(** *** Values *)

Definition parseTaskStatus (s : string) : outcome TaskStatus :=
  let l := lower s in
  if String.eqb l "working" then Ok WORKING
  else if String.eqb l "completed" then Ok COMPLETED
  else if String.eqb l "failed" then Ok FAILED
  else if String.eqb l "cancelled" then Ok CANCELLED
  else Err (Errorf "unknown status").

Definition parseEventKind (s : string) : outcome Z :=
  let l := lower s in
  if String.eqb l "token_chunk" then Ok 1
  else if String.eqb l "tool_call" then Ok 2
  else if String.eqb l "tool_result" then Ok 3
  else if String.eqb l "status_update" then Ok 4
  else if String.eqb l "artifact" then Ok 5
  else if String.eqb l "done" then Ok 6
  else if String.eqb l "error" then Ok 7
  else Err (Errorf "unknown event kind").

(** Comma-separated lists of the flags. *)
Definition comma_list (s : string) : list string :=
  List.filter (fun r => negb (String.eqb r "")) (TrimSpace <$> Split ","%char s).

Definition isDIDValid (s : string) : bool := negb (String.eqb (Format.DID s) s) || HasPrefix s "did:key:z".
Definition isCapValid (s : string) : bool :=
  match SplitN ":"%char 4 s with
  | [p0; _; p2; _] => String.eqb p0 "a2a" && String.eqb p2 "cap"
  | _ => false
  end.
Definition didMethod (s : string) : string :=
  if negb (HasPrefix s "did:") then "" else fst (cut ":"%char (drop_str 4 s)).
Definition boolStr (b : bool) : string := if b then "true" else "false".

(** The part after the last colon. *)
Definition after_last_colon (s : string) : string := default s (last (Split ":"%char s)).
Definition defaultAgentName (did : string) : string :=
  let tail := lower (after_last_colon did) in
  "agent-" ++ (if 8 <? slen tail then drop_str (String.length tail - 8) tail else tail).

Definition agentCardFromConfig `{Unicode} (cfg : Config) : AgentCard :=
  mkCard "" (Names.Normalize (Name (Agent cfg))) (Description (Agent cfg))
    ((fun cap => mkSkill cap "" "" "" "" []) <$> Capabilities (Agent cfg)) [] "" 0 0 "" ∅ "" "" 0.

(** *** Commands *)

(** The flags of a client command besides those of [clientFlags], all of them strings. *)
Definition client_flags (names : list string) : string -> option Flags.kind :=
  Flags.of_list ((fun n => (n, Flags.StringF)) <$> "data-dir" :: "grpc-addr" :: names).

(** Parses, makes the checks of [required] in order, and connects: the values of the
    flags and the target. *)
Fixpoint missing (required : list string) (fl : list (string * string)) : option string :=
  match required with
  | [] => None
  | n :: l => if String.eqb (Flags.value n "" fl) "" then Some n else missing l fl
  end.
Definition with_flags (names required : list string) (args : list string) : outcome (list (string * string)) :=
  match Flags.parse (client_flags names) args with
  | None => Err (Errorf "exit status 2")
  | Some (fl, _) => match missing required fl with Some n => Err (Errorf ("--" ++ n ++ " is required")) | None => Ok fl end
  end.
Definition connect_flags (env : Env) (fl : list (string * string)) : outcome string :=
  connect env (Flags.value "data-dir" "" fl) (Flags.value "grpc-addr" "" fl).

(** The target and the request a command sends there; [identity] is the daemon's answer
    to GetIdentity, [json_text] the JSON form of a text message. *)
Definition cmdSendMessage (env : Env) (identity : outcome string) (json_text : string -> option string)
    (args : list string) : outcome (string * Message) :=
  match with_flags ["to"; "text"; "thread-id"] ["to"; "text"] args with
  | Err e => Err e
  | Panic => Panic
  | Ok fl =>
      match connect_flags env fl with
      | Err e => Err e
      | Panic => Panic
      | Ok target =>
          match identity with
          | Err _ => Err (Errorf "get identity")
          | Panic => Panic
          | Ok did =>
              match json_text (Flags.value "text" "" fl) with
              | None => Err (Errorf "json")
              | Some payload =>
                  Ok (target, mkMessage "" did (Flags.value "to" "" fl) (Flags.value "thread-id" "" fl) "" KIND_TEXT payload 0 "")
              end
          end
      end
  end.

Definition text_artifact (name text : string) : Artifact := mkArtifact "" "text/plain" (slen text) text "" name.

Definition cmdCreateTask (env : Env) (args : list string) : outcome (string * Rpc.CreateTaskRequest) :=
  match with_flags ["to"; "skill"; "thread-id"; "input"] ["to"; "skill"] args with
  | Err e => Err e
  | Panic => Panic
  | Ok fl =>
      match connect_flags env fl with
      | Err e => Err e
      | Panic => Panic
      | Ok target =>
          let input := Flags.value "input" "" fl in
          let arts := if String.eqb input "" then [] else [text_artifact "input.txt" input] in
          Ok (target, Rpc.mkCreateTask (Flags.value "to" "" fl)
                        (Some (mkTaskRequest (Flags.value "skill" "" fl) (Flags.value "thread-id" "" fl) arts ∅)) "" 0 0)
      end
  end.

(** The recipient, the thread and the result. *)
Definition cmdSendTaskResult (env : Env) (args : list string) : outcome (string * (string * string * TaskResult)) :=
  match with_flags ["to"; "task-id"; "thread-id"; "result"; "error"] [] args with
  | Err e => Err e
  | Panic => Panic
  | Ok fl =>
      if String.eqb (Flags.value "to" "" fl) "" || String.eqb (Flags.value "task-id" "" fl) ""
      then Err (Errorf "--to and --task-id are required") else
      let errMsg := Flags.value "error" "" fl in
      let result := Flags.value "result" "" fl in
      let status := if String.eqb errMsg "" then COMPLETED else FAILED in
      match connect_flags env fl with
      | Err e => Err e
      | Panic => Panic
      | Ok target =>
          Ok (target, (Flags.value "to" "" fl, Flags.value "thread-id" "" fl,
                       mkTaskResult (Flags.value "task-id" "" fl) status [text_artifact "result.txt" result] errMsg result))
      end
  end.

(** The task, its new status and the error text. *)
Definition cmdUpdateTask (env : Env) (args : list string) : outcome (string * (string * TaskStatus * string)) :=
  match with_flags ["id"; "status"; "error"] ["id"; "status"] args with
  | Err e => Err e
  | Panic => Panic
  | Ok fl =>
      match parseTaskStatus (Flags.value "status" "" fl) with
      | Err e => Err e
      | Panic => Panic
      | Ok st =>
          match connect_flags env fl with
          | Err e => Err e
          | Panic => Panic
          | Ok target => Ok (target, (Flags.value "id" "" fl, st, Flags.value "error" "" fl))
          end
      end
  end.

(** *** Promotion *)

Section Promotion.
Context `{Crypto} `{ThreadsCodec}.

Definition reached (state head : ThreadCatchupState) : bool :=
  (cs_CommittedHeight head <=? cs_CommittedHeight state) && String.eqb (cs_HeadBlockHash state) (cs_HeadBlockHash head).

(** The wait of [cmdPromoteThreadMember] for the observer: [member i] and [head i] are
    the answers of the observer's and the creator's daemon in iteration [i], [clk i]
    the clock in milliseconds when it is compared with the deadline; [n] bounds the
    iterations. *)
Fixpoint promote_wait (member head : nat -> outcome ThreadCatchupState) (clk : nat -> Z) (deadline : Z)
    (state : ThreadCatchupState) (i n : nat) : option (outcome ThreadCatchupState) :=
  match n with
  | O => None
  | S n' =>
      match head i with
      | Ok h =>
          if reached state h then Some (Ok state)
          else if deadline <? clk i then Some (Err (Errorf "observer did not catch up to committed height within 60s"))
          else match member (S i) with
               | Ok state' => promote_wait member head clk deadline state' (S i) n'
               | Err _ => Some (Err (Errorf "get observer catchup state"))
               | Panic => Some Panic
               end
      | _ => Some (Ok state)
      end
  end.

(** The proof the observer signs, encoded. *)
Definition sign_proof (key : string) (state : ThreadCatchupState) (now : Z) : option string :=
  let proof sig := mkProof (cs_ThreadId state) (cs_ObserverDid state) (cs_CommittedHeight state)
                     (cs_HeadBlockHash state) now sig in
  match marshal_proof (proof "") with
  | Some signable => marshal_proof (proof (ed25519_sign key signable))
  | None => None
  end.

(** From the first answer on: the request made of the creator. *)
Definition cmdPromoteThreadMember (threadID key : string) (member head : nat -> outcome ThreadCatchupState)
    (clk : nat -> Z) (now : Z) (n : nat) : option (outcome (string * string * string)) :=
  match member 0%nat with
  | Ok state0 =>
      match promote_wait member head clk (clk 0%nat + 60000) state0 1 n with
      | None => None
      | Some (Ok state) =>
          match sign_proof key state now with
          | Some raw => Some (Ok (threadID, cs_ObserverDid state, raw))
          | None => Some (Err (Errorf "proto: invalid UTF-8"))
          end
      | Some (Err e) => Some (Err e)
      | Some Panic => Some Panic
      end
  | Err _ => Some (Err (Errorf "get observer catchup state"))
  | Panic => Some Panic
  end.
End Promotion.

End Cli.
