(* ===== verification/CliFacts.v ===== *)
(** * Finding the daemon

    Flags parse back what they spell; a client finds the daemon that runs on its data
    directory; [start] waits for the address the daemon will listen on when nothing but
    flags decides it. *)

From stdpp Require Import base gmap strings list pretty.
From Stdlib Require Import ZArith Lia Ascii.
From S2P Require Import Prelude GoStd Identity Tasks Format Cli.

Import Identity Tasks Config Cli.

Local Open Scope string_scope.
Local Open Scope Z_scope.

(** ** Flags *)

(** How a flag can be given. *)
Inductive spelling : Type := mkSpelling { two_dashes : bool; inline : bool }.

Definition dashes (two : bool) : string := if two then "--" else "-".
Definition spell (a : string * string * spelling) : list string :=
  let '(n, v, f) := a in
  if inline f then [dashes (two_dashes f) ++ n ++ "=" ++ v] else [dashes (two_dashes f) ++ n; v].
Definition spell_all (l : list (string * string * spelling)) : list string := concat (spell <$> l).

(** A name a flag can have, with a value it takes; a boolean flag takes its value
    inline. *)
Definition spells (defs : string -> option Flags.kind) (a : string * string * spelling) : Prop :=
  let '(n, v, f) := a in
  n <> "" /\ HasPrefix n "-" = false /\ HasPrefix n "=" = false /\ no_char "=" n = true /\
  exists k, defs n = Some k /\ Flags.accepts k v = true /\ (inline f = false -> k <> Flags.BoolF).

Lemma HasPrefix_app_char c (n t : string) : n <> "" -> HasPrefix (n ++ t) (String c "") = HasPrefix n (String c "").
Proof.
  destruct n as [|a n]; [done|]. intros _. unfold HasPrefix.
  change (String a n ++ t) with (String a (n ++ t)). cbn [String.prefix]. destruct (ascii_dec c a); [|done]. by destruct n, t.
Qed.

(** One flag, followed by anything. *)
Lemma parse_spelled defs a args : spells defs a ->
  Flags.parse defs (spell a ++ args)%list =
    option_map (fun r => (fst a :: fst r, snd r)) (Flags.parse defs args).
Proof.
  destruct a as [[n v] [two inl]]. intros (Hn & Hd & He & Hc & k & Hk & Hv & Hi). simpl in Hi.
  assert (Hw : forall t, n ++ t <> "") by (intros t; destruct n; done).
  assert (Hparse : forall t rest', Flags.parse defs ((dashes two ++ n ++ t) :: rest') =
    let '(m, w) := cut "="%char (n ++ t) in
    let set k v r := if Flags.accepts k v then option_map (fun r => ((m, v) :: fst r, snd r)) r else None in
    match defs m, w with
    | None, _ => None
    | Some k, Some v => set k v (Flags.parse defs rest')
    | Some Flags.BoolF, None => set Flags.BoolF "true" (Flags.parse defs rest')
    | Some k, None =>
        match rest' with [] => None | v :: rest'' => set k v (Flags.parse defs rest'') end
    end).
  { intros t rest'. pose proof (HasPrefix_app_char "-" n t Hn) as E1. pose proof (HasPrefix_app_char "=" n t Hn) as E2.
    rewrite Hd in E1. rewrite He in E2. specialize (Hw t). destruct (n ++ t) as [|c u] eqn:Enu; [done|].
    assert (Hcd : c <> "-"%char).
    { intros ->. unfold HasPrefix in E1. cbn in E1. by destruct u. }
    destruct two; cbn [Flags.parse dashes].
    - change (("--" ++ String c u)%string) with (String "-"%char (String "-"%char (String c u))).
      assert (Hlen : (slen (String "-"%char (String "-"%char (String c u))) <? 2) = false)
        by (apply Z.ltb_ge; unfold slen; cbn [String.length]; lia).
      assert (Hlen2 : (slen (String "-"%char (String "-"%char (String c u))) =? 2) = false)
        by (apply Z.eqb_neq; unfold slen; cbn [String.length]; lia).
      rewrite Hlen, Hlen2. cbn [Flags.char_at String.get]. rewrite !bool_decide_true by done. cbn [orb negb andb drop_str].
      rewrite E1, E2. done.
    - change (("-" ++ String c u)%string) with (String "-"%char (String c u)).
      assert (Hlen : (slen (String "-"%char (String c u)) <? 2) = false)
        by (apply Z.ltb_ge; unfold slen; cbn [String.length]; lia).
      rewrite Hlen. cbn [Flags.char_at String.get]. rewrite bool_decide_true by done.
      rewrite bool_decide_false by congruence. cbn [orb negb andb drop_str]. rewrite E1, E2. done. }
  unfold spell. destruct inl; cbn [inline two_dashes app].
  - rewrite Hparse. change (("=" ++ v)%string) with (String "="%char v). rewrite cut_app by done. cbv beta iota zeta. rewrite Hk. destruct k; by rewrite Hv.
  - specialize (Hi eq_refl). specialize (Hparse "" (v :: args)). rewrite append_nil_str in Hparse. rewrite Hparse.
    rewrite cut_none by done. cbv beta iota zeta. rewrite Hk. destruct k; [|done|]; by rewrite Hv.
Qed.

(** Flags round trip: however each flag is spelled, one or two dashes, inline or as
    the next argument, and whatever the values (also ones that look like flags),
    parsing gives back the assignments in order and leaves the arguments after "--". *)
Theorem flags_roundtrip defs l rest :
  Forall (spells defs) l ->
  Flags.parse defs (spell_all l ++ "--" :: rest)%list = Some (fst <$> l, rest).
Proof.
  induction 1 as [|a l Ha _ IH]; [done|]. unfold spell_all in *. cbn [fmap list_fmap concat].
  rewrite <- app_assoc, parse_spelled, IH by done. done.
Qed.

Lemma flags_roundtrip_witness :
  Flags.parse start_flags ["--data-dir"; "--x"; "-verbose=true"; "--grpc-addr=a=b"; "--"; "more"] =
    Some ([("data-dir", "--x"); ("verbose", "true"); ("grpc-addr", "a=b")], ["more"]).
Proof.
  apply (flags_roundtrip start_flags
    [("data-dir", "--x", mkSpelling true false); ("verbose", "true", mkSpelling false true);
     ("grpc-addr", "a=b", mkSpelling true true)] ["more"]).
  repeat (apply Forall_cons; split; [cbn; split_and!; [done..|]; eexists; split_and!; (reflexivity || done)|]). by apply Forall_nil.
Defined.

(** ** The recorded address *)

Definition printable_char (c : ascii) : bool := (33 <=? byte_of c) && (byte_of c <=? 126).
Definition printable (s : string) : bool := all_chars printable_char s.

Lemma spaces_unprintable p : p ∈ spaces -> exists c q, p = String c q /\ printable_char c = false.
Proof.
  intros Hp%list_elem_of_In.
  assert (Hall : forallb (fun p => match p with String c _ => negb (printable_char c) | EmptyString => false end) spaces = true)
    by (vm_compute; reflexivity).
  pose proof (proj1 (forallb_forall _ _) Hall p Hp) as Hc. destruct p as [|c q]; [done|].
  exists c, q. split; [done|]. by apply negb_true_iff.
Qed.

Lemma find_none {A} (f : A -> bool) l : (forall x, x ∈ l -> f x = false) -> List.find f l = None.
Proof.
  intros Hf. induction l as [|x l IH]; [done|]. simpl. rewrite Hf by (by left). apply IH. intros y Hy. apply Hf. by right.
Qed.

Lemma printable_no_prefix c s : printable_char c = true -> List.find (HasPrefix (String c s)) spaces = None.
Proof.
  intros Hc. apply find_none. intros p Hp. destruct (spaces_unprintable p Hp) as (d & q & -> & Hd).
  unfold HasPrefix. cbn [String.prefix]. destruct (ascii_dec d c) as [->|]; [congruence|done].
Qed.

Lemma printable_drop n s : printable s = true -> printable (drop_str n s) = true.
Proof.
  revert n. induction s as [|c s IH]; intros [|n] Hs; try done. simpl. apply IH.
  unfold printable in Hs. simpl in Hs. by apply andb_true_iff in Hs as [_ Hs].
Qed.

Lemma printable_no_suffix s : printable s = true -> List.find (HasSuffix s) spaces = None.
Proof.
  intros Hs. apply find_none. intros p Hp. destruct (spaces_unprintable p Hp) as (d & q & -> & Hd).
  unfold HasSuffix. apply andb_false_iff. right. apply String.eqb_neq. intros E.
  pose proof (printable_drop (String.length s - String.length (String d q)) s Hs) as Hp'. rewrite E in Hp'.
  unfold printable in Hp'. simpl in Hp'. rewrite Hd in Hp'. done.
Qed.

Lemma trim_right_printable n s : printable s = true -> trim_right n s = s.
Proof. intros Hs. destruct n as [|n]; [done|]. cbn [trim_right]. by rewrite printable_no_suffix. Qed.

Lemma drop_app_len (a b : string) : drop_str (String.length (a ++ b) - String.length b) (a ++ b) = b.
Proof. rewrite length_app_str. replace (String.length a + String.length b - String.length b)%nat with (String.length a) by lia. apply drop_str_app. Qed.

Lemma take_app_len (a b : string) : take_str (String.length (a ++ b) - String.length b) (a ++ b) = a.
Proof.
  rewrite length_app_str. replace (String.length a + String.length b - String.length b)%nat with (String.length a) by lia.
  induction a as [|c a IH]; [by destruct b|]. change (String c (take_str (String.length a) (a ++ b)) = String c a). by rewrite IH.
Qed.

(** A line that was written is read back. *)
Lemma TrimSpace_line s : printable s = true -> s <> "" -> TrimSpace (s ++ Format.newline) = s.
Proof.
  intros Hs Hn. destruct s as [|c s]; [done|]. set (t := String c s ++ Format.newline).
  assert (Hc : printable_char c = true) by (unfold printable in Hs; simpl in Hs; by apply andb_true_iff in Hs as [Hc _]).
  unfold TrimSpace. assert (El : trim_left (String.length t) t = t).
  { destruct (String.length t) as [|n]; [done|]. cbn [trim_left].
    assert (E : List.find (HasPrefix t) spaces = None) by (unfold t; change (String c s ++ Format.newline) with (String c (s ++ Format.newline)); by apply printable_no_prefix).
    by rewrite E. }
  rewrite El. assert (Elen : String.length t = S (String.length (String c s))).
  { unfold t. rewrite length_app_str. change (String.length Format.newline) with 1%nat. lia. }
  rewrite Elen. cbn [trim_right].
  assert (Hsp : exists l, spaces = bytes [9]%nat :: bytes [10]%nat :: l) by (eexists; vm_compute; reflexivity).
  destruct Hsp as [l ->]. cbn [List.find].
  assert (E9 : HasSuffix t (bytes [9]%nat) = false).
  { unfold HasSuffix. change (String.length (bytes [9]%nat)) with (String.length Format.newline). unfold t.
    rewrite drop_app_len. by rewrite andb_false_r. }
  assert (E10 : HasSuffix t (bytes [10]%nat) = true).
  { unfold HasSuffix. change (String.length (bytes [10]%nat)) with (String.length Format.newline). unfold t.
    rewrite drop_app_len. apply andb_true_iff. split; [|done]. apply Nat.leb_le. rewrite length_app_str. lia. }
  rewrite E9, E10. change (String.length (bytes [10]%nat)) with (String.length Format.newline). unfold t.
  rewrite take_app_len. by apply trim_right_printable.
Qed.

(** What [cmdStart] decides. *)
Lemma cmdStart_dir env args cfg fl rest :
  cmdStart env args = Ok cfg -> Flags.parse start_flags args = Some (fl, rest) ->
  exists c, Load env (Flags.value "config" "" fl) = Ok c /\
    resolveDataDir env (override (Flags.value "data-dir" "" fl) (DataDir (Daemon c))) = Ok (DataDir (Daemon cfg)) /\
    GRPCAddr (Daemon cfg) = override (Flags.value "grpc-addr" "" fl) (GRPCAddr (Daemon c)).
Proof.
  unfold cmdStart. intros E Hp. rewrite Hp in E. destruct (Load env _) as [c|e|]; [|discriminate..].
  destruct (resolveDataDir env _) as [dir|e|] eqn:Hd; [|discriminate..]. injection E as <-. by exists c.
Qed.

(** A client finds its daemon: once a daemon started with a data directory has recorded
    its address, a client command that is given the same directory and no address of its
    own dials what the daemon listens on; an address of its own it takes as it is. *)
Theorem client_finds_daemon env args cfg fl rest fs addr :
  let env' := mkEnv (home env) (wd env) (stat env) (record_addr cfg fs) (toml_Decode env) in
  let d := Flags.value "data-dir" "" fl in
  cmdStart env args = Ok cfg -> Flags.parse start_flags args = Some (fl, rest) -> d <> "" ->
  printable (listen_addr cfg) = true -> listen_addr cfg <> "" ->
  connect env' d "" = dial_target (listen_addr cfg) /\
  (addr <> "" -> connect env' d addr = dial_target addr).
Proof.
  intros env' d Hs Hf Hd Hp Hn. destruct (cmdStart_dir env args cfg fl rest Hs Hf) as (c & _ & Hr & _).
  fold d in Hr. unfold override in Hr. rewrite (proj2 (String.eqb_neq _ _) Hd) in Hr.
  assert (Hd' : resolveDataDir env' d = Ok (DataDir (Daemon cfg))) by exact Hr.
  unfold connect. rewrite Hd'. unfold resolveGRPCAddr. split.
  - cbn [String.eqb negb files env']. unfold record_addr. rewrite lookup_insert_eq, TrimSpace_line by done.
    by rewrite (proj2 (String.eqb_neq _ _) Hn).
  - intros Ha. by rewrite (proj2 (String.eqb_neq _ _) Ha).
Qed.

(** A machine without configuration files. *)
Definition bare : Env := mkEnv (Some "/home/u") (Some "/work") (fun _ => false) ∅ (fun _ _ => None).
Definition bare_start : outcome Config := cmdStart bare ["--data-dir"; "node1/../n"].

Lemma client_finds_daemon_witness :
  exists cfg, bare_start = Ok cfg /\ listen_addr cfg = "/work/n/a2a.sock" /\
    connect (mkEnv (Some "/home/u") (Some "/work") (fun _ => false) (record_addr cfg ∅) (fun _ _ => None)) "node1/../n" ""
      = Ok "unix:/work/n/a2a.sock".
Proof.
  destruct bare_start as [cfg|e|] eqn:E; [|vm_compute in E; discriminate E..].
  assert (Hl : listen_addr cfg = "/work/n/a2a.sock").
  { assert (Ec : Ok cfg = bare_start) by (by symmetry). vm_compute in Ec. injection Ec as ->. vm_compute. reflexivity. }
  exists cfg. split; [done|]. split; [exact Hl|].
  destruct (client_finds_daemon bare ["--data-dir"; "node1/../n"] cfg [("data-dir", "node1/../n")] [] ∅ "x") as [Hc _].
  - exact E.
  - vm_compute. reflexivity.
  - vm_compute. discriminate.
  - rewrite Hl. vm_compute. reflexivity.
  - rewrite Hl. discriminate.
  - etransitivity; [exact Hc|]. rewrite Hl. vm_compute. reflexivity.
Defined.

(** ** Waiting for the right address *)

(** Flags as the scan of [resolveStartFlags] reads them: inline values only after two
    dashes, no empty value, and no value that looks like a flag. *)
Definition scannable (a : string * string * spelling) : Prop :=
  let '(n, v, f) := a in
  spells start_flags a /\ (inline f = true -> two_dashes f = true) /\ v <> "" /\ HasPrefix v "-" = false.

Definition pick (name : string) (a : string * string * spelling) (cur : string) : string :=
  if String.eqb (fst (fst a)) name then snd (fst a) else cur.

Lemma scan_dash_free name v cur rest : HasPrefix v "-" = false -> scan_flag name (v :: rest) cur = scan_flag name rest cur.
Proof.
  intros Hv. cbn [scan_flag].
  assert (H1 : forall t, String.eqb v (String "-"%char t) = false).
  { intros t. apply String.eqb_neq. intros ->. unfold HasPrefix in Hv. cbn in Hv. by destruct t. }
  assert (H2 : forall t, HasPrefix v (String "-"%char t) = false).
  { intros t. destruct v as [|c v]; [done|]. unfold HasPrefix in *. cbn [String.prefix] in *.
    match goal with |- context [ascii_dec ?a ?b] => destruct (ascii_dec a b) end; [|done]. exfalso. by destruct v. }
  change (("--" ++ name)%string) with (String "-"%char (String "-"%char name)).
  change (("-" ++ name)%string) with (String "-"%char name).
  change (("--" ++ name ++ "=")%string) with (String "-"%char (String "-"%char (name ++ "="))).
  rewrite !H1, H2, andb_false_r. done.
Qed.

(** A name as flags have it. *)
Definition flag_name (n : string) : Prop := HasPrefix n "-" = false /\ no_char "=" n = true.

Lemma flag_name_dash n t : flag_name n -> n <> String "-"%char t.
Proof. intros [Hd _] ->. unfold HasPrefix in Hd. cbn in Hd. by destruct t. Qed.

Lemma flag_name_eq n t : flag_name n -> n <> (t ++ "=") /\ forall u, n <> t ++ String "="%char u.
Proof.
  intros [_ Hc].
  assert (Hall : forall u, n <> t ++ String "="%char u).
  { intros u ->. rewrite no_char_app, no_char_cons in Hc. cbn in Hc. by rewrite andb_false_r in Hc. }
  split; [apply Hall|exact Hall].
Qed.

Lemma same_name n name v r : flag_name n -> flag_name name ->
  n ++ String "="%char v = name ++ String "="%char r -> n = name.
Proof.
  intros [_ Hn] [_ Hm] E. assert (Ec : cut "="%char (n ++ String "="%char v) = cut "="%char (name ++ String "="%char r)) by (by rewrite E).
  rewrite !cut_app in Ec by done. congruence.
Qed.

(** Whether the argument of a flag is read as another flag. *)
Lemma spelled_other n name two : flag_name n -> flag_name name -> n <> name ->
  String.eqb (dashes two ++ n) ("--" ++ name) = false /\ String.eqb (dashes two ++ n) ("-" ++ name) = false /\
  HasPrefix (dashes two ++ n) ("--" ++ name ++ "=") = false.
Proof.
  intros Hn Hm Hne. rewrite !String.eqb_neq. split_and!.
  - destruct two; intros E; [by injection E|]. injection E as E. by apply (flag_name_dash n name Hn).
  - destruct two; intros E; injection E as E; [|done]. by apply (flag_name_dash name n Hm).
  - apply not_true_iff_false. intros E%prefix_split.
    change (("--" ++ name ++ "=")%string) with (String "-"%char (String "-"%char (name ++ "="))) in E.
    destruct two; injection E as E.
    + rewrite <- append_assoc_str in E. by apply (proj2 (flag_name_eq n name Hn) _ E).
    + by apply (flag_name_dash n _ Hn E).
Qed.

Lemma spelled_inline n name v : flag_name n -> flag_name name -> v <> "" ->
  let a := "--" ++ n ++ "=" ++ v in
  String.eqb a ("--" ++ name) = false /\ String.eqb a ("-" ++ name) = false /\
  (slen ("--" ++ name ++ "=") <? slen a) && HasPrefix a ("--" ++ name ++ "=") = String.eqb n name /\
  (n = name -> drop_str (String.length ("--" ++ name ++ "=")) a = v).
Proof.
  intros Hn Hm Hv a. unfold a. rewrite !String.eqb_neq. split_and!.
  - intros E. injection E as E. by apply (proj2 (flag_name_eq name n Hm) v).
  - intros E. injection E as E. by apply (flag_name_dash name _ Hm (eq_sym E)).
  - destruct (String.eqb_spec n name) as [->|Hne].
    + change (("--" ++ name ++ "=" ++ v)%string) with ("--" ++ (name ++ ("=" ++ v))).
      rewrite !append_assoc_str. apply andb_true_iff. split; [|apply prefix_app].
      apply Z.ltb_lt. unfold slen. rewrite !length_app_str. destruct v; [done|]. cbn [String.length]. lia.
    + apply andb_false_iff. right. apply not_true_iff_false. intros E%prefix_split.
      change (("--" ++ name ++ "=")%string) with (String "-"%char (String "-"%char (name ++ "="))) in E.
      injection E as E. rewrite <- append_assoc_str in E. apply Hne. by apply (same_name n name v _ Hn Hm E).
  - intros ->. change (("--" ++ name ++ "=" ++ v)%string) with ("--" ++ (name ++ ("=" ++ v))).
    rewrite !append_assoc_str. apply drop_str_app.
Qed.

Lemma scan_spelled name a rest cur : scannable a -> flag_name name ->
  scan_flag name (spell a ++ rest)%list cur = scan_flag name rest (pick name a cur).
Proof.
  destruct a as [[n v] [two inl]]. intros ((_ & Hd & _ & Hc & _) & Hi & Hv & Hvd) Hm. simpl in Hi.
  assert (Hn : flag_name n) by done. unfold pick, spell. cbn [fst snd inline two_dashes].
  destruct inl; cbn [app].
  - rewrite (Hi eq_refl). cbn [dashes scan_flag].
    destruct (spelled_inline n name v Hn Hm Hv) as (E1 & E2 & E3 & E4). rewrite E1, E2, E3. cbn [orb].
    destruct (String.eqb_spec n name) as [En|]; [by rewrite (E4 En)|done].
  - cbn [scan_flag]. destruct (String.eqb_spec n name) as [->|Hne].
    + assert (E : String.eqb (dashes two ++ name) ("--" ++ name) || String.eqb (dashes two ++ name) ("-" ++ name) = true)
        by (destruct two; cbn [dashes]; rewrite String.eqb_refl; [done|by rewrite orb_true_r]).
      rewrite E. apply (scan_dash_free name v v rest Hvd).
    + destruct (spelled_other n name two Hn Hm Hne) as (E1 & E2 & E3). rewrite E1, E2, E3, andb_false_r. cbn [orb].
      apply (scan_dash_free name v cur rest Hvd).
Qed.

Lemma scan_all name l cur : Forall scannable l -> flag_name name ->
  scan_flag name (spell_all l) cur = fold_left (fun c a => pick name a c) l cur.
Proof.
  intros Hl Hm. revert cur. induction Hl as [|a l Ha _ IH]; intros cur; [done|].
  unfold spell_all in *. cbn [fmap list_fmap concat fold_left]. rewrite scan_spelled by done. apply IH.
Qed.

Lemma value_fold name l cur :
  fold_left (fun c a => pick name a c) l cur = Flags.value name cur (fst <$> l).
Proof.
  unfold Flags.value. induction l as [|a l IH] using rev_ind; [done|].
  rewrite fold_left_app, IH, fmap_app, filter_app. cbn [fold_left fmap list_fmap]. unfold pick.
  destruct (String.eqb_spec (fst (fst a)) name) as [E|E].
  - rewrite filter_cons_True, filter_nil by done. by rewrite last_snoc.
  - rewrite filter_cons_False by done. by rewrite filter_nil, app_nil_r.
Qed.

(** [start] waits for the right address: when the two settings come from flags only,
    and no address of an earlier run is left behind, the directory and the address that
    [cmdStartBackground] watches are those the daemon it starts will use. *)
Theorem start_waits_for_daemon env l cfg c :
  let fl := fst <$> l in
  Forall scannable l -> cmdStart env (spell_all l) = Ok cfg ->
  Load env (Flags.value "config" "" fl) = Ok c -> DataDir (Daemon c) = "" -> GRPCAddr (Daemon c) = "" ->
  files env !! path_Join [DataDir (Daemon cfg); "grpc-addr"] = None ->
  resolveStartFlags env (spell_all l) = (DataDir (Daemon cfg), listen_addr cfg).
Proof.
  intros fl Hl Hs Hc Hdir Haddr Hno.
  assert (Hp : Flags.parse start_flags (spell_all l) = Some (fl, [])).
  { unfold fl. clear -Hl. induction Hl as [|a l Ha _ IH]; [done|]. unfold spell_all in *. cbn [fmap list_fmap concat].
    rewrite parse_spelled, IH; [done|]. destruct a as [[n v] f]. by destruct Ha as [Ha _]. }
  destruct (cmdStart_dir env _ cfg fl [] Hs Hp) as (c' & Hc' & Hr & Hg). rewrite Hc in Hc'. injection Hc' as <-.
  assert (Eo : forall s, override s "" = s) by (intros s; unfold override; destruct (String.eqb_spec s ""); congruence).
  rewrite Hdir in Hr. rewrite Haddr in Hg. rewrite Eo in Hr, Hg.
  unfold resolveStartFlags. rewrite !scan_all by done. rewrite !value_fold. fold fl. rewrite Hr.
  f_equal. unfold resolveGRPCAddr, listen_addr. rewrite Hg, Hno. by destruct (String.eqb _ "").
Qed.

Lemma start_waits_for_daemon_witness :
  resolveStartFlags bare ["--grpc-addr=127.0.0.1:9"; "-data-dir"; "/d"] = ("/d", "127.0.0.1:9").
Proof.
  destruct (cmdStart bare ["--grpc-addr=127.0.0.1:9"; "-data-dir"; "/d"]) as [cfg|e|] eqn:E;
    [|vm_compute in E; discriminate E..].
  assert (Hd : DataDir (Daemon cfg) = "/d" /\ listen_addr cfg = "127.0.0.1:9").
  { vm_compute in E. injection E as <-. vm_compute. done. }
  destruct Hd as [Hd Ha]. transitivity (DataDir (Daemon cfg), listen_addr cfg); [|by rewrite Hd, Ha].
  apply (start_waits_for_daemon bare
    [("grpc-addr", "127.0.0.1:9", mkSpelling true true); ("data-dir", "/d", mkSpelling false false)] cfg Defaults).
  - repeat (apply Forall_cons; split; [split; [cbn; split_and!; [done..|]; eexists; split_and!; (reflexivity || done)|done]|]).
    by apply Forall_nil.
  - exact E.
  - vm_compute. reflexivity.
  - reflexivity.
  - reflexivity.
  - reflexivity.
Defined.

(** ** Where the pieces disagree *)

(** The single-dash inline form is a flag for the daemon and nothing for the scan. *)
Example dash_inline_missed :
  resolveStartFlags bare ["-data-dir=/d"] = ("/home/u/.moltmesh", "/home/u/.moltmesh/a2a.sock") /\
  exists cfg, cmdStart bare ["-data-dir=/d"] = Ok cfg /\ listen_addr cfg = "/d/a2a.sock".
Proof. split; [vm_compute; reflexivity|]. eexists. split; vm_compute; reflexivity. Qed.

(** A configuration file named on the command line that does not exist is ignored. *)
Lemma missing_config_ignored env path : path <> "" -> stat env path = false -> Load env path = Ok Defaults.
Proof. intros Hp Hs. unfold Load, resolve. by rewrite (proj2 (String.eqb_neq _ _) Hp), Hs. Qed.

(** Statuses print and parse; event kinds print in words that do not parse. *)
Lemma status_roundtrip st : st ∈ [WORKING; COMPLETED; FAILED; CANCELLED] -> parseTaskStatus (Format.TaskStatus st) = Ok st.
Proof. intros Hs%list_elem_of_In. by destruct Hs as [<-|[<-|[<-|[<-|[]]]]]. Qed.

Example event_kind_mismatch :
  parseEventKind (Format.EventKind 1) = Err (Errorf "unknown event kind") /\ parseEventKind "token_chunk" = Ok 1.
Proof. vm_compute. done. Qed.

(** Anything longer than 24 bytes passes for a DID. *)
Lemma long_did_valid s : 24 < slen s -> isDIDValid s = true.
Proof.
  intros Hs. unfold isDIDValid, Format.DID, Short. destruct (Z.leb_spec (slen s) 24); [lia|].
  destruct (String.eqb_spec (take_str (String.length keyPrefix + 6) s ++ ellipsis ++ drop_str (String.length s - 4) s) s) as [E|]; [|done].
  exfalso. assert (Hl : String.length s = String.length (take_str (String.length keyPrefix + 6) s ++ ellipsis ++ drop_str (String.length s - 4) s))
    by (by rewrite E). clear E.
  rewrite !length_app_str in Hl.
  assert (Ht : forall n (u : string), (String.length (take_str n u) <= n)%nat).
  { intros n u. revert n. induction u as [|c u IH]; intros [|n]; simpl; try lia. specialize (IH n). lia. }
  assert (Hd : forall n (u : string), (String.length (drop_str n u) = String.length u - n)%nat).
  { intros n u. revert n. induction u as [|c u IH]; intros [|n]; simpl; try lia. by rewrite IH. }
  specialize (Ht (String.length keyPrefix + 6)%nat s). rewrite Hd in Hl.
  change (String.length ellipsis) with 3%nat in Hl. change (String.length keyPrefix + 6)%nat with 15%nat in *.
  unfold slen in Hs. lia.
Qed.

(** Ready or not, the wait for a daemon ends: with a third of a second between probes
    fifty-one are enough for the fifteen seconds. *)
Lemma wait_ready_ends live clk n i deadline :
  (forall j, (i <= j)%nat -> clk j + 300 <= clk (S j)) -> (0 < n)%nat -> deadline <= clk i + 300 * (Z.of_nat n - 1) ->
  wait_ready live clk deadline i n <> None.
Proof.
  revert i. induction n as [|n IH]; intros i Hc Hn Hd; [lia|]. cbn [wait_ready].
  destruct (Z.ltb_spec (clk i) deadline); [|done]. destruct (live i); [done|].
  apply IH; [intros j Hj; apply Hc; lia|lia|]. specialize (Hc i ltac:(lia)). lia.
Qed.
