(* ===== verification/CliPromote.v ===== *)
(** * Promotion from the command line ([cmd/moltmesh/threads.go])

    The wait of [promote-thread-member] for the observer ends, and the proof it then
    signs is the one the creator's daemon asks for ([server_threads.go]). *)

From stdpp Require Import base gmap strings list pretty.
From Stdlib Require Import ZArith Lia Ascii.
From S2P Require Import Prelude GoStd Identity Tasks Session Mail ThreadStore Membership Chain Records Rpc ThreadCrypto Manager Deliver DeliverFacts Instances Publisher RpcThreads RpcThreadsFacts Cli.

Import Identity ThreadStore Membership RpcThreads Cli.

Local Open Scope string_scope.
Local Open Scope Z_scope.


Section Promotion.
Context `{CryptoLaws} `{Codec} `{TaskCodec} `{ThreadManager} `{ActorBackend} `{Cipher} `{RecordCodec} `{ArchiveCodec}
  `{ThreadsCodec}.

Lemma wait_ends member head clk deadline state i n :
  (forall j, (i <= j)%nat -> clk j + 500 <= clk (S j)) -> (0 < n)%nat -> deadline < clk i + 500 * (Z.of_nat n - 1) ->
  promote_wait member head clk deadline state i n <> None.
Proof.
  revert state i. induction n as [|n IH]; intros state i Hc Hn Hd; [lia|]. cbn [promote_wait].
  destruct (head i) as [h|e|]; [|done..]. destruct (reached state h); [done|].
  destruct (Z.ltb_spec deadline (clk i)); [done|]. destruct (member (S i)) as [st|e|]; [|done..].
  apply IH; [intros j Hj; apply Hc; lia|lia|]. specialize (Hc i ltac:(lia)). lia.
Qed.

(** The wait ends with an answer of the observer that the head asked for matches, if
    the creator answers. *)
Lemma wait_reached member head clk deadline state i n st :
  promote_wait member head clk deadline state i n = Some (Ok st) ->
  (st = state \/ exists j, member j = Ok st) /\ exists j, match head j with Ok h => reached st h = true | _ => True end.
Proof.
  revert state i. induction n as [|n IH]; intros state i; [discriminate|]. cbn [promote_wait].
  destruct (head i) as [h|e|] eqn:Hh; [|intros [= <-]; split; [by left|exists i; by rewrite Hh]..].
  destruct (reached state h) eqn:Hr; [intros [= <-]; split; [by left|exists i; by rewrite Hh]|].
  destruct (deadline <? clk i); [discriminate|]. destruct (member (S i)) as [st'|e|] eqn:Hm; [|discriminate..].
  intros E. destruct (IH _ _ E) as [[->|Hj] Hh']; (split; [right|done]); eauto.
Qed.

Lemma CommittedHead_run T b x : fst (CommittedHead T (World b [])) = Ok x -> CommittedHead T (World b []) = (Ok x, World b []).
Proof.
  unfold CommittedHead, GetCommittedHeight, GetBlock, bind, query, stmt. cbn [faults db fst snd].
  destruct (_ =? 0); [by intros [= <-]|]. cbn [faults db].
  match goal with |- context [match ?r with Ok _ => _ | Err _ => _ | Panic => _ end] => destruct r end; simpl; [|done..].
  by intros [= <-].
Qed.

(** The creator's daemon accepts what is caught up. *)
Lemma caught_up_accepted clk T did raw nd proof :
  Rpc.hasThreads (Deliver.server (daemon nd)) = true -> caught_up clk T did raw nd proof ->
  0 < p_IssuedAt proof -> p_Signature proof <> "" ->
  verifyCatchupProof clk T did raw (World nd []) = (Ok tt, World nd []).
Proof.
  intros Ht [Hu [HT Hd] Hf (data & Hm & Hv) Hh] Hi Hs. unfold verifyCatchupProof. rewrite Hu, HT, Hd, !String.eqb_refl.
  assert (E1 : (p_IssuedAt proof <=? 0) = false) by lia.
  assert (E2 : (slen (p_Signature proof) =? 0) = false).
  { apply Z.eqb_neq. unfold slen. destruct (p_Signature proof); [done|]. cbn [String.length]. lia. }
  rewrite E1, E2. cbn [negb orb]. cbv zeta.
  assert (E3 : (clk 1%nat - p_IssuedAt proof * 1000000 <? - Minute) || (Minute <? clk 1%nat - p_IssuedAt proof * 1000000) = false)
    by (apply orb_false_iff; split; apply Z.ltb_ge; lia).
  rewrite E3. cbn [negb]. rewrite HT, Hd in Hm. rewrite Hm, Hv.
  rewrite threads_as_run by done. unfold bind.
  rewrite (on_store_run _ nd (Ok (p_CommittedHeight proof, p_HeadBlockHash proof)) (store_of nd)).
  - cbn [fst snd]. rewrite Z.eqb_refl, String.eqb_refl. cbn [andb]. unfold ret. do 2 f_equal. by destruct nd as [[? []] ?].
  - unfold on_blocks, zoom. cbn [db faults]. rewrite (CommittedHead_run _ _ _ Hh). cbn [db faults].
    by destruct (store_of nd).
Qed.

(** What the creator answers is its committed head. *)
Lemma catchup_state_head c clk T nd h w' :
  GetThreadCatchupState c clk (Some T) (World nd []) = (Ok h, w') ->
  fst (CommittedHead T (World (s_blocks (store_of nd)) [])) = Ok (cs_CommittedHeight h, cs_HeadBlockHash h).
Proof.
  unfold GetThreadCatchupState. destruct (negb _); [|done].
  intros (owner & w1 & (_ & Hs & _)%scopedOwner_ok & E)%bind_ok. cbn [db] in Hs.
  apply bind_ok in E as (s & w2 & E2 & E). rewrite self_run in E2. injection E2 as _ <-. cbv zeta in E.
  apply threads_as_ok in E as [_ E].
  apply bind_ok in E as (ms & w3 & [_ Hd3]%list_members_ok & E). destruct (is_member _ ms); [|done].
  apply bind_ok in E as (head & w4 & E4 & E). injection E as <- _.
  apply on_store_read in E4 as [E4 _]; [|apply on_blocks_readonly, CommittedHead_readonly].
  apply zoom_ok in E4 as (w5 & E4%CommittedHead_ok & _). cbn [db] in E4. rewrite Hd3, Hs in E4.
  rewrite E4. by destruct head.
Qed.

(** C37: Promotion from the command line: whatever the two daemons answer, and however often
    the creator's head moves, with probes at least half a second apart the wait for the
    observer ends within 122 of them; and when the creator's head stays what one
    unmodified state of its daemon answers, and the observer answers for this thread and
    its own key and is not ahead of that head, the proof that is then signed with the
    observer's key is accepted by the creator's daemon in that state if it arrives within
    a minute. *)
Theorem cli_promotion clk now T key member head :
  (forall j, clk j + 500 <= clk (S j)) ->
  let did := DIDFromPubBytes (ed25519_public key) in
  let result := cmdPromoteThreadMember T key member head clk now 122 in
  result <> None /\
  forall c sclk nd h w' T' did' raw,
    (forall p r, marshal_proof p = Some r -> unmarshal_proof r = Some p) ->
    slen (ed25519_public key) = 32 -> 0 < now ->
    Rpc.hasThreads (Deliver.server (daemon nd)) = true ->
    GetThreadCatchupState c sclk (Some T) (World nd []) = (Ok h, w') -> (forall i, head i = Ok h) ->
    (forall i st, member i = Ok st ->
       cs_ThreadId st = T /\ cs_ObserverDid st = did /\ cs_CommittedHeight st <= cs_CommittedHeight h) ->
    result = Some (Ok (T', did', raw)) ->
    T' = T /\ did' = did /\
    forall clk', - Minute <= clk' 1%nat - now * 1000000 <= Minute ->
      verifyCatchupProof clk' T did raw (World nd []) = (Ok tt, World nd []).
Proof.
  intros Hclk did result. unfold result, cmdPromoteThreadMember.
  destruct (member 0%nat) as [st0|e|] eqn:Hm0; [|done..].
  pose proof (wait_ends member head clk (clk 0%nat + 60000) st0 1 122 (fun j _ => Hclk j) ltac:(lia)
    ltac:(pose proof (Hclk 0%nat); lia)) as Hend.
  destruct (promote_wait _ _ _ _ _ _ _) as [[st|e|]|] eqn:Hw; [|done..]. clear Hend.
  split; [by destruct (sign_proof key st now)|].
  intros c sclk nd h w' T' did' raw Hcodec Hk Hnow Ht Hget Hhead Hmem.
  destruct (wait_reached _ _ _ _ _ _ _ _ Hw) as [Hst [j Hj]]. rewrite Hhead in Hj.
  assert (Hs : cs_ThreadId st = T /\ cs_ObserverDid st = did /\ cs_CommittedHeight st <= cs_CommittedHeight h).
  { destruct Hst as [->|[i Hi]]; [by apply (Hmem 0%nat)|by apply (Hmem i)]. }
  destruct Hs as (HT & Hdid & Hle). apply andb_true_iff in Hj as [Hge%Z.leb_le Hh%String.eqb_eq].
  destruct (sign_proof key st now) as [raw0|] eqn:Hsp; [|done]. intros [= <- <- <-]. split; [done|]. split; [done|]. intros clk' Hf.
  unfold sign_proof in Hsp. destruct (marshal_proof _) as [data|] eqn:Hdata; [|discriminate].
  eapply (caught_up_accepted _ _ _ _ _ (mkProof (cs_ThreadId st) (cs_ObserverDid st) (cs_CommittedHeight st)
    (cs_HeadBlockHash st) now (ed25519_sign key data))); [done| |exact Hnow|].
  - constructor.
    + exact (Hcodec _ _ Hsp).
    + done.
    + exact Hf.
    + exists data. split; [exact Hdata|]. cbn [p_Signature]. unfold did. by apply VerifyDID_complete.
    + cbn [p_CommittedHeight p_HeadBlockHash]. rewrite Hh.
      replace (cs_CommittedHeight st) with (cs_CommittedHeight h) by lia. apply (catchup_state_head c sclk T nd h w' Hget).
  - cbn [p_Signature]. by apply ed25519_nonempty.
Qed.
End Promotion.

(** ** A concrete promotion *)

#[local] Existing Instance DeliverFacts.toy_task_codec.
#[local] Existing Instance RpcThreadsFacts.voting_backend.

(** An encoding of the two proofs that occur. *)
Definition observer_did : string := DIDFromPubBytes (ed25519_public DeliverFacts.other_key).
Definition unsigned_proof : ThreadCatchupProof := mkProof "T" observer_did 0 "" 1 "".
Definition signed_proof : ThreadCatchupProof :=
  mkProof "T" observer_did 0 "" 1 (ed25519_sign DeliverFacts.other_key "unsigned").

#[local] Instance proof_eq_dec : EqDecision ThreadCatchupProof.
Proof. solve_decision. Defined.

#[local] Instance two_proofs : ThreadsCodec := {|
  marshal_invitation _ := None; unmarshal_invitation _ := None;
  marshal_proof p := if decide (p = unsigned_proof) then Some "unsigned"
                     else if decide (p = signed_proof) then Some "signed" else None;
  unmarshal_proof b := if String.eqb b "unsigned" then Some unsigned_proof
                       else if String.eqb b "signed" then Some signed_proof else None;
  marshal_thread _ := None |}.

Lemma two_proofs_law p r : marshal_proof p = Some r -> unmarshal_proof r = Some p.
Proof. cbn. destruct (decide _) as [->|]; [by intros [= <-]|]. destruct (decide _) as [->|]; [by intros [= <-]|done]. Qed.

Definition creator_node : Node := toy_node toy_shared no_keys.
Definition observer_state : ThreadCatchupState := mkCatchup "T" observer_did 0 "".

Lemma cli_promotion_witness :
  exists raw, cmdPromoteThreadMember "T" DeliverFacts.other_key (fun _ => Ok observer_state)
      (fun _ => Ok (mkCatchup "T" toy_creator 0 "")) (fun j => 500 * Z.of_nat j) 1 122 = Some (Ok ("T", observer_did, raw)) /\
    verifyCatchupProof toy_clk "T" observer_did raw (World creator_node []) = (Ok tt, World creator_node []).
Proof.
  destruct (GetThreadCatchupState None toy_clk (Some "T") (World creator_node [])) as [r w'] eqn:E.
  assert (Hr : fst (GetThreadCatchupState None toy_clk (Some "T") (World creator_node [])) = Ok (mkCatchup "T" toy_creator 0 ""))
    by (vm_compute; reflexivity).
  rewrite E in Hr. cbn [fst] in Hr. subst r.
  destruct (cli_promotion (fun j => 500 * Z.of_nat j) 1 "T" DeliverFacts.other_key (fun _ => Ok observer_state)
    (fun _ => Ok (mkCatchup "T" toy_creator 0 ""))) as [_ Hacc]; [intros j; lia|].
  assert (Hres : cmdPromoteThreadMember "T" DeliverFacts.other_key (fun _ => Ok observer_state)
    (fun _ => Ok (mkCatchup "T" toy_creator 0 "")) (fun j => 500 * Z.of_nat j) 1 122 = Some (Ok ("T", observer_did, "signed")))
    by (vm_compute; reflexivity).
  exists "signed". split; [exact Hres|].
  eapply (Hacc None toy_clk creator_node (mkCatchup "T" toy_creator 0 "") w' "T" observer_did "signed").
  - exact two_proofs_law.
  - reflexivity.
  - lia.
  - reflexivity.
  - exact E.
  - done.
  - intros i st [= <-]. split; [done|]. split; [done|]. done.
  - exact Hres.
  - unfold toy_clk. vm_compute. split; discriminate.
Defined.
