(* ===== verification/CliCommands.v ===== *)
(** * The client commands ([cmd/moltmesh])

    Every command that talks to a daemon, as the target it dials and the request it
    makes of its arguments.  The commands that build a message, a task or a result are
    in [Cli]; what commands print or write of an answer is in [CliOutputs]. *)

From stdpp Require Import base gmap strings list pretty.
From Stdlib Require Import ZArith Lia Ascii.
From S2P Require Import Prelude GoStd Identity Tasks Mail ThreadStore Chain Records Manager Rpc RpcExt RpcDiag Format Tui Cli.

Import Identity Tasks Config.

Local Open Scope string_scope.
Local Open Scope Z_scope.

Declare Scope cli_scope.
Notation "'let?' x ':=' c 'in' k" :=
  (match c with Ok x => k | Err e => Err e | Panic => Panic end)
  (at level 200, x name, c at level 100, k at level 200, right associativity) : cli_scope.
Local Open Scope cli_scope.

Module Commands.

(** The calls of the A2ANode service the commands make. *)
Inductive request : Type :=
| GetIdentity
| GetAgentCard (did : string)
| PublishAgentCard (card : AgentCard)
| FindAgents (capability : string) (limit : Z)
| GetInbox (threadID taskID : string) (unreadOnly : bool) (limit : Z)
| GetOutbox (status : string) (limit : Z)
| SubscribeInbox (threadID taskID : string)
| AckMessage (id : string)
| GetTask (id : string)
| CancelTask (id : string)
| PublishTaskEvent (event : TaskEvent)
| SubscribeTaskEvents (id : string) (after : Z)
| SendFile (req : RpcFiles.SendFileRequest)
| FetchFile (cid from : string)
| CreateThread (req : CreateThreadRequest)
| CreateThreadWithRecovery (req : CreateThreadRequest)
| GetThread (id : string)
| AppendEntry (threadID payload kind : string)
| GetThreadEntries (id : string) (since limit : Z)
| SubscribeThread (id : string) (since : Z)
| AddThreadReplica (threadID did : string)
| RecoverThreadWithHandle (handle : ThreadRecoveryHandle)
| Ping (target : string) (count : Z)
| Health
| ListPeers
| Publish (topic payload : string)
| SubscribeTopic (topic : string)
| SetWebhook (url secret : string)
| ClearWebhook
| GetWebhook
| CreateNetwork (name : string)
| JoinNetwork (id : string)
| LeaveNetwork (id : string)
| ListNetworks
| NetworkMembers (id : string)
| BroadcastNetwork (id payload : string)
| SubscribeNetwork (id : string)
| ClaimName (name : string)
| ResolveName (name : string).

(** ** Commands with the flags of [clientFlags] *)

(** The flags and the arguments that are left. *)
Definition parse_flags (defs : list (string * Flags.kind)) (args : list string)
    : outcome (list (string * string) * list string) :=
  match Flags.parse (Flags.of_list defs) args with Some r => Ok r | None => Err (Errorf "exit status 2") end.
Definition client_defs (defs : list (string * Flags.kind)) : list (string * Flags.kind) :=
  (("data-dir", Flags.StringF) :: ("grpc-addr", Flags.StringF) :: defs)%list.
Definition str (n : string) : string * Flags.kind := (n, Flags.StringF).

(** Parses, checks that the required flags are not empty, and connects. *)
Definition with_client (env : Env) (defs : list (string * Flags.kind)) (required : list string)
    (rq : list (string * string) -> outcome request) (args : list string) : outcome (string * request) :=
  let? p := parse_flags (client_defs defs) args in
  match Cli.missing required (fst p) with
  | Some n => Err (Errorf ("--" ++ n ++ " is required"))
  | None =>
      let? r := rq (fst p) in
      let? t := Cli.connect_flags env (fst p) in Ok (t, r)
  end.

(** [dialClient]: only the two flags. *)
Definition dialClient (env : Env) (rq : request) (args : list string) : outcome (string * request) :=
  with_client env [] [] (fun _ => Ok rq) args.

Section Client.
Variable env : Env.
Notation v := (fun n fl => Flags.value n "" fl).

Definition cmdGetIdentity := dialClient env GetIdentity.
Definition cmdStatus := dialClient env GetIdentity.
Definition cmdInfo := dialClient env GetIdentity.
Definition cmdHealth := dialClient env Health.
Definition cmdPeers := with_client env [] [] (fun _ => Ok ListPeers).

Definition cmdGetAgentCard := with_client env [str "did"] ["did"] (fun fl => Ok (GetAgentCard (v "did" fl))).
(** [identity]: the daemon's answer to GetIdentity, asked for after connecting. *)
Definition cmdPublishAgentCard (identity : outcome KeyFile.AgentIdentity) (args : list string) : outcome (string * request) :=
  let? p := parse_flags (client_defs [str "name"; str "description"]) args in
  if String.eqb (v "name" (fst p)) "" then Err (Errorf "--name is required") else
  let? t := Cli.connect_flags env (fst p) in
  match identity with
  | Ok id => Ok (t, PublishAgentCard (mkCard (KeyFile.ai_Did id) (v "name" (fst p)) (v "description" (fst p)) []
                      (KeyFile.ai_Multiaddrs id) (KeyFile.ai_PublicKey id) 0 0 "" ∅ "" "" 0))
  | Err _ => Err (Errorf "get identity")
  | Panic => Panic
  end.
Definition cmdFindAgents := with_client env [str "capability"; ("limit", Flags.IntF)] ["capability"]
  (fun fl => Ok (FindAgents (v "capability" fl) (int32 (Flags.int_value "limit" 10 fl)))).

Definition cmdGetInbox := with_client env
  [("limit", Flags.IntF); ("unread", Flags.BoolF); str "thread-id"; str "task-id"; ("decode", Flags.BoolF)] []
  (fun fl => Ok (GetInbox (v "thread-id" fl) (v "task-id" fl) (Flags.bool_value "unread" fl)
                   (int32 (Flags.int_value "limit" 20 fl)))).
Definition cmdGetOutbox := with_client env [str "status"; ("limit", Flags.IntF)] []
  (fun fl => Ok (GetOutbox (v "status" fl) (int32 (Flags.int_value "limit" 20 fl)))).
Definition cmdSubscribeInbox := with_client env [str "thread-id"; str "task-id"; ("decode", Flags.BoolF)] []
  (fun fl => Ok (SubscribeInbox (v "thread-id" fl) (v "task-id" fl))).
Definition cmdAckMessage := with_client env [str "id"] ["id"] (fun fl => Ok (AckMessage (v "id" fl))).

Definition cmdGetTask := with_client env [str "id"] ["id"] (fun fl => Ok (GetTask (v "id" fl))).
Definition cmdCancelTask := with_client env [str "id"] ["id"] (fun fl => Ok (CancelTask (v "id" fl))).
Definition cmdPublishTaskEvent := with_client env [str "task-id"; str "kind"; str "data"] ["task-id"]
  (fun fl => let? k := Cli.parseEventKind (Flags.value "kind" "status_update" fl) in
             Ok (PublishTaskEvent (mkEvent (v "task-id" fl) UNSPECIFIED k (v "data" fl) 0 0))).
Definition cmdSubscribeTaskEvents := with_client env [str "id"] ["id"] (fun fl => Ok (SubscribeTaskEvents (v "id" fl) 0)).

(** The file is read before connecting. *)
Definition cmdSendFile := with_client env [str "file"; str "mime-type"] ["file"]
  (fun fl => match files env !! v "file" fl with
             | None => Err (Errorf "read file")
             | Some data => Ok (SendFile (RpcFiles.mkSendFile data (v "file" fl)
                                  (Flags.value "mime-type" "application/octet-stream" fl)))
             end).
Definition cmdFetchFile := with_client env [str "cid"; str "from"; str "out"] ["cid"; "from"]
  (fun fl => Ok (FetchFile (v "cid" fl) (v "from" fl))).

Definition cmdCreateThread := with_client env
  [str "replicas"; ("f", Flags.IntF); ("epoch-ms", Flags.IntF); ("with-recovery", Flags.BoolF); str "backend"] []
  (fun fl =>
     let replicas := v "replicas" fl in
     let req := mkCreateThread (if String.eqb replicas "" then [] else Cli.comma_list replicas)
                  (int32 (Flags.int_value "f" 0 fl)) (Flags.int_value "epoch-ms" 0 fl)
                  (if String.eqb (v "backend" fl) "" then ∅ else {["backend" := v "backend" fl]}) "" "" "" 0 "" in
     Ok (if Flags.bool_value "with-recovery" fl then CreateThreadWithRecovery req else CreateThread req)).
Definition cmdGetThread := with_client env [str "id"] ["id"] (fun fl => Ok (GetThread (v "id" fl))).
Definition cmdAppendEntry := with_client env [str "thread-id"; str "payload"; str "kind"] ["thread-id"]
  (fun fl => Ok (AppendEntry (v "thread-id" fl) (v "payload" fl) (Flags.value "kind" "custom" fl))).
Definition cmdGetThreadEntries := with_client env [str "id"; ("since", Flags.IntF); ("limit", Flags.IntF)] ["id"]
  (fun fl => Ok (GetThreadEntries (v "id" fl) (Flags.int_value "since" 0 fl) (int32 (Flags.int_value "limit" 50 fl)))).
Definition cmdSubscribeThread := with_client env [str "id"; ("since", Flags.IntF); ("decode", Flags.BoolF)] ["id"]
  (fun fl => Ok (SubscribeThread (v "id" fl) (Flags.int_value "since" 0 fl))).
Definition cmdAddThreadReplica := with_client env [str "thread-id"; str "did"] []
  (fun fl => if String.eqb (v "thread-id" fl) "" || String.eqb (v "did" fl) ""
             then Err (Errorf "--thread-id and --did are required")
             else Ok (AddThreadReplica (v "thread-id" fl) (v "did" fl))).
Definition cmdRecoverThread := with_client env [str "id"; str "secret-base64"] []
  (fun fl =>
     if String.eqb (v "id" fl) "" || String.eqb (v "secret-base64" fl) ""
     then Err (Errorf "--id and --secret-base64 are required") else
     match std_decode (v "secret-base64" fl) with
     | Some secret =>
         if slen secret =? 32 then Ok (RecoverThreadWithHandle (mkRecovery (v "id" fl) secret 1))
         else Err (Errorf "--secret-base64 must decode to a 32-byte recovery secret")
     | None => Err (Errorf "--secret-base64 must decode to a 32-byte recovery secret")
     end).

(** The target is the first argument that is not a flag. *)
Definition cmdPing (args : list string) : outcome (string * request) :=
  let? p := parse_flags (client_defs [("count", Flags.IntF)]) args in
  let? t := Cli.connect_flags env (fst p) in
  Ok (t, Ping (default "" (head (snd p))) (int32 (Flags.int_value "count" 1 (fst p)))).

(** ** Commands that connect with [dialClient(nil, "ext")] *)

(** The default daemon, whatever the arguments say. *)
Definition dial_ext (rq : request) : outcome (string * request) :=
  let? t := Cli.connect env "" "" in Ok (t, rq).

(** [n]'s value, or the argument at position [i] when it is empty. *)
Definition or_arg (n : string) (i : nat) (p : list (string * string) * list string) : string :=
  if String.eqb (v n (fst p)) "" then default "" (snd p !! i) else v n (fst p).

Definition cmdPublish (args : list string) : outcome (string * request) :=
  let? p := parse_flags [str "topic"; str "payload"] args in
  if String.eqb (v "topic" (fst p)) "" then Err (Errorf "--topic is required")
  else dial_ext (Publish (v "topic" (fst p)) (v "payload" (fst p))).
Definition cmdSubscribeTopic (args : list string) : outcome (string * request) :=
  let? p := parse_flags [str "topic"] args in
  if String.eqb (v "topic" (fst p)) "" then Err (Errorf "--topic is required")
  else dial_ext (SubscribeTopic (v "topic" (fst p))).
Definition cmdSetWebhook (args : list string) : outcome (string * request) :=
  let? p := parse_flags [str "url"; str "secret"] args in
  let url := or_arg "url" 0 p in
  if String.eqb url "" then Err (Errorf "usage: set-webhook <url> [--secret <s>]")
  else dial_ext (SetWebhook url (v "secret" (fst p))).
Definition cmdClearWebhook (_ : list string) : outcome (string * request) := dial_ext ClearWebhook.
Definition cmdGetWebhook (_ : list string) : outcome (string * request) := dial_ext GetWebhook.

Definition cmdNetworkCreate (args : list string) : outcome (string * request) :=
  let? p := parse_flags [str "name"] args in
  let name := or_arg "name" 0 p in
  if String.eqb name "" then Err (Errorf "usage: network create <name>") else dial_ext (CreateNetwork name).
Definition first_arg (usage : string) (rq : string -> request) (args : list string) : outcome (string * request) :=
  match args with [] => Err (Errorf usage) | a :: _ => dial_ext (rq a) end.
Definition cmdNetworkJoin := first_arg "usage: network join <network-id>" JoinNetwork.
Definition cmdNetworkLeave := first_arg "usage: network leave <network-id>" LeaveNetwork.
Definition cmdNetworkList (_ : list string) : outcome (string * request) := dial_ext ListNetworks.
Definition cmdNetworkMembers := first_arg "usage: network members <network-id>" NetworkMembers.
Definition cmdNetworkBroadcast (args : list string) : outcome (string * request) :=
  let? p := parse_flags [str "network"; str "payload"] args in
  let by_position := String.eqb (v "network" (fst p)) "" in
  let netID := or_arg "network" 0 p in
  let payload := match by_position, snd p with
                 | true, _ :: q :: _ => q
                 | _, _ => v "payload" (fst p)
                 end in
  if String.eqb netID "" then Err (Errorf "usage: network broadcast <network-id> <payload>")
  else dial_ext (BroadcastNetwork netID payload).
Definition cmdNetworkSubscribe := first_arg "usage: network subscribe <network-id>" SubscribeNetwork.
Definition cmdNetwork (args : list string) : outcome (string * request) :=
  match args with
  | [] => Err (Errorf "subcommand required")
  | sub :: rest =>
      if String.eqb sub "create" then cmdNetworkCreate rest
      else if String.eqb sub "join" then cmdNetworkJoin rest
      else if String.eqb sub "leave" then cmdNetworkLeave rest
      else if String.eqb sub "list" then cmdNetworkList rest
      else if String.eqb sub "members" then cmdNetworkMembers rest
      else if String.eqb sub "broadcast" then cmdNetworkBroadcast rest
      else if String.eqb sub "subscribe" then cmdNetworkSubscribe rest
      else Err (Errorf "unknown network subcommand")
  end.

Definition cmdNameClaim (args : list string) : outcome (string * request) :=
  match args with [] => Err (Errorf "usage: name claim <human-readable-name>") | _ => dial_ext (ClaimName (Join args " ")) end.
Definition cmdNameResolve (args : list string) : outcome (string * request) :=
  match args with [] => Err (Errorf "usage: name resolve <name>") | _ => dial_ext (ResolveName (Join args " ")) end.
Definition cmdName (args : list string) : outcome (string * request) :=
  match args with
  | [] => Err (Errorf "sub-command required")
  | sub :: rest =>
      if String.eqb sub "claim" then cmdNameClaim rest
      else if String.eqb sub "resolve" then cmdNameResolve rest
      else Err (Errorf "unknown name sub-command")
  end.

End Client.
End Commands.
