(* ===== verification/Daemon.v ===== *)
(** * The daemon process ([cmd/moltmesh/daemon.go], [daemon/node/node.go])

    Module Node: the libp2p node as the order in which its parts are opened, joined to
    the network and closed.  Module Daemon: [run], from the identity file over the
    stores and actors to the listening address, with its deferred calls, and [stop]. *)

From stdpp Require Import base gmap strings list pretty.
From Stdlib Require Import ZArith Lia Ascii.
From S2P Require Import Prelude GoStd Identity Tasks Records RpcDiag Format Cli.

Import Identity.

Local Open Scope string_scope.
Local Open Scope Z_scope.

(** ** What the process does to its surroundings *)

Inductive store : Type := InboxDB | TasksDB | ThreadsDB | OutboxDB | NetworksDB.
Inductive actor : Type :=
  InboxActor | TasksActor | RegistryActor | NamesActor | GossipActor | PublisherActor | DeliverActor
| OutboxActor | NetworkActor | WebhookActor.

(** An opening call that failed has no effect; a closing one is made whether it reports
    an error or not. *)
Inductive effect : Type :=
| MakeDir (dir : string)
| MakeConnManager (low high : Z)
| OpenHost (did : string) (addrs : list string)
| OpenPubSub
| OpenBlocks (dir : string)
| StartMDNS
| SpawnDiscovery
| Connect (peer : string)
| BootstrapDHT
| CloseMDNS | CloseBitswap | CloseDHT | CloseHost | CloseBlocks
| OpenStore (s : store) (path : string)
| CloseStore (s : store)
| NewSystem | NewHierarchy | EnableActor (a : actor) | StopActors
| ClaimName (name : string)
| PublishCard (card : AgentCard)
| AdvertiseCapability (cap : string)
| SpawnArchiveWorker
| SetPassivationAfter (ns : Z)
| UseHierarchy
| StartThreads
| Listen (network addr : string)
| Serve
| GracefulStop
| CancelContext.

(** The calls [run] defers. *)
Inductive cleanup : Type :=
| DeferCancel | DeferCloseNode | DeferCloseStore (s : store) | DeferStopActors | DeferRemove (path : string).

(** The files, the effects so far and the deferred calls, both latest first. *)
Record Machine : Type := mkMachine { files : gmap string string; trace : list effect; deferred : list cleanup }.

Definition note (e : effect) (m : Machine) : Machine := mkMachine (files m) (e :: trace m) (deferred m).
Definition set_files (f : gmap string string -> gmap string string) (m : Machine) : Machine :=
  mkMachine (f (files m)) (trace m) (deferred m).
Definition push (c : cleanup) (m : Machine) : Machine := mkMachine (files m) (trace m) (c :: deferred m).

Notation Sys := (M Machine).

(** A call that may fail, one that cannot, one whose error is only logged, and a close. *)
Definition call (e : effect) : Sys unit := exec (note e).
Definition act (e : effect) : Sys unit := modify (note e).
Definition attempt (e : effect) : Sys unit := log_err (call e).
Definition close (e : effect) : Sys unit := do! act e in query (fun _ => Ok tt).
Definition defer (c : cleanup) : Sys unit := modify (push c).
(** [os.WriteFile] truncates before it writes; [os.Remove]. *)
Definition write (path data : string) : Sys unit :=
  do! exec (set_files <[path := ""]>) in exec (set_files <[path := data]>).
Definition remove (path : string) : Sys unit := exec (set_files (delete path)).
Definition lift {A} (r : outcome A) : Sys A := fun w => (r, w).

(** ** The node *)

Module Node.
Section Host.

(** [multiaddr.NewMultiaddr] and [peer.AddrInfoFromP2pAddr] down to the peer ID. *)
Context {MA : Type} (NewMultiaddr : string -> option MA) (peer_of : MA -> option string).

Record Config : Type := mkConfig {
  ListenAddrs : list string; BootstrapPeers : list string; IPFSBootstrap : bool; DataDir : string;
  ConnLowWater : Z; ConnHighWater : Z }.

Definition bootstrap_peers (cfg : Config) : list string :=
  omap (fun p => NewMultiaddr p ≫= peer_of) (BootstrapPeers cfg).

(** Connects to each, counting those that answered. *)
Fixpoint connect_all (peers : list string) (connected : Z) : Sys Z :=
  match peers with
  | [] => ret connected
  | p :: rest =>
      catch (call (Connect p)) (fun r => connect_all rest (match r with Ok _ => connected + 1 | _ => connected end))
  end.

Definition bootstrap (cfg : Config) : Sys unit :=
  let! connected := connect_all (bootstrap_peers cfg) 0 in
  guard! negb (connected =? 0) else Errorf "could not connect to any bootstrap peer" in
  call BootstrapDHT.

(** Closes the host before returning the error. *)
Definition or_close_host (m : Sys unit) : Sys unit :=
  catch m (fun r => match r with Ok _ => ret tt | Err e => do! log_err (close CloseHost) in throw e | Panic => panic end).

Definition New (did : string) (cfg : Config) : Sys unit :=
  do! for_each (ListenAddrs cfg) (fun a => match NewMultiaddr a with Some _ => ret tt | None => throw (Errorf "invalid listen addr") end) in
  let lo := if ConnLowWater cfg <=? 0 then 50 else ConnLowWater cfg in
  let hi := if ConnHighWater cfg <=? 0 then 200 else ConnHighWater cfg in
  do! call (MakeConnManager lo hi) in
  do! call (OpenHost did (ListenAddrs cfg)) in
  do! or_close_host (call OpenPubSub) in
  do! or_close_host (call (OpenBlocks (DataDir cfg ++ "/blocks"))) in
  do! attempt StartMDNS in
  do! act SpawnDiscovery in
  log_err (bootstrap cfg).

(** One round of the discovery goroutine over the peers found, with their addresses. *)
Definition discovery_round (self : string) (found : list (string * list string)) : Sys unit :=
  for_each found (fun p => if String.eqb (fst p) self || bool_decide (snd p = []) then ret tt else attempt (Connect (fst p))).

(** [HandlePeerFound] of the mDNS service. *)
Definition HandlePeerFound (pi : string) : Sys unit := attempt (Connect pi).

Definition Close : Sys unit :=
  do! act CloseMDNS in
  do! act CloseBitswap in
  do! log_err (close CloseDHT) in
  catch (close CloseHost) (fun hostErr =>
  catch (close CloseBlocks) (fun err =>
    match hostErr, err with
    | Ok _, Err e => throw e
    | _, _ => lift hostErr
    end)).

Definition P2PAddrs (id : string) (addrs : list string) : list string := (fun a => a ++ "/p2p/" ++ id) <$> addrs.

End Host.
End Node.

(** ** The daemon *)

Module Daemon.
Section Process.
Context `{Crypto} `{Unicode}.
Context {MA : Type} (NewMultiaddr : string -> option MA) (peer_of : MA -> option string).
(** The key conversion of libp2p, the encoding of the identity file, and the ID and
    addresses of the host. *)
Context (wrap : string -> bool) (json : string -> string -> option string) (un_json : string -> option string).
Context (host_id : string) (host_addrs : list string).

Definition identity_path (dir : string) : string := path_Join [dir; "identity.json"].

(** A new identity, saved, or the one on disk; [keys] is what GenerateKey returns. *)
Definition new_identity (keys : option (string * string)) (idPath : string) : Sys KeyFile.Identity :=
  let! id := lift (KeyFile.Generate wrap keys) in
  match KeyFile.Save json id with
  | None => throw (Errorf "save identity")
  | Some data => do! write idPath data in ret id
  end.
Definition read_identity (idPath : string) : Sys KeyFile.Identity :=
  let! file := query (fun m => Ok (files m !! idPath)) in lift (KeyFile.LoadKey wrap un_json file).
Definition load_identity (keys : option (string * string)) (idPath : string) : Sys KeyFile.Identity :=
  catch (query (fun m => Ok (files m !! idPath)))
    (fun stat => match stat with Ok None => new_identity keys idPath | _ => read_identity idPath end).

Definition listen_addrs (cfg : Config.Config) : list string :=
  let host := if String.eqb (Config.ListenHost (Config.Network cfg)) "" then "0.0.0.0" else Config.ListenHost (Config.Network cfg) in
  let port := if String.eqb (Config.Port (Config.Network cfg)) "" then "0" else Config.Port (Config.Network cfg) in
  ["/ip4/" ++ host ++ "/udp/" ++ port ++ "/quic-v1"; "/ip4/" ++ host ++ "/tcp/" ++ port].

Definition node_config (cfg : Config.Config) : Node.Config :=
  Node.mkConfig (listen_addrs cfg) (Config.BootstrapPeers (Config.Network cfg)) (Config.IPFSBootstrapEnabled cfg)
    (Config.DataDir (Config.Daemon cfg)) 0 0.

Definition db_file (s : store) : string :=
  match s with
  | InboxDB => "inbox.db" | TasksDB => "tasks.db" | ThreadsDB => "threads.db"
  | OutboxDB => "outbox.db" | NetworksDB => "networks.db"
  end.
Definition open (dir : string) (s : store) : Sys unit :=
  do! call (OpenStore s (path_Join [dir; db_file s])) in defer (DeferCloseStore s).

Definition with_addrs (addrs : list string) (c : AgentCard) : AgentCard :=
  mkCard (a_Did c) (a_Name c) (a_Description c) (a_Skills c) addrs (a_PublicKey c) (a_PublishedAt c) (a_ExpiresAt c)
    (a_Signature c) (a_Metadata c) (a_EncryptionPublicKey c) (a_NodePeerId c) (a_Sequence c).

(** The name, the card and the capabilities of the configuration; none of the errors
    stops the daemon. *)
Definition announce (cfg : Config.Config) : Sys unit :=
  let agent := Config.Agent cfg in
  do! (if String.eqb (Config.Name agent) "" then ret tt else attempt (ClaimName (Config.Name agent))) in
  if String.eqb (Config.Name agent) "" && String.eqb (Config.Description agent) "" && bool_decide (Config.Capabilities agent = [])
  then ret tt else
  do! attempt (PublishCard (with_addrs (Node.P2PAddrs host_id host_addrs) (Cli.agentCardFromConfig cfg))) in
  for_each (Config.Capabilities agent) (fun cap => attempt (AdvertiseCapability cap)).

Definition enable (l : list actor) : Sys unit := for_each l (fun a => call (EnableActor a)).

Definition listen (addr : string) : Sys unit :=
  let! unix := lift (Cli.is_unix addr) in
  if unix then do! log_err (remove addr) in call (Listen "unix" addr) else call (Listen "tcp" addr).

(** A file that is there while the daemon runs; an error is only logged. *)
Definition publish_file (path data : string) : Sys unit := do! log_err (write path data) in defer (DeferRemove path).

Definition addr_file (dir : string) : string := path_Join [dir; "grpc-addr"].
Definition pid_file (dir : string) : string := path_Join [dir; "daemon.pid"].

(** [run] up to the wait for a signal. *)
Definition boot_identity (keys : option (string * string)) (cfg : Config.Config) : Sys unit :=
  let dir := Config.DataDir (Config.Daemon cfg) in
  let! id := load_identity keys (identity_path dir) in
  do! defer DeferCancel in
  do! Node.New NewMultiaddr peer_of (KeyFile.DID id) (node_config cfg) in
  defer DeferCloseNode.

Definition boot_services (cfg : Config.Config) : Sys unit :=
  let dir := Config.DataDir (Config.Daemon cfg) in
  do! open dir InboxDB in
  do! open dir TasksDB in
  do! call NewSystem in
  do! call NewHierarchy in
  do! enable [InboxActor; TasksActor; RegistryActor; NamesActor] in
  do! announce cfg in
  do! enable [GossipActor] in
  do! open dir ThreadsDB in
  do! enable [PublisherActor] in
  do! act SpawnArchiveWorker in
  do! act (SetPassivationAfter (Config.ThreadPassivationAfter cfg)) in
  do! call UseHierarchy in
  do! attempt StartThreads in
  do! enable [DeliverActor] in
  do! open dir OutboxDB in
  do! enable [OutboxActor] in
  do! open dir NetworksDB in
  do! enable [NetworkActor; WebhookActor] in
  defer DeferStopActors.

Definition boot_server (pid : Z) (cfg : Config.Config) : Sys unit :=
  let dir := Config.DataDir (Config.Daemon cfg) in
  do! listen (Cli.listen_addr cfg) in
  do! act Serve in
  do! publish_file (addr_file dir) (Cli.listen_addr cfg ++ Format.newline) in
  publish_file (pid_file dir) (pretty pid ++ Format.newline).

Definition boot (keys : option (string * string)) (pid : Z) (cfg : Config.Config) : Sys unit :=
  do! boot_identity keys cfg in
  do! boot_services cfg in
  boot_server pid cfg.

Definition clean (c : cleanup) : Sys unit :=
  match c with
  | DeferCancel => act CancelContext
  | DeferCloseNode => log_err Node.Close
  | DeferCloseStore s => act (CloseStore s)
  | DeferStopActors => act StopActors
  | DeferRemove path => log_err (remove path)
  end.

(** Runs the deferred calls of [m], latest first, whatever its outcome. *)
Definition with_defers {A} (m : Sys A) : Sys A := fun w =>
  let '(r, w1) := m (World (mkMachine (files (db w)) (trace (db w)) []) (faults w)) in
  let '(_, w2) := for_each (deferred (db w1)) clean w1 in
  (r, World (mkMachine (files (db w2)) (trace (db w2)) []) (faults w2)).

(** The whole life of the process. *)
Definition run (keys : option (string * string)) (pid : Z) (cfg : Config.Config) : Sys unit :=
  with_defers (
    do! boot keys pid cfg in
    do! act GracefulStop in
    act CancelContext).
Definition runDaemon (keys : option (string * string)) (pid : Z) (cfg : Config.Config) : Sys unit :=
  do! call (MakeDir (Config.DataDir (Config.Daemon cfg))) in run keys pid cfg.

End Process.

(** ** [stop] *)

(** [fmt.Sscanf(s, "%d", &n)] of an int64: leading spaces but no newline, a sign, and as
    many digits as there are. *)
Fixpoint skip_spaces (n : nat) (s : string) : option string :=
  match n with
  | O => Some s
  | S n' =>
      if HasPrefix s Format.newline then None else
      match List.find (HasPrefix s) spaces with
      | Some p => skip_spaces n' (drop_str (String.length p) s)
      | None => Some s
      end
  end.
Definition digit (c : ascii) : option Z :=
  let b := byte_of c in if (48 <=? b) && (b <=? 57) then Some (b - 48) else None.
Fixpoint scan_digits (acc : option Z) (s : string) : option Z :=
  match s with
  | EmptyString => acc
  | String c s' => match digit c with Some d => scan_digits (Some (default 0 acc * 10 + d)) s' | None => acc end
  end.
Definition int_range (n : Z) : option Z := if (- 2 ^ 63 <=? n) && (n <? 2 ^ 63) then Some n else None.
Definition Sscanf_d (s : string) : option Z :=
  match skip_spaces (String.length s) s with
  | None => None
  | Some (String "-" r) => match scan_digits None r with Some n => int_range (- n) | None => None end
  | Some (String "+" r) => match scan_digits None r with Some n => int_range n | None => None end
  | Some r => match scan_digits None r with Some n => int_range n | None => None end
  end.

(** [cmdStop]: the daemon must answer GetIdentity; then the process whose number is in
    the file gets SIGTERM.  [alive]: whether the signal can be sent.  The answer is the
    target dialled and the process signalled. *)
Definition cmdStop (env : Config.Env) (responds : string -> bool) (alive : Z -> bool) (args : list string)
    : outcome (string * option Z) :=
  match Flags.parse (Flags.of_list [("data-dir", Flags.StringF); ("grpc-addr", Flags.StringF)]) args with
  | None => Err (Errorf "exit status 2")
  | Some (fl, _) =>
      match Cli.resolveDataDir env (Flags.value "data-dir" "" fl) with
      | Ok dir =>
          match Cli.dial_target (Cli.resolveGRPCAddr env (Flags.value "grpc-addr" "" fl) dir) with
          | Ok target =>
              if negb (responds target) then Err (Errorf "failed to contact daemon") else
              let pid := Config.files env !! pid_file dir ≫= Sscanf_d in
              Ok (target, match pid with Some n => if (0 <? n) && alive n then Some n else None | None => None end)
          | Err _ => Err (Errorf "daemon not responding")
          | Panic => Panic
          end
      | Err _ => Err (Errorf "daemon not responding")
      | Panic => Panic
      end
  end.

End Daemon.
