(* ===== verification/DaemonFacts.v ===== *)
(** * The life of the daemon

    What was opened is closed in the opposite order, wherever the start failed; the
    identity stays the same over restarts; clients and [stop] find the daemon that runs
    on their data directory. *)

From stdpp Require Import base gmap strings list pretty.
From Stdlib Require Import ZArith Lia Ascii.
From S2P Require Import Prelude GoStd Identity Instances Tasks Records RpcDiag Format Cli CliFacts Daemon.

Import Identity Daemon.

Local Open Scope string_scope.
Local Open Scope Z_scope.

(** ** Opening and closing *)

Definition opening (e : effect) : bool :=
  match e with OpenHost _ _ | OpenStore _ _ => true | _ => false end.
Definition closing (e : effect) : bool :=
  match e with CloseHost | CloseStore _ | StopActors => true | _ => false end.
(** Effects of the kind [k], in the order in which they happened. *)
Definition of_kind (k : effect -> bool) (m : Machine) : list effect := rev (List.filter k (trace m)).

(** What is opened, in this order, and how each is closed. *)
Definition opens (did : string) (cfg : Config.Config) : list effect :=
  OpenHost did (listen_addrs cfg) ::
  ((fun s => OpenStore s (path_Join [Config.DataDir (Config.Daemon cfg); db_file s])) <$>
     [InboxDB; TasksDB; ThreadsDB; OutboxDB; NetworksDB]).
Definition closes : list effect :=
  [CloseHost; CloseStore InboxDB; CloseStore TasksDB; CloseStore ThreadsDB; CloseStore OutboxDB; CloseStore NetworksDB;
   StopActors].
Definition closer (c : cleanup) : option effect :=
  match c with
  | DeferCloseNode => Some CloseHost
  | DeferCloseStore s => Some (CloseStore s)
  | DeferStopActors => Some StopActors
  | _ => None
  end.

Section Life.
Context `{Crypto} `{Unicode}.
Context {MA : Type} (NewMultiaddr : string -> option MA) (peer_of : MA -> option string).
Context (wrap : string -> bool) (json : string -> string -> option string) (un_json : string -> option string).
Context (host_id : string) (host_addrs : list string).

Notation boot := (boot NewMultiaddr peer_of wrap json un_json host_id host_addrs).
Notation boot_services := (boot_services host_id host_addrs).
Notation boot_identity := (boot_identity NewMultiaddr peer_of wrap json un_json).
Notation run := (Daemon.run NewMultiaddr peer_of wrap json un_json host_id host_addrs).

(** The first [n] are open and will be closed; nothing has been closed. *)
Definition stage (did : string) (cfg : Config.Config) (n : nat) (m : Machine) : Prop :=
  of_kind opening m = take n (opens did cfg) /\ of_kind closing m = [] /\
  omap closer (deferred m) = rev (take n closes).

(** Steps that open and close nothing. *)
Definition idle (e : effect) : bool := negb (opening e || closing e).





Section Stage.
Context (did : string) (cfg : Config.Config) (n : nat).
Notation P := (stage did cfg n).

End Stage.

(** The end of the process: what was opened and not closed yet is what the deferred
    calls close. *)
Definition ended (cfg : Config.Config) (m : Machine) : Prop :=
  exists did n, of_kind opening m = take n (opens did cfg) /\
    (of_kind closing m ++ omap closer (deferred m))%list = rev (take n closes).











(** An assertion that effects opening and closing nothing keep. *)
Section Idle.
Context (I : Machine -> Prop) (HI : forall e m, idle e = true -> I m -> I (note e m)).

Lemma idle_call e : idle e = true -> preserves I (call e).
Proof. intros He. apply preserves_exec. intros. by apply HI. Qed.
Lemma idle_act e : idle e = true -> preserves I (act e).
Proof. intros He. apply preserves_modify. intros. by apply HI. Qed.

Lemma connect_idle peers c : preserves I (Node.connect_all peers c).
Proof.
  revert c. induction peers as [|p peers IH]; intros c; [apply preserves_ret|].
  apply preserves_catch; [by apply idle_call|]. intros r. apply IH.
Qed.

Lemma bootstrap_idle c : preserves I (Node.bootstrap NewMultiaddr peer_of c).
Proof.
  apply preserves_bind; [apply connect_idle|]. intros k. apply preserves_if; [by apply idle_call|apply preserves_throw].
Qed.
End Idle.








Lemma stage_0 did did' cfg m : stage did cfg 0 m -> stage did' cfg 0 m.
Proof. done. Qed.





(** ** The deferred calls *)





(** ** The identity *)

(** A key pair as [ed25519.GenerateKey] returns it. *)
Definition genuine (keys : option (string * string)) : Prop := forall pub priv, keys = Some (pub, priv) ->
  pub = ed25519_public priv /\ slen pub = 32 /\ exists seed, priv = seed ++ pub /\ slen seed = 32.

Definition on_disk (path : string) (did : string) (m : Machine) : Prop :=
  exists data id, files m !! path = Some data /\ KeyFile.LoadKey wrap un_json (Some data) = Ok id /\ KeyFile.DID id = did.
(** Every host was opened with the identity that is on disk. *)
Definition one_identity (path : string) (m : Machine) : Prop :=
  forall did addrs, OpenHost did addrs ∈ trace m -> on_disk path did m.

Definition is_host (e : effect) : bool := match e with OpenHost _ _ => true | _ => false end.

Section Identity.
Context (path : string).
Notation I := (one_identity path).

Lemma one_note e m : is_host e = false -> I m -> I (note e m).
Proof.
  intros He HI did addrs [E|Hin]%elem_of_cons; [by subst e|]. apply (HI _ _ Hin).
Qed.
Lemma one_call e : is_host e = false -> preserves I (call e).
Proof. intros He. apply preserves_exec. intros. by apply one_note. Qed.
Lemma one_act e : is_host e = false -> preserves I (act e).
Proof. intros He. apply preserves_modify. intros. by apply one_note. Qed.
Lemma one_defer c : preserves I (defer c).
Proof. by apply preserves_modify. Qed.
Lemma one_lift {A} (r : outcome A) : preserves I (lift r).
Proof. by intros w. Qed.
Lemma one_write p d : p <> path -> preserves I (write p d).
Proof.
  intros Hp. apply preserves_bind; [|intros _]; apply preserves_exec; intros m HI did addrs Hin;
    destruct (HI did addrs Hin) as (data & id & Hf & Hl); exists data, id; simpl; by rewrite lookup_insert_ne.
Qed.
Lemma one_remove p : p <> path -> preserves I (remove p).
Proof.
  intros Hp. apply preserves_exec; intros m HI did addrs Hin.
  destruct (HI did addrs Hin) as (data & id & Hf & Hl); exists data, id; simpl; by rewrite lookup_delete_ne.
Qed.
End Identity.
End Life.

#[export] Hint Resolve one_call one_act one_defer one_lift one_write one_remove : molt_ops.

Section Restart.
Context `{CryptoLaws} `{Unicode}.
Context {MA : Type} (NewMultiaddr : string -> option MA) (peer_of : MA -> option string).
Context (wrap : string -> bool) (json : string -> string -> option string) (un_json : string -> option string).
Hypothesis json_roundtrip : forall did key d, json did key = Some d -> un_json d = Some key.
Context (host_id : string) (host_addrs : list string).

Notation I := (one_identity wrap un_json).

(** Generating and loading leave the identity they return on disk. *)
Definition loaded (path : string) (r : outcome KeyFile.Identity) (m : Machine) : Prop :=
  I path m /\ match r with Ok id => on_disk wrap un_json path (KeyFile.DID id) m | _ => True end.

Lemma read_identity_disk path : hoare (I path) (read_identity wrap un_json path) (loaded path).
Proof.
  intros w Hw. unfold read_identity, bind, query, stmt, loaded, lift.
  destruct (faults w) as [|[] fs]; cbn [fst snd db]; [|done|]; (split; [done|]);
    destruct (KeyFile.LoadKey wrap un_json _) as [id|e|] eqn:E; try done;
    destruct (files (db w) !! path) as [data|] eqn:Ef; try discriminate E; by exists data, id.
Qed.

Lemma new_identity_disk keys path : genuine keys ->
  hoare (fun m => I path m /\ files m !! path = None) (new_identity wrap json keys path) (loaded path).
Proof.
  intros Hk w [Hw Hf].
  assert (Hno : forall m, trace m = trace (db w) -> I path m).
  { intros m Ht did addrs Hin. rewrite Ht in Hin. destruct (Hw did addrs Hin) as (data & id & Hd & _). congruence. }
  unfold new_identity, bind, lift, loaded.
  destruct (KeyFile.Generate wrap keys) as [id|e|] eqn:Eg; [|done..].
  destruct (KeyFile.Save json id) as [data|] eqn:Es; [|done].
  assert (Hload : KeyFile.LoadKey wrap un_json (Some data) = Ok id).
  { destruct keys as [[pub priv]|]; [|discriminate Eg]. destruct (Hk pub priv eq_refl) as (-> & Hl & seed & Hs & Hn).
    by destruct (identity_file_roundtrip wrap seed priv json un_json id data "" json_roundtrip Hs Hn Hl Eg Es). }
  unfold write, bind, exec, stmt, ret.
  destruct (faults w) as [|[] [|[] fs]]; cbn; (split; [by apply Hno|]); try done;
    exists data, id; (split; [simpl; by rewrite lookup_insert_eq|done]).
Qed.

Lemma hoare_catch_query {A B} (P : Machine -> Prop) (f : Machine -> outcome A) (k : outcome A -> Sys B) Q :
  (forall m, f m <> Panic) -> (forall r, hoare (fun m => P m /\ (r = Err ErrIO \/ f m = r)) (k r) Q) -> hoare P (catch (query f) k) Q.
Proof.
  intros Hp Hk w Hw. unfold catch, query, stmt. specialize (Hp (db w)).
  destruct (faults w) as [|[] fs]; [|by apply (Hk _ (World _ fs)); simpl; auto|];
    (destruct (f (db w)) as [a|e|] eqn:E; [by apply (Hk _ (World _ _)); simpl; auto..|by destruct Hp]).
Qed.

Lemma load_identity_disk keys path : genuine keys ->
  hoare (I path) (load_identity wrap json un_json keys path) (loaded path).
Proof.
  intros Hk. apply hoare_catch_query; [done|]. intros r.
  destruct r as [[data|]|e|]; try (eapply hoare_conseq; [|apply read_identity_disk|done]; by intros m [Hm _]).
  eapply hoare_conseq; [|by apply new_identity_disk|done]. intros m [Hm [E|E]]; [done|]. split; [done|]. by injection E.
Qed.

(** ** The identity over restarts *)

Lemma identity_boot keys cfg : genuine keys ->
  preserves (I (identity_path (Config.DataDir (Config.Daemon cfg)))) (boot_identity NewMultiaddr peer_of wrap json un_json keys cfg).
Proof.
  intros Hk. set (path := identity_path _).
  assert (Hd : forall did, hoare (fun m => I path m /\ on_disk wrap un_json path did m)
    (do! defer DeferCancel in do! Node.New NewMultiaddr peer_of did (node_config cfg) in defer DeferCloseNode) (fun _ => I path)).
  { intros did. set (J := fun m => I path m /\ on_disk wrap un_json path did m).
    assert (HJ : forall e m, match e with OpenHost d _ => d = did | _ => True end -> J m -> J (note e m)).
    { intros e m He [HI Hdisk]. split; [|exact Hdisk]. intros d addrs [E|Hin]%elem_of_cons; [|by apply (HI _ _ Hin)].
      subst e. by subst d. }
    assert (HC : forall e, match e with OpenHost d _ => d = did | _ => True end -> preserves J (call e)).
    { intros e He. apply preserves_exec. intros m. by apply HJ. }
    assert (HA : forall e, match e with OpenHost d _ => d = did | _ => True end -> preserves J (act e)).
    { intros e He. apply preserves_modify. intros m. by apply HJ. }
    assert (HP : preserves J (do! defer DeferCancel in do! Node.New NewMultiaddr peer_of did (node_config cfg) in defer DeferCloseNode)).
    { unfold Node.New, Node.or_close_host, attempt, close.
      repeat first [by apply HC | by apply HA | by apply preserves_modify | apply preserves_ret | apply preserves_throw
        | apply preserves_panic | apply preserves_query | apply bootstrap_idle; intros [] m Hi Hm; first [done | by apply HJ]
        | apply preserves_bind; [|intros ?] | apply preserves_catch; [|intros ?] | apply preserves_log_err
        | apply preserves_for_each; intros ? | case_match]. }
    intros w Hw. apply (HP w Hw). }
  intros w Hw. unfold boot_identity, bind at 1. pose proof (load_identity_disk keys path Hk w Hw) as Hl.
  fold path. destruct (load_identity _ _ _ keys path w) as [[id|e|] w1]; destruct Hl as [HI Hid]; [|done..].
  by apply (Hd (KeyFile.DID id) w1).
Qed.

Definition dir_of (cfg : Config.Config) : string := Config.DataDir (Config.Daemon cfg).

Lemma identity_services cfg path : preserves (I path) (boot_services host_id host_addrs cfg).
Proof.
  unfold boot_services, open, announce, enable, attempt.
  repeat first [by apply one_call | by apply one_act | apply one_defer | apply preserves_ret
    | apply preserves_bind; [|intros ?] | apply preserves_log_err | apply preserves_for_each; intros ? | case_match].
Qed.

(** *** Names of files *)

Fixpoint final (s : string) : option ascii :=
  match s with EmptyString => None | String c EmptyString => Some c | String _ s' => final s' end.

Lemma final_app p c s : final (p ++ String c s) = final (String c s).
Proof.
  induction p as [|a p IH]; [done|]. change (String a p ++ String c s) with (String a (p ++ String c s)).
  rewrite <- IH. simpl. by destruct (p ++ String c s) eqn:E; [destruct p|].
Qed.

Lemma Join_snoc l c : exists p, Join (l ++ [c])%list "/" = p ++ c.
Proof.
  induction l as [|x l [p IH]]; [by exists ""|]. simpl app. rewrite Join_cons by (by destruct l).
  exists (x ++ "/" ++ p). rewrite IH. by rewrite !append_assoc_str.
Qed.

Lemma Split_snoc s c : no_char "/" c = true -> Split "/" (s ++ String "/" c) = (Split "/" s ++ [c])%list.
Proof.
  intros Hc. induction s as [|a s IH]; [simpl; by rewrite (Split_none _ _ Hc)|].
  change (String a s ++ String "/" c) with (String a (s ++ String "/" c)). cbn [Split].
  destruct (Ascii.eqb "/" a); rewrite IH; [done|]. by destruct (Split "/" s) eqn:E; [apply Split_nonempty in E|].
Qed.

(** A file of the data directory ends with its own name. *)
Lemma path_Join_final dir a c :
  no_char "/" (String a c) = true -> a <> "."%char -> final (path_Join [dir; String a c]) = final (String a c).
Proof.
  intros Hs Ha. set (f := String a c) in *.
  assert (Hstep : forall rooted acc, clean_step rooted acc f = f :: acc).
  { intros rooted acc. unfold clean_step. rewrite !(proj2 (String.eqb_neq f _)) by (unfold f; congruence). done. }
  assert (Hclean : forall s, (s = f \/ exists d, s = d ++ String "/" f) -> final (Clean s) = final f).
  { intros s Hd. assert (Hl : exists l, Split "/" s = (l ++ [f])%list).
    { destruct Hd as [->|[d ->]]; [exists []; by apply Split_none|]. eexists. by apply Split_snoc. }
    destruct Hl as [l Hl]. unfold Clean. rewrite Hl, fold_left_app. cbn [fold_left]. rewrite Hstep. cbn [rev].
    set (r := rev _). destruct (Join_snoc r f) as [p Hp]. destruct (HasPrefix s "/").
    - rewrite Hp. apply (final_app ("/" ++ p)).
    - destruct (r ++ [f])%list eqn:E; [by destruct r|]. rewrite Hp. apply final_app. }
  unfold path_Join. cbn [List.filter]. change (String.eqb f "") with false. cbn [negb].
  destruct (String.eqb_spec dir ""); cbn [negb]; apply Hclean; [by left|right; by exists dir].
Qed.

Lemma identity_server pid cfg path : path = identity_path (dir_of cfg) -> Cli.listen_addr cfg <> path ->
  preserves (I path) (boot_server pid cfg).
Proof.
  intros Hp Hl. unfold boot_server, listen, publish_file.
  assert (Hn : forall a c, no_char "/" (String a c) = true -> a <> "."%char -> final (String a c) <> final "identity.json" ->
    path_Join [dir_of cfg; String a c] <> path).
  { intros a c Hs Ha Hf E. apply Hf. rewrite <- (path_Join_final (dir_of cfg)) by done. rewrite E, Hp. by apply path_Join_final. }
  repeat first [by apply one_call | by apply one_act | apply one_defer | apply one_lift
    | apply one_write, Hn; done | by apply one_remove
    | apply preserves_bind; [|intros ?] | apply preserves_log_err | case_match].
Qed.

(** *** Restarts *)

Record life : Type := mkLife { l_keys : option (string * string); l_pid : Z; l_cfg : Config.Config }.
(** One run after the other, on the same files and the same schedule of failures. *)
Definition lives (ls : list life) (w : world Machine) : world Machine :=
  fold_left (fun w l => snd (Daemon.run NewMultiaddr peer_of wrap json un_json host_id host_addrs
                               (l_keys l) (l_pid l) (l_cfg l) w)) ls w.

(** What a process leaves to its defers: no host, and no removal of the identity. *)
Definition spares (path : string) (m : Machine) : Prop := Forall (fun c => c <> DeferRemove path) (deferred m).

Lemma identity_cleans path l : Forall (fun c => c <> DeferRemove path) l -> preserves (I path) (for_each l clean).
Proof.
  intros Hl. apply (preserves_for_each_in (I path)). intros c Hc. rewrite Forall_forall in Hl. specialize (Hl c Hc).
  destruct c as [| |s| |p]; try by apply one_act.
  - apply preserves_log_err. unfold Node.Close, close.
    repeat first [by apply one_act | apply preserves_query | apply preserves_throw | apply preserves_ret | apply one_lift
      | apply preserves_bind; [|intros ?] | apply preserves_catch; [|intros ?] | apply preserves_log_err | case_match].
  - apply preserves_log_err, one_remove. congruence.
Qed.

Lemma spares_boot keys pid cfg path : path = identity_path (dir_of cfg) ->
  preserves (spares path) (boot NewMultiaddr peer_of wrap json un_json host_id host_addrs keys pid cfg).
Proof.
  intros Hp.
  assert (Hn : forall a c, no_char "/" (String a c) = true -> a <> "."%char -> final (String a c) <> final "identity.json" ->
    preserves (spares path) (defer (DeferRemove (path_Join [dir_of cfg; String a c])))).
  { intros a c Hs Ha Hf. apply preserves_modify. intros m Hm. constructor; [|done]. intros [= E]. apply Hf.
    rewrite <- (path_Join_final (dir_of cfg)) by done. rewrite E, Hp. by apply path_Join_final. }
  assert (Hd : forall c, match c with DeferRemove _ => False | _ => True end -> preserves (spares path) (defer c)).
  { intros c Hc. apply preserves_modify. intros m Hm. constructor; [|done]. intros ->. done. }
  assert (HE : forall f, (forall m, deferred (f m) = deferred m) -> preserves (spares path) (exec f)).
  { intros f Hf. apply preserves_exec. intros m. unfold spares. by rewrite Hf. }
  assert (HM : forall f, (forall m, deferred (f m) = deferred m) -> preserves (spares path) (modify f)).
  { intros f Hf. apply preserves_modify. intros m. unfold spares. by rewrite Hf. }
  assert (HL : forall A (r : outcome A), preserves (spares path) (lift r)) by (by intros A r w).
  unfold boot, boot_identity, boot_services, boot_server, load_identity, new_identity, read_identity, open, announce,
    enable, attempt, call, act, listen, publish_file, write, remove, Node.New, Node.or_close_host, close.
  repeat first [by apply HE | by apply HM | by apply Hd | by apply Hn | apply HL | apply preserves_ret | apply preserves_query | apply preserves_throw
    | apply preserves_panic | apply bootstrap_idle; intros; done
    | apply preserves_bind; [|intros ?] | apply preserves_log_err | apply preserves_catch; [|intros ?]
    | apply preserves_for_each; intros ? | case_match | progress unfold act, call].
Qed.

Lemma identity_run keys pid cfg path : genuine keys -> path = identity_path (dir_of cfg) -> Cli.listen_addr cfg <> path ->
  preserves (I path) (Daemon.run NewMultiaddr peer_of wrap json un_json host_id host_addrs keys pid cfg).
Proof.
  intros Hk Hp Hl w Hw. unfold Daemon.run, with_defers. set (w0 := World _ _). set (body := bind _ _).
  assert (HI : preserves (I path) body).
  { apply preserves_bind; [|intros _; apply preserves_bind; [|intros _]; by apply one_act].
    apply preserves_bind; [subst path; by apply identity_boot|intros _].
    apply preserves_bind; [apply identity_services|intros _; by apply identity_server]. }
  assert (HS : preserves (spares path) body).
  { apply preserves_bind; [by apply spares_boot|]. intros _. apply preserves_bind; [|intros _]; by apply preserves_modify. }
  specialize (HI w0 Hw). specialize (HS w0 (Forall_nil_2 _)). destruct (body w0) as [r w1]. cbn [snd] in *.
  pose proof (identity_cleans path _ HS w1 HI) as Hc. by destruct (for_each _ clean w1) as [r2 w2].
Qed.

(** C23: The identity does not change over restarts: whatever fails in whichever run, and
    whatever keys each would generate, every node on a data directory is opened with the
    one identity that its file holds, as long as no run is told to listen on that file. *)
Theorem daemon_identity_stable path ls w :
  trace (db w) = [] ->
  Forall (fun l => genuine (l_keys l) /\ path = identity_path (dir_of (l_cfg l)) /\ Cli.listen_addr (l_cfg l) <> path) ls ->
  let m := db (lives ls w) in
  exists did, forall d addrs, OpenHost d addrs ∈ trace m -> d = did /\ on_disk wrap un_json path did m.
Proof.
  intros Ht Hls m. assert (Hm : I path m).
  { assert (Hw : I path (db w)) by (intros d addrs; rewrite Ht; by intros ?%elem_of_nil). unfold m. clear m Ht.
    revert w Hw. induction Hls as [|l ls (Hk & Hp & Hl) _ IH]; intros w Hw; [exact Hw|]. apply IH. by apply identity_run. }
  destruct (List.find is_host (trace m)) as [e|] eqn:Ef.
  - apply List.find_some in Ef as [Hin%list_elem_of_In He]. 
    assert (exists d0 a0, e = OpenHost d0 a0) as (d0 & a0 & ->) by (destruct e; try discriminate He; eauto). exists d0.
    intros d addrs Hd. destruct (Hm d addrs Hd) as (f & i & Hf & Hl & <-). destruct (Hm _ _ Hin) as (f0 & i0 & Hf0 & Hl0 & <-).
    rewrite Hf in Hf0. injection Hf0 as <-. rewrite Hl in Hl0. injection Hl0 as <-. split; [done|]. by exists f, i.
  - exists "". intros d addrs Hd. by pose proof (List.find_none _ _ Ef _ (proj1 (list_elem_of_In _ _) Hd)).
Qed.
End Restart.

(** ** Finding the daemon *)

(** Calls that do not fail leave none to fail. *)
Definition sound {A} (m : Sys A) : Prop := forall s, faults (snd (m (World s []))) = [].

Lemma sound_bind {A B} (m : Sys A) (k : A -> Sys B) : sound m -> (forall a, sound (k a)) -> sound (bind m k).
Proof.
  intros Hm Hk s. specialize (Hm s). unfold bind.
  destruct (m (World s [])) as [[a|e|] [s1 fs]]; simpl in *; subst; [apply Hk|done|done].
Qed.
Lemma sound_catch {A B} (m : Sys A) (k : outcome A -> Sys B) : sound m -> (forall a, sound (k a)) -> sound (catch m k).
Proof.
  intros Hm Hk s. specialize (Hm s). unfold catch.
  destruct (m (World s [])) as [[a|e|] [s1 fs]]; simpl in *; subst; [apply Hk|apply Hk|done].
Qed.
Lemma sound_stmt {A} (f : Machine -> outcome A * Machine) : sound (stmt f).
Proof. intros s. unfold stmt. simpl. by destruct (f s). Qed.
Lemma sound_for_each {A} (l : list A) (body : A -> Sys unit) : (forall a, sound (body a)) -> sound (for_each l body).
Proof. intros Hb. induction l as [|a l IH]; [done|]. by apply sound_bind. Qed.

Ltac go_sound :=
  repeat first [done | apply sound_bind; [|intros ?] | apply sound_catch; [|intros ?] | apply sound_for_each; intros ?
    | apply sound_stmt | case_match].

Lemma scan_digits_pretty x t s : (0 < x)%N ->
  Daemon.scan_digits None (pretty_N_go x s ++ t) = Daemon.scan_digits (Some (Z.of_N x)) (s ++ t) /\
  exists k u, (k < 10)%N /\ pretty_N_go x s = String (pretty_N_char k) u.
Proof.
  revert s. induction (N.lt_wf_0 x) as [x _ IH]; intros s Hx. rewrite pretty_N_go_step by done.
  set (k := (x `mod` 10)%N). assert (Hk : (k < 10)%N) by (apply N.mod_lt; done).
  assert (Hd : Daemon.digit (pretty_N_char k) = Some (Z.of_N k)).
  { assert (Hall : forallb (fun j => bool_decide (Daemon.digit (pretty_N_char (N.of_nat j)) = Some (Z.of_nat j))) (seq 0 10) = true)
      by (vm_compute; reflexivity).
    rewrite forallb_forall in Hall. specialize (Hall (N.to_nat k) (proj2 (in_seq 10 0 (N.to_nat k)) ltac:(lia))).
    apply bool_decide_eq_true in Hall. rewrite N2Nat.id in Hall. rewrite Hall. f_equal. lia. }
  destruct (decide (0 < x / 10)%N) as [Hq|Hq].
  - destruct (IH (x / 10)%N (N.div_lt x 10 Hx eq_refl) (String (pretty_N_char k) s) Hq) as [E Hc]. split; [|exact Hc].
    rewrite E. change (String (pretty_N_char k) s ++ t) with (String (pretty_N_char k) (s ++ t)). cbn [Daemon.scan_digits].
    rewrite Hd. f_equal. f_equal. simpl. pose proof (N.div_mod x 10 ltac:(done)). unfold k. lia.
  - assert (E0 : (x / 10)%N = 0%N) by (by apply N.le_0_r, N.nlt_ge). rewrite E0, pretty_N_go_0. split; [|by exists k, s].
    change (String (pretty_N_char k) s ++ t) with (String (pretty_N_char k) (s ++ t)). cbn [Daemon.scan_digits]. rewrite Hd.
    f_equal. f_equal. simpl. pose proof (N.div_mod x 10 ltac:(done)). unfold k. lia.
Qed.

(** A process number is read back from its file. *)
Lemma Sscanf_line pid : 0 < pid < 2 ^ 63 -> Daemon.Sscanf_d (pretty pid ++ Format.newline) = Some pid.
Proof.
  intros Hp. destruct pid as [|p|]; [lia| |lia].
  assert (Ep : pretty (Zpos p) = pretty_N_go (Npos p) "") by done.
  destruct (scan_digits_pretty (Npos p) Format.newline "" ltac:(done)) as (Hs & k & u & Hk & Hu).
  rewrite Ep. rewrite Hu in *. change (String (pretty_N_char k) u ++ Format.newline) with (String (pretty_N_char k) (u ++ Format.newline)) in *.
  assert (Hc : forall P : ascii -> bool, forallb (fun j => P (pretty_N_char (N.of_nat j))) (seq 0 10) = true -> P (pretty_N_char k) = true).
  { intros P Hall. rewrite forallb_forall in Hall. specialize (Hall (N.to_nat k) (proj2 (in_seq 10 0 (N.to_nat k)) ltac:(lia))).
    by rewrite N2Nat.id in Hall. }
  pose proof (Hc printable_char eq_refl) as Hpr. pose proof (Hc (fun c => negb (Ascii.eqb c "-")) eq_refl) as Hm.
  pose proof (Hc (fun c => negb (Ascii.eqb c "+")) eq_refl) as Hpl. pose proof (Hc (fun c => negb (Ascii.eqb c "010")) eq_refl) as Hnl.
  set (c := pretty_N_char k) in *. clearbody c. unfold Daemon.Sscanf_d.
  assert (El : String.length (String c (u ++ Format.newline)) = S (String.length (u ++ Format.newline))) by done.
  rewrite El. cbn [Daemon.skip_spaces]. rewrite printable_no_prefix by done.
  assert (En : HasPrefix (String c (u ++ Format.newline)) Format.newline = false).
  { unfold HasPrefix, Format.newline. cbn [String.prefix]. destruct (ascii_dec "010" c) as [<-|]; [discriminate Hnl|done]. }
  rewrite En.
  assert (Er : match scan_digits None (String c (u ++ Format.newline)) with Some n => int_range n | None => None end = Some (Z.pos p)).
  { rewrite Hs. change (int_range (Z.pos p) = Some (Z.pos p)). unfold int_range.
    rewrite (proj2 (Z.leb_le _ _)), (proj2 (Z.ltb_lt _ _)) by lia. done. }
  rewrite <- Er. clear Er Hs. destruct c as [[] [] [] [] [] [] [] []]; first [reflexivity | discriminate Hm | discriminate Hpl].
Qed.

Section Found.
Context `{Crypto} `{Unicode}.
Context {MA : Type} (NewMultiaddr : string -> option MA) (peer_of : MA -> option string).
Context (wrap : string -> bool) (json : string -> string -> option string) (un_json : string -> option string).
Context (host_id : string) (host_addrs : list string).

Notation boot := (boot NewMultiaddr peer_of wrap json un_json host_id host_addrs).
Notation run := (Daemon.run NewMultiaddr peer_of wrap json un_json host_id host_addrs).

Lemma boot_sound keys cfg : sound (do! boot_identity NewMultiaddr peer_of wrap json un_json keys cfg in boot_services host_id host_addrs cfg).
Proof.
  unfold boot_identity, boot_services, load_identity, new_identity, read_identity, open, announce, enable, attempt, log_err,
    call, Node.New, Node.or_close_host, Node.bootstrap, close, write.
  assert (Hc : forall peers k, sound (Node.connect_all peers k)).
  { induction peers as [|p peers IH]; intros k; [done|]. apply sound_catch; [apply sound_stmt|]. intros r. apply IH. }
  repeat first [apply Hc | progress go_sound | progress unfold call, log_err].
Qed.

Lemma addr_not_pid dir : addr_file dir <> pid_file dir.
Proof.
  intros E. assert (Hf : final (addr_file dir) = final (pid_file dir)) by (by rewrite E).
  unfold addr_file, pid_file in Hf. by rewrite !path_Join_final in Hf.
Qed.

(** What the server leaves when nothing fails. *)
Lemma server_up pid cfg m w : boot_server pid cfg (World m []) = (Ok tt, w) ->
  let dir := dir_of cfg in let addr := Cli.listen_addr cfg in
  (exists net, Listen net addr ∈ trace (db w) /\
     Cli.dial_target addr = Ok (if String.eqb net "unix" then "unix:" ++ addr else addr)) /\
  files (db w) !! addr_file dir = Some (addr ++ Format.newline) /\
  files (db w) !! pid_file dir = Some (pretty pid ++ Format.newline) /\
  deferred (db w) = DeferRemove (pid_file dir) :: DeferRemove (addr_file dir) :: deferred m /\
  faults w = [] /\ addr <> "".
Proof.
  intros E dir addr. pose proof (addr_not_pid dir) as Hne. unfold boot_server in E. fold dir addr in E.
  change (Config.DataDir (Config.Daemon cfg)) with dir in E. clearbody addr dir.
  unfold listen, lift, bind, Cli.is_unix in E. unfold Cli.dial_target, Cli.is_unix.
  destruct addr as [|c a]; [discriminate E|].
  destruct (Ascii.eqb c "/"); cbn in E; injection E as <-; split_and!; try done;
    try (cbn; by rewrite lookup_insert_eq);
    try (cbn; rewrite !lookup_insert_ne by done; by rewrite lookup_insert_eq).
  - exists "unix". split; [cbn; set_solver|done].
  - exists "tcp". split; [cbn; set_solver|done].
Qed.

Lemma cleans_gone path l : preserves (fun m => files m !! path = None) (for_each l clean).
Proof.
  apply preserves_for_each. intros c. destruct c as [| |s| |p]; try by apply preserves_modify.
  - apply preserves_log_err. unfold Node.Close, close, act.
    repeat first [by apply preserves_modify | apply preserves_query | apply preserves_throw | apply preserves_ret | by intros w
      | apply preserves_bind; [|intros ?] | apply preserves_catch; [|intros ?] | apply preserves_log_err | case_match].
  - apply preserves_log_err, preserves_exec. intros m Hm. simpl. by apply lookup_delete_None; right.
Qed.

(** The two files are gone at the end. *)
Lemma files_removed a b d m :
  let m' := db (snd (for_each (DeferRemove a :: DeferRemove b :: d) clean (World m []))) in
  files m' !! a = None /\ files m' !! b = None.
Proof.
  cbv zeta. cbn [for_each]. unfold bind, clean at 1 3, log_err, catch, remove, exec, stmt, ret. cbn [faults db fst snd].
  split; apply cleans_gone; cbn; [apply lookup_delete_None; right|]; apply lookup_delete_eq.
Qed.

(** C38: A daemon that was started with a data directory is found there: once it is up it
    listens on its configured address, a client command given only that directory dials
    this address, and [stop] with that directory asks the daemon there and sends SIGTERM
    to its process; when the daemon has ended the files that say so are gone. *)
Theorem daemon_found env args cfg fl rest keys pid m w responds alive :
  Cli.cmdStart env args = Ok cfg -> Flags.parse Cli.start_flags args = Some (fl, rest) ->
  let d := Flags.value "data-dir" "" fl in let addr := Cli.listen_addr cfg in
  d <> "" -> printable addr = true -> 0 < pid < 2 ^ 63 -> deferred m = [] ->
  boot keys pid cfg (World m []) = (Ok tt, w) ->
  let env' := Config.mkEnv (Config.home env) (Config.wd env) (Config.stat env) (files (db w)) (Config.toml_Decode env) in
  exists net target, Listen net addr ∈ trace (db w) /\
    target = (if String.eqb net "unix" then "unix:" ++ addr else addr) /\ Cli.connect env' d "" = Ok target /\
    (responds target = true -> alive pid = true -> cmdStop env' responds alive ["--data-dir"; d] = Ok (target, Some pid)) /\
    let ended := files (db (snd (run keys pid cfg (World m [])))) in
    ended !! pid_file (dir_of cfg) = None /\ ended !! addr_file (dir_of cfg) = None.
Proof.
  intros Hs Hf d addr Hd Hp Hpid Hm Hb env'. destruct (cmdStart_dir env args cfg fl rest Hs Hf) as (c & _ & Hr & _).
  fold d in Hr. unfold Cli.override in Hr. rewrite (proj2 (String.eqb_neq _ _) Hd) in Hr.
  assert (Hd' : Cli.resolveDataDir env' d = Ok (dir_of cfg)) by exact Hr.
  assert (Hb' : exists w1, boot_server pid cfg (World (db w1) []) = (Ok tt, w)).
  { pose proof (boot_sound keys cfg m) as Hsnd. unfold Daemon.boot, bind in Hb. unfold bind in Hsnd.
    destruct (boot_identity _ _ _ _ _ keys cfg (World m [])) as [[[]|e|] w0]; [|discriminate Hb..].
    destruct (boot_services _ _ cfg w0) as [[[]|e|] [m1 fs]]; [|discriminate Hb..]. simpl in Hsnd. subst fs.
    by exists (World m1 []). }
  destruct Hb' as [w1 Hb']. destruct (server_up pid cfg _ w Hb') as ((net & Hl & Ht) & Ha & Hq & Hdef & Hfs & Hne).
  set (target := if String.eqb net "unix" then _ else _) in *. exists net, target. split_and!; [done|done| | |].
  - unfold Cli.connect. rewrite Hd'. unfold Cli.resolveGRPCAddr. cbn [String.eqb negb Config.files env'].
    fold (addr_file (dir_of cfg)). rewrite Ha, TrimSpace_line, (proj2 (String.eqb_neq _ _) Hne) by done. exact Ht.
  - intros Hresp Hal. unfold cmdStop.
    assert (Ef : Flags.parse (Flags.of_list [("data-dir", Flags.StringF); ("grpc-addr", Flags.StringF)]) ["--data-dir"; d]
                 = Some ([("data-dir", d)], [])) by reflexivity.
    rewrite Ef. change (Flags.value "data-dir" "" [("data-dir", d)]) with d. rewrite Hd'.
    change (Flags.value "grpc-addr" "" [("data-dir", d)]) with "". unfold Cli.resolveGRPCAddr.
    cbn [String.eqb negb Config.files env']. fold (addr_file (dir_of cfg)).
    rewrite Ha, TrimSpace_line, (proj2 (String.eqb_neq _ _) Hne), Ht, Hresp by done. cbn [negb]. rewrite Hq. cbn [mbind option_bind].
    rewrite Sscanf_line, Hal, (proj2 (Z.ltb_lt _ _)) by lia. done.
  - assert (Er : files (db (snd (run keys pid cfg (World m [])))) =
      files (db (snd (for_each (DeferRemove (pid_file (dir_of cfg)) :: DeferRemove (addr_file (dir_of cfg)) :: deferred (db w1)) clean
        (World (note CancelContext (note GracefulStop (db w))) []))))).
    { unfold Daemon.run, with_defers. cbn [files trace db faults].
      replace (mkMachine (files m) (trace m) []) with m by (destruct m; simpl in *; by subst).
      unfold bind at 1. rewrite Hb. unfold bind at 1, act, modify. cbn [db faults deferred note]. rewrite Hdef, Hfs.
      by destruct (for_each _ clean _) as [r2 w2]. }
    rewrite Er. apply files_removed.
Qed.
End Found.

(** ** Joining the network *)

(** Without a configured peer that answers, the DHT is not bootstrapped: bootstrap
    succeeds only after a connection to one of the configured peers, and with none it
    fails without doing anything. *)
Theorem bootstrap_needs_peer {MA} (NewMultiaddr : string -> option MA) peer_of cfg w :
  let peers := Node.bootstrap_peers NewMultiaddr peer_of cfg in
  let '(r, w') := Node.bootstrap NewMultiaddr peer_of cfg w in
  (is_ok r = true -> exists p, p ∈ peers /\ Connect p ∈ trace (db w')) /\
  (peers = [] -> is_ok r = false /\ w' = w).
Proof.
  intros peers. unfold Node.bootstrap. fold peers.
  assert (Hc : forall ps k w, exists k' w', Node.connect_all ps k w = (Ok k', w') /\
    (k' <> k -> exists p, p ∈ ps /\ Connect p ∈ trace (db w')) /\ (forall e, e ∈ trace (db w) -> e ∈ trace (db w'))).
  { induction ps as [|p ps IH]; intros k v; [by exists k, v|]. cbn [Node.connect_all]. unfold catch, call, exec, stmt.
    destruct (faults v) as [|[] fs].
    - destruct (IH (k + 1) (World (note (Connect p) (db v)) [])) as (k' & v' & E & Hk & Ht). exists k', v'. rewrite E. split; [done|].
      split; [|intros e He; apply Ht, elem_of_cons; by right]. intros _. exists p. split; [by apply elem_of_cons; left|]. apply Ht, elem_of_cons. by left.
    - destruct (IH k (World (db v) fs)) as (k' & v' & E & Hk & Ht). exists k', v'. rewrite E. split; [done|]. split; [|exact Ht].
      intros Hne. destruct (Hk Hne) as (q & Hq & Hin). exists q. split; [by apply elem_of_cons; right|done].
    - destruct (IH (k + 1) (World (note (Connect p) (db v)) fs)) as (k' & v' & E & Hk & Ht). exists k', v'. rewrite E. split; [done|].
      split; [|intros e He; apply Ht, elem_of_cons; by right]. intros _. exists p. split; [by apply elem_of_cons; left|]. apply Ht, elem_of_cons. by left. }
  destruct (Hc peers 0 w) as (k & w1 & E & Hk & _). unfold bind. rewrite E.
  destruct (Z.eqb_spec k 0) as [->|Hne]; cbn [negb].
  - split; [done|]. intros Hp. split; [done|]. rewrite Hp in E. by injection E.
  - destruct (Hk Hne) as (p & Hp & Hin).
    assert (Hps : peers = [] -> False) by (intros Hp0; rewrite Hp0 in Hp; by apply elem_of_nil in Hp).
    unfold call, exec, stmt. destruct (faults w1) as [|[] fs]; cbn; (split; [|by intros ?%Hps]); try done;
      intros _; exists p; (split; [done|]); by apply elem_of_cons; right.
Qed.

(** ** Concrete runs *)

(** Keys as ed25519 lays them out: a seed and the public key after it. *)
#[local] Instance keyfile_crypto : Crypto := {|
  base58_Encode b := b;
  base58_Decode b := Some b;
  ed25519_check pk msg sig := String.eqb sig pk;
  ed25519_sign sk msg := drop_str 32 sk;
  ed25519_public sk := drop_str 32 sk;
  Sum256 b := b |}.
#[local] Instance keyfile_laws : CryptoLaws.
Proof. split; [done| | |done]; intros sk msg Hs; simpl in *; [by rewrite String.eqb_refl|by intros E; rewrite E in Hs]. Qed.

Definition other_key : string := "abcdefghijklmnopqrstuvwxyz012345".
Definition keys_of (k : string) : option (string * string) := Some (k, k ++ k).
Definition plain_json (did key : string) : option string := Some key.
Definition here_env : Config.Env := Config.mkEnv (Some "/home/u") (Some "/") (fun _ => false) ∅ (fun _ _ => None).
Definition here_cfg : Config.Config :=
  match Cli.cmdStart here_env ["--data-dir"; "/d"] with Ok c => c | _ => Config.Defaults end.
Definition fresh : Machine := mkMachine ∅ [] [].
Notation toy_run := (Daemon.run (fun s => Some s) (fun _ => None) (fun _ => true) plain_json Some "12D3" []).
Notation toy_boot := (boot (fun s => Some s) (fun _ => None) (fun _ => true) plain_json Some "12D3" []).

Lemma genuine_keys k : slen k = 32 -> genuine (keys_of k).
Proof.
  intros Hk pub priv [= <- <-]. assert (Hn : String.length k = 32%nat) by (unfold slen in Hk; lia).
  split; [|split; [done|by exists k]]. change (k = drop_str 32 (k ++ k)). rewrite <- Hn. by rewrite drop_str_app.
Qed.


(** The first run cannot open its stores, the second, which would generate another key,
    works. *)
Definition two_lives : list life := [mkLife (keys_of toy_key) 7 here_cfg; mkLife (keys_of other_key) 8 here_cfg].
Lemma daemon_identity_stable_witness :
  let m := db (lives (fun s => Some s) (fun _ => None) (fun _ => true) plain_json Some "12D3" [] two_lives
                 (World fresh (repeat false 9 ++ [true])%list)) in
  length (List.filter is_host (trace m)) = 2%nat /\
  exists did, forall d addrs, OpenHost d addrs ∈ trace m -> d = did /\
    on_disk (fun _ => true) Some (identity_path "/d") did m.
Proof.
  split; [vm_compute; reflexivity|].
  apply (daemon_identity_stable (fun s => Some s) (fun _ => None) (fun _ => true) plain_json Some
    ltac:(unfold plain_json; congruence) "12D3" []); [reflexivity|].
  apply Forall_cons; split; [|apply Forall_cons; split; [|by apply Forall_nil]];
    (split_and!; [by apply genuine_keys | vm_compute; reflexivity | vm_compute; discriminate]).
Defined.

Definition here_up : world Machine := snd (toy_boot (keys_of toy_key) 4242 here_cfg (World fresh [])).

Lemma daemon_found_witness :
  let env' := Config.mkEnv (Some "/home/u") (Some "/") (fun _ => false) (files (db here_up)) (fun _ _ => None) in
  Cli.connect env' "/d" "" = Ok "unix:/d/a2a.sock" /\
  cmdStop env' (fun _ => true) (fun _ => true) ["--data-dir"; "/d"] = Ok ("unix:/d/a2a.sock", Some 4242).
Proof.
  assert (Hb : toy_boot (keys_of toy_key) 4242 here_cfg (World fresh []) = (Ok tt, here_up)).
  { unfold here_up. vm_compute. reflexivity. }
  destruct (daemon_found (fun s => Some s) (fun _ => None) (fun _ => true) plain_json Some "12D3" [] here_env ["--data-dir"; "/d"]
    here_cfg [("data-dir", "/d")] [] (keys_of toy_key) 4242 fresh here_up (fun _ => true) (fun _ => true))
    as (net & target & _ & Ht & Hc & Hs & _).
  - vm_compute. reflexivity.
  - reflexivity.
  - discriminate.
  - vm_compute. reflexivity.
  - lia.
  - reflexivity.
  - exact Hb.
  - assert (Et : Ok target = Ok "unix:/d/a2a.sock").
    { rewrite <- Hc. vm_compute. reflexivity. }
    injection Et as ->. split; [exact Hc|by apply Hs].
Defined.

(** [stop --grpc-addr] of one daemon ends another: the address is asked, but the process
    is the one of the default data directory. *)
Lemma stop_signals_other :
  let env := Config.mkEnv (Some "/home/u") (Some "/") (fun _ => false) {["/home/u/.moltmesh/daemon.pid" := "17" ++ Format.newline]}
               (fun _ _ => None) in
  cmdStop env (fun _ => true) (fun _ => true) ["--grpc-addr"; "10.0.0.5:21500"] = Ok ("10.0.0.5:21500", Some 17).
Proof. vm_compute. reflexivity. Qed.

(** [format bytes] and [stop] read a number and ignore what follows it. *)
Lemma Sscanf_trailing : map Sscanf_d ["12abc"; "1e9"; " 7"; "x"; "-3 4"; "9223372036854775808"] =
  [Some 12; Some 1; Some 7; None; Some (-3); None].
Proof. vm_compute. reflexivity. Qed.

(** An identity file that was cut short by a crash stops every later start. *)
Lemma identity_torn : exists w,
  w = snd (toy_boot (keys_of toy_key) 1 here_cfg (World fresh [false; false; true])) /\
  files (db w) !! identity_path "/d" = Some "" /\
  is_ok (fst (boot (fun s => Some s) (fun _ => None) (fun k => negb (String.eqb k "")) plain_json Some "12D3" []
    (keys_of toy_key) 1 here_cfg (World (db w) []))) = false.
Proof. eexists. split; [reflexivity|]. split; vm_compute; reflexivity. Qed.
