(* ===== verification/CliOutputs.v ===== *)
(** * What the commands leave ([cmd/moltmesh])

    The lines commands print of an answer and the files they write: message and card
    lists, [fetch-file], diagnostics, [format], [completion], and [init], which creates
    an identity and a configuration.  With --json the answers are printed as JSON
    instead; that form is not modelled. *)

From stdpp Require Import base gmap strings list pretty.
From Stdlib Require Import ZArith Lia Ascii.
From S2P Require Import Prelude GoStd Identity Instances Tasks Mail Chain Records Publisher Rpc RpcExt RpcExtFacts RpcDiag Format Cli Daemon DaemonFacts.
From S2P Require Import CliCommands.

Import Identity Tasks Config.

Local Open Scope string_scope.
Local Open Scope Z_scope.

Module Outputs.

(** ** Streams *)

(** What a client receives: the items, and the error that ended the stream unless it
    ended with EOF. *)
Record received (A : Type) : Type := mkReceived { items : list A; failure : option error }.
Arguments mkReceived {A} items failure.
Arguments items {A} r.
Arguments failure {A} r.

(** The loop that prints each item and counts them: the lines printed, and the result. *)
Definition print_items {A} (line : A -> string) (empty : string) (s : received A) : list string * outcome unit :=
  match failure s with
  | Some e => (line <$> items s, Err e)
  | None => (match items s with [] => [empty] | l => line <$> l end, Ok tt)
  end.

Definition printMessage (now : Z) (m : Message) : string := Format.Message now m.
Definition print_inbox (now : Z) : received Message -> list string * outcome unit :=
  print_items (printMessage now) "Inbox empty.".
Definition print_outbox (now : Z) : received Message -> list string * outcome unit :=
  print_items (printMessage now) "Outbox empty.".
(** [json]: [MarshalIndent] of the item. *)
Definition print_agents (json : AgentCard -> string) := print_items json "No agents found.".
Definition print_entries {A} (json : A -> string) := print_items json "No entries.".

(** *** Payloads *)

Section Payload.
Context `{TaskCodec} (unmarshal_event : string -> option TaskEvent).
(** The text message a payload holds, as JSON and as protobuf. *)
Context {T : Type} (json_text proto_text : string -> option T).

Inductive decoded : Type := DText (t : T) | DRequest (r : TaskRequest) | DResult (r : TaskResult) | DEvent (e : TaskEvent).

Definition decodePayload (m : Message) : option decoded :=
  if slen (m_Payload m) =? 0 then None else
  match m_Kind m with
  | KIND_TEXT => match json_text (m_Payload m) with Some t => Some (DText t) | None => DText <$> proto_text (m_Payload m) end
  | KIND_TASK_REQUEST => DRequest <$> unmarshal_request (m_Payload m)
  | KIND_TASK_RESULT => DResult <$> unmarshal_result (m_Payload m)
  | KIND_TASK_EVENT => DEvent <$> unmarshal_event (m_Payload m)
  | _ => None
  end.
End Payload.

(** *** [fetch-file] *)

(** The file is created before the first chunk is received; without --out the data goes
    to the standard output.  [creatable]: whether the path can be created. *)
Record fetched : Type := mkFetched { fs : gmap string string; stdout : string; saved : option Z }.
Definition save_file (creatable : bool) (out : string) (s : received FileChunk) (fs0 : gmap string string) : fetched * outcome unit :=
  let data := concat_str (k_Data <$> items s) in
  let total := default 0 (k_Total <$> last (items s)) in
  if String.eqb out "" then
    (mkFetched fs0 data None, match failure s with Some e => Err e | None => Ok tt end)
  else if negb creatable then (mkFetched fs0 "" None, Err (Errorf "create output file"))
  else match failure s with
       | Some e => (mkFetched (<[out := data]> fs0) "" None, Err e)
       | None => (mkFetched (<[out := data]> fs0) "" (Some total), Ok tt)
       end.

(** ** Diagnostics *)

Definition print_ping (r : RpcDiag.PingResult) : string :=
  if RpcDiag.pg_Reachable r
  then "pong from " ++ RpcDiag.pg_TargetDid r ++ "  latency=" ++ pretty (RpcDiag.pg_LatencyMs r) ++ "ms"
  else "unreachable " ++ RpcDiag.pg_TargetDid r ++ "  error=" ++ RpcDiag.pg_Error r.
Definition print_health (r : RpcDiag.HealthResponse) : list string :=
  ["status:     " ++ (if RpcDiag.hr_Ok r then "ok" else "degraded");
   "version:    " ++ RpcDiag.hr_Version r; "did:        " ++ RpcDiag.hr_Did r;
   "peers:      " ++ pretty (RpcDiag.hr_PeerCount r); "uptime:     " ++ Format.Uptime (RpcDiag.hr_UptimeSecs r)].
Definition print_peers (count : Z) (peers : list RpcDiag.PeerInfo) : list string :=
  if count =? 0 then ["No connected peers."] else
  (pretty count ++ " connected peers:") ::
  concat ((fun p => ("  " ++ RpcDiag.pi_PeerId p) :: ((fun a => "    " ++ Format.Multiaddr a) <$> RpcDiag.pi_Addrs p)) <$> peers).
Definition print_status (id : KeyFile.AgentIdentity) : list string :=
  app ["status:     running"; "did:        " ++ KeyFile.ai_Did id; "addresses:  " ++ pretty (llen (KeyFile.ai_Multiaddrs id))]
    ((fun a => "  " ++ Format.Multiaddr a) <$> KeyFile.ai_Multiaddrs id).

(** ** [format] *)

(** One value: its lines, or the error that ends the command after what was printed. *)
Definition format_value (now : Z) (several : bool) (typ v : string) : option (outcome (list string)) :=
  let blank := if several then [""] else [] in
  let status b := "status:  " ++ (if b : bool then "valid" else "INVALID") in
  let arrow a b := a ++ "  " ++ Format.arrow ++ "  " ++ b in
  let number (k : Z -> list string) what :=
    match Daemon.Sscanf_d v with Some n => Ok (k n) | None => Err (Errorf ("format " ++ what ++ ": not an integer")) end in
  if bool_decide (typ = "did") then
    Some (Ok (app ["input:   " ++ v; "short:   " ++ Format.DID v; "method:  " ++ Cli.didMethod v; status (Cli.isDIDValid v)] blank))
  else if bool_decide (typ ∈ ["capability"; "cap"]) then
    Some (match Format.Capability v with
          | Ok short => Ok (app ["input:   " ++ v; "short:   " ++ short; status (Cli.isCapValid v)] blank)
          | Err e => Err e
          | Panic => Panic
          end)
  else if bool_decide (typ ∈ ["multiaddr"; "addr"]) then Some (Ok [arrow v (Format.Multiaddr v)])
  else if bool_decide (typ = "bytes") then Some (number (fun n => [arrow (pretty n) (Format.Bytes n)]) "bytes")
  else if bool_decide (typ ∈ ["time"; "ts"]) then
    Some (number (fun ms => [Format.UnixMs ms ++ "  (" ++ Format.UnixMsAgo now ms ++ ")"]) "time")
  else None.
Fixpoint format_values (now : Z) (several : bool) (typ : string) (vals : list string) : list string * outcome unit :=
  match vals with
  | [] => ([], Ok tt)
  | v :: rest =>
      match format_value now several typ v with
      | None => ([], Err (Errorf "unknown format type"))
      | Some (Ok l) => let '(l', r) := format_values now several typ rest in ((l ++ l')%list, r)
      | Some (Err e) => ([], Err e)
      | Some Panic => ([], Panic)
      end
  end.
Definition cmdFormat (now : Z) (args : list string) : list string * outcome unit :=
  match args with
  | [] => ([], Ok tt)
  | [_] => ([], Err (Errorf "format: no value provided"))
  | typ :: vals => format_values now (1 <? llen vals) typ vals
  end.

(** ** [completion] *)

Definition allCommands : list string := Cli.cliCommands.
(** The commands the zsh script lists. *)
Definition zshCommands : list string :=
  ["start"; "init"; "stop"; "status"; "info"; "tui"; "version"; "help"; "identity"; "config"; "get-identity";
   "get-agent-card"; "publish-agent-card"; "find-agents"; "send-message"; "get-inbox"; "get-outbox"; "subscribe-inbox";
   "ack-message"; "create-task"; "send-task-result"; "get-task"; "update-task"; "cancel-task"; "publish-task-event";
   "subscribe-task-events"; "send-file"; "fetch-file"; "create-thread"; "get-thread"; "append-entry";
   "get-thread-entries"; "subscribe-thread"; "add-thread-replica"; "recover-thread"; "ping"; "health"; "peers";
   "publish"; "subscribe-topic"; "set-webhook"; "clear-webhook"; "get-webhook"; "network"; "name"; "format"; "completion"].
(** The shell whose script is printed, and the commands that script offers. *)
Definition cmdCompletion (args : list string) : outcome (string * list string) :=
  let shell := default "bash" (head args) in
  if bool_decide (shell ∈ ["bash"; "fish"]) then Ok (shell, allCommands)
  else if String.eqb shell "zsh" then Ok (shell, zshCommands)
  else Err (Errorf "unknown shell").

End Outputs.

(** ** [init] *)

Module Init.
Import Outputs.

(** [strconv.Quote] (verb q): [IsPrint] above ASCII is a table of the Standard Library;
    an invalid byte decodes to [RuneError] with its own escape. *)
Section Quote.
Context (IsPrint : Z -> bool).

Definition hex2 (n : Z) : string := String (hex_digit (n / 16)) (String (hex_digit (n mod 16)) "").
Definition hex4 (n : Z) : string := hex2 (n / 256) ++ hex2 (n mod 256).
Definition quote_rune (r : Z) : string :=
  if r =? 34 then "\" ++ byte_str 34
  else if r =? 92 then "\\"
  else if (if r <? 128 then between 32 r 126 else IsPrint r) then encode_rune r
  else match r with
       | 7 => "\a" | 8 => "\b" | 12 => "\f" | 10 => "\n" | 13 => "\r" | 9 => "\t" | 11 => "\v"
       | _ => if (r <? 32) || (r =? 127) then "\x" ++ hex2 r
              else if r <? 65536 then "\u" ++ hex4 r else "\U" ++ hex4 (r / 65536) ++ hex4 (r mod 65536)
       end.
(** The bytes of a rune, and the rune; [None] for an invalid byte. *)
Definition rune_width (s : string) : nat :=
  match runes s with r :: _ => if r =? RuneError then if HasPrefix s (encode_rune RuneError) then 3%nat else O else String.length (encode_rune r) | [] => O end.
Fixpoint quote_from (n : nat) (s : string) : string :=
  match n, s with
  | O, _ | _, "" => ""
  | S n', String c rest =>
      match rune_width s with
      | O => "\x" ++ hex2 (byte_of c) ++ quote_from n' rest
      | w => quote_rune (default RuneError (head (runes s))) ++ quote_from n' (drop_str w s)
      end
  end.
Definition Quote (s : string) : string := byte_str 34 ++ quote_from (String.length s) s ++ byte_str 34.
Definition quotedCSV (l : list string) : string := Join (Quote <$> l) ", ".
End Quote.

Section Init.
Context `{Crypto} (IsPrint : Z -> bool).
Context (wrap : string -> bool) (json : string -> string -> option string) (un_json : string -> option string).

Record Options : Type := mkOptions {
  i_Name : string; i_Description : string; i_Capabilities : list string; i_Port : string; i_GRPCAddr : string }.

(** The lines of the configuration that set something. *)
Definition config_lines (dir : string) (o : Options) : list string :=
  let q := Quote IsPrint in
  ["[agent]"; "name = " ++ q (i_Name o); "description = " ++ q (i_Description o);
   "capabilities = [" ++ quotedCSV IsPrint (i_Capabilities o) ++ "]";
   "[network]"; "port = " ++ q (i_Port o); "[daemon]"; "data_dir = " ++ q dir; "grpc_addr = " ++ q (i_GRPCAddr o)].
(** [comments] puts the comments between the lines. *)
Context (comments : KeyFile.Identity -> string -> list string -> string).

Definition init_flags : string -> option Flags.kind :=
  Flags.of_list [("data-dir", Flags.StringF); ("name", Flags.StringF); ("description", Flags.StringF);
    ("capabilities", Flags.StringF); ("port", Flags.StringF); ("grpc-addr", Flags.StringF); ("config", Flags.StringF);
    ("force", Flags.BoolF)].

Record Report : Type := mkReport {
  r_Dir : string; r_Did : string; r_Options : Options; r_IdentityCreated : bool; r_Config : string; r_ConfigCreated : bool }.

(** Whether [os.Stat] succeeds; it may also fail on a file that is there. *)
Definition stat_ok (path : string) : M Machine bool :=
  catch (query (fun m => Ok (bool_decide (is_Some (Daemon.files m !! path)))))
    (fun r => match r with Ok b => ret b | _ => ret false end).

(** The capabilities as the flag gives them. *)
Definition capList (s : string) : list string := Cli.comma_list s.

Definition defaults (did : string) (name description : string) (caps : list string) (port grpc : string) : Options :=
  mkOptions (if String.eqb name "" then Cli.defaultAgentName did else name)
    (if String.eqb description "" then "MoltMesh agent" else description)
    (match caps with [] => ["a2a:v1:cap:task-orchestration"] | _ => caps end) port grpc.

(** The identity that is there, unless a new one is forced, and whether it is new. *)
Definition init_identity (keys : option (string * string)) (force : bool) (idPath : string)
    : M Machine (KeyFile.Identity * bool) :=
  let! found := stat_ok idPath in
  let keep := found && negb force in
  let! id := (if keep then Daemon.read_identity wrap un_json idPath else Daemon.new_identity wrap json keys idPath) in
  ret (id, negb keep).
(** Writes the configuration unless it is there; whether it was written. *)
Definition init_config (force : bool) (cfgPath data : string) : M Machine bool :=
  let! present := stat_ok cfgPath in
  if negb present || force then do! write cfgPath data in ret true else ret false.

Definition cmdInit (env : Env) (keys : option (string * string)) (args : list string) : M Machine Report :=
  match Flags.parse init_flags args with
  | None => throw (Errorf "exit status 2")
  | Some (fl, _) =>
      let v n := Flags.value n "" fl in
      let force := Flags.bool_value "force" fl in
      let! dir := lift (Cli.resolveDataDir env (v "data-dir")) in
      do! call (MakeDir dir) in
      let idPath := Daemon.identity_path dir in
      let! i := init_identity keys force idPath in
      let o := defaults (KeyFile.DID (fst i)) (v "name") (v "description") (capList (v "capabilities"))
                 (Flags.value "port" "0" fl) (v "grpc-addr") in
      let cfgPath := if String.eqb (v "config") "" then path_Join [dir; "moltbook.toml"] else v "config" in
      let! c := init_config force cfgPath (comments (fst i) idPath (config_lines dir o)) in
      ret (mkReport dir (KeyFile.DID (fst i)) o (snd i) cfgPath c)
  end.

End Init.
End Init.

(** ** Commands that do not ask the daemon *)

Module Local.

(** The data directory of the one flag they have. *)
Definition data_dir (env : Env) (args : list string) : outcome string :=
  match Flags.parse (Flags.of_list [("data-dir", Flags.StringF)]) args with
  | None => Err (Errorf "exit status 2")
  | Some (fl, _) => Cli.resolveDataDir env (Flags.value "data-dir" "" fl)
  end.

(** A missing file is told apart from one that does not load. *)
Definition cmdIdentity `{Crypto} (wrap : string -> bool) (un_json : string -> option string) (env : Env) (args : list string)
    : outcome string :=
  match data_dir env args with
  | Ok dir =>
      let file := files env !! Daemon.identity_path dir in
      match KeyFile.LoadKey wrap un_json file with
      | Ok id => Ok ("DID: " ++ KeyFile.DID id)
      | Err _ => Err (Errorf (match file with None => "identity not found; run 'moltmesh start' first" | Some _ => "load identity" end))
      | Panic => Panic
      end
  | Err e => Err e
  | Panic => Panic
  end.

(** The paths [config] prints, by their keys. *)
Definition cmdConfig (env : Env) (args : list string) : outcome (list (string * string)) :=
  match data_dir env args with
  | Ok dir =>
      let p f := path_Join [dir; f] in
      Ok [("data_dir", dir); ("identity", p "identity.json"); ("grpc_sock", p "a2a.sock");
          ("inbox", p "inbox.db"); ("tasks", p "tasks.db"); ("threads", p "threads.db")]
  | Err e => Err e
  | Panic => Panic
  end.
End Local.

(** ** Properties *)

Module CliOutputsFacts.
Import Outputs Init Commands.

(** What [fetch-file] writes is what the daemon holds: when the block store of the daemon
    has the block of a content identifier, [fetch-file --out] of that identifier ends with
    the block's bytes in the file, whatever the file held before, and reports their
    number. *)
Theorem fetched_file_saved `{Crypto} `{Codec} `{RecordCodec} `{ArchiveCodec} decode fetch cid c data n fs0 out :
  cid <> "" -> decode cid = Some c -> bstore n !! c = Some data -> out <> "" ->
  exists cs, RpcFiles.FetchFile true decode fetch (fun _ => true) cid (World n []) = (Ok (cs, true), World n []) /\
    save_file true out (mkReceived cs None) fs0 = (mkFetched (<[out := data]> fs0) "" (Some (slen data)), Ok tt).
Proof.
  intros Hcid Hdec Hb Hout. exists (RpcFiles.chunks (RpcFiles.chunk_count data) data 0 (slen data)). split.
  - unfold RpcFiles.FetchFile. rewrite (proj2 (String.eqb_neq _ _) Hcid), Hdec. simpl. unfold bind, catch, query, stmt. simpl.
    rewrite Hb. simpl. by rewrite stream_all_ok by (by apply Forall_true).
  - destruct (chunks_spec (RpcFiles.chunk_count data) data 0 (slen data)) as (Hc & Hf & _);
      [lia|left; lia|pose proof (chunk_count_enough data); lia|].
    unfold save_file. cbn [items failure]. rewrite Hc, (proj2 (String.eqb_neq _ _) Hout). cbn [negb]. do 3 f_equal.
    destruct (last _) as [k|] eqn:El; simpl.
    + f_equal. apply last_Some in El as [l El]. rewrite El, Forall_app in Hf. destruct Hf as [_ Hf]. by inversion_clear Hf as [|?? [_ ?]].
    + apply last_None in El. rewrite El in Hc. simpl in Hc. by subst data.
Qed.

(** A fetch that fails has already emptied the file that was there. *)
Lemma failed_fetch_truncates :
  fs (fst (save_file true "notes.txt" (mkReceived [] (Some (Errorf "not found"))) {["notes.txt" := "draft"]})) =
    {["notes.txt" := ""]}.
Proof. vm_compute. reflexivity. Qed.

(** *** [init] *)

Section InitFacts.
Context `{CryptoLaws} (IsPrint : Z -> bool).
Context (wrap : string -> bool) (json : string -> string -> option string) (un_json : string -> option string).
Hypothesis json_roundtrip : forall did key d, json did key = Some d -> un_json d = Some key.
Context (comments : KeyFile.Identity -> string -> list string -> string).
Notation cmdInit := (cmdInit IsPrint wrap json un_json comments).

Definition holds (s : Machine) (path : string) : bool := bool_decide (is_Some (Daemon.files s !! path)).
Lemma stat_ok_run path s : stat_ok path (World s []) = (Ok (holds s path), World s []).
Proof. done. Qed.

Definition put (path data : string) (s : Machine) : Machine := set_files <[path := data]> (set_files <[path := ""]> s).
Lemma put_holds path data s p : Daemon.files (put path data s) !! p = if String.eqb p path then Some data else Daemon.files s !! p.
Proof.
  unfold put. simpl. destruct (String.eqb_spec p path) as [->|Hne]; [by rewrite lookup_insert_eq|]. by rewrite !lookup_insert_ne.
Qed.

(** The file holds an identity. *)
Definition loads (path : string) (id : KeyFile.Identity) (s : Machine) : Prop :=
  exists data, Daemon.files s !! path = Some data /\ KeyFile.LoadKey wrap un_json (Some data) = Ok id.

Lemma init_identity_ok keys path s i w : genuine keys ->
  init_identity wrap json un_json keys false path (World s []) = (Ok i, w) ->
  exists s', w = World s' [] /\ loads path (fst i) s' /\ forall p, p <> path -> Daemon.files s' !! p = Daemon.files s !! p.
Proof.
  intros Hk. unfold init_identity, bind at 1. rewrite stat_ok_run. rewrite andb_true_r. destruct (holds s path).
  - unfold Daemon.read_identity, bind, query, stmt, lift, ret. cbn [faults db].
    destruct (KeyFile.LoadKey wrap un_json (Daemon.files s !! path)) as [id|e|] eqn:El; [|discriminate..].
    intros [= <- <-]. exists s. split_and!; [done| |done]. destruct (Daemon.files s !! path) as [data|] eqn:Ef; [|discriminate El].
    by exists data.
  - unfold Daemon.new_identity, bind at 1 2, lift.
    destruct (KeyFile.Generate wrap keys) as [id|e|] eqn:Eg; [|discriminate..].
    destruct (KeyFile.Save json id) as [data|] eqn:Es; [|discriminate]. intros [= <- <-].
    destruct keys as [[pub priv]|]; [|discriminate Eg]. destruct (Hk pub priv eq_refl) as (-> & Hl & seed & Hs & Hn).
    destruct (identity_file_roundtrip wrap seed priv json un_json id data "" json_roundtrip Hs Hn Hl Eg Es) as [Hload _].
    exists (put path data s). split; [done|]. split.
    + exists data. rewrite put_holds, String.eqb_refl. done.
    + intros p Hne. by rewrite put_holds, (proj2 (String.eqb_neq _ _) Hne).
Qed.

Lemma init_identity_again keys path id s : loads path id s ->
  init_identity wrap json un_json keys false path (World s []) = (Ok (id, false), World s []).
Proof.
  intros (data & Hf & Hl). unfold init_identity, bind at 1. rewrite stat_ok_run. unfold holds. rewrite Hf. cbn [negb andb].
  rewrite bool_decide_true by done. unfold Daemon.read_identity, bind, query, stmt, lift, ret. cbn [faults db andb]. by rewrite Hf, Hl.
Qed.

Lemma load_identity_again keys path id s : loads path id s ->
  Daemon.load_identity wrap json un_json keys path (World s []) = (Ok id, World s []).
Proof.
  intros (data & Hf & Hl). unfold Daemon.load_identity, Daemon.read_identity, catch, bind, query, stmt, lift. cbn [faults db].
  rewrite Hf. cbv beta iota. cbn [faults db]. by rewrite Hf, Hl.
Qed.

Lemma init_config_ok path data s :
  exists b s', init_config false path data (World s []) = (Ok b, World s' []) /\ is_Some (Daemon.files s' !! path) /\
    forall p, p <> path -> Daemon.files s' !! p = Daemon.files s !! p.
Proof.
  unfold init_config, bind at 1. rewrite stat_ok_run, orb_false_r. unfold holds. destruct (decide (is_Some (Daemon.files s !! path))) as [Hp|Hp].
  - rewrite bool_decide_true by done. by exists false, s.
  - rewrite bool_decide_false by done. exists true, (put path data s). split; [done|]. split.
    + rewrite put_holds, String.eqb_refl. by eexists.
    + intros p Hne. by rewrite put_holds, (proj2 (String.eqb_neq _ _) Hne).
Qed.

Lemma init_config_again path data s : is_Some (Daemon.files s !! path) ->
  init_config false path data (World s []) = (Ok false, World s []).
Proof. intros Hp. unfold init_config, bind at 1. rewrite stat_ok_run. unfold holds. by rewrite bool_decide_true. Qed.

(** [init] is safe to run again: after an [init] that succeeded, the same command without
    --force, with whatever key it would generate, succeeds, changes no file, and reports
    the same identity, configuration file and settings, as already there; and a daemon
    started on that directory has this identity. *)
Theorem init_idempotent env keys keys' args fl rest r s w :
  Flags.parse init_flags args = Some (fl, rest) -> Flags.bool_value "force" fl = false -> genuine keys ->
  cmdInit env keys args (World s []) = (Ok r, w) -> r_Config r <> Daemon.identity_path (r_Dir r) ->
  exists w', cmdInit env keys' args (World (db w) []) =
      (Ok (mkReport (r_Dir r) (r_Did r) (r_Options r) false (r_Config r) false), w') /\
    Daemon.files (db w') = Daemon.files (db w) /\
    exists id, Daemon.load_identity wrap json un_json keys' (Daemon.identity_path (r_Dir r)) (World (db w) []) =
      (Ok id, World (db w) []) /\ KeyFile.DID id = r_Did r.
Proof.
  intros Hf Hfo Hk E Hne. unfold Init.cmdInit in *. rewrite Hf, Hfo in *. cbv zeta in *. unfold bind, call, exec, stmt, lift in *.
  destruct (Cli.resolveDataDir env _) as [dir|e|]; [|discriminate E..]. cbn [faults db] in *.
  destruct (init_identity _ _ _ keys false _ _) as [[i|e|] w1] eqn:E1; [|discriminate E..].
  destruct (init_identity_ok _ _ _ _ _ Hk E1) as (s1 & -> & Hl & _). clear E1.
  set (path := if String.eqb _ "" then _ else _) in *.
  match type of E with context [init_config false path ?text _] => set (data := text) in * end.
  destruct (init_config_ok path data s1) as (b & s2 & E2 & Hp & Ho). rewrite E2 in E. unfold ret in E. injection E as <- <-.
  cbn [r_Config r_Dir r_Did r_Options db] in *.
  assert (Hl2 : loads (Daemon.identity_path dir) (fst i) s2).
  { destruct Hl as (d & Hd & Hld). exists d. split; [|done]. by rewrite Ho. }
  rewrite (init_identity_again keys' _ (fst i) (note (MakeDir dir) s2)) by exact Hl2. cbn [fst snd].
  rewrite init_config_again by done. eexists. split; [reflexivity|]. split; [done|]. exists (fst i). split; [|done].
  by apply load_identity_again.
Qed.
End InitFacts.

#[local] Existing Instance keyfile_crypto.
#[local] Existing Instance keyfile_laws.
Definition toy_comments (id : KeyFile.Identity) (path : string) (lines : list string) : string := Join lines Format.newline.
Notation toy_init := (Init.cmdInit (fun _ => true) (fun _ => true) plain_json Some toy_comments here_env).
Definition init_args : list string := ["--data-dir"; "/d"; "--name"; "Alice"].
Definition inited : world Machine := snd (toy_init (keys_of toy_key) init_args (World fresh [])).

Lemma init_idempotent_witness :
  exists r w', fst (toy_init (keys_of toy_key) init_args (World fresh [])) = Ok r /\ r_IdentityCreated r = true /\
    toy_init (keys_of other_key) init_args (World (db inited) []) =
      (Ok (mkReport "/d" (r_Did r) (r_Options r) false "/d/moltbook.toml" false), w') /\
    Daemon.files (db w') = Daemon.files (db inited).
Proof.
  destruct (toy_init (keys_of toy_key) init_args (World fresh [])) as [r w] eqn:E.
  assert (Er : exists x, r = Ok x /\ r_IdentityCreated x = true /\ r_Dir x = "/d" /\ r_Config x = "/d/moltbook.toml").
  { assert (Hr : r = fst (toy_init (keys_of toy_key) init_args (World fresh []))) by (by rewrite E).
    rewrite Hr. eexists. split; [vm_compute; reflexivity|]. by vm_compute. }
  destruct Er as (x & -> & Hc & Hd & Hp).
  destruct (init_idempotent (fun _ => true) (fun _ => true) plain_json Some ltac:(unfold plain_json; congruence) toy_comments
    here_env (keys_of toy_key) (keys_of other_key) init_args [("data-dir", "/d"); ("name", "Alice")] [] x fresh w)
    as (w' & E2 & Hfiles & _).
  - reflexivity.
  - reflexivity.
  - by apply genuine_keys.
  - exact E.
  - rewrite Hp, Hd. vm_compute. discriminate.
  - exists x, w'. split; [done|]. split; [done|]. rewrite Hd, Hp in E2.
    assert (Ew : w = inited) by (unfold inited; by rewrite E). rewrite <- Ew. by split.
Defined.

(** What [init] writes for a control character in a name is no TOML escape. *)
Lemma config_control_escape :
  Quote (fun _ => true) (String "007" (String "200" "x")) = byte_str 34 ++ "\a\xc8x" ++ byte_str 34.
Proof. vm_compute. reflexivity. Qed.

(** *** Commands that do not look at their flags *)

Definition far : Env :=
  mkEnv (Some "/home/u") (Some "/") (fun _ => false) {["/d/grpc-addr" := "10.0.0.5:21500" ++ Format.newline]} (fun _ _ => None).

(** A client command follows --data-dir to the daemon there; [network] takes the flag for
    the name of the network and goes to the default daemon. *)
Lemma network_ignores_flags :
  cmdHealth far ["--data-dir"; "/d"] = Ok ("10.0.0.5:21500", Health) /\
  cmdNetworkJoin far ["--data-dir"; "/d"; "net-1"] = Ok ("unix:/home/u/.moltmesh/a2a.sock", JoinNetwork "--data-dir") /\
  is_ok (cmdPublish far ["--topic"; "t"; "--data-dir"; "/d"]) = false.
Proof. vm_compute. by split_and!. Qed.

(** The secret is lost when it is given where the usage line puts it. *)
Lemma webhook_secret_dropped :
  cmdSetWebhook far ["https://example.com"; "--secret"; "s"] =
    Ok ("unix:/home/u/.moltmesh/a2a.sock", SetWebhook "https://example.com" "").
Proof. vm_compute. reflexivity. Qed.

(** The zsh script does not offer every command. *)
Lemma zsh_misses :
  List.filter (fun c => negb (bool_decide (c ∈ zshCommands))) allCommands = ["promote-thread-member"] /\
  List.filter (fun c => negb (bool_decide (c ∈ allCommands))) zshCommands = [].
Proof. vm_compute. by split. Qed.

(** A number with something after it is taken for the number. *)
Lemma format_prefix : cmdFormat 0 ["bytes"; "2048x"] = (["2048  " ++ Format.arrow ++ "  2.0 KB"], Ok tt).
Proof. vm_compute. reflexivity. Qed.
End CliOutputsFacts.
